(* ===== verification/_CoqProject ===== *)
-Q . S2P
Prelude.v
DnsName.v
DnsData.v
NodeIdent.v
LeaseStore.v
LeaseTree.v
LeaseInv.v
LeaseSpec.v
LeaseOption.v
LeasePolicy.v
NodeLocks.v
WireLabel.v
UpdateCore.v
HandlerBase.v
Expiry.v
UpdateHandler.v
UpdateFootprint.v
UpdateTheorems.v
DnsSd.v
SrpClassify.v
SrpValidate.v
SrpHandler.v
SrpEffects.v
SrpTheorems.v
GoQuote.v
AtomicFile.v
LeaseSnapshot.v
Inflight.v
Router.v
SrpComplete.v
SrpRequest.v
SrpDiscovery.v
SrpTiming.v
SrpClient.v
Sig0Signer.v
SrpEndToEnd.v
KeyFiles.v
GoStd.v
HandlerSetup.v
Forward.v
ProxyConfig.v
ProxyMain.v
LeaseClient.v
NetAddr.v
SrpCli.v
ProxyRun.v
LeaseDump.v
DumpMode.v
ServerLife.v
Logging.v
ChangeLog.v
