(* ===== verification/Prelude.v ===== *)
(** * sig0lease: a verified model of the lease proxy

    sig0lease is a DNS UPDATE proxy: it accepts SIG(0)-signed UPDATEs that carry an Update
    Lease option (RFC 9664) or are SRP updates (RFC 9665), keeps the leases it granted in a
    tree of KEY nodes and non-KEY records, forwards every change in its own signed UPDATE to
    the authoritative server, and deletes a registration when its lease ends.  This library
    models the parts of src/ that decide who may change what, and when, and proves that they
    do so correctly.

    ** Parts and files

    - DnsName (pkg/dnsname/dnsname.go, labels.go): ASCII folding, normalization, "at or
      below", labels.  WireLabel (wire.go): the search of a message in wire form for labels
      that hold a dot.
    - DnsData: records, messages and EDNS(0) options as data.  The DNS library itself is the
      parameter [DnsLib] with its documented laws [DnsLibLaws]; [Demo] is an instance that
      evaluates.
    - NodeIdent (pkg/lease/state.go NodeKey, RecordKey; handlers' keyID, rrEqual): the
      strings that identify nodes.
    - LeaseStore (pkg/lease/state.go, InMemoryLeaseStore): the store, one definition per
      method; LeaseTree: what its two tree walks compute; LeaseInv: the invariant [WF] and
      that every operation keeps it; LeaseSpec: the index-free specification [Flat], the
      refinement, and the store's theorems.
    - LeaseOption (pkg/lease/lease.go, client/lease_response.go), LeasePolicy
      (handlers/lease_policy.go, opcode5_lease_option.go, record_ttl.go): the option on the
      wire and the durations granted.
    - NodeLocks (pkg/lease/nodelock.go): the lock table and waiting requests as a step
      relation.
    - UpdateCore (pkg/updatecore): discovery of the authoritative server, queries, signed
      UPDATEs.  The network, SIG(0) and the keystore are parameters ([Network], [Sig0]); what
      a handler needs of it is the class [UpstreamCoordinator], which [Coordinator_upstream]
      implements.
    - HandlerBase (handlers/handlers.go, result.go): replies and [send], through which every
      UPDATE leaves; Expiry (handlers/opcode5_lease.go): timers and the end of a lease.
    - UpdateHandler (handlers/opcode5_handle.go, opcode5_update_helpers.go, opcode5_lease.go):
      the RFC 9664 handler's [Handle]; UpdateFootprint: what a request may touch;
      UpdateTheorems: its guarantees.
    - DnsSd (pkg/dnssd): service names and enumeration records.  SrpClassify
      (pkg/srp/instruction.go, names.go): the classification of an update into instructions;
      SrpValidate (validate.go, fcfs.go): validation and First-Come-First-Served;
      SrpComplete: a form of updates, that of RFC 9665 S3.3.1 with the two conditions of order
      the code has, and that every update of it is classified.
    - SrpHandler (handlers/srp_handler.go): the SRP handler's [Handle], its local mutations,
      expiry and enumeration; SrpEffects, SrpTheorems: what they do and its guarantees.
    - GoQuote (strconv.Quote as state.go uses it), AtomicFile (writeFileAtomic on a file
      system whose calls may fail and which may crash), LeaseSnapshot (state.go's snapshots,
      file_store.go): the lease store on disk.
    - Inflight (pkg/updatecore/inflight.go): the limit on UPDATEs in flight, goroutines as a
      transition system.
    - Router (server/router.go): dispatch to the handlers, seen through the class [Module],
      which both handlers implement.
    - SrpRequest (pkg/srp/update.go, response.go): building updates and reading replies;
      SrpDiscovery (client/srp/discovery.go): finding the registrar; SrpTiming (timing.go):
      the refresh clock in int64 and float64; SrpClient (client.go): registering, renaming and
      the [Run] loop.
    - Sig0Signer (pkg/sig0/signer.go): the signed bytes, Ed25519 and ECDSA signatures and their
      encodings; the primitives are the class [Crypto], the library's packing [SIG0Lib].
      SrpEndToEnd: a client's signed updates at the SRP handler.
    - KeyFiles (pkg/keyrec/loader.go, generate.go): finding, loading, creating and saving keys
      in a directory whose calls may fail; GoStd: the text functions of Go's standard library
      that configuration and keys use; HandlerSetup (handlers/opcode5_setup.go, srp_setup.go,
      the readers of handlers.go): both handlers from their configuration sections.
    - Forward (forward/forward.go): queries to the configured servers, with every order of
      arrival; ProxyConfig (config/config.go): defaults, validation, loading; ProxyMain
      (cmd/sig0lease/main.go, server.New): starting the proxy.
    - LeaseClient (cmd/sig0lease-client/main.go, client/client.go, pkg/dnsmsg/update.go): the
      command line client for leases; SrpCli (cmd/sig0lease-srp-client/main.go): the one for
      SRP, with NetAddr for netip.ParseAddr.
    - ProxyRun (server/server.go, from the bytes of a message to its reply, and the handlers'
      timers and tickers): the running proxy as a transition system of events; ServerLife
      (Serve, serveDoT, the Shutdowns): the goroutines of Serve, signals, saves and shutdown
      around it.
    - LeaseDump (DumpLeasesLevel of both handlers): the texts operators see; DumpMode
      (main's arguments and dumpLeases of cmd/sig0lease/main.go): the dump mode; Logging
      (logging/): the loggers and the line a record becomes; ChangeLog (logAppliedChanges of
      pkg/updatecore/coordinator.go): the log of the changes the proxy made.

    ** How the code is rendered

    A method that runs under the store's mutex is one function from store to store.  A
    fallible function returns [result]; the error text is the constant part of the message.
    A panic is [Err] or [None] of the function that panics, that of [requireUpstream] included,
    and theorems show that it does not happen, or when it does ([expiry_panics_at_instant]).  The clock is an argument, in nanoseconds: [now] for the checks, [now'] after an
    upstream round trip.  A Go map is a [gmap], so the iteration order Go leaves open is that
    of its elements, or, where the result shows it (LeaseDump), a parameter [MapRange].  Integers are [Z]; where the code's width matters the wrap-around is
    written out ([wrap32]).  A Go string is a sequence of bytes, [string].  The UPDATEs a
    handler sends are logged in [World], with whether each was confirmed.  Calls to
    the logger (but those of SendUpdate, in ChangeLog) and metrics are left out.

    ** Fuel

    Loops that are not structural take fuel and return an option: the two walks of the lease
    tree (fuel: one more than the number of edges), the wire walk (the message's length times
    the hop limit), the keystore walk and the searches of registrar discovery (the name's
    length).  Each has a theorem that this fuel always suffices, and the theorems above them are
    stated for the functions with that fuel.  The label encoder of Sig0Signer takes the name's
    length, of which each round consumes at least one byte.  ParseDuration takes the text's length
    and the debug dump the number of its nodes, each with a theorem that it is enough; the groups
    of an IPv6 address are counted down from eight, as in the code.

    ** What the theorems show

    Store: every reachable state is well formed; each operation implements the flat
    specification, errors included; subtree operations terminate and are exact; batches are
    atomic; ownership and parents are stable.  On disk: a file is replaced atomically whatever
    fails, and durably but on Windows, which has no directory sync; a crash leaves the old
    snapshot or exactly the saved store; only files framed as the store frames them load; a
    stopped store reopens with its tree.  Locks: exclusive, all or nothing, and
    waiters wake.  Expiry: nothing is forgotten before its deletion is confirmed upstream, the
    only panic is at the very instant a KEY expires, exactly what is due ends, failures back off and no owner stays without a timer.  Update
    handler: no panic; no effect without a verified signature; no local change before one
    confirmed UPDATE that covers it (a KEY that is only renewed may be missing from it if the
    authoritative server said it holds one); a request changes only its signer's nodes, inside its lock
    set; deletes need ownership; the reply carries the granted durations.  SRP: classification
    partitions the update, is complete for the form of SrpComplete, and its cross-references hold;
    what validation and FCFS decide; the same safety of [Handle] as for the update handler,
    with each name held or first claimed under a prerequisite, and the local state equal to
    the update; the enumeration lists what is live.  Router: one answer from one handler, the
    other's state untouched, no panic.  Requester: the updates it builds are accepted, as the
    described host and instances; it reads from a reply what the registrar did; discovery
    ends and finds the registrar, the closest one in closest mode; renaming ends and never repeats a name; the
    refresh comes before the lease ends, from two seconds to 3.6 years; [Run] goes on forever with bounded backoff.  SIG(0):
    the signed bytes have the RFC's layout and determine what was signed, what is signed verifies, and a client's signed
    updates pass the handler's checks, but for the one for labels with a dot, which is assumed.  Upstream: the zone sent to contains the name; truncated
    answers are not trusted; the limit of UPDATEs in flight holds.  Names, options and
    policies: canonical forms, round trips and bounds.  Keys: a created key is found again
    if its owner has a final dot, and never otherwise.  Setup: a handler that is set up is what
    its section says, and a file store that was stopped comes back with its leases; a configuration that loads can be served; a proxy that reaches Serve has
    separate stores.  The whole proxy: whatever messages, timers and ticks come, it does not
    panic (but at the instant above), its stores stay well formed, and the log of confirmed
    UPDATEs accounts for what they gained, changed or lost; Serve returns after a signal or a failure, after its listeners and with
    the update handler's leases saved (the SRP handler's are not: [srp_leases_not_saved]); a dump changes
    nothing and is the text of the store each handler would start with.  Clients: a request the
    lease client signs, if the handler's configuration admits it, and a registration the SRP
    client signs, pass the checks of the handler that do not depend on its leases, the one for
    labels with a dot excepted.  Logging: a record is one line, whatever
    the message holds, and the applied changes are logged exactly.

    ** What is not modelled

    Sockets, TLS and the DNS library's server, whose calls may fail or not; the cryptographic
    primitives, JSON, YAML and the DNS library's codecs (parameters with laws); Go's flag package
    and the usage and progress texts of the command line programs; most calls to the logger. *)

From Stdlib Require Import Ascii String ZArith Lia.
From stdpp Require Export base gmap sets list strings pretty sorting relations.

Declare Scope go_scope.
Delimit Scope go_scope with go.

(** ** Errors

    A fallible Go function returns [result]: a value, or an error carrying the
    constant part of the message the source formats. *)
Inductive result (A : Type) : Type :=
| Ok (a : A)
| Err (e : string).
Arguments Ok {A} _.
Arguments Err {A} _.

Global Instance result_ret : MRet result := fun _ a => Ok a.
Global Instance result_bind : MBind result := fun _ _ f m =>
  match m with Ok a => f a | Err e => Err e end.
Global Instance result_fmap : FMap result := fun _ _ f m =>
  match m with Ok a => Ok (f a) | Err e => Err e end.

Global Instance result_eq_dec `{EqDecision A} : EqDecision (result A).
Proof. solve_decision. Defined.

Definition is_ok {A} (r : result A) : bool := match r with Ok _ => true | Err _ => false end.

(** Left fold of a fallible step over a list, stopping at the first error, as a
    Go [for] loop with an early [return err] does. *)
Fixpoint foldM {A B} (f : B -> A -> result B) (b : B) (l : list A) : result B :=
  match l with
  | [] => Ok b
  | x :: l => b' ← f b x; foldM f b' l
  end.

(** [seqM f l] runs a check on every element, stopping at the first error. *)
Definition seqM {A} (f : A -> result unit) (l : list A) : result unit :=
  foldM (fun _ x => f x) tt l.

Notation "'guard!' b 'else' e ; k" := (if b then k else Err e)
  (at level 100, b at level 99, e at level 99, k at level 200) : go_scope.

Lemma bind_ok {A B} (m : result A) (f : A -> result B) b :
  m ≫= f = Ok b <-> exists a, m = Ok a /\ f a = Ok b.
Proof.
  destruct m; cbn; split.
  - eauto.
  - intros (? & [= ->] & ?); done.
  - done.
  - intros (? & ? & ?); done.
Qed.

Lemma foldM_app {A B} (f : B -> A -> result B) b l1 l2 :
  foldM f b (l1 ++ l2) = (b' ← foldM f b l1; foldM f b' l2).
Proof.
  revert b. induction l1 as [|x l1 IH]; intros b; [done|].
  cbn [foldM app]. destruct (f b x); cbn; [apply IH|done].
Qed.

Lemma foldM_inv {A B} (P : B -> Prop) (f : B -> A -> result B) b l b' :
  (forall b x b', x ∈ l -> P b -> f b x = Ok b' -> P b') ->
  P b -> foldM f b l = Ok b' -> P b'.
Proof.
  revert b. induction l as [|x l IH]; intros b Hstep Hb; cbn [foldM].
  - by intros [= <-].
  - intros (b1 & H1 & H2)%bind_ok. eapply IH; [|eapply Hstep; [left|exact Hb|exact H1]|exact H2].
    intros; eapply Hstep; [by right|eauto..].
Qed.

(** An error of the loop is an error of one of its steps. *)
Lemma foldM_err {A B} (f : B -> A -> result B) b l e :
  foldM f b l = Err e -> exists b' x, x ∈ l /\ f b' x = Err e.
Proof.
  revert b. induction l as [|x l IH]; intros b; cbn [foldM]; [done|].
  destruct (f b x) as [b1|e1] eqn:E; cbn.
  - intros (b' & y & Hy & H)%IH. exists b', y. split; [by right|done].
  - intros [= <-]. exists b, x. split; [by left|done].
Qed.

Lemma foldM_ok_each {A} (f : A -> result unit) l :
  seqM f l = Ok tt <-> forall x, x ∈ l -> f x = Ok tt.
Proof.
  unfold seqM. induction l as [|x l IH]; cbn [foldM].
  - split; [intros _ x Hx; inv Hx|done].
  - rewrite bind_ok. split.
    + intros ([] & H1 & H2) y [->|Hy]%elem_of_cons; [done|]. by apply IH.
    + intros H. exists tt. split; [apply H; by left|]. apply IH. intros; apply H; by right.
Qed.

Lemma elem_of_rev {A} (x : A) l : x ∈ rev l <-> x ∈ l.
Proof. rewrite !list_elem_of_In. symmetry. apply in_rev. Qed.

(** ** Automation *)
Create HintDb go.

(** Case analysis on every [match]/[if] scrutinee of the goal or a hypothesis,
    keeping the equation. *)
Ltac go_case :=
  match goal with
  | |- context [match ?x with _ => _ end] => destruct x eqn:?
  | H : context [match ?x with _ => _ end] |- _ => destruct x eqn:?
  end.

Ltac inv_ok :=
  repeat match goal with
  | H : Ok _ = Ok _ |- _ => injection H as H; subst
  | H : Err _ = Ok _ |- _ => discriminate H
  | H : Ok _ = Err _ |- _ => discriminate H
  | H : (_ ≫= _) = Ok _ |- _ => apply bind_ok in H as (? & ? & ?)
  end.

(** ** Machine integers *)
Definition uint8_ok (x : Z) : Prop := (0 <= x < 2 ^ 8)%Z.
Definition uint16_ok (x : Z) : Prop := (0 <= x < 2 ^ 16)%Z.
Definition uint32_ok (x : Z) : Prop := (0 <= x < 2 ^ 32)%Z.
Definition wrap32 (x : Z) : Z := (x mod 2 ^ 32)%Z.

Lemma wrap32_small x : uint32_ok x -> wrap32 x = x.
Proof. apply Z.mod_small. Qed.

Lemma wrap32_range x : uint32_ok (wrap32 x).
Proof. apply Z.mod_pos_bound. lia. Qed.

(** ** Strings

    A Go string is a sequence of bytes: [string], whose characters are the 256
    [ascii] values. *)
Lemma string_app_nil_l s : "" +:+ s = s.
Proof. done. Qed.

Lemma string_app_cons c a b : String c a +:+ b = String c (a +:+ b).
Proof. done. Qed.

(** Simplification of concatenations ([String.app] does not unfold by [simpl]). *)
Ltac sapp := repeat (progress (simpl; rewrite ?string_app_cons, ?string_app_nil_l)).

Section strings.
Local Open Scope string_scope.

Fixpoint string_map (f : ascii -> ascii) (s : string) : string :=
  match s with
  | EmptyString => EmptyString
  | String c s => String (f c) (string_map f s)
  end.

Fixpoint string_existsb (p : ascii -> bool) (s : string) : bool :=
  match s with
  | EmptyString => false
  | String c s => p c || string_existsb p s
  end.

Fixpoint string_drop (n : nat) (s : string) : string :=
  match n, s with
  | 0, _ => s
  | S n, EmptyString => EmptyString
  | S n, String _ s => string_drop n s
  end.

Fixpoint string_take (n : nat) (s : string) : string :=
  match n, s with
  | 0, _ => EmptyString
  | S n, EmptyString => EmptyString
  | S n, String c s => String c (string_take n s)
  end.

Lemma string_app_nil_r s : s +:+ "" = s.
Proof. induction s as [|c s IH]; sapp; [done|]. by f_equal. Qed.

Lemma string_app_assoc a b c : (a +:+ b) +:+ c = a +:+ (b +:+ c).
Proof. induction a as [|x a IH]; sapp; [done|]. by f_equal. Qed.

Lemma string_length_app a b :
  String.length (a +:+ b) = String.length a + String.length b.
Proof. induction a as [|x a IH]; sapp; [done|]. by rewrite IH. Qed.

Lemma string_app_length_inj a b c d :
  String.length a = String.length c -> a +:+ b = c +:+ d -> a = c /\ b = d.
Proof.
  revert c. induction a as [|x a IH]; intros [|y c]; sapp; try discriminate; [done|].
  intros [= Hl] [= -> H]. by destruct (IH c Hl H) as [-> ->].
Qed.

Lemma string_app_length_inj_r a b c d :
  String.length b = String.length d -> a +:+ b = c +:+ d -> a = c /\ b = d.
Proof.
  intros Hl H. apply string_app_length_inj; [|done].
  apply (f_equal String.length) in H. rewrite !string_length_app in H. lia.
Qed.

Lemma string_app_inj_r a b t : a +:+ t = b +:+ t -> a = b.
Proof. intros H. by apply (string_app_length_inj_r a t b t). Qed.

Lemma string_map_app f a b : string_map f (a +:+ b) = string_map f a +:+ string_map f b.
Proof. induction a as [|c a IH]; sapp; [done|]. by f_equal. Qed.

Lemma string_map_length f s : String.length (string_map f s) = String.length s.
Proof. induction s as [|c s IH]; simpl; auto. Qed.

Lemma string_existsb_app p a b :
  string_existsb p (a +:+ b) = string_existsb p a || string_existsb p b.
Proof. induction a as [|c a IH]; sapp; [done|]. rewrite IH. by rewrite orb_assoc. Qed.

Lemma string_drop_app a b : string_drop (String.length a) (a +:+ b) = b.
Proof. induction a as [|c a IH]; [done|]. sapp. exact IH. Qed.

Lemma string_take_app a b : string_take (String.length a) (a +:+ b) = a.
Proof. induction a as [|c a IH]; sapp; [by destruct b|]. by f_equal. Qed.

Lemma string_take_drop n s : string_take n s +:+ string_drop n s = s.
Proof. revert s. induction n as [|n IH]; intros [|c s]; sapp; [done..|]. by f_equal. Qed.

Lemma string_drop_length n s : String.length (string_drop n s) = String.length s - n.
Proof. revert s. induction n as [|n IH]; intros [|c s]; cbn; [done..|]. apply IH. Qed.

Lemma string_take_length n s :
  n <= String.length s -> String.length (string_take n s) = n.
Proof.
  revert s. induction n as [|n IH]; intros [|c s] H; cbn in *; [done..|lia|].
  rewrite IH; lia.
Qed.
End strings.

(** [strings.HasSuffix]: a length test and a byte comparison of the tail. *)
Definition HasSuffix (s suf : string) : bool :=
  (String.length suf <=? String.length s)
  && (bool_decide (string_drop (String.length s - String.length suf) s = suf)).

Lemma HasSuffix_spec s suf : HasSuffix s suf = true <-> exists p, s = p +:+ suf.
Proof.
  unfold HasSuffix. rewrite andb_true_iff, Nat.leb_le, bool_decide_eq_true. split.
  - intros [Hl Hd]. exists (string_take (String.length s - String.length suf) s).
    rewrite <- Hd at 2. by rewrite string_take_drop.
  - intros [p ->]. rewrite string_length_app. split; [lia|].
    replace (String.length p + String.length suf - String.length suf) with (String.length p) by lia.
    apply string_drop_app.
Qed.

(** ** Decimal formatting *)

Definition is_digit (c : ascii) : bool := (48 <=? N_of_ascii c)%N && (N_of_ascii c <=? 57)%N.

Definition string_forallb (p : ascii -> bool) (s : string) : bool :=
  negb (string_existsb (fun c => negb (p c)) s).

Definition digit (d : Z) : ascii := ascii_of_N (48 + Z.to_N d)%N.

(** [fmt.Sprintf("%0<w>d", n)] for [0 <= n < 10^w]. *)
Fixpoint fmt_pad (w : nat) (n : Z) : string :=
  match w with
  | O => ""
  | S w => fmt_pad w (n / 10) +:+ String (digit (n mod 10)) ""
  end.

(** [fmt.Sprintf("%d", n)] for [0 <= n]. *)
Definition fmt_d (n : Z) : string := pretty (Z.to_N n).

Lemma string_forallb_app p a b :
  string_forallb p (a +:+ b) = string_forallb p a && string_forallb p b.
Proof. unfold string_forallb. by rewrite string_existsb_app, negb_orb. Qed.

Lemma string_forallb_cons p c s : string_forallb p (String c s) = p c && string_forallb p s.
Proof. unfold string_forallb. simpl. by rewrite negb_orb, negb_involutive. Qed.

Lemma N_of_digit d : (0 <= d < 10)%Z -> N_of_ascii (digit d) = (48 + Z.to_N d)%N.
Proof. intros H. unfold digit. rewrite N_ascii_embedding; [done|lia]. Qed.

Lemma is_digit_digit d : (0 <= d < 10)%Z -> is_digit (digit d) = true.
Proof. intros H. unfold is_digit. rewrite N_of_digit by done. apply andb_true_iff; split; apply N.leb_le; lia. Qed.

Lemma fmt_pad_length w n : String.length (fmt_pad w n) = w.
Proof.
  revert n. induction w as [|w IH]; intros n; [done|].
  cbn [fmt_pad]. rewrite string_length_app, IH. simpl. lia.
Qed.

Lemma fmt_pad_digits w n : string_forallb is_digit (fmt_pad w n) = true.
Proof.
  revert n. induction w as [|w IH]; intros n; [done|]. cbn [fmt_pad].
  rewrite string_forallb_app, IH, string_forallb_cons, is_digit_digit; [done|].
  apply Z.mod_pos_bound. lia.
Qed.

Lemma fmt_pad_inj w m n :
  (0 <= m < 10 ^ Z.of_nat w)%Z -> (0 <= n < 10 ^ Z.of_nat w)%Z ->
  fmt_pad w m = fmt_pad w n -> m = n.
Proof.
  revert m n. induction w as [|w IH]; intros m n Hm Hn; [simpl in *; lia|].
  rewrite Nat2Z.inj_succ, Z.pow_succ_r in Hm, Hn by lia.
  cbn [fmt_pad]. intros [H1 H2]%string_app_length_inj; [|by rewrite !fmt_pad_length].
  apply IH in H1; [|split; [apply Z.div_pos; lia|apply Z.div_lt_upper_bound; lia]..].
  injection H2 as H2. apply (f_equal N_of_ascii) in H2.
  pose proof (Z.mod_pos_bound m 10). pose proof (Z.mod_pos_bound n 10).
  rewrite !N_of_digit in H2 by lia.
  rewrite (Z.div_mod m 10), (Z.div_mod n 10), H1 by lia. lia.
Qed.

Lemma pretty_N_go_digits x s :
  string_forallb is_digit s = true -> string_forallb is_digit (pretty_N_go x s) = true.
Proof.
  revert s. induction (N.lt_wf_0 x) as [x _ IH]; intros s Hs.
  destruct (decide (x = 0)%N) as [->|Hx]; [by rewrite pretty_N_go_0|].
  rewrite pretty_N_go_step by lia. apply IH; [apply N.div_lt; lia|].
  rewrite string_forallb_cons, Hs. unfold pretty_N_char. by repeat case_match.
Qed.

Lemma fmt_d_digits n : string_forallb is_digit (fmt_d n) = true.
Proof.
  unfold fmt_d, pretty, pretty_N. case_decide; [done|]. by apply pretty_N_go_digits.
Qed.

Lemma fmt_d_inj m n : (0 <= m)%Z -> (0 <= n)%Z -> fmt_d m = fmt_d n -> m = n.
Proof. unfold fmt_d. intros Hm Hn H%(inj pretty). lia. Qed.

(** Reading a field up to a separator the field does not contain is unambiguous. *)
Definition no_char (c : ascii) (s : string) : bool :=
  string_forallb (fun x => negb (bool_decide (x = c))) s.

Lemma no_char_app c a b : no_char c (a +:+ b) = no_char c a && no_char c b.
Proof. apply string_forallb_app. Qed.

Lemma no_char_cons c x s : no_char c (String x s) = negb (bool_decide (x = c)) && no_char c s.
Proof. apply string_forallb_cons. Qed.

Lemma string_forallb_impl (p q : ascii -> bool) s :
  (forall c, p c = true -> q c = true) -> string_forallb p s = true -> string_forallb q s = true.
Proof.
  intros H. induction s as [|c s IH]; [done|]. rewrite !string_forallb_cons, !andb_true_iff.
  intros [??]; auto.
Qed.

Lemma fmt_d_no_char c n : is_digit c = false -> no_char c (fmt_d n) = true.
Proof.
  intros Hc. eapply string_forallb_impl, fmt_d_digits. intros x Hx.
  rewrite negb_true_iff, bool_decide_eq_false. congruence.
Qed.

Lemma split_field c a b a' b' :
  no_char c a = true -> no_char c a' = true ->
  a +:+ String c b = a' +:+ String c b' -> a = a' /\ b = b'.
Proof.
  revert a'. induction a as [|x a IH]; intros [|y a'] Ha Ha'; sapp.
  - intros [= ->]. done.
  - intros [= -> _]. rewrite no_char_cons, bool_decide_true in Ha' by done. done.
  - intros [= -> _]. rewrite no_char_cons, bool_decide_true in Ha by done. done.
  - intros [= -> H]. rewrite no_char_cons, andb_true_iff in Ha, Ha'.
    destruct Ha, Ha'. destruct (IH a') as [-> ->]; auto.
Qed.
