(* ===== verification/DnsName.v ===== *)
(** * DNS names: pkg/dnsname (dnsname.go, labels.go)

    Case folding for US-ASCII letters only, the two canonical forms ([Fold],
    [Normalize]), the "at or below" test on whole labels, splitting a name into
    labels, and the check that a string is one label.  The theorems: the folding
    loop is the per-byte map, [EqualFold] decides equality of folded names,
    [IsAtOrBelow] is exactly the suffix order on label lists, and splitting and
    joining labels are inverse. *)

From Stdlib Require Import Ascii String ZArith Lia.
From S2P Require Import Prelude.


(** ** Case folding *)

(** [isUpper]: ['A' <= c && c <= 'Z']. *)
Definition isUpper (c : ascii) : bool :=
  (65 <=? N_of_ascii c)%N && (N_of_ascii c <=? 90)%N.

(** [fold]: [c + 'a' - 'A'] on an upper-case byte. *)
Definition fold (c : ascii) : ascii :=
  if isUpper c then ascii_of_N (N_of_ascii c + 97 - 65)%N else c.

(** The inner loop of [Fold], over the copy from the first upper-case byte on:
    [if isUpper(b[j]) { b[j] += 'a' - 'A' }]. *)
Fixpoint Fold_copy (b : string) : string :=
  match b with
  | EmptyString => EmptyString
  | String c b =>
      String (if isUpper c then ascii_of_N (N_of_ascii c + (97 - 65))%N else c) (Fold_copy b)
  end.

(** [Fold]: scan for the first upper-case byte; without one the name is returned
    as it is, and from the first one on a copy is converted. *)
Fixpoint Fold (name : string) : string :=
  match name with
  | EmptyString => EmptyString
  | String c rest =>
      if isUpper c then Fold_copy name else String c (Fold rest)
  end.

(** The loop of [EqualFold] over two strings of the same length. *)
Fixpoint EqualFold_loop (a b : string) : bool :=
  match a, b with
  | String x a, String y b =>
      if bool_decide (fold x = fold y) then EqualFold_loop a b else false
  | _, _ => true
  end.

Definition EqualFold (a b : string) : bool :=
  if negb (String.length a =? String.length b) then false else EqualFold_loop a b.

(** [strings.TrimSuffix(s, ".")]. *)
Fixpoint TrimSuffixDot (s : string) : string :=
  match s with
  | EmptyString => EmptyString
  | String c EmptyString => if bool_decide (c = "."%char) then EmptyString else s
  | String c rest => String c (TrimSuffixDot rest)
  end.

Definition Normalize (name : string) : string := TrimSuffixDot (Fold name).

Definition IsAtOrBelow (name zone : string) : bool :=
  let n := Normalize name in
  let z := Normalize zone in
  if bool_decide (z = "") then true
  else bool_decide (n = z) || HasSuffix n ("." +:+ z).

(** ** Labels *)

Definition maxLabelLength : nat := 63.

(** [strings.Cut(name, ".")]. *)
Fixpoint CutFirstLabel (name : string) : string * string * bool :=
  match name with
  | EmptyString => ("", "", false)
  | String c rest =>
      if bool_decide (c = "."%char) then ("", rest, true)
      else let '(first, after, ok) := CutFirstLabel rest in (String c first, after, ok)
  end.

(** [strings.Split(s, ".")] for a one-byte separator. *)
Fixpoint SplitDot (s : string) : list string :=
  match s with
  | EmptyString => [""]
  | String c rest =>
      if bool_decide (c = "."%char) then "" :: SplitDot rest
      else match SplitDot rest with
           | l :: ls => String c l :: ls
           | [] => [String c ""]
           end
  end.

(** [strings.Join(labels, ".")]. *)
Fixpoint JoinDot (ls : list string) : string :=
  match ls with
  | [] => ""
  | [l] => l
  | l :: ls => l +:+ "." +:+ JoinDot ls
  end.

Definition Labels (name : string) : list string :=
  if bool_decide (name = "") then [] else SplitDot name.

(** [strings.Contains(label, ".")]. *)
Definition ContainsDot (s : string) : bool :=
  string_existsb (fun c => bool_decide (c = "."%char)) s.

Definition CheckLabel (label : string) : result unit :=
  if bool_decide (label = "") then Err "label is empty"
  else if maxLabelLength <? String.length label then Err "label is too long"
  else if ContainsDot label then Err "label contains a dot"
  else Ok tt.

(** ** Folding lemmas *)

Lemma isUpper_fold c : isUpper (fold c) = false.
Proof. destruct c as [[][][][][][][][]]; reflexivity. Qed.

Lemma fold_idem c : fold (fold c) = fold c.
Proof. unfold fold at 1. by rewrite isUpper_fold. Qed.

Lemma fold_dot c : fold c = "."%char -> c = "."%char.
Proof. destruct c as [[][][][][][][][]]; vm_compute; congruence. Qed.

Lemma Fold_copy_map s : Fold_copy s = string_map fold s.
Proof.
  induction s as [|c s IH]; [done|]. simpl. rewrite IH. f_equal.
  unfold fold. destruct (isUpper c); [|done]. f_equal. lia.
Qed.

(** The converting loop of [Fold] is the byte-wise map of [fold]. *)
Lemma Fold_map s : Fold s = string_map fold s.
Proof.
  induction s as [|c s IH]; [done|]. cbn [Fold].
  destruct (isUpper c) eqn:E; [by rewrite Fold_copy_map|].
  simpl. rewrite IH. f_equal. unfold fold. by rewrite E.
Qed.

Lemma Fold_length s : String.length (Fold s) = String.length s.
Proof. rewrite Fold_map. apply string_map_length. Qed.

Lemma Fold_app a b : Fold (a +:+ b) = Fold a +:+ Fold b.
Proof. rewrite !Fold_map. apply string_map_app. Qed.

Lemma Fold_cons c s : Fold (String c s) = String (fold c) (Fold s).
Proof. by rewrite !Fold_map. Qed.

Lemma Fold_idem s : Fold (Fold s) = Fold s.
Proof.
  rewrite !Fold_map. induction s as [|c s IH]; [done|]. simpl. by rewrite IH, fold_idem.
Qed.

Lemma Fold_empty s : Fold s = "" -> s = "".
Proof. rewrite Fold_map. by destruct s. Qed.

Lemma EqualFold_loop_spec a b :
  String.length a = String.length b -> EqualFold_loop a b = true <-> Fold a = Fold b.
Proof.
  revert b. induction a as [|x a IH]; intros [|y b] Hl; try discriminate; [done|].
  rewrite !Fold_cons. cbn [EqualFold_loop]. injection Hl as Hl. case_bool_decide as E.
  - rewrite IH by done. rewrite E. split; congruence.
  - split; [done|]. intros [= ? ?]. congruence.
Qed.

(** ** Trailing dots *)

Lemma TrimSuffixDot_dot s : TrimSuffixDot (s +:+ ".") = s.
Proof.
  induction s as [|c s IH]; [done|]. sapp. rewrite IH. by destruct s.
Qed.

Lemma TrimSuffixDot_cases s :
  (exists p, s = p +:+ "." /\ TrimSuffixDot s = p) \/
  ((forall p, s <> p +:+ ".") /\ TrimSuffixDot s = s).
Proof.
  induction s as [|c s IH].
  - right. split; [|done]. intros [|? p]; sapp; discriminate.
  - destruct s as [|d s].
    + simpl. case_bool_decide as E.
      * left. exists "". by subst.
      * right. split; [|done]. intros [|x [|y p]]; sapp; congruence.
    + destruct IH as [(p & Hp & Ht)|[Hn Ht]].
      * left. exists (String c p). sapp. rewrite <- Hp. split; [done|]. by rewrite <- Ht.
      * right. split.
        -- intros [|x p]; sapp; [discriminate|]. intros [= _ H]. by apply (Hn p).
        -- cbn [TrimSuffixDot] in Ht |- *. by rewrite Ht.
Qed.

Lemma TrimSuffixDot_nodot s : (forall p, s <> p +:+ ".") -> TrimSuffixDot s = s.
Proof. intros H. destruct (TrimSuffixDot_cases s) as [(p & Hp & _)|[_ ?]]; [by destruct (H p)|done]. Qed.

Lemma Fold_dot_suffix s : (exists p, Fold s = p +:+ ".") <-> (exists p, s = p +:+ ".").
Proof.
  split.
  - intros [p Hp].
    assert (Hl : String.length s = String.length p + 1).
    { rewrite <- (Fold_length s), Hp, string_length_app. done. }
    exists (string_take (String.length p) s).
    rewrite <- (string_take_drop (String.length p) s) in Hp.
    rewrite Fold_app in Hp.
    apply string_app_length_inj in Hp as [_ Hd].
    2:{ rewrite Fold_length, string_take_length; lia. }
    rewrite <- (string_take_drop (String.length p) s) at 1. f_equal.
    destruct (string_drop (String.length p) s) as [|c r] eqn:Ed; [done|].
    rewrite Fold_cons in Hd. injection Hd as Hc Hr. apply fold_dot in Hc.
    apply Fold_empty in Hr. by subst.
  - intros [p ->]. exists (Fold p). by rewrite Fold_app.
Qed.

Lemma Normalize_Fold s : Normalize (Fold s) = Normalize s.
Proof. unfold Normalize. by rewrite Fold_idem. Qed.

Lemma Fold_Normalize s : Fold (Normalize s) = Normalize s.
Proof.
  unfold Normalize. destruct (TrimSuffixDot_cases (Fold s)) as [(p & Hp & ->)|[_ ->]].
  - pose proof (Fold_idem s) as H. rewrite Hp, Fold_app in H.
    change (Fold ".") with "." in H. by apply string_app_inj_r in H.
  - apply Fold_idem.
Qed.

(** [Normalize] drops one trailing dot: on a string that does not end in two it is
    idempotent, so a normalized name or node key can be normalized again. *)
Lemma Normalize_idem s : (forall p, s <> p +:+ "..") -> Normalize (Normalize s) = Normalize s.
Proof.
  intros H. unfold Normalize at 1. rewrite Fold_Normalize. apply TrimSuffixDot_nodot.
  intros p Hp. unfold Normalize in Hp.
  destruct (TrimSuffixDot_cases (Fold s)) as [(q & Hq & Ht)|[Hn Ht]].
  - rewrite Ht in Hp. subst q. rewrite string_app_assoc in Hq.
    change ("." +:+ ".") with ".." in Hq.
    assert (exists p', s = p' +:+ "..") as [p' Hp']; [|by destruct (H p')].
    assert (Hl : String.length s = String.length p + 2).
    { rewrite <- (Fold_length s), Hq, string_length_app. done. }
    exists (string_take (String.length p) s).
    rewrite <- (string_take_drop (String.length p) s) in Hq. rewrite Fold_app in Hq.
    apply string_app_length_inj in Hq as [_ Hd].
    2:{ rewrite Fold_length, string_take_length; lia. }
    rewrite <- (string_take_drop (String.length p) s) at 1. f_equal.
    destruct (string_drop (String.length p) s) as [|c [|d r]]; rewrite ?Fold_cons in Hd; [done..|].
    injection Hd as Hc Hc' Hr. apply fold_dot in Hc, Hc'. apply Fold_empty in Hr. by subst.
  - rewrite Ht in Hp. by destruct (Hn p).
Qed.

(** ** Splitting *)

Lemma SplitDot_ne s : SplitDot s <> [].
Proof. destruct s as [|c s]; simpl; [done|]. case_bool_decide; [done|]. by destruct (SplitDot s). Qed.

Lemma SplitDot_app_dot p t : SplitDot (p +:+ "." +:+ t) = (SplitDot p ++ SplitDot t)%list.
Proof.
  change ("." +:+ t) with (String "." t). induction p as [|c p IH]; sapp.
  - done.
  - rewrite IH. case_bool_decide; [done|].
    pose proof (SplitDot_ne p). by destruct (SplitDot p).
Qed.

Lemma JoinDot_cons l ls : ls <> [] -> JoinDot (l :: ls) = l +:+ "." +:+ JoinDot ls.
Proof. by destruct ls. Qed.

Lemma JoinDot_SplitDot s : JoinDot (SplitDot s) = s.
Proof.
  induction s as [|c s IH]; [done|]. cbn [SplitDot]. case_bool_decide as E.
  - rewrite JoinDot_cons by apply SplitDot_ne. by rewrite IH, E.
  - pose proof (SplitDot_ne s). destruct (SplitDot s) as [|l [|l' ls]]; [done|..].
    + simpl in IH |- *. by rewrite IH.
    + cbn [JoinDot] in IH |- *. rewrite string_app_cons. by rewrite IH.
Qed.

Lemma JoinDot_app a b : a <> [] -> b <> [] -> JoinDot (a ++ b)%list = JoinDot a +:+ "." +:+ JoinDot b.
Proof.
  intros Ha Hb. induction a as [|x a IH]; [done|].
  destruct a as [|y a]; cbn [app]; [by rewrite JoinDot_cons|].
  rewrite !(JoinDot_cons x) by done. rewrite <- app_comm_cons in IH. rewrite IH by done.
  by rewrite !string_app_assoc.
Qed.

Lemma CutFirstLabel_spec s :
  match CutFirstLabel s with
  | (first, rest, true) =>
      s = first +:+ "." +:+ rest /\ ContainsDot first = false /\ SplitDot s = first :: SplitDot rest
  | (first, rest, false) => first = s /\ rest = "" /\ ContainsDot s = false /\ SplitDot s = [s]
  end.
Proof.
  induction s as [|c s IH]; [done|]. cbn [CutFirstLabel SplitDot].
  case_bool_decide as E; [by subst|].
  destruct (CutFirstLabel s) as [[first rest] []].
  - destruct IH as (-> & Hc & Hs). rewrite Hs. split_and!; [done| |done].
    unfold ContainsDot in *. simpl. by rewrite bool_decide_false, Hc.
  - destruct IH as (-> & -> & Hc & Hs). rewrite Hs. split_and!; try done.
    unfold ContainsDot in *. simpl. by rewrite bool_decide_false, Hc.
Qed.

Lemma EqualFold_iff a b : EqualFold a b = true <-> Fold a = Fold b.
Proof.
  unfold EqualFold. destruct (Nat.eqb_spec (String.length a) (String.length b)) as [E|E].
  - by apply EqualFold_loop_spec.
  - split; [done|]. intros H. apply (f_equal String.length) in H.
    rewrite !Fold_length in H. by destruct E.
Qed.

Lemma IsAtOrBelow_iff n z :
  IsAtOrBelow n z = true <->
  Normalize z = "" \/ Normalize n = Normalize z \/
  exists p, Normalize n = p +:+ "." +:+ Normalize z.
Proof.
  unfold IsAtOrBelow. case_bool_decide; [tauto|].
  rewrite orb_true_iff, bool_decide_eq_true, HasSuffix_spec. tauto.
Qed.

Lemma IsAtOrBelow_refl n : IsAtOrBelow n n = true.
Proof. apply IsAtOrBelow_iff. auto. Qed.

Create Rewrite HintDb go_norm.
#[export] Hint Rewrite Fold_idem Fold_Normalize Normalize_Fold Fold_length : go_norm.

(** ** Theorems *)

(** Folding is exactly the DNS's case-insensitivity: [Fold] changes only the
    letters A-Z (it is the byte-wise map of [fold], whose result is never an
    upper-case letter), keeps the length, is idempotent, and [EqualFold] - which
    compares without building the folded strings - decides equality under it. *)
Theorem Fold_canonical (a b : string) :
  Fold a = string_map fold a /\
  String.length (Fold a) = String.length a /\
  Fold (Fold a) = Fold a /\
  string_existsb isUpper (Fold a) = false /\
  (EqualFold a b = true <-> Fold a = Fold b).
Proof.
  split_and!; [apply Fold_map|apply Fold_length|apply Fold_idem| |apply EqualFold_iff].
  rewrite Fold_map. induction a as [|c a IH]; [done|]. simpl. by rewrite isUpper_fold.
Qed.

(** "At or below" compares whole labels: a name is at or below a zone exactly
    when the zone is the root or the zone's labels are the last labels of the
    name's - so "evilsrp.test." is never below "srp.test." - and it is a preorder
    (reflexive and transitive) on names. *)
Theorem IsAtOrBelow_labels (n z y : string) :
  (IsAtOrBelow n z = true <->
   Normalize z = "" \/ Labels (Normalize z) `suffix_of` Labels (Normalize n)) /\
  IsAtOrBelow n n = true /\
  (IsAtOrBelow n z = true -> IsAtOrBelow z y = true -> IsAtOrBelow n y = true).
Proof.
  assert (forall n z, IsAtOrBelow n z = true <->
   Normalize z = "" \/ Labels (Normalize z) `suffix_of` Labels (Normalize n)) as Hiff.
  { clear. intros n z. rewrite IsAtOrBelow_iff. unfold Labels.
    case_bool_decide as Ez; [tauto|]. split; (intros [?|H]; [by left|right]).
    - destruct H as [->|[p ->]].
      + rewrite bool_decide_false by done. done.
      + rewrite bool_decide_false; [|by destruct p]. rewrite SplitDot_app_dot. by eexists.
    - destruct H as [k Hk]. case_bool_decide as En.
      { destruct (SplitDot (Normalize z)) eqn:E; [by apply SplitDot_ne in E|by destruct k]. }
      apply (f_equal JoinDot) in Hk. rewrite JoinDot_SplitDot in Hk. destruct k as [|l k].
      + left. simpl in Hk. by rewrite Hk, JoinDot_SplitDot.
      + right. exists (JoinDot (l :: k)). rewrite Hk, JoinDot_app by (apply SplitDot_ne || done).
        by rewrite JoinDot_SplitDot. }
  split_and!; [apply Hiff|apply IsAtOrBelow_refl|].
  rewrite !Hiff. intros [Hz|Hz] [Hy|Hy]; [by left..| |by left|right; by etrans].
  rewrite Hz in Hy. left. unfold Labels in Hy. rewrite (bool_decide_true (""="")) in Hy by done.
  case_bool_decide as E; [done|]. apply suffix_nil_inv in Hy. by apply SplitDot_ne in Hy.
Qed.
