(* ===== verification/DnsData.v ===== *)
(** * DNS data: the records and messages the proxy handles

    The types of codeberg.org/miekg/dns the sources work with, as data: resource
    records with their header and the RDATA the type switches of src/ tell apart,
    EDNS(0) options, and messages.  The library's own code is a parameter: class
    [DnsLib] holds the functions src/ calls on RDATA (the key tag, the
    presentation text and length of RDATA), and [DnsLibLaws] what their
    documentation promises.  A message section never holds a nil record here: the
    decoder produces none, and a nil where the sources treat it as data (an absent
    KEY, an absent KEY-LEASE) is an [option]. *)

From Stdlib Require Import Ascii String ZArith Lia.
From S2P Require Import Prelude DnsName.

Local Open Scope Z_scope.

(** ** Constants of the DNS (IANA registries) the sources use by name *)
Definition ClassINET : Z := 1.
Definition ClassNONE : Z := 254.
Definition ClassANY : Z := 255.

Definition TypeA : Z := 1.
Definition TypeNS : Z := 2.
Definition TypeCNAME : Z := 5.
Definition TypeSOA : Z := 6.
Definition TypeWKS : Z := 11.
Definition TypePTR : Z := 12.
Definition TypeTXT : Z := 16.
Definition TypeSIG : Z := 24.
Definition TypeKEY : Z := 25.
Definition TypeAAAA : Z := 28.
Definition TypeSRV : Z := 33.
Definition TypeOPT : Z := 41.
Definition TypeANY : Z := 255.

Definition RcodeSuccess : Z := 0.
Definition RcodeFormatError : Z := 1.
Definition RcodeServerFailure : Z := 2.
Definition RcodeNameError : Z := 3.
Definition RcodeRefused : Z := 5.
Definition RcodeYXDomain : Z := 6.
Definition RcodeYXRrset : Z := 7.

Definition OpcodeUpdate : Z := 5.

(** ** Records *)

Record Header := mkHeader { Name : string; Class : Z; TTL : Z }.

Record KeyData := mkKeyData { Flags : Z; Protocol : Z; Algorithm : Z; PublicKey : string }.

Record SigData := mkSigData {
  sig_Algorithm : Z; sig_Labels : Z; sig_OrigTTL : Z; sig_Expiration : Z; sig_Inception : Z;
  sig_KeyTag : Z; SignerName : string; Signature : string }.

(** EDNS(0) options: the raw option (code and hex data) and the Extended DNS Error. *)
Inductive EDNS0 :=
| ERFC3597 (EDNS0Code : Z) (Code : string)
| EDE (InfoCode : Z) (ExtraText : string)
| EOther (EDNS0Code : Z).

(** The RDATA of the record types the sources distinguish; any other type is
    [RD_Other] with its type code and RDATA text. *)
Inductive RData :=
| RD_A (addr : Z)
| RD_AAAA (addr : Z)
| RD_KEY (k : KeyData)
| RD_SIG (s : SigData)
| RD_SRV (priority weight port : Z) (target : string)
| RD_TXT (txt : list string)
| RD_PTR (ptr : string)
| RD_ANY
| RD_NS (ns : string)
| RD_MD (md : string)
| RD_MF (mf : string)
| RD_MB (mb : string)
| RD_MG (mg : string)
| RD_MR (mr : string)
| RD_MINFO (rmail email : string)
| RD_MX (preference : Z) (mx : string)
| RD_RP (mbox txt : string)
| RD_AFSDB (subtype : Z) (hostname : string)
| RD_RT (preference : Z) (host : string)
| RD_PX (preference : Z) (map822 mapx400 : string)
| RD_NAPTR (order preference : Z) (flags service regexp replacement : string)
| RD_KX (preference : Z) (exchanger : string)
| RD_DNAME (target : string)
| RD_CNAME (target : string)
| RD_SOA (ns mbox : string) (serial refresh retry expire minttl : Z)
| RD_OPT (options : list EDNS0)
| RD_EDNS0 (o : EDNS0)
| RD_RFC3597 (rrtype : Z) (rdata : string)
| RD_Other (rrtype : Z) (text : string).

Record RR := mkRR { Hdr : Header; RD : RData }.

(** [dns.RRToType]: the type code of a record's RDATA. *)
Definition rdata_type (d : RData) : Z :=
  match d with
  | RD_A _ => TypeA | RD_AAAA _ => TypeAAAA | RD_KEY _ => TypeKEY | RD_SIG _ => TypeSIG
  | RD_SRV _ _ _ _ => TypeSRV | RD_TXT _ => TypeTXT | RD_PTR _ => TypePTR | RD_ANY => TypeANY
  | RD_NS _ => TypeNS | RD_MD _ => 3 | RD_MF _ => 4 | RD_MB _ => 7 | RD_MG _ => 8 | RD_MR _ => 9
  | RD_MINFO _ _ => 14 | RD_MX _ _ => 15 | RD_RP _ _ => 17 | RD_AFSDB _ _ => 18 | RD_RT _ _ => 21
  | RD_PX _ _ _ => 26 | RD_NAPTR _ _ _ _ _ _ => 35 | RD_KX _ _ => 36 | RD_DNAME _ => 39
  | RD_CNAME _ => TypeCNAME | RD_SOA _ _ _ _ _ _ _ => TypeSOA
  | RD_OPT _ => TypeOPT | RD_EDNS0 _ => TypeOPT
  | RD_RFC3597 t _ => t | RD_Other t _ => t
  end.

Definition RRToType (rr : RR) : Z := rdata_type (RD rr).

(** ** Typed views: [*dns.KEY] and the type switches *)

Record KEY := mkKEY { key_Hdr : Header; key_Data : KeyData }.

Definition KEY_RR (k : KEY) : RR := mkRR (key_Hdr k) (RD_KEY (key_Data k)).

Definition as_KEY (rr : RR) : option KEY :=
  match RD rr with RD_KEY d => Some (mkKEY (Hdr rr) d) | _ => None end.

Definition as_SIG (rr : RR) : option SigData :=
  match RD rr with RD_SIG s => Some s | _ => None end.

Definition is_PTR (rr : RR) : bool := match RD rr with RD_PTR _ => true | _ => false end.
Definition is_SRV (rr : RR) : bool := match RD rr with RD_SRV _ _ _ _ => true | _ => false end.

Definition set_TTL (ttl : Z) (rr : RR) : RR :=
  mkRR (mkHeader (Name (Hdr rr)) (Class (Hdr rr)) ttl) (RD rr).

Definition set_Name (n : string) (rr : RR) : RR :=
  mkRR (mkHeader n (Class (Hdr rr)) (TTL (Hdr rr))) (RD rr).

Definition key_set_TTL (ttl : Z) (k : KEY) : KEY :=
  mkKEY (mkHeader (Name (key_Hdr k)) (Class (key_Hdr k)) ttl) (key_Data k).

Definition key_set_Name (n : string) (k : KEY) : KEY :=
  mkKEY (mkHeader n (Class (key_Hdr k)) (TTL (key_Hdr k))) (key_Data k).

(** ** Messages *)

Record MsgHeader := mkMsgHeader {
  ID : Z; Opcode : Z; Response : bool; Authoritative : bool; Truncated : bool;
  RecursionDesired : bool; Rcode : Z; UDPSize : Z }.

(** A Question entry: name, class and type. *)
Record Quest := mkQuest { q_Name : string; q_Class : Z; q_Type : Z }.

Record Msg := mkMsg {
  MsgHdr : MsgHeader;
  Question : list Quest;
  Answer : list RR;
  Ns : list RR;
  Extra : list RR;
  Pseudo : list RR;
  Data : list Z (* the wire form a message was read from; empty for one built in-process *)
}.

Definition set_Ns (ns : list RR) (m : Msg) : Msg :=
  mkMsg (MsgHdr m) (Question m) (Answer m) ns (Extra m) (Pseudo m) (Data m).

(** [dns.NewMsg(zone, TypeSOA)] for an UPDATE: one question, no sections. *)
Definition new_update (zone : string) : Msg :=
  mkMsg (mkMsgHeader 0 OpcodeUpdate false false false false RcodeSuccess 0)
        [mkQuest zone ClassINET TypeSOA] [] [] [] [] [].

Global Instance Header_eq_dec : EqDecision Header. Proof. solve_decision. Defined.
Global Instance KeyData_eq_dec : EqDecision KeyData. Proof. solve_decision. Defined.
Global Instance SigData_eq_dec : EqDecision SigData. Proof. solve_decision. Defined.
Global Instance EDNS0_eq_dec : EqDecision EDNS0. Proof. solve_decision. Defined.
Global Instance RData_eq_dec : EqDecision RData. Proof. solve_decision. Defined.
Global Instance RR_eq_dec : EqDecision RR. Proof. solve_decision. Defined.
Global Instance KEY_eq_dec : EqDecision KEY. Proof. solve_decision. Defined.

(** ** The library's code as a parameter *)

(** What src/ calls on RDATA and records, and the library's default EDNS buffer size.  [KeyTag] is a function of the RDATA alone (RFC 4034
    Appendix B), so a KEY keeps its tag when its owner name changes. *)
Class DnsLib := {
  KeyTag : KeyData -> Z;
  Data_String : RData -> string;
  Data_Len : RData -> Z;
  DefaultMsgSize : Z;
  RR_String : RR -> string;
}.

(** A string that ends in the tail of a node key, [".+AAA+TTTTT"]. *)
Definition node_tail (s : string) : bool :=
  match s with
  | String d (String p1 (String a1 (String a2 (String a3 (String p2
      (String t1 (String t2 (String t3 (String t4 (String t5 EmptyString)))))))))) =>
      bool_decide (d = "."%char) && bool_decide (p1 = "+"%char) && bool_decide (p2 = "+"%char)
      && forallb is_digit [a1; a2; a3; t1; t2; t3; t4; t5]
  | _ => false
  end.

Definition ends_in_node_tail (s : string) : bool :=
  node_tail (string_drop (String.length s - 11) s).

(** RDATA as the decoder produces it: every domain name in it is fully qualified. *)
Definition fqdn (s : string) : bool := HasSuffix s ".".

Definition rdata_fqdn (d : RData) : bool :=
  match d with
  | RD_SRV _ _ _ n | RD_PTR n | RD_NS n | RD_MD n | RD_MF n | RD_MB n | RD_MG n | RD_MR n
  | RD_MX _ n | RD_AFSDB _ n | RD_RT _ n | RD_NAPTR _ _ _ _ _ n | RD_KX _ n | RD_DNAME n
  | RD_CNAME n => fqdn n
  | RD_MINFO a b | RD_RP a b | RD_PX _ a b => fqdn a && fqdn b
  | _ => true
  end.

(** What the library's documentation promises of them: a key tag is 16 bits, an
    RDATA length is not negative, and the presentation text of RDATA whose names are
    fully qualified does not end in the tail of a node key (a name ends in a dot,
    text is quoted, base64 has no dot). *)
Class DnsLibLaws (L : DnsLib) : Prop := {
  KeyTag_range : forall d, uint16_ok (KeyTag d);
  Data_Len_nonneg : forall d, 0 <= Data_Len d;
  Data_String_tail : forall d, rdata_fqdn d = true -> ends_in_node_tail (Data_String d) = false;
}.

(** A record as the decoder produces it. *)
Definition rr_wf (rr : RR) : bool :=
  rdata_fqdn (RD rr) && (0 <=? Class (Hdr rr)) && (0 <=? RRToType rr).

(** ** A concrete library, for evaluation

    RDATA in presentation form with the names written as they are (the library
    neither escapes nor unescapes them) and every other text quoted; the length is
    that of the text; the key tag is a 16-bit checksum of the RDATA. *)
Module Demo.
Definition quote (s : string) : string := String "034" (s +:+ String "034" "").

Fixpoint checksum (acc : Z) (s : string) : Z :=
  match s with
  | EmptyString => acc
  | String c s => checksum (acc * 31 + Z.of_N (N_of_ascii c)) s
  end.

Definition rdata_text (d : RData) : string :=
  match d with
  | RD_SRV p w q t => fmt_d p +:+ " " +:+ fmt_d w +:+ " " +:+ fmt_d q +:+ " " +:+ t
  | RD_PTR n | RD_NS n | RD_MD n | RD_MF n | RD_MB n | RD_MG n | RD_MR n | RD_DNAME n
  | RD_CNAME n => n
  | RD_MX p n | RD_AFSDB p n | RD_RT p n | RD_KX p n => fmt_d p +:+ " " +:+ n
  | RD_MINFO a b | RD_RP a b => a +:+ " " +:+ b
  | RD_PX p a b => fmt_d p +:+ " " +:+ a +:+ " " +:+ b
  | RD_NAPTR o p f s r n => quote (f +:+ s +:+ r) +:+ " " +:+ n
  | RD_A a | RD_AAAA a => quote (fmt_d a)
  | RD_TXT l => quote (String.concat " " l)
  | RD_KEY k => fmt_d (Flags k) +:+ " " +:+ fmt_d (Protocol k) +:+ " " +:+ fmt_d (Algorithm k)
                  +:+ " " +:+ quote (PublicKey k)
  | RD_RFC3597 _ s | RD_Other _ s => quote s
  | RD_SIG _ | RD_ANY | RD_SOA _ _ _ _ _ _ _ | RD_OPT _ | RD_EDNS0 _ => ""
  end.

Definition lib : DnsLib := {|
  KeyTag d := (checksum (Flags d + 256 * Protocol d + Algorithm d) (PublicKey d)) mod 2 ^ 16;
  Data_String := rdata_text;
  Data_Len d := Z.of_nat (String.length (rdata_text d));
  DefaultMsgSize := 4096;
  RR_String rr := Name (Hdr rr) +:+ " " +:+ rdata_text (RD rr);
|}.

Lemma node_tail_last s c : is_digit c = false -> node_tail (s +:+ String c "") = false.
Proof.
  intros Hc.
  do 10 (destruct s as [|? s]; [sapp; repeat case_match; simplify_eq; try done|]).
  all: try (sapp; repeat case_match; simplify_eq; done).
  destruct s as [|? s]; sapp; [|by destruct (s +:+ String c "") eqn:E; [destruct s|]].
  rewrite Hc. by rewrite !andb_false_r.
Qed.

Lemma ends_in_node_tail_last s c :
  is_digit c = false -> ends_in_node_tail (s +:+ String c "") = false.
Proof.
  intros Hc. unfold ends_in_node_tail.
  set (n := (String.length (s +:+ String c "") - 11)%nat).
  assert (Hn : (n <= String.length s)%nat).
  { unfold n. rewrite string_length_app. simpl. lia. }
  rewrite <- (string_take_drop n s), string_app_assoc.
  rewrite <- (string_take_length n s Hn) at 1. rewrite string_drop_app.
  by apply node_tail_last.
Qed.

Lemma fqdn_tail p n : fqdn n = true -> ends_in_node_tail (p +:+ n) = false.
Proof.
  unfold fqdn. rewrite HasSuffix_spec. intros [q ->]. rewrite <- string_app_assoc.
  by apply ends_in_node_tail_last.
Qed.

Lemma quote_tail p s : ends_in_node_tail (p +:+ quote s) = false.
Proof.
  unfold quote. rewrite <- string_app_cons, <- string_app_assoc.
  by apply ends_in_node_tail_last.
Qed.

Lemma laws : DnsLibLaws lib.
Proof.
  split.
  - intros d. apply Z.mod_pos_bound. done.
  - intros d. simpl. lia.
  - intros d Hd. destruct d; cbn [lib Data_String rdata_text];
      rewrite <- ?string_app_assoc;
      first [apply quote_tail | apply (quote_tail "")
            | apply fqdn_tail; simpl in Hd; by rewrite ?andb_true_iff in Hd; destruct_and?
            | apply (fqdn_tail ""); done | done].
Qed.
End Demo.
