(* ===== verification/NodeIdent.v ===== *)
(** * Node identities: NodeKey, RecordKey and the handlers' key identities

    pkg/lease/state.go ([NodeKey], [NodeKeyFromSIG], [NodeKeyName], [RecordKey],
    [foldRDATANames]) and the identity helpers of the RFC 9664 handler ([keyID],
    [keyRREqual], [rrEqual]).  The store is keyed by the strings built here, so what
    they identify is what the store can tell apart. *)

From Stdlib Require Import Ascii String ZArith Lia.
From S2P Require Import Prelude DnsName DnsData.

Local Open Scope Z_scope.

Section identities.
Context {L : DnsLib}.

(** [fmt.Sprintf("%s.+%03d+%05d", Normalize(signerName), algorithm, keyTag)]. *)
Definition NodeKeyFromSIG (signerName : string) (algorithm keyTag : Z) : string :=
  Normalize signerName +:+ ".+" +:+ fmt_pad 3 algorithm +:+ "+" +:+ fmt_pad 5 keyTag.

Definition NodeKey (k : KEY) : string :=
  Normalize (Name (key_Hdr k)) +:+ ".+" +:+ fmt_pad 3 (Algorithm (key_Data k)) +:+ "+"
    +:+ fmt_pad 5 (KeyTag (key_Data k)).

(** [strings.LastIndex(s, ".+")]. *)
Fixpoint LastIndexDotPlus (s : string) : option nat :=
  match s with
  | EmptyString => None
  | String c rest =>
      match LastIndexDotPlus rest with
      | Some i => Some (S i)
      | None =>
          match rest with
          | String d _ => if bool_decide (c = "."%char) && bool_decide (d = "+"%char) then Some 0%nat else None
          | EmptyString => None
          end
      end
  end.

Definition NodeKeyName (nodeKey : string) : string :=
  match LastIndexDotPlus nodeKey with
  | Some i => if (0 <? i)%nat then string_take i nodeKey else nodeKey
  | None => nodeKey
  end.

(** [foldRDATANames]: the names in the RDATA of RFC 4034 S6.2's types, folded. *)
Definition fold_rdata (d : RData) : RData :=
  match d with
  | RD_NS n => RD_NS (Fold n)
  | RD_MD n => RD_MD (Fold n)
  | RD_MF n => RD_MF (Fold n)
  | RD_MB n => RD_MB (Fold n)
  | RD_MG n => RD_MG (Fold n)
  | RD_MR n => RD_MR (Fold n)
  | RD_PTR n => RD_PTR (Fold n)
  | RD_MINFO a b => RD_MINFO (Fold a) (Fold b)
  | RD_MX p n => RD_MX p (Fold n)
  | RD_RP a b => RD_RP (Fold a) (Fold b)
  | RD_AFSDB s n => RD_AFSDB s (Fold n)
  | RD_RT p n => RD_RT p (Fold n)
  | RD_PX p a b => RD_PX p (Fold a) (Fold b)
  | RD_NAPTR o p f s r n => RD_NAPTR o p f s r (Fold n)
  | RD_KX p n => RD_KX p (Fold n)
  | RD_SRV p w q n => RD_SRV p w q (Fold n)
  | RD_DNAME n => RD_DNAME (Fold n)
  | _ => d
  end.

Definition foldRDATANames (rr : RR) : RR := mkRR (Hdr rr) (fold_rdata (RD rr)).

(** [RecordKey]: the RFC 2136 identity of a non-KEY record, as the source builds it.
    The middle branch is the source's [case uint16(4)]. *)
Definition RecordKey (rr : RR) : string :=
  let name := Fold (Name (Hdr rr)) in
  let class := Class (Hdr rr) in
  let typ := RRToType rr in
  if (typ =? TypeSOA) || (typ =? TypeCNAME) then
    name +:+ " " +:+ fmt_d class +:+ " " +:+ fmt_d typ
  else if typ =? 4 then
    name +:+ " " +:+ fmt_d class +:+ " " +:+ fmt_d typ +:+ " " +:+ Data_String (RD rr)
  else
    let data := RD (foldRDATANames rr) in
    name +:+ " " +:+ fmt_d class +:+ " " +:+ fmt_d typ +:+ " " +:+ fmt_d (Data_Len data)
      +:+ " " +:+ Data_String data.

(** ** Key identities of the RFC 9664 handler *)

Record keyID := mkKeyID { kid_Name : string; kid_Algorithm : Z; kid_KeyTag : Z }.

Global Instance keyID_eq_dec : EqDecision keyID.
Proof. solve_decision. Defined.

Definition keyIDFromKEY (k : KEY) : keyID :=
  mkKeyID (Normalize (Name (key_Hdr k))) (Algorithm (key_Data k)) (KeyTag (key_Data k)).

Definition keyIDFromSIG (sig : SigData) : keyID :=
  mkKeyID (Normalize (SignerName sig)) (sig_Algorithm sig) (sig_KeyTag sig).

Definition keyRREqual (a b : KEY) : bool :=
  if negb (EqualFold (Name (key_Hdr a)) (Name (key_Hdr b))) then false
  else (Flags (key_Data a) =? Flags (key_Data b))
       && (Protocol (key_Data a) =? Protocol (key_Data b))
       && (Algorithm (key_Data a) =? Algorithm (key_Data b))
       && bool_decide (PublicKey (key_Data a) = PublicKey (key_Data b)).

(** [rrEqual]: RFC 2136 equality as the duplicate check against the authoritative
    server uses it. *)
Definition rrEqual (a b : RR) : bool :=
  if negb (EqualFold (Name (Hdr a)) (Name (Hdr b))) then false
  else if negb (Class (Hdr a) =? Class (Hdr b)) then false
  else if negb (RRToType a =? RRToType b) then false
  else
    let typA := RRToType a in
    if typA =? TypeSOA then true
    else if typA =? TypeCNAME then true
    else if typA =? 4 then bool_decide (Data_String (RD a) = Data_String (RD b))
    else if negb (Data_Len (RD a) =? Data_Len (RD b)) then false
    else bool_decide (Data_String (RD a) = Data_String (RD b)).

(** ** Lemmas *)

Lemma NodeKey_SIG k :
  NodeKey k = NodeKeyFromSIG (Name (key_Hdr k)) (Algorithm (key_Data k)) (KeyTag (key_Data k)).
Proof. done. Qed.

(** The part of a node key after the name. *)
Definition node_suffix (alg tag : Z) : string :=
  ".+" +:+ fmt_pad 3 alg +:+ "+" +:+ fmt_pad 5 tag.

Lemma node_suffix_length alg tag : String.length (node_suffix alg tag) = 11%nat.
Proof. unfold node_suffix. by rewrite !string_length_app, !fmt_pad_length. Qed.

Lemma NodeKeyFromSIG_eq n a t : NodeKeyFromSIG n a t = Normalize n +:+ node_suffix a t.
Proof. done. Qed.

Lemma fmt_pad_no_char c w n : is_digit c = false -> no_char c (fmt_pad w n) = true.
Proof.
  intros Hc. eapply string_forallb_impl, fmt_pad_digits. intros x Hx.
  rewrite negb_true_iff, bool_decide_eq_false. congruence.
Qed.

(** A node key never ends in a dot, so normalizing one only folds it. *)
Lemma node_suffix_no_dot_end p a t q : p +:+ node_suffix a t <> q +:+ ".".
Proof.
  unfold node_suffix. cbn [fmt_pad]. rewrite <- !string_app_assoc. intros H.
  apply string_app_length_inj_r in H as [_ H]; [|done].
  apply (f_equal (fun s => match s with String c _ => is_digit c | _ => false end)) in H.
  rewrite is_digit_digit in H; [done|]. apply Z.mod_pos_bound. lia.
Qed.

Lemma fold_non_upper_id s : string_existsb isUpper s = false -> Fold s = s.
Proof.
  rewrite Fold_map. induction s as [|c s IH]; [done|]. simpl.
  rewrite orb_false_iff. intros [Hc Hs]. rewrite (IH Hs). f_equal.
  unfold fold. by rewrite Hc.
Qed.

Lemma digits_not_upper s : string_forallb is_digit s = true -> string_existsb isUpper s = false.
Proof.
  induction s as [|c s IH]; [done|]. rewrite string_forallb_cons, andb_true_iff. simpl.
  intros [Hc Hs]. rewrite (IH Hs), orb_false_r.
  destruct c as [[][][][][][][][]]; vm_compute in Hc |- *; congruence.
Qed.

Lemma node_suffix_Fold a t : Fold (node_suffix a t) = node_suffix a t.
Proof.
  apply fold_non_upper_id. unfold node_suffix.
  rewrite !string_existsb_app, !(digits_not_upper (fmt_pad _ _)) by apply fmt_pad_digits. done.
Qed.

Lemma Normalize_node n a t : Normalize (n +:+ node_suffix a t) = Fold n +:+ node_suffix a t.
Proof.
  unfold Normalize. rewrite Fold_app, node_suffix_Fold. apply TrimSuffixDot_nodot.
  intros p. apply node_suffix_no_dot_end.
Qed.

(** The store normalizes the node keys it is given; on a node key this changes nothing. *)
Lemma Normalize_NodeKeyFromSIG n a t : Normalize (NodeKeyFromSIG n a t) = NodeKeyFromSIG n a t.
Proof. rewrite NodeKeyFromSIG_eq, Normalize_node, Fold_Normalize. done. Qed.

Lemma Normalize_NodeKey k : Normalize (NodeKey k) = NodeKey k.
Proof. apply Normalize_NodeKeyFromSIG. Qed.

Lemma NodeKeyFromSIG_ne n a t : NodeKeyFromSIG n a t <> "".
Proof.
  rewrite NodeKeyFromSIG_eq. intros H. apply (f_equal String.length) in H.
  rewrite string_length_app, node_suffix_length in H. simpl in H. lia.
Qed.

Lemma NodeKey_ne k : NodeKey k <> "".
Proof. apply NodeKeyFromSIG_ne. Qed.

(** A node key determines the name, the algorithm and the tag. *)
Lemma NodeKeyFromSIG_inj n1 a1 t1 n2 a2 t2 :
  uint8_ok a1 -> uint8_ok a2 -> uint16_ok t1 -> uint16_ok t2 ->
  NodeKeyFromSIG n1 a1 t1 = NodeKeyFromSIG n2 a2 t2 ->
  Normalize n1 = Normalize n2 /\ a1 = a2 /\ t1 = t2.
Proof.
  unfold uint8_ok, uint16_ok. intros ???? H. rewrite !NodeKeyFromSIG_eq in H.
  apply string_app_length_inj_r in H as [-> H]; [|by rewrite !node_suffix_length].
  unfold node_suffix in H. apply string_app_length_inj in H as [_ H]; [|done].
  apply string_app_length_inj in H as [Ha H]; [|by rewrite !fmt_pad_length].
  apply string_app_length_inj in H as [_ Ht]; [|done].
  apply fmt_pad_inj in Ha; [|simpl; lia..]. apply fmt_pad_inj in Ht; [|simpl; lia..]. done.
Qed.

Lemma LastIndexDotPlus_nodot s : no_char "." s = true -> LastIndexDotPlus s = None.
Proof.
  induction s as [|c s IH]; [done|]. rewrite no_char_cons, andb_true_iff. intros [Hc Hs].
  simpl. rewrite (IH Hs). destruct s as [|d s]; [done|].
  rewrite negb_true_iff, bool_decide_eq_false in Hc. by rewrite bool_decide_false.
Qed.

Lemma LastIndexDotPlus_node n tl :
  no_char "." tl = true ->
  LastIndexDotPlus (n +:+ String "." (String "+" tl)) = Some (String.length n).
Proof.
  intros Htl. induction n as [|c n IH]; sapp.
  - rewrite (LastIndexDotPlus_nodot tl Htl). simpl. by destruct tl.
  - by rewrite IH.
Qed.

Lemma NodeKeyName_node n a t :
  Normalize n <> "" -> NodeKeyName (NodeKeyFromSIG n a t) = Normalize n.
Proof.
  intros Hn. rewrite NodeKeyFromSIG_eq. unfold NodeKeyName, node_suffix.
  change (".+" +:+ fmt_pad 3 a +:+ "+" +:+ fmt_pad 5 t)
    with (String "." (String "+" (fmt_pad 3 a +:+ "+" +:+ fmt_pad 5 t))).
  rewrite LastIndexDotPlus_node.
  2:{ by rewrite !no_char_app, !fmt_pad_no_char. }
  destruct (Normalize n) as [|c s] eqn:E; [done|]. cbn [String.length].
  rewrite (proj2 (Nat.ltb_lt _ _)) by lia.
  apply (string_take_app (String c s)).
Qed.

Lemma keyID_NodeKey k sig :
  keyIDFromKEY k = keyIDFromSIG sig ->
  NodeKey k = NodeKeyFromSIG (SignerName sig) (sig_Algorithm sig) (sig_KeyTag sig).
Proof.
  unfold keyIDFromKEY, keyIDFromSIG. intros [= Hn Ha Ht].
  rewrite NodeKey_SIG. unfold NodeKeyFromSIG. by rewrite Hn, Ha, Ht.
Qed.

(** ** The identity a record key stands for *)

(** NAME, CLASS, TYPE and, except for SOA and CNAME, RDLENGTH and RDATA. *)
Definition record_ident (rr : RR) : string * Z * Z * option (Z * string) :=
  let typ := RRToType rr in
  (Fold (Name (Hdr rr)), Class (Hdr rr), typ,
   if (typ =? TypeSOA) || (typ =? TypeCNAME) then None
   else if typ =? 4 then Some (0, Data_String (RD rr))
   else Some (Data_Len (RD (foldRDATANames rr)), Data_String (RD (foldRDATANames rr)))).

Lemma RecordKey_ident rr1 rr2 : record_ident rr1 = record_ident rr2 -> RecordKey rr1 = RecordKey rr2.
Proof.
  unfold record_ident, RecordKey. intros H. injection H as Hn Hc Ht Hd.
  rewrite <- Hn, <- Hc. rewrite <- Ht in Hd |- *.
  destruct ((RRToType rr1 =? TypeSOA) || (RRToType rr1 =? TypeCNAME)); [done|].
  destruct (RRToType rr1 =? 4).
  - injection Hd as ->. done.
  - cbn [foldRDATANames RD] in Hd |- *. injection Hd as -> ->. done.
Qed.

Lemma RecordKey_ne rr : RecordKey rr <> "".
Proof.
  intros H. unfold RecordKey in H. apply (f_equal String.length) in H.
  repeat case_match; rewrite !string_length_app in H; simpl in H; lia.
Qed.

Lemma fold_rdata_type d : rdata_type (fold_rdata d) = rdata_type d.
Proof. by destruct d. Qed.

Lemma fqdn_Fold n : fqdn (Fold n) = fqdn n.
Proof.
  unfold fqdn. apply Bool.eq_iff_eq_true. rewrite !HasSuffix_spec. apply Fold_dot_suffix.
Qed.

Lemma fold_rdata_fqdn d : rdata_fqdn (fold_rdata d) = rdata_fqdn d.
Proof. destruct d; simpl; by rewrite ?fqdn_Fold. Qed.
End identities.

(** ** Theorems *)

Section theorems.
Context {L : DnsLib} {LL : DnsLibLaws L}.

(** Record keys and node keys are different strings: a record key's last field is
    preceded by a space, which the 11-byte tail of a node key does not contain. *)
Lemma suffix_space p d n a t :
  ends_in_node_tail d = false -> p +:+ " " +:+ d <> n +:+ node_suffix a t.
Proof.
  intros Hd H. unfold ends_in_node_tail in Hd.
  destruct (decide (11 <= String.length d)%nat) as [Hl|Hl].
  - rewrite <- (string_take_drop (String.length d - 11) d), <- !string_app_assoc in H.
    apply string_app_length_inj_r in H as [_ H].
    2:{ rewrite string_drop_length, node_suffix_length. lia. }
    rewrite H in Hd. clear -Hd. unfold node_suffix in Hd.
    cbn [fmt_pad] in Hd. rewrite !string_app_assoc in Hd. sapp.
    assert (Hm : forall x, is_digit (digit (x mod 10)) = true).
    { intros x. apply is_digit_digit, Z.mod_pos_bound. lia. }
    revert Hd. unfold node_tail. repeat (progress (cbn; rewrite ?string_app_cons, ?string_app_nil_l)).
    rewrite !Hm. done.
  - (* the space lies inside the tail *)
    assert (Hsp : no_char " " (node_suffix a t) = true).
    { unfold node_suffix. rewrite !no_char_app, !fmt_pad_no_char by done. done. }
    assert (Hlen : String.length p = (String.length n + (10 - String.length d))%nat).
    { apply (f_equal String.length) in H. rewrite !string_length_app, node_suffix_length in H.
      simpl in H. lia. }
    assert (exists q, p = n +:+ q) as [q ->].
    { rewrite <- (string_take_drop (String.length n) p) in H |- *. rewrite string_app_assoc in H.
      apply string_app_length_inj in H as [Ht _]; [|rewrite string_take_length; lia].
      rewrite Ht. by eexists. }
    rewrite string_app_assoc in H. apply string_app_length_inj in H as [_ H]; [|done].
    rewrite <- H, !no_char_app in Hsp. simpl in Hsp. by rewrite andb_false_r in Hsp.
Qed.

Lemma fmt_d_tail n : ends_in_node_tail (fmt_d n) = false.
Proof.
  unfold ends_in_node_tail. destruct (node_tail _) eqn:E; [|done]. exfalso.
  assert (Hdot : no_char "." (fmt_d n) = true) by by apply fmt_d_no_char.
  rewrite <- (string_take_drop (String.length (fmt_d n) - 11) (fmt_d n)), no_char_app in Hdot.
  destruct (string_drop _ _) as [|c s]; [done|]. rewrite no_char_cons in Hdot.
  unfold node_tail in E. repeat case_match; try done.
  rewrite !andb_true_iff, !bool_decide_eq_true in E. destruct_and?. subst.
  rewrite bool_decide_true in * by done. simpl in *. rewrite !andb_false_r in *. done.
Qed.

Lemma RecordKey_not_node rr n a t : rr_wf rr = true -> RecordKey rr <> NodeKeyFromSIG n a t.
Proof.
  unfold rr_wf. rewrite !andb_true_iff. intros [[Hf _] _]. rewrite NodeKeyFromSIG_eq.
  unfold RecordKey. repeat case_match; rewrite <- !string_app_assoc.
  - rewrite (string_app_assoc _ " "). apply suffix_space, fmt_d_tail.
  - rewrite (string_app_assoc _ " "). apply suffix_space. by apply Data_String_tail.
  - rewrite (string_app_assoc _ " "). apply suffix_space, Data_String_tail.
    cbn [foldRDATANames RD]. by rewrite fold_rdata_fqdn.
Qed.

(** A record key is the printed identity. *)
Definition print_ident (n : string) (c t : Z) (d : option (Z * string)) : string :=
  n +:+ String " " (fmt_d c +:+ String " " (fmt_d t +:+
    match d with
    | None => ""
    | Some (l, s) => if t =? 4 then String " " s else String " " (fmt_d l +:+ String " " s)
    end)).

Lemma RecordKey_print rr :
  RecordKey rr = (fun i => print_ident i.1.1.1 i.1.1.2 i.1.2 i.2) (record_ident rr).
Proof.
  unfold RecordKey, record_ident, print_ident. cbn [fst snd].
  destruct (_ || _); [by rewrite string_app_nil_r|]. by destruct (RRToType rr =? 4).
Qed.

Lemma Fold_no_space s : no_char " " s = true -> no_char " " (Fold s) = true.
Proof.
  rewrite Fold_map. induction s as [|c s IH]; [done|]. simpl.
  rewrite !no_char_cons, !andb_true_iff, !negb_true_iff, !bool_decide_eq_false.
  intros [Hc Hs]. split; [|auto].
  destruct c as [[][][][][][][][]]; vm_compute; vm_compute in Hc; congruence.
Qed.

Lemma print_ident_inj n1 c1 t1 d1 n2 c2 t2 d2 :
  no_char " " n1 = true -> no_char " " n2 = true ->
  0 <= c1 -> 0 <= c2 -> 0 <= t1 -> 0 <= t2 ->
  print_ident n1 c1 t1 d1 = print_ident n2 c2 t2 d2 ->
  n1 = n2 /\ c1 = c2 /\ t1 = t2 /\
  match d1, d2 with
  | None, None => True
  | Some (l1, s1), Some (l2, s2) =>
      if t1 =? 4 then s1 = s2 else 0 <= l1 -> 0 <= l2 -> l1 = l2 /\ s1 = s2
  | _, _ => False
  end.
Proof.
  assert (Hsp : forall n, no_char " " (fmt_d n) = true) by (intros; by apply fmt_d_no_char).
  intros N1 N2 C1 C2 T1 T2. unfold print_ident.
  intros [-> H]%split_field; [|done..]. split; [done|].
  apply split_field in H as [Hc H]; [|done..]. apply fmt_d_inj in Hc as ->; [|done..].
  split; [done|].
  assert (Hno : forall n s t, no_char " " s = true -> s <> fmt_d n +:+ String " " t).
  { intros n s t Hs ->. rewrite no_char_app in Hs. simpl in Hs. by rewrite andb_false_r in Hs. }
  destruct d1 as [[l1 s1]|], d2 as [[l2 s2]|].
  - assert (t1 = t2) as <-.
    { destruct (t1 =? 4), (t2 =? 4); apply split_field in H as [Ht _]; auto using fmt_d_inj. }
    split; [done|]. destruct (t1 =? 4); apply split_field in H as [_ H]; auto.
    intros L1 L2. apply split_field in H as [Hl ->]; auto using fmt_d_inj.
  - rewrite string_app_nil_r in H. symmetry in H. destruct (t1 =? 4); by apply Hno in H.
  - rewrite string_app_nil_r in H. destruct (t2 =? 4); by apply Hno in H.
  - rewrite !string_app_nil_r in H. auto using fmt_d_inj.
Qed.

(** A KEY node's key is its identity: two KEYs have the same node key exactly
    when their normalized owner names, algorithms and key tags agree; the node key
    computed from a SIG(0)'s signer fields is that of the KEY it names; and the
    name is read back from the key by [NodeKeyName], whatever bytes it holds. *)
Theorem NodeKey_identity (k1 k2 : KEY) :
  uint8_ok (Algorithm (key_Data k1)) -> uint8_ok (Algorithm (key_Data k2)) ->
  (NodeKey k1 = NodeKey k2 <-> keyIDFromKEY k1 = keyIDFromKEY k2) /\
  NodeKeyFromSIG (Name (key_Hdr k1)) (Algorithm (key_Data k1)) (KeyTag (key_Data k1)) = NodeKey k1 /\
  (Normalize (Name (key_Hdr k1)) <> "" -> NodeKeyName (NodeKey k1) = Normalize (Name (key_Hdr k1))).
Proof.
  intros H1 H2. split_and!; [|done|apply NodeKeyName_node].
  unfold keyIDFromKEY. split.
  - intros H. rewrite !NodeKey_SIG in H.
    apply NodeKeyFromSIG_inj in H as (-> & -> & ->); auto using KeyTag_range.
  - intros [= Hn Ha Ht]. unfold NodeKey. by rewrite Hn, Ha, Ht.
Qed.

(** A record key is the RFC 2136 S1.1 identity of a record: for records whose
    owner names hold no space, two keys are equal exactly when folded NAME, CLASS,
    TYPE and (except for SOA and CNAME) RDLENGTH and RDATA are; the TTL never
    matters.  And no record key is the node key of a KEY. *)
Theorem RecordKey_identity (rr1 rr2 : RR) (k : KEY) (ttl : Z) :
  rr_wf rr1 = true -> rr_wf rr2 = true ->
  no_char " " (Name (Hdr rr1)) = true -> no_char " " (Name (Hdr rr2)) = true ->
  (RecordKey rr1 = RecordKey rr2 <-> record_ident rr1 = record_ident rr2) /\
  RecordKey (set_TTL ttl rr1) = RecordKey rr1 /\
  RecordKey rr1 <> NodeKey k.
Proof.
  intros W1 W2 N1 N2. split_and!; [|done|by apply RecordKey_not_node].
  split; [|apply RecordKey_ident].
  unfold rr_wf in W1, W2. rewrite !andb_true_iff, !Z.leb_le in W1, W2. destruct_and?.
  rewrite !RecordKey_print. unfold record_ident. cbn [fst snd].
  intros (-> & -> & Ht & Hd)%print_ident_inj; [|by auto using Fold_no_space..].
  rewrite <- Ht in Hd |- *. repeat case_match; try done.
  - by simplify_eq.
  - simplify_eq. by destruct Hd as [-> ->]; auto using Data_Len_nonneg.
Qed.
End theorems.

(** ** Concrete records *)

Definition ex_key : KEY :=
  mkKEY (mkHeader "Host.Example.org." 1 300) (mkKeyData 512 3 15 "abc").

Definition ex_srv : RR :=
  mkRR (mkHeader "_x._tcp.example.org." 1 120) (RD_SRV 0 0 80 "Host.example.org.").

Lemma NodeKey_identity_witness :
  let _ := Demo.lib in
  (NodeKey ex_key = NodeKey ex_key <-> keyIDFromKEY ex_key = keyIDFromKEY ex_key) /\
  NodeKeyFromSIG (Name (key_Hdr ex_key)) (Algorithm (key_Data ex_key)) (KeyTag (key_Data ex_key))
    = NodeKey ex_key /\
  (Normalize (Name (key_Hdr ex_key)) <> "" ->
   NodeKeyName (NodeKey ex_key) = Normalize (Name (key_Hdr ex_key))).
Proof. exact (NodeKey_identity (LL := Demo.laws) ex_key ex_key ltac:(done) ltac:(done)). Defined.

Lemma RecordKey_identity_witness :
  let _ := Demo.lib in
  (RecordKey ex_srv = RecordKey ex_srv <-> record_ident ex_srv = record_ident ex_srv) /\
  RecordKey (set_TTL 5 ex_srv) = RecordKey ex_srv /\
  RecordKey ex_srv <> NodeKey ex_key.
Proof.
  exact (RecordKey_identity (LL := Demo.laws) ex_srv ex_srv ex_key 5
           ltac:(done) ltac:(done) ltac:(done) ltac:(done)).
Defined.

(** ** Where the identities are weaker than their documentation *)

(** An SRV whose target holds spaces and a PTR whose owner does have one key. *)
Definition spaced_srv : RR := mkRR (mkHeader "x." 1 0) (RD_SRV 0 0 80 "y. 1 12 2 z.").
Definition spaced_ptr : RR := mkRR (mkHeader "x. 1 33 19 0 0 80 y." 1 0) (RD_PTR "z.").

(** The record key is not an identity for names that hold spaces, which the
    library neither escapes nor unescapes: two records of different types at
    different names have the same key. *)
Theorem RecordKey_space_collision :
  let _ := Demo.lib in
  rr_wf spaced_srv = true /\ rr_wf spaced_ptr = true /\
  RRToType spaced_srv <> RRToType spaced_ptr /\
  RecordKey spaced_srv = RecordKey spaced_ptr.
Proof. cbn zeta. split_and!; by vm_compute. Qed.

(** The authoritative-server duplicate check compares names inside RDATA byte
    for byte while the store folds them: it tells apart two records that the store
    keeps under one key. *)
Theorem rrEqual_finer_than_RecordKey :
  let _ := Demo.lib in
  let srv' := mkRR (Hdr ex_srv) (RD_SRV 0 0 80 "host.EXAMPLE.org.") in
  RecordKey ex_srv = RecordKey srv' /\ rrEqual ex_srv srv' = false.
Proof. cbn zeta. split; by vm_compute. Qed.
