(* ===== verification/LeaseStore.v ===== *)
(** * The lease store: the tree of KEY and non-KEY nodes

    pkg/lease/state.go, [InMemoryLeaseStore]: the two node maps, the name index and
    the parent/child edges, and every operation of the [LeaseStorage] interface on
    them except the snapshot ones (file LeaseSnapshot).  One definition per method; the
    body of a method runs with the store's mutex held, so it is one state
    transition.  The clock is an argument ([now], nanoseconds), a Go map is a
    [gmap] (the iteration order Go leaves open is that of [elements]), and the
    persistence hook is a flag with the log of its calls. *)

From Stdlib Require Import Ascii String ZArith Lia.
From S2P Require Import Prelude DnsName DnsData NodeIdent.

Local Open Scope Z_scope.

(** ** State *)

Inductive NodeKind := NodeKindKEY | NodeKindNonKEY.

Record BaseRecord := mkBase {
  b_NodeKind : NodeKind;
  b_RRType : Z;
  b_ExpiresAt : Z;
  b_LeaseDuration : Z;
  b_RegisteredAt : Z;
  b_ParentKeyName : string }.

(** The source's [Record] (alias [KEYRecord]). *)
Record KEYRecord := mkKEYRecord {
  k_base : BaseRecord;
  KeyName : string;
  KeyRR : KEY;
  KeyLeaseDuration : Z;
  k_UpstreamZone : string }.

Record NonKEYRecord := mkNonKEYRecord {
  n_base : BaseRecord;
  RRKey : string;
  n_RR : RR;
  n_UpstreamZone : string }.

Record NonKEYRecordSet := mkNonKEYRecordSet {
  set_Records : gmap string NonKEYRecord;
  set_UpstreamZone : string }.

Definition k_Parent (r : KEYRecord) : string := b_ParentKeyName (k_base r).
Definition k_ExpiresAt (r : KEYRecord) : Z := b_ExpiresAt (k_base r).
Definition n_Parent (r : NonKEYRecord) : string := b_ParentKeyName (n_base r).
Definition n_ExpiresAt (r : NonKEYRecord) : Z := b_ExpiresAt (n_base r).

Record Store := mkStore {
  leases : gmap string KEYRecord;
  nonKeyRecords : gmap string NonKEYRecord;
  nameIdx : gmap string (list string);
  children : gmap string (gset string);
  persistenceHook : bool;
  hookLog : list (string * KEYRecord) }.

Definition NewInMemoryManager : Store := mkStore ∅ ∅ ∅ ∅ false [].

Definition set_children (ch : gmap string (gset string)) (st : Store) : Store :=
  mkStore (leases st) (nonKeyRecords st) (nameIdx st) ch (persistenceHook st) (hookLog st).

(** [m.children[k]], the empty set when there is no entry. *)
Definition kids (st : Store) (k : string) : gset string := default ∅ (children st !! k).

(** [if m.persistenceHook != nil { _ = m.persistenceHook(ctx, op, cloneRecord(r)) }]. *)
Definition call_hook (op : string) (r : KEYRecord) (st : Store) : Store :=
  if persistenceHook st then
    mkStore (leases st) (nonKeyRecords st) (nameIdx st) (children st) true (hookLog st ++ [(op, r)])
  else st.

Definition second : Z := 1000000000.

(** [time.Now().After(r.ExpiresAt)]. *)
Definition IsExpired (now : Z) (r : KEYRecord) : bool := k_ExpiresAt r <? now.

Definition TimeRemaining (now : Z) (r : KEYRecord) : Z :=
  let remaining := k_ExpiresAt r - now in if remaining <? 0 then 0 else remaining.

(** ** Edges *)

Definition attachNodeLocked (nodeKey parentNodeKey : string) (st : Store) : Store :=
  if bool_decide (parentNodeKey = "") then st
  else set_children (<[parentNodeKey := {[nodeKey]} ∪ kids st parentNodeKey]> (children st)) st.

Definition detachNodeLocked (nodeKey parentNodeKey : string) (st : Store) : Store :=
  if bool_decide (parentNodeKey = "") then st
  else
    match children st !! parentNodeKey with
    | None => st
    | Some ks =>
        let ks := ks ∖ {[nodeKey]} in
        if bool_decide (ks = ∅) then set_children (delete parentNodeKey (children st)) st
        else set_children (<[parentNodeKey := ks]> (children st)) st
    end.

Section store.
Context {L : DnsLib}.

(** ** KEY lease lifecycle *)

Definition set_leases (ls : gmap string KEYRecord) (st : Store) : Store :=
  mkStore ls (nonKeyRecords st) (nameIdx st) (children st) (persistenceHook st) (hookLog st).

Definition set_nonKey (nk : gmap string NonKEYRecord) (st : Store) : Store :=
  mkStore (leases st) nk (nameIdx st) (children st) (persistenceHook st) (hookLog st).

Definition set_nameIdx (ni : gmap string (list string)) (st : Store) : Store :=
  mkStore (leases st) (nonKeyRecords st) ni (children st) (persistenceHook st) (hookLog st).

Definition RegisterWithParent (now : Z) (parentNodeKey : string) (keyRR : option KEY)
    (leaseDuration keyLeaseDuration : Z) (upstreamZone : string) (st : Store) : result Store :=
  match keyRR with
  | None => Err "key rr is nil"
  | Some keyRR =>
      let dnsName := Normalize (Name (key_Hdr keyRR)) in
      if bool_decide (dnsName = "") then Err "key name is empty"
      else
        let nodeKey := NodeKey keyRR in
        let parentNodeKey := Normalize parentNodeKey in
        let parentNodeKey := if bool_decide (parentNodeKey = nodeKey) then "" else parentNodeKey in
        if negb (bool_decide (parentNodeKey = ""))
           && bool_decide (is_Some (nonKeyRecords st !! parentNodeKey))
        then Err "a non-KEY record can never be a parent"
        else
          let upstreamZone := Normalize upstreamZone in
          let record :=
            mkKEYRecord
              (mkBase NodeKindKEY (RRToType (KEY_RR keyRR)) (now + leaseDuration * second)
                 leaseDuration now parentNodeKey)
              dnsName keyRR keyLeaseDuration upstreamZone in
          let st1 :=
            match leases st !! nodeKey with
            | Some existing => detachNodeLocked nodeKey (k_Parent existing) st
            | None =>
                set_nameIdx (<[dnsName := default [] (nameIdx st !! dnsName) ++ [nodeKey]]> (nameIdx st)) st
            end in
          let st2 := set_leases (<[nodeKey := record]> (leases st1)) st1 in
          let st3 := attachNodeLocked nodeKey parentNodeKey st2 in
          Ok (call_hook "register" record st3)
  end.

Definition Register (now : Z) (keyRR : option KEY) (leaseDuration keyLeaseDuration : Z)
    (upstreamZone : string) (st : Store) : result Store :=
  RegisterWithParent now "" keyRR leaseDuration keyLeaseDuration upstreamZone st.

Definition RenewLease (now : Z) (keyRR : option KEY) (leaseDuration keyLeaseDuration : Z)
    (st : Store) : result Store :=
  match keyRR with
  | None => Err "key rr is nil"
  | Some keyRR =>
      let nodeKey := NodeKey keyRR in
      match leases st !! nodeKey with
      | None => Err "no existing lease to renew"
      | Some existing =>
          let b := k_base existing in
          let existing' :=
            mkKEYRecord
              (mkBase (b_NodeKind b) (b_RRType b) (now + leaseDuration * second) leaseDuration
                 (b_RegisteredAt b) (b_ParentKeyName b))
              (KeyName existing) keyRR keyLeaseDuration (k_UpstreamZone existing) in
          Ok (call_hook "renew" existing' (set_leases (<[nodeKey := existing']> (leases st)) st))
      end
  end.

Definition FindByName (now : Z) (dnsName : string) (st : Store) : list KEYRecord :=
  let dnsName := Normalize dnsName in
  omap (fun nodeKey =>
          rec ← leases st !! nodeKey; if negb (IsExpired now rec) then Some rec else None)
       (default [] (nameIdx st !! dnsName)).

(** [m.leases[key]] when present and not expired. *)
Definition lookup_live (now : Z) (key : string) (st : Store) : option KEYRecord :=
  rec ← leases st !! key; if IsExpired now rec then None else Some rec.

Definition LookupByKEY (now : Z) (k : KEY) (st : Store) : option KEYRecord :=
  lookup_live now (NodeKey k) st.

Definition LookupBySIG (now : Z) (signerName : string) (algorithm keyTag : Z) (st : Store)
    : option KEYRecord :=
  lookup_live now (NodeKeyFromSIG signerName algorithm keyTag) st.

Definition Get (nodeKey : string) (st : Store) : option KEYRecord :=
  leases st !! Normalize nodeKey.

(** ** The tree *)

(** The loop of [deleteSubtreeLocked]: the stack's top is the head of the list; a
    node is marked when it is popped. *)
Fixpoint subtree_loop (fuel : nat) (ch : gmap string (gset string)) (stack : list string)
    (seen : gset string) : option (gset string) :=
  match stack with
  | [] => Some seen
  | current :: stack =>
      match fuel with
      | O => None
      | S fuel =>
          if bool_decide (current ∈ seen) then subtree_loop fuel ch stack seen
          else subtree_loop fuel ch (rev (elements (default ∅ (ch !! current))) ++ stack)
                 ({[current]} ∪ seen)
      end
  end.

(** Edges of the tree; the loops pop at most one node per edge and the root. *)
Definition edge_count (ch : gmap string (gset string)) : nat :=
  map_fold (fun _ ks n => size ks + n)%nat 0%nat ch.

Definition longer_first (a b : string) : Prop := (String.length b <= String.length a)%nat.

Global Instance longer_first_dec : RelDecision longer_first.
Proof. intros a b. unfold longer_first. apply _. Defined.

(** The body of the deletion loop for one key. *)
Definition deleteNode (key : string) (st : Store) : Store :=
  let st1 :=
    match leases st !! key with
    | Some rec =>
        let st := detachNodeLocked key (k_Parent rec) st in
        let st := call_hook "delete" rec st in
        let st := set_leases (delete key (leases st)) st in
        let dnsName := NodeKeyName key in
        match default [] (nameIdx st !! dnsName) with
        | [] => st
        | existing =>
            match filter (fun nk => nk <> key) existing with
            | [] => set_nameIdx (delete dnsName (nameIdx st)) st
            | updated => set_nameIdx (<[dnsName := updated]> (nameIdx st)) st
            end
        end
    | None =>
        match nonKeyRecords st !! key with
        | Some nkRec =>
            let st := detachNodeLocked key (n_Parent nkRec) st in
            set_nonKey (delete key (nonKeyRecords st)) st
        | None => st
        end
    end in
  set_children (delete key (children st1)) st1.

Definition deleteKeys (keys : list string) (st : Store) : Store :=
  foldl (fun st key => deleteNode key st) st keys.

Definition deleteSubtreeLocked (rootKey : string) (st : Store) : option Store :=
  seen ← subtree_loop (S (edge_count (children st))) (children st) [rootKey] ∅;
  Some (deleteKeys (merge_sort longer_first (elements seen)) st).

(** [None] is a loop that did not end; [DeleteSubtree_total] excludes it. *)
Definition DeleteSubtree (nodeKey : string) (st : Store) : option (result Store) :=
  let nk := Normalize nodeKey in
  if bool_decide (nk = "") then Some (Err "node key is empty")
  else st' ← deleteSubtreeLocked nk st; Some (Ok st').

Definition Delete (nodeKey : string) (st : Store) : option (result Store) := DeleteSubtree nodeKey st.

Definition ChildrenOf (nodeKey : string) (st : Store) : list string :=
  let set := kids st (Normalize nodeKey) in
  if (size set =? 0)%nat then [] else merge_sort String.le (elements set).

(** The inner loop of [ListSubtreeKeys] over one node's children. *)
Definition visit_children (cs : list string) (acc : list string * list string * gset string)
    : list string * list string * gset string :=
  foldl (fun '(all, stack, visited) child =>
           if bool_decide (child ∈ visited) then (all, stack, visited)
           else (all ++ [child], child :: stack, {[child]} ∪ visited))
        acc cs.

Fixpoint list_loop (fuel : nat) (ch : gmap string (gset string)) (stack all : list string)
    (visited : gset string) : option (list string) :=
  match stack with
  | [] => Some all
  | cur :: stack =>
      match fuel with
      | O => None
      | S fuel =>
          let '(all, stack, visited) :=
            visit_children (elements (default ∅ (ch !! cur))) (all, stack, visited) in
          list_loop fuel ch stack all visited
      end
  end.

Definition ListSubtreeKeys (nodeKey : string) (st : Store) : option (list string) :=
  let nk := Normalize nodeKey in
  all ← list_loop (S (edge_count (children st))) (children st) [nk] [] {[nk]};
  Some (merge_sort longer_first all).

Definition ListAll (st : Store) : list KEYRecord := map snd (map_to_list (leases st)).

Definition ListOwners (st : Store) : list string :=
  let seen := map fst (map_to_list (leases st)) in
  let owners := map (fun kv => n_Parent kv.2) (map_to_list (nonKeyRecords st)) in
  merge_sort String.le (elements (list_to_set (seen ++ owners) : gset string)).

Definition SetPersistenceHook (hook : bool) (st : Store) : Store :=
  mkStore (leases st) (nonKeyRecords st) (nameIdx st) (children st) hook (hookLog st).

(** ** Non-KEY record sets *)

(** The validation loop of [UpsertNonKEYRecords]: the candidates, or the error. *)
Definition upsert_check (ownerNodeKey : string) (st : Store) (records : list RR)
    : result (list (string * RR)) :=
  foldM (fun toApply rr =>
           let id := RecordKey rr in
           if bool_decide (id = "") then Ok toApply
           else
             match nonKeyRecords st !! id with
             | Some existing =>
                 if bool_decide (n_Parent existing = ownerNodeKey) then Ok (toApply ++ [(id, rr)])
                 else Err "non-KEY record is already registered under a different owner"
             | None => Ok (toApply ++ [(id, rr)])
             end)
        [] records.

(** The application loop's body for one candidate. *)
Definition upsert_one (now : Z) (ownerNodeKey : string) (leaseDuration : Z) (zone : string)
    (st : Store) (c : string * RR) : Store :=
  let '(id, rr) := c in
  let base parent :=
    mkBase NodeKindNonKEY (RRToType rr) (now + leaseDuration * second) leaseDuration now parent in
  match nonKeyRecords st !! id with
  | Some entry =>
      set_nonKey
        (<[id := mkNonKEYRecord
                   (mkBase (b_NodeKind (n_base entry)) (RRToType rr) (now + leaseDuration * second)
                      leaseDuration now (n_Parent entry))
                   (RRKey entry) rr zone]> (nonKeyRecords st)) st
  | None =>
      let st := attachNodeLocked id ownerNodeKey st in
      set_nonKey (<[id := mkNonKEYRecord (base ownerNodeKey) id rr zone]> (nonKeyRecords st)) st
  end.

Definition UpsertNonKEYRecords (now : Z) (ownerNodeKey : string) (records : list RR)
    (leaseDuration : Z) (upstreamZone : string) (st : Store) : result Store :=
  let ownerNodeKey := Normalize ownerNodeKey in
  if bool_decide (ownerNodeKey = "") then Err "owner key name is empty"
  else
    toApply ← upsert_check ownerNodeKey st records;
    Ok (foldl (upsert_one now ownerNodeKey leaseDuration (Normalize upstreamZone)) st toApply).

Definition RemoveNonKEYRecords (ownerNodeKey : string) (st : Store) : Store :=
  let ownerNodeKey := Normalize ownerNodeKey in
  let ks := kids st ownerNodeKey in
  let '(nk, ks') :=
    foldl (fun '(nk, ks') childID =>
             if bool_decide (is_Some (nk !! childID)) then (delete childID nk, ks' ∖ {[childID]})
             else (nk, ks'))
          (nonKeyRecords st, ks) (elements ks) in
  let ch := match children st !! ownerNodeKey with
            | Some _ => <[ownerNodeKey := ks']> (children st) | None => children st end in
  let ch := if (size ks' =? 0)%nat then delete ownerNodeKey ch else ch in
  set_children ch (set_nonKey nk st).

Definition RemoveSingleNonKEYRecord (ownerNodeKey rrKey : string) (st : Store) : result Store :=
  let ownerNodeKey := Normalize ownerNodeKey in
  match nonKeyRecords st !! rrKey with
  | None => Ok st
  | Some entry =>
      if negb (bool_decide (n_Parent entry = ownerNodeKey)) then Err "non-KEY record is not owned by"
      else
        let st := set_nonKey (delete rrKey (nonKeyRecords st)) st in
        match children st !! ownerNodeKey with
        | None => Ok st
        | Some ks =>
            let ks := ks ∖ {[rrKey]} in
            Ok (set_children
                  (if (size ks =? 0)%nat then delete ownerNodeKey (children st)
                   else <[ownerNodeKey := ks]> (children st)) st)
        end
  end.

Definition GetNonKEYRecordSet (ownerNodeKey : string) (st : Store) : option NonKEYRecordSet :=
  let ks := kids st (Normalize ownerNodeKey) in
  if (size ks =? 0)%nat then None
  else
    let '(records, zone) :=
      foldl (fun '(records, zone) childID =>
               match nonKeyRecords st !! childID with
               | None => (records, zone)
               | Some rec => (<[childID := rec]> records, n_UpstreamZone rec)
               end)
            (∅, "") (elements ks) in
    if (size records =? 0)%nat then None else Some (mkNonKEYRecordSet records zone).

Definition LookupNonKEYRecord (rr : RR) (st : Store) : option NonKEYRecord :=
  let id := RecordKey rr in
  if bool_decide (id = "") then None else nonKeyRecords st !! id.
End store.
