(* ===== verification/LeaseTree.v ===== *)
(** * The tree walks of the lease store

    The two depth-first walks of pkg/lease/state.go ([ListSubtreeKeys] and the
    collection loop of [deleteSubtreeLocked]) terminate within one step per edge
    and the root, whatever the shape of the edges (cycles included), and visit
    exactly the nodes reachable from where they start. *)

From Stdlib Require Import Ascii String ZArith Lia.
From S2P Require Import Prelude DnsName DnsData NodeIdent LeaseStore.

Definition edge (ch : gmap string (gset string)) (p c : string) : Prop := c ∈ default ∅ (ch !! p).

(** The nodes at or below [root]. *)
Definition reach (ch : gmap string (gset string)) (root x : string) : Prop := rtc (edge ch) root x.

Lemma edge_count_insert ch p ks :
  ch !! p = None -> edge_count (<[p := ks]> ch) = (size ks + edge_count ch)%nat.
Proof.
  intros Hp. unfold edge_count. rewrite map_fold_insert_L; [done| |done].
  intros; lia.
Qed.

Lemma edge_count_delete ch p :
  edge_count ch = (size (default ∅ (ch !! p)) + edge_count (delete p ch))%nat.
Proof.
  destruct (ch !! p) as [ks|] eqn:E; simpl.
  - rewrite <- (edge_count_insert _ p) by apply lookup_delete_eq. by rewrite insert_delete_id.
  - by rewrite delete_id.
Qed.

(** ** The collection loop of [deleteSubtreeLocked] *)

(** Edges out of nodes not yet collected. *)
Definition pending (ch : gmap string (gset string)) (seen : gset string) : nat :=
  edge_count (filter (fun kv => kv.1 ∉ seen) ch).

Lemma pending_step ch seen x :
  x ∉ seen -> pending ch seen = (size (default ∅ (ch !! x)) + pending ch ({[x]} ∪ seen))%nat.
Proof.
  intros Hx. unfold pending. rewrite (edge_count_delete _ x). f_equal.
  - f_equal. destruct (ch !! x) as [ks|] eqn:E.
    + by rewrite (map_lookup_filter_Some_2 _ _ _ ks).
    + by rewrite map_lookup_filter_None_2 by auto.
  - f_equal. apply map_eq. intros k. destruct (decide (k = x)) as [->|Hk].
    + rewrite lookup_delete_eq. symmetry. apply map_lookup_filter_None. right. simpl. set_solver.
    + rewrite lookup_delete_ne by done. rewrite !map_lookup_filter.
      destruct (ch !! k); simpl; [|done]. do 2 case_guard; set_solver.
Qed.

Lemma subtree_loop_total fuel ch stack seen :
  (length stack + pending ch seen <= fuel)%nat ->
  is_Some (subtree_loop fuel ch stack seen).
Proof.
  revert stack seen. induction fuel as [|fuel IH]; intros [|x stack] seen Hf; simpl in *;
    [eauto|lia|eauto|].
  case_bool_decide as Hx.
  - apply IH. lia.
  - apply IH. rewrite length_app, length_rev, (pending_step ch seen x Hx) in *.
    unfold size, set_size in Hf. simpl in Hf. lia.
Qed.

Lemma pending_empty ch : pending ch ∅ = edge_count ch.
Proof.
  unfold pending. f_equal. apply map_eq. intros k. rewrite map_lookup_filter.
  destruct (ch !! k); simpl; [|done]. case_guard; set_solver.
Qed.

Lemma subtree_loop_sound fuel ch root stack seen seen' :
  (forall x, x ∈ stack \/ x ∈ seen -> reach ch root x) ->
  (forall x y, x ∈ seen -> edge ch x y -> y ∈ seen \/ y ∈ stack) ->
  subtree_loop fuel ch stack seen = Some seen' ->
  (forall x, x ∈ seen' -> reach ch root x) /\
  (forall x y, x ∈ seen' -> edge ch x y -> y ∈ seen') /\
  (forall x, x ∈ stack \/ x ∈ seen -> x ∈ seen').
Proof.
  revert stack seen. induction fuel as [|fuel IH]; intros [|x stack] seen Hr Hc; simpl;
    try (intros [= <-]; split_and!; [set_solver| |set_solver];
         intros x' y Hx He; destruct (Hc x' y Hx He); [done|set_solver]); [done|].
  case_bool_decide as Hx; intros H; apply IH in H as (H1 & H2 & H3).
  - split_and!; [done..|]. set_solver.
  - set_solver.
  - intros x' y Hx' He. destruct (Hc x' y Hx' He); [by left|]. set_solver.
  - split_and!; [done..|]. intros y Hy. apply H3. set_solver.
  - intros y [[Hy|Hy]%elem_of_app|Hy].
    + apply rtc_r with x; [apply Hr; set_solver|].
      by apply elem_of_rev, elem_of_elements in Hy.
    + set_solver.
    + set_solver.
  - intros x' y [->%elem_of_singleton|Hx']%elem_of_union He.
    + right. apply elem_of_app. left. by apply elem_of_rev, elem_of_elements.
    + destruct (Hc x' y Hx' He); set_solver.
Qed.

Lemma reach_closed ch (P : string -> Prop) root x :
  (forall x y, P x -> edge ch x y -> P y) -> P root -> reach ch root x -> P x.
Proof. intros Hc Hr H. induction H as [|x y z Hxy _ IH]; [done|]. eauto. Qed.

(** The loop collects exactly the nodes at or below its start. *)
Lemma subtree_loop_reach ch root :
  exists seen, subtree_loop (S (edge_count ch)) ch [root] ∅ = Some seen /\
               forall x, x ∈ seen <-> reach ch root x.
Proof.
  destruct (subtree_loop_total (S (edge_count ch)) ch [root] ∅) as [seen H].
  { simpl. rewrite pending_empty. lia. }
  exists seen. split; [done|].
  apply (subtree_loop_sound _ _ root) in H as (H1 & H2 & H3); [| |set_solver].
  - intros x. split; [apply H1|].
    apply (reach_closed ch (fun x => x ∈ seen)); [done|]. apply H3. set_solver.
  - intros x [->%list_elem_of_singleton|Hx]; [constructor|set_solver].
Qed.

(** ** The loop of [ListSubtreeKeys] *)

(** Every node that is some node's child. *)
Definition targets (ch : gmap string (gset string)) : gset string :=
  map_fold (fun _ ks acc => ks ∪ acc) ∅ ch.

Lemma targets_insert ch p ks :
  ch !! p = None -> targets (<[p := ks]> ch) = ks ∪ targets ch.
Proof.
  intros Hp. unfold targets. rewrite map_fold_insert_L; [done| |done]. intros. set_solver.
Qed.

Lemma elem_of_targets ch c : c ∈ targets ch <-> exists p, edge ch p c.
Proof.
  induction ch as [|p ks ch Hp IH] using map_ind.
  - change (targets ∅) with (∅ : gset string). split; [set_solver|].
    intros [p H]. unfold edge in H. rewrite lookup_empty in H. set_solver.
  - rewrite targets_insert by done. rewrite elem_of_union, IH. unfold edge. split.
    + intros [H|[q H]].
      * exists p. by rewrite lookup_insert_eq.
      * exists q. rewrite lookup_insert_ne; [done|]. intros ->. rewrite Hp in H. set_solver.
    + intros [q H]. destruct (decide (p = q)) as [->|Hq].
      * rewrite lookup_insert_eq in H. by left.
      * rewrite lookup_insert_ne in H by done. eauto.
Qed.

Lemma targets_size ch : (size (targets ch) <= edge_count ch)%nat.
Proof.
  induction ch as [|p ks ch Hp IH] using map_ind; [done|].
  rewrite targets_insert, edge_count_insert by done.
  rewrite size_union_alt.
  assert (size (targets ch ∖ ks) <= size (targets ch))%nat by (apply subseteq_size; set_solver). lia.
Qed.

Lemma size_visit (T visited : gset string) c :
  c ∈ T -> c ∉ visited -> size (T ∖ visited) = S (size (T ∖ ({[c]} ∪ visited))).
Proof.
  intros HT Hv. replace (T ∖ visited) with ({[c]} ∪ T ∖ ({[c]} ∪ visited)).
  - rewrite size_union by set_solver. rewrite size_singleton. lia.
  - apply set_eq. intros x. destruct (decide (x = c)); set_solver.
Qed.

(** What [visit_children] does to the three accumulators. *)
Lemma visit_children_spec T cs all stack visited all' stack' visited' :
  (forall c, c ∈ cs -> c ∈ T) ->
  visit_children cs (all, stack, visited) = (all', stack', visited') ->
  (length stack' + size (T ∖ visited') = length stack + size (T ∖ visited))%nat /\
  (exists new, all' = all ++ new /\ stack' = rev new ++ stack /\ NoDup new /\
     (forall x, x ∈ new <-> x ∈ cs /\ x ∉ visited) /\
     forall x, x ∈ visited' <-> x ∈ new \/ x ∈ visited).
Proof.
  revert all stack visited. induction cs as [|c cs IH]; intros all stack visited HT; simpl.
  - intros [= <- <- <-]. split; [done|]. exists []. rewrite app_nil_r. split_and!; try done.
    + constructor.
    + set_solver.
    + set_solver.
  - unfold visit_children in *. simpl. case_bool_decide as Hc; intros H; apply IH in H as (Hm & new & -> & -> & Hn & Hi & Hv).
    + split; [done|]. exists new. split_and!; try done. set_solver.
    + set_solver.
    + assert (c ∈ T) as HcT by set_solver. split.
      * rewrite Hm, (size_visit T visited c) by done. cbn [length]. lia.
      * exists (c :: new). simpl. rewrite <- !app_assoc. split_and!; try done.
        -- constructor; [|done]. rewrite Hi. set_solver.
        -- intros x. rewrite elem_of_cons, Hi. destruct (decide (x = c)); set_solver.
        -- intros x. rewrite Hv. set_solver.
    + set_solver.
Qed.

Lemma list_loop_spec fuel ch root stack all visited :
  (length stack + size (targets ch ∖ visited) <= fuel)%nat ->
  (forall x, x ∈ visited <-> x = root \/ x ∈ all) -> NoDup (root :: all) ->
  (forall x, x ∈ visited -> reach ch root x) ->
  (forall x, x ∈ stack -> x ∈ visited) ->
  (forall x y, x ∈ visited -> x ∉ stack -> edge ch x y -> y ∈ visited) ->
  exists all', list_loop fuel ch stack all visited = Some all' /\ NoDup (root :: all') /\
    forall x, x = root \/ x ∈ all' <-> reach ch root x.
Proof.
  revert stack all visited.
  induction fuel as [|fuel IH]; intros [|cur stack] all visited Hf Hv Hn Hr Hs Hc;
    try (exists all; split_and!; [done..|]; intros x; rewrite <- Hv; split; [apply Hr|];
         apply (reach_closed ch (fun x => x ∈ visited)); [|by apply Hv; left];
         intros x' y Hx' He; apply (Hc x'); [done|apply not_elem_of_nil|done]).
  { simpl in Hf. lia. }
  cbn [list_loop]. destruct (visit_children _ _) as [[all1 stack1] visited1] eqn:E.
  apply (visit_children_spec (targets ch)) in E as (Hm & new & -> & -> & Hnn & Hi & Hv1).
  2:{ intros c Hin%elem_of_elements. apply elem_of_targets. by exists cur. }
  apply IH.
  - cbn [length] in Hf. lia.
  - intros x. rewrite Hv1, Hv, elem_of_app. tauto.
  - rewrite NoDup_cons in Hn |- *. destruct Hn as [Hn1 Hn2].
    rewrite elem_of_app, NoDup_app. split_and!; try done.
    + intros [?|[_ Hx]%Hi]; [done|]. apply Hx, Hv. by left.
    + intros x Hx [_ Hx']%Hi. apply Hx', Hv. right. exact Hx.
  - intros x [[Hx%elem_of_elements _]%Hi|Hx]%Hv1; [|by apply Hr].
    apply rtc_r with cur; [apply Hr, Hs; by left|exact Hx].
  - intros x. rewrite elem_of_app, elem_of_rev, Hv1. intros [?|?]; [by left|].
    right. apply Hs. by right.
  - intros x y Hx Hns He. rewrite not_elem_of_app, elem_of_rev in Hns. destruct Hns as [Hns1 Hns2].
    apply Hv1 in Hx as [?|Hx]; [done|]. apply Hv1.
    destruct (decide (y ∈ visited)); [by right|left]. apply Hi. split; [|done].
    destruct (decide (x = cur)) as [->|Hne]; [by apply elem_of_elements|].
    exfalso. apply n. apply (Hc x); [done| |done]. apply not_elem_of_cons. done.
Qed.

Lemma list_loop_reach ch root :
  exists all, list_loop (S (edge_count ch)) ch [root] [] {[root]} = Some all /\
    NoDup all /\ forall x, x ∈ all <-> x <> root /\ reach ch root x.
Proof.
  destruct (list_loop_spec (S (edge_count ch)) ch root [root] [] {[root]}) as (all & H & Hn & Hr).
  - simpl. assert (size (targets ch ∖ {[root]}) <= size (targets ch))%nat
      by (apply subseteq_size; set_solver).
    pose proof (targets_size ch). lia.
  - set_solver.
  - repeat constructor. set_solver.
  - intros x ->%elem_of_singleton. constructor.
  - set_solver.
  - set_solver.
  - exists all. rewrite NoDup_cons in Hn. destruct Hn as [Hn1 Hn2]. split_and!; [done..|].
    intros x. rewrite <- Hr. set_solver.
Qed.
