(* ===== verification/LeaseInv.v ===== *)
(** * Correctness of the lease store

    The store's representation invariant [WF]: nodes are keyed by the identity of
    the record they hold, the parent/child edges are exactly the [ParentKeyName]s
    of the stored nodes, and the name index lists exactly the stored KEY nodes of
    each name.  Every operation preserves it, and under it every operation does
    what [LeaseStorage] documents. *)

From Stdlib Require Import Ascii String ZArith Lia.
From S2P Require Import Prelude DnsName DnsData NodeIdent LeaseStore LeaseTree.

Local Open Scope Z_scope.

(** ** Edges *)

Definition nonempty_sets (ch : gmap string (gset string)) : Prop :=
  forall p ks, ch !! p = Some ks -> ks <> ∅.

Lemma leases_attach c p st : leases (attachNodeLocked c p st) = leases st.
Proof. unfold attachNodeLocked. by case_match. Qed.
Lemma nonKey_attach c p st : nonKeyRecords (attachNodeLocked c p st) = nonKeyRecords st.
Proof. unfold attachNodeLocked. by case_match. Qed.
Lemma nameIdx_attach c p st : nameIdx (attachNodeLocked c p st) = nameIdx st.
Proof. unfold attachNodeLocked. by case_match. Qed.
Lemma leases_detach c p st : leases (detachNodeLocked c p st) = leases st.
Proof. unfold detachNodeLocked. by repeat case_match. Qed.
Lemma nonKey_detach c p st : nonKeyRecords (detachNodeLocked c p st) = nonKeyRecords st.
Proof. unfold detachNodeLocked. by repeat case_match. Qed.
Lemma nameIdx_detach c p st : nameIdx (detachNodeLocked c p st) = nameIdx st.
Proof. unfold detachNodeLocked. by repeat case_match. Qed.
Lemma leases_hook op r st : leases (call_hook op r st) = leases st.
Proof. unfold call_hook. by case_match. Qed.
Lemma nonKey_hook op r st : nonKeyRecords (call_hook op r st) = nonKeyRecords st.
Proof. unfold call_hook. by case_match. Qed.
Lemma nameIdx_hook op r st : nameIdx (call_hook op r st) = nameIdx st.
Proof. unfold call_hook. by case_match. Qed.
Lemma children_hook op r st : children (call_hook op r st) = children st.
Proof. unfold call_hook. by case_match. Qed.

#[export] Hint Rewrite leases_attach nonKey_attach nameIdx_attach leases_detach nonKey_detach
  nameIdx_detach leases_hook nonKey_hook nameIdx_hook children_hook : go_norm.

Lemma edge_insert ch p ks x y :
  edge (<[p := ks]> ch) x y <-> (x = p /\ y ∈ ks) \/ (x <> p /\ edge ch x y).
Proof.
  unfold edge. destruct (decide (p = x)) as [->|Hp].
  - rewrite lookup_insert_eq. simpl. naive_solver.
  - rewrite lookup_insert_ne by done. naive_solver.
Qed.

Lemma edge_delete ch p x y : edge (delete p ch) x y <-> x <> p /\ edge ch x y.
Proof.
  unfold edge. destruct (decide (p = x)) as [->|Hp].
  - rewrite lookup_delete_eq. set_solver.
  - rewrite lookup_delete_ne by done. naive_solver.
Qed.

Lemma attach_edge c p st x y :
  edge (children (attachNodeLocked c p st)) x y <->
  edge (children st) x y \/ (p <> "" /\ x = p /\ y = c).
Proof.
  unfold attachNodeLocked. case_bool_decide as Hp; [naive_solver|]. simpl.
  rewrite edge_insert, elem_of_union, elem_of_singleton. unfold kids, edge.
  destruct (decide (x = p)) as [->|]; naive_solver.
Qed.

Lemma detach_edge c p st x y :
  edge (children (detachNodeLocked c p st)) x y <->
  edge (children st) x y /\ ~ (p <> "" /\ x = p /\ y = c).
Proof.
  unfold detachNodeLocked. case_bool_decide as Hp; [naive_solver|].
  destruct (children st !! p) as [ks|] eqn:E.
  2:{ assert (forall y, ~ edge (children st) p y) by (intros y'; unfold edge; rewrite E; set_solver).
      naive_solver. }
  assert (Hk : edge (children st) p y <-> y ∈ ks) by (unfold edge; by rewrite E).
  case_bool_decide as Hks; simpl.
  - rewrite edge_delete. destruct (decide (x = p)) as [->|]; [|naive_solver].
    assert (y ∈ ks -> y = c).
    { intros Hy. destruct (decide (y = c)) as [|Hc]; [done|]. exfalso.
      apply (not_elem_of_empty (C := gset string) y). rewrite <- Hks. set_solver. }
    naive_solver.
  - rewrite edge_insert, elem_of_difference, elem_of_singleton.
    destruct (decide (x = p)) as [->|]; naive_solver.
Qed.

Lemma attach_nonempty c p st :
  nonempty_sets (children st) -> nonempty_sets (children (attachNodeLocked c p st)).
Proof.
  unfold attachNodeLocked. case_bool_decide; [done|]. intros Hn q ks. simpl.
  rewrite lookup_insert_Some. intros [[_ <-]|[_ ?]]; [set_solver|eauto].
Qed.

Lemma delete_nonempty p ch : nonempty_sets ch -> nonempty_sets (delete p ch).
Proof. intros Hn q ks [_ H]%lookup_delete_Some. eauto. Qed.

Lemma detach_nonempty c p st :
  nonempty_sets (children st) -> nonempty_sets (children (detachNodeLocked c p st)).
Proof.
  unfold detachNodeLocked. repeat case_match; try done; intros Hn; simpl.
  - by apply delete_nonempty.
  - intros q ks. rewrite lookup_insert_Some. case_bool_decide; [done|].
    intros [[_ <-]|[_ ?]]; eauto.
Qed.

(** ** The invariant *)

Section invariant.
Context {L : DnsLib}.

(** The stored node [c] names [p] as its parent. *)
Definition has_parent (st : Store) (c p : string) : Prop :=
  (exists r, leases st !! c = Some r /\ k_Parent r = p) \/
  (exists r, nonKeyRecords st !! c = Some r /\ n_Parent r = p).

Definition lease_ok (k : string) (r : KEYRecord) : Prop :=
  k = NodeKey (KeyRR r) /\ KeyName r = Normalize (Name (key_Hdr (KeyRR r))) /\ KeyName r <> "" /\
  k_Parent r <> k /\ b_NodeKind (k_base r) = NodeKindKEY /\ b_RRType (k_base r) = TypeKEY.

Definition nonKey_ok (k : string) (r : NonKEYRecord) : Prop :=
  k = RecordKey (n_RR r) /\ RRKey r = k /\ n_Parent r <> "" /\ rr_wf (n_RR r) = true /\
  b_NodeKind (n_base r) = NodeKindNonKEY /\ b_RRType (n_base r) = RRToType (n_RR r) /\
  Normalize (n_Parent r) = n_Parent r.

(** The invariant, with the edges out of [D] already removed: a subtree deletion
    passes through states where the children of a deleted node are still there. *)
Record WF_upto (D : gset string) (st : Store) : Prop := {
  wf_leases : forall k r, leases st !! k = Some r -> lease_ok k r;
  wf_nonKey : forall k r, nonKeyRecords st !! k = Some r -> nonKey_ok k r;
  wf_edges : forall p c, edge (children st) p c <-> p <> "" /\ (p ∉ D) /\ has_parent st c p;
  wf_nonempty : nonempty_sets (children st);
  wf_names : forall n k, k ∈ default [] (nameIdx st !! n) <->
                         exists r, leases st !! k = Some r /\ KeyName r = n;
  wf_names_nodup : forall n, NoDup (default [] (nameIdx st !! n));
  wf_names_ne : forall n l, nameIdx st !! n = Some l -> l <> [] }.

Definition WF (st : Store) : Prop := WF_upto ∅ st.

Lemma WF_new : WF NewInMemoryManager.
Proof.
  split; cbn [NewInMemoryManager leases nonKeyRecords nameIdx children]; intros *;
    rewrite ?lookup_empty; try done.
  - unfold edge, has_parent. rewrite !lookup_empty. simpl. set_solver.
  - simpl. set_solver.
  - constructor.
Qed.

Context {LL : DnsLibLaws L}.

(** KEY and non-KEY nodes never share an identity. *)
Lemma WF_disjoint D st k r r' :
  WF_upto D st -> leases st !! k = Some r -> nonKeyRecords st !! k = Some r' -> False.
Proof.
  intros W (Hk & _)%(wf_leases _ _ W) (Hk' & _ & _ & Hwf & _)%(wf_nonKey _ _ W).
  apply (RecordKey_not_node (n_RR r') (Name (key_Hdr (KeyRR r))) (Algorithm (key_Data (KeyRR r)))
    (KeyTag (key_Data (KeyRR r))) Hwf). rewrite <- NodeKey_SIG. congruence.
Qed.

Lemma WF_nonKey_not_node D st k : WF_upto D st -> nonKeyRecords st !! NodeKey k = None.
Proof.
  intros W. destruct (nonKeyRecords st !! NodeKey k) as [r|] eqn:E; [|done].
  apply (wf_nonKey _ _ W) in E as (Hk & _ & _ & Hwf & _).
  symmetry in Hk. rewrite NodeKey_SIG in Hk. by apply RecordKey_not_node in Hk.
Qed.

Lemma WF_lease_not_record D st rr : WF_upto D st -> rr_wf rr = true -> leases st !! RecordKey rr = None.
Proof.
  intros W Hwf. destruct (leases st !! RecordKey rr) as [r|] eqn:E; [|done].
  apply (wf_leases _ _ W) in E as (Hk & _). rewrite NodeKey_SIG in Hk.
  by apply RecordKey_not_node in Hk.
Qed.

Lemma NodeKey_same_name k1 k2 :
  NodeKey k1 = NodeKey k2 -> Normalize (Name (key_Hdr k1)) = Normalize (Name (key_Hdr k2)).
Proof.
  rewrite !NodeKey_SIG, !NodeKeyFromSIG_eq.
  intros [-> _]%string_app_length_inj_r; [done|]. by rewrite !node_suffix_length.
Qed.

(** ** Preservation *)

(** Storing a KEY node: every other node keeps its edges, the node has the edge its
    record names. *)
Lemma WF_put_lease st st' k r :
  WF st -> lease_ok k r ->
  leases st' = <[k := r]> (leases st) -> nonKeyRecords st' = nonKeyRecords st ->
  (forall x y, edge (children st') x y <->
     (y <> k /\ edge (children st) x y) \/ (y = k /\ x = k_Parent r /\ x <> "")) ->
  nonempty_sets (children st') ->
  nameIdx st' = (match leases st !! k with
                 | Some _ => nameIdx st
                 | None => <[KeyName r := default [] (nameIdx st !! KeyName r) ++ [k]]> (nameIdx st)
                 end) ->
  WF st'.
Proof.
  intros W Hok Hl Hn He Hne Hi.
  assert (Hk : nonKeyRecords st !! k = None)
    by (destruct Hok as [-> _]; by eapply WF_nonKey_not_node).
  assert (Hold : forall r0, leases st !! k = Some r0 -> KeyName r0 = KeyName r).
  { intros r0 (Hk0 & -> & _)%(wf_leases _ _ W). destruct Hok as (Hk1 & -> & _).
    apply NodeKey_same_name. congruence. }
  split.
  - intros k' r'. rewrite Hl, lookup_insert_Some. intros [[<- <-]|[_ H]]; [done|].
    by apply (wf_leases _ _ W).
  - intros k' r'. rewrite Hn. apply (wf_nonKey _ _ W).
  - intros p c. rewrite He, (wf_edges _ _ W). unfold has_parent. rewrite Hl, Hn.
    destruct (decide (c = k)) as [->|Hc].
    + rewrite lookup_insert_eq, Hk. naive_solver.
    + rewrite lookup_insert_ne by done. naive_solver.
  - done.
  - intros n k'. rewrite Hi, Hl. destruct (leases st !! k) as [r0|] eqn:E.
    + rewrite (wf_names _ _ W). destruct (decide (k = k')) as [<-|Hk'].
      * rewrite lookup_insert_eq, E. specialize (Hold r0 eq_refl). naive_solver.
      * by rewrite lookup_insert_ne by done.
    + destruct (decide (KeyName r = n)) as [<-|Hn'].
      * rewrite lookup_insert_eq. simpl. rewrite elem_of_app, list_elem_of_singleton, (wf_names _ _ W).
        destruct (decide (k = k')) as [<-|Hk']; [rewrite lookup_insert_eq|rewrite lookup_insert_ne by done];
          naive_solver.
      * rewrite lookup_insert_ne by done. rewrite (wf_names _ _ W).
        destruct (decide (k = k')) as [<-|Hk']; [rewrite lookup_insert_eq|rewrite lookup_insert_ne by done];
          naive_solver.
  - intros n. rewrite Hi. destruct (leases st !! k) as [r0|] eqn:E; [apply (wf_names_nodup _ _ W)|].
    destruct (decide (KeyName r = n)) as [<-|Hn'].
    + rewrite lookup_insert_eq. simpl. apply NoDup_app. split_and!.
      * apply (wf_names_nodup _ _ W).
      * intros x (r1 & Hr1 & _)%(wf_names _ _ W) ->%list_elem_of_singleton. congruence.
      * apply NoDup_singleton.
    + rewrite lookup_insert_ne by done. apply (wf_names_nodup _ _ W).
  - intros n l. rewrite Hi. destruct (leases st !! k); [apply (wf_names_ne _ _ W)|].
    rewrite lookup_insert_Some. intros [[_ <-]|[_ H]]; [|by eapply (wf_names_ne _ _ W)].
    by destruct (default [] (nameIdx st !! KeyName r)).
Qed.

(** The parent a KEY is registered under: normalized, and none when it is the KEY itself. *)
Definition eff_parent (parent : string) (k : KEY) : string :=
  if bool_decide (Normalize parent = NodeKey k) then "" else Normalize parent.

Definition new_record (now : Z) (parent : string) (k : KEY) (l kl : Z) (zone : string) : KEYRecord :=
  mkKEYRecord (mkBase NodeKindKEY TypeKEY (now + l * second) l now (eff_parent parent k))
    (Normalize (Name (key_Hdr k))) k kl (Normalize zone).

(** What a successful registration leaves in the store. *)
Lemma RegisterWithParent_ok now parent ok l kl zone st st' :
  RegisterWithParent now parent ok l kl zone st = Ok st' ->
  exists k, ok = Some k /\ Normalize (Name (key_Hdr k)) <> "" /\
    let p := eff_parent parent k in
    let r := new_record now parent k l kl zone in
    (p = "" \/ nonKeyRecords st !! p = None) /\
    leases st' = <[NodeKey k := r]> (leases st) /\
    nonKeyRecords st' = nonKeyRecords st /\
    (forall x y, edge (children st') x y <->
       (edge (children st) x y /\
        ~ (exists r0, leases st !! NodeKey k = Some r0 /\ k_Parent r0 <> "" /\ x = k_Parent r0 /\ y = NodeKey k))
       \/ (p <> "" /\ x = p /\ y = NodeKey k)) /\
    (nonempty_sets (children st) -> nonempty_sets (children st')) /\
    nameIdx st' = (match leases st !! NodeKey k with
                   | Some _ => nameIdx st
                   | None => <[KeyName r := default [] (nameIdx st !! KeyName r) ++ [NodeKey k]]> (nameIdx st)
                   end).
Proof.
  unfold RegisterWithParent. destruct ok as [k|]; [|done].
  case_bool_decide as Hn; [done|]. fold (eff_parent parent k).
  destruct (_ && _) eqn:Hg; [done|]. intros [= <-]. exists k. split; [done|]. split; [done|].
  cbn zeta. rewrite andb_false_iff, negb_false_iff, bool_decide_eq_true, bool_decide_eq_false,
    <- eq_None_not_Some in Hg. split; [done|].
  fold (new_record now parent k l kl zone).
  destruct (leases st !! NodeKey k) as [r0|] eqn:E; autorewrite with go_norm; cbn [leases nonKeyRecords nameIdx children set_leases set_nameIdx].
  - split_and!; autorewrite with go_norm; try done.
    + intros x y. rewrite attach_edge. cbn [children set_leases]. rewrite detach_edge. naive_solver.
    + intros Hne. apply attach_nonempty, detach_nonempty. done.
  - split_and!; autorewrite with go_norm; try done.
    + intros x y. rewrite attach_edge. cbn [children set_leases set_nameIdx]. naive_solver.
    + intros Hne. apply attach_nonempty. done.
Qed.

Lemma eff_parent_ne parent k : eff_parent parent k <> NodeKey k.
Proof. unfold eff_parent. case_bool_decide; [|done]. intros H'. symmetry in H'. by apply NodeKey_ne in H'. Qed.

Lemma RegisterWithParent_WF now parent ok l kl zone st st' :
  WF st -> RegisterWithParent now parent ok l kl zone st = Ok st' -> WF st'.
Proof.
  intros W (k & -> & Hn & Hp & Hl & Hnk & He & Hne & Hi)%RegisterWithParent_ok.
  eapply (WF_put_lease st st'); eauto using wf_nonempty.
  - split_and!; try done. apply eff_parent_ne.
  - intros x y. rewrite He, (wf_edges _ _ W). unfold has_parent.
    destruct (decide (y = NodeKey k)) as [->|Hy]; [|naive_solver].
    rewrite (WF_nonKey_not_node ∅ st k W). naive_solver.
Qed.

Lemma RenewLease_ok now ok l kl st st' :
  RenewLease now ok l kl st = Ok st' ->
  exists k r, ok = Some k /\ leases st !! NodeKey k = Some r /\
    leases st' = <[NodeKey k :=
      mkKEYRecord (mkBase (b_NodeKind (k_base r)) (b_RRType (k_base r)) (now + l * second) l
                     (b_RegisteredAt (k_base r)) (k_Parent r)) (KeyName r) k kl (k_UpstreamZone r)]> (leases st) /\
    nonKeyRecords st' = nonKeyRecords st /\ children st' = children st /\ nameIdx st' = nameIdx st.
Proof.
  unfold RenewLease. destruct ok as [k|]; [|done].
  destruct (leases st !! NodeKey k) as [r|] eqn:E; [|done]. intros [= <-].
  exists k, r. autorewrite with go_norm. done.
Qed.

Lemma RenewLease_WF now ok l kl st st' :
  WF st -> RenewLease now ok l kl st = Ok st' -> WF st'.
Proof.
  intros W (k & r & -> & Hr & Hl & Hnk & Hc & Hi)%RenewLease_ok.
  pose proof (wf_leases _ _ W _ _ Hr) as (Hk & Hkn & Hne & Hp & Hkind & Hty).
  eapply (WF_put_lease st st'); eauto; rewrite ?Hc; eauto using wf_nonempty.
  - split_and!; try done. cbn [KeyName KeyRR]. rewrite Hkn. by apply NodeKey_same_name.
  - intros x y. cbn [k_Parent k_base b_ParentKeyName]. rewrite (wf_edges _ _ W). unfold has_parent.
    destruct (decide (y = NodeKey k)) as [->|Hy]; [|naive_solver].
    rewrite (WF_nonKey_not_node ∅ st k W), Hr. set_solver.
  - by rewrite Hr, Hi.
Qed.

(** The name index after one KEY node's deletion. *)
Definition drop_name (key : string) (ni : gmap string (list string)) : gmap string (list string) :=
  match default [] (ni !! NodeKeyName key) with
  | [] => ni
  | existing =>
      match filter (fun nk => nk <> key) existing with
      | [] => delete (NodeKeyName key) ni
      | updated => <[NodeKeyName key := updated]> ni
      end
  end.

Lemma drop_name_lookup key ni n :
  default [] (drop_name key ni !! n) =
  if bool_decide (n = NodeKeyName key) then filter (fun nk => nk <> key) (default [] (ni !! n))
  else default [] (ni !! n).
Proof.
  unfold drop_name. destruct (default [] (ni !! NodeKeyName key)) as [|x l] eqn:E.
  { case_bool_decide as Hn; [|done]. by subst; rewrite E. }
  destruct (filter _ (x :: l)) as [|x' l'] eqn:F; case_bool_decide as Hn; subst.
  - by rewrite lookup_delete_eq, E, F.
  - by rewrite lookup_delete_ne.
  - by rewrite lookup_insert_eq, E, F.
  - by rewrite lookup_insert_ne.
Qed.

Lemma drop_name_ne key ni :
  (forall n l, ni !! n = Some l -> l <> []) -> forall n l, drop_name key ni !! n = Some l -> l <> [].
Proof.
  intros Hne n l. unfold drop_name. repeat case_match; eauto.
  - intros [_ ?]%lookup_delete_Some. eauto.
  - intros [[_ <-]|[_ ?]]%lookup_insert_Some; [done|eauto].
Qed.

Lemma deleteNode_lease key st r :
  leases st !! key = Some r ->
  leases (deleteNode key st) = delete key (leases st) /\
  nonKeyRecords (deleteNode key st) = nonKeyRecords st /\
  nameIdx (deleteNode key st) = drop_name key (nameIdx st) /\
  children (deleteNode key st) = delete key (children (detachNodeLocked key (k_Parent r) st)).
Proof.
  intros H. unfold deleteNode, drop_name. rewrite H. cbn [set_children leases nonKeyRecords nameIdx children set_leases].
  repeat case_match; cbn [set_nameIdx set_leases leases nonKeyRecords nameIdx children];
    autorewrite with go_norm in *; try done; simplify_eq; split_and!; try congruence.
Qed.

Lemma deleteNode_nonKey key st :
  leases st !! key = None ->
  leases (deleteNode key st) = leases st /\
  nonKeyRecords (deleteNode key st) = delete key (nonKeyRecords st) /\
  nameIdx (deleteNode key st) = nameIdx st /\
  children (deleteNode key st) =
    delete key (children (match nonKeyRecords st !! key with
                          | Some r => detachNodeLocked key (n_Parent r) st | None => st end)).
Proof.
  intros H. unfold deleteNode. rewrite H.
  destruct (nonKeyRecords st !! key) as [r|] eqn:E;
    cbn [set_children set_nonKey leases nonKeyRecords nameIdx children]; autorewrite with go_norm.
  - done.
  - by rewrite delete_id.
Qed.

Lemma deleteNode_WF D key st :
  WF_upto D st ->
  WF_upto ({[key]} ∪ D) (deleteNode key st) /\
  leases (deleteNode key st) = delete key (leases st) /\
  nonKeyRecords (deleteNode key st) = delete key (nonKeyRecords st).
Proof.
  intros W. destruct (leases st !! key) as [r|] eqn:E.
  - pose proof (deleteNode_lease key st r E) as (Hl & Hn & Hi & Hc).
    assert (Hnone : nonKeyRecords st !! key = None).
    { destruct (nonKeyRecords st !! key) eqn:E'; [|done]. by destruct (WF_disjoint _ _ _ _ _ W E E'). }
    pose proof (wf_leases _ _ W _ _ E) as (Hk & Hkn & Hne & _).
    assert (Hname : NodeKeyName key = KeyName r).
    { rewrite Hkn, Hk, NodeKey_SIG, NodeKeyName_node; congruence. }
    rewrite Hn, (delete_id (nonKeyRecords st)) by done. split_and!; [|done..]. split; rewrite ?Hl, ?Hn, ?Hi, ?Hc.
    + intros k' r' [_ H]%lookup_delete_Some. by apply (wf_leases _ _ W).
    + apply (wf_nonKey _ _ W).
    + intros p c. rewrite edge_delete, detach_edge, (wf_edges _ _ W). unfold has_parent.
      rewrite Hl, Hn, not_elem_of_union, not_elem_of_singleton.
      destruct (decide (c = key)) as [->|Hck].
      * rewrite lookup_delete_eq, E, Hnone. naive_solver.
      * rewrite lookup_delete_ne by done. naive_solver.
    + apply delete_nonempty, detach_nonempty, (wf_nonempty _ _ W).
    + intros n k'. rewrite drop_name_lookup, Hname. case_bool_decide as Hnn.
      * rewrite list_elem_of_filter, (wf_names _ _ W).
        destruct (decide (k' = key)) as [->|Hk'];
          [rewrite lookup_delete_eq|rewrite lookup_delete_ne by done]; naive_solver.
      * rewrite (wf_names _ _ W). destruct (decide (k' = key)) as [->|Hk'];
          [rewrite lookup_delete_eq, E|rewrite lookup_delete_ne by done]; naive_solver.
    + intros n. rewrite drop_name_lookup. case_bool_decide; [apply NoDup_filter|]; apply (wf_names_nodup _ _ W).
    + apply drop_name_ne, (wf_names_ne _ _ W).
  - pose proof (deleteNode_nonKey key st E) as (Hl & Hn & Hi & Hc).
    rewrite Hl, (delete_id (leases st)) by done. split_and!; [|done..]. split; rewrite ?Hl, ?Hn, ?Hi, ?Hc.
    + apply (wf_leases _ _ W).
    + intros k' r' [_ H]%lookup_delete_Some. by apply (wf_nonKey _ _ W).
    + intros p c. rewrite edge_delete. unfold has_parent. rewrite Hl, Hn, not_elem_of_union, not_elem_of_singleton.
      transitivity (p <> key /\ c <> key /\ edge (children st) p c).
      { f_equiv. destruct (nonKeyRecords st !! key) as [r|] eqn:E'; [rewrite detach_edge|];
          rewrite (wf_edges _ _ W); unfold has_parent;
          (destruct (decide (c = key)) as [->|]; [rewrite E, E'|]; naive_solver). }
      rewrite (wf_edges _ _ W). unfold has_parent.
      destruct (decide (c = key)) as [->|Hck].
      * rewrite lookup_delete_eq, E. naive_solver.
      * rewrite lookup_delete_ne by done. naive_solver.
    + apply delete_nonempty. destruct (nonKeyRecords st !! key); [apply detach_nonempty|]; apply (wf_nonempty _ _ W).
    + apply (wf_names _ _ W).
    + apply (wf_names_nodup _ _ W).
    + apply (wf_names_ne _ _ W).
Qed.

Lemma deleteKeys_WF D keys st :
  WF_upto D st ->
  WF_upto (list_to_set keys ∪ D) (deleteKeys keys st) /\
  leases (deleteKeys keys st) = filter (fun kv => kv.1 ∉ keys) (leases st) /\
  nonKeyRecords (deleteKeys keys st) = filter (fun kv => kv.1 ∉ keys) (nonKeyRecords st).
Proof.
  revert D st. induction keys as [|key keys IH]; intros D st W; simpl.
  - rewrite union_empty_l_L. split_and!; [done| |];
      symmetry; apply map_filter_id; intros; apply not_elem_of_nil.
  - destruct (deleteNode_WF D key st W) as (W' & Hl & Hn).
    apply IH in W' as (W' & Hl' & Hn'). fold (deleteKeys keys (deleteNode key st)).
    replace ({[key]} ∪ list_to_set keys ∪ D) with (list_to_set keys ∪ ({[key]} ∪ D) : gset string)
      by set_solver. split; [done|]. rewrite Hl', Hn', Hl, Hn.
    split; apply map_eq; intros k; rewrite !map_lookup_filter;
      (destruct (decide (k = key)) as [->|Hk];
       [rewrite lookup_delete_eq|rewrite lookup_delete_ne by done]);
      (destruct (_ !! _); simpl; [|done]); repeat case_guard; set_solver.
Qed.

(** Deleting a subtree terminates, and removes exactly the nodes at or below the root. *)
Lemma deleteSubtree_spec root st :
  WF st ->
  exists st' (seen : list string), deleteSubtreeLocked root st = Some st' /\ WF st' /\
    (forall x, x ∈ seen <-> reach (children st) root x) /\
    leases st' = filter (fun kv => kv.1 ∉ seen) (leases st) /\
    nonKeyRecords st' = filter (fun kv => kv.1 ∉ seen) (nonKeyRecords st).
Proof.
  intros W. destruct (subtree_loop_reach (children st) root) as (seen & Hs & Hr).
  set (keys := merge_sort longer_first (elements seen)).
  assert (Hkeys : forall x, x ∈ keys <-> x ∈ seen).
  { intros x. unfold keys. rewrite merge_sort_Permutation. apply elem_of_elements. }
  destruct (deleteKeys_WF ∅ keys st W) as (W' & Hl & Hn).
  exists (deleteKeys keys st), keys. unfold deleteSubtreeLocked. rewrite Hs. split_and!; try done.
  2:{ intros x. by rewrite Hkeys. }
  destruct W' as [W1 W2 W3 W4 W5 W6 W7]. split; try done.
  intros p c. rewrite W3. split; [naive_solver|]. intros (Hp & _ & Hc). split_and!; try done.
  rewrite elem_of_union, elem_of_list_to_set, Hkeys, Hr. intros [Hpr|]; [|set_solver].
  assert (Hcs : c ∈ keys).
  { apply Hkeys, Hr. eapply rtc_r; [exact Hpr|]. apply (wf_edges _ _ W).
    split_and!; [done|set_solver|].
    unfold has_parent in Hc |- *. rewrite Hl, Hn in Hc. setoid_rewrite map_lookup_filter_Some in Hc.
    naive_solver. }
  unfold has_parent in Hc. rewrite Hl, Hn in Hc. setoid_rewrite map_lookup_filter_Some in Hc.
  simpl in Hc. naive_solver.
Qed.

(** ** Non-KEY records *)

Lemma upsert_check_acc owner st rrs acc toApply :
  foldM (fun toApply rr =>
           let id := RecordKey rr in
           if bool_decide (id = "") then Ok toApply
           else
             match nonKeyRecords st !! id with
             | Some existing =>
                 if bool_decide (n_Parent existing = owner) then Ok (toApply ++ [(id, rr)])
                 else Err "non-KEY record is already registered under a different owner"
             | None => Ok (toApply ++ [(id, rr)])
             end) acc rrs = Ok toApply <->
  toApply = acc ++ map (fun rr => (RecordKey rr, rr)) rrs /\
  forall rr e, rr ∈ rrs -> nonKeyRecords st !! RecordKey rr = Some e -> n_Parent e = owner.
Proof.
  revert acc. induction rrs as [|rr rrs IH]; intros acc; cbn [foldM map].
  - rewrite app_nil_r. split; [intros [= <-]; split; [done|set_solver]|]. by intros [-> _].
  - rewrite bool_decide_false by apply RecordKey_ne.
    destruct (nonKeyRecords st !! RecordKey rr) as [e|] eqn:E.
    + case_bool_decide as Ho; cbn.
      * rewrite IH, <- app_assoc. simpl. split; intros [-> H]; (split; [done|]); [|set_solver].
        intros rr' e' [->|Hin]%elem_of_cons He'; [congruence|eauto].
      * split; [done|]. intros [_ H]. exfalso. apply Ho. apply (H rr); [by left|done].
    + cbn. rewrite IH, <- app_assoc. simpl. split; intros [-> H]; (split; [done|]); [|set_solver].
      intros rr' e' [->|Hin]%elem_of_cons He'; [congruence|eauto].
Qed.

(** The validation loop accepts exactly the batches none of whose records belongs to
    another owner. *)
Lemma upsert_check_ok owner st rrs toApply :
  upsert_check owner st rrs = Ok toApply <->
  toApply = map (fun rr => (RecordKey rr, rr)) rrs /\
  forall rr e, rr ∈ rrs -> nonKeyRecords st !! RecordKey rr = Some e -> n_Parent e = owner.
Proof. apply upsert_check_acc. Qed.

(** The record an upsert leaves for [rr]. *)
Definition upserted (now : Z) (owner : string) (l : Z) (zone : string) (rr : RR) : NonKEYRecord :=
  mkNonKEYRecord (mkBase NodeKindNonKEY (RRToType rr) (now + l * second) l now owner)
    (RecordKey rr) rr zone.

Lemma upsert_one_spec now owner l zone st rr :
  WF st -> rr_wf rr = true -> owner <> "" -> Normalize owner = owner ->
  (forall e, nonKeyRecords st !! RecordKey rr = Some e -> n_Parent e = owner) ->
  let st' := upsert_one now owner l zone st (RecordKey rr, rr) in
  WF st' /\ leases st' = leases st /\ nameIdx st' = nameIdx st /\
  nonKeyRecords st' = <[RecordKey rr := upserted now owner l zone rr]> (nonKeyRecords st).
Proof.
  intros W Hwf Ho Hnorm Hown. cbn zeta.
  pose proof (WF_lease_not_record ∅ st rr W Hwf) as Hnl.
  destruct (nonKeyRecords st !! RecordKey rr) as [e|] eqn:E; unfold upsert_one; rewrite E.
  - pose proof (wf_nonKey _ _ W _ _ E) as (_ & HK & _ & _ & Hkind & _ & _).
    rewrite Hkind, HK, (Hown e eq_refl). fold (upserted now owner l zone rr).
    cbn [set_nonKey leases nameIdx nonKeyRecords]. split_and!; try done.
    destruct W as [W1 W2 W3 W4 W5 W6 W7]. split; cbn [set_nonKey leases nameIdx nonKeyRecords children]; try done.
    + intros k r [[<- <-]|[_ H]]%lookup_insert_Some; [|by apply W2]. done.
    + intros p c. rewrite W3. unfold has_parent. cbn [set_nonKey leases nonKeyRecords].
      destruct (decide (c = RecordKey rr)) as [->|Hc];
        [rewrite lookup_insert_eq, E|by rewrite lookup_insert_ne by done].
      specialize (Hown e eq_refl). naive_solver.
  - fold (upserted now owner l zone rr). cbn [set_nonKey leases nameIdx nonKeyRecords].
    autorewrite with go_norm. split_and!; try done.
    destruct W as [W1 W2 W3 W4 W5 W6 W7]. split; cbn [set_nonKey leases nameIdx nonKeyRecords children];
      autorewrite with go_norm; try done.
    + intros k r [[<- <-]|[_ H]]%lookup_insert_Some; [|by apply W2]. done.
    + intros p c. rewrite attach_edge, W3. unfold has_parent. cbn [set_nonKey leases nonKeyRecords].
      autorewrite with go_norm. destruct (decide (c = RecordKey rr)) as [->|Hc].
      * rewrite lookup_insert_eq, E, Hnl. set_solver.
      * rewrite lookup_insert_ne by done. naive_solver.
    + by apply attach_nonempty.
Qed.

Lemma upsert_all_spec now owner l zone rrs st :
  WF st -> Forall (fun rr => rr_wf rr = true) rrs -> owner <> "" -> Normalize owner = owner ->
  (forall rr e, rr ∈ rrs -> nonKeyRecords st !! RecordKey rr = Some e -> n_Parent e = owner) ->
  let st' := foldl (upsert_one now owner l zone) st (map (fun rr => (RecordKey rr, rr)) rrs) in
  WF st' /\ leases st' = leases st /\ nameIdx st' = nameIdx st /\
  nonKeyRecords st' =
    foldl (fun m rr => <[RecordKey rr := upserted now owner l zone rr]> m) (nonKeyRecords st) rrs.
Proof.
  cbn zeta. revert st. induction rrs as [|rr rrs IH]; intros st W Hwf Ho Hnorm Hown; [done|].
  apply Forall_cons in Hwf as [Hrr Hwf]. cbn [map foldl].
  destruct (upsert_one_spec now owner l zone st rr) as (W' & Hl & Hi & Hn); auto.
  { intros e. apply Hown. by left. }
  destruct (IH (upsert_one now owner l zone st (RecordKey rr, rr))) as (W2 & Hl2 & Hi2 & Hn2); auto.
  { intros rr' e Hin. rewrite Hn, lookup_insert_Some. intros [[_ <-]|[_ H]]; [done|].
    eapply Hown; [by right|done]. }
  by rewrite <- Hl, <- Hi, <- Hn.
Qed.

(** The batch in the map: a record of the batch holds the last RR of its identity,
    every other record is untouched. *)
Lemma upsert_map_lookup now owner l zone rrs (m : gmap string NonKEYRecord) id :
  let m' := foldl (fun m rr => <[RecordKey rr := upserted now owner l zone rr]> m) m rrs in
  (forall rr, rr ∈ rrs -> RecordKey rr = id ->
     exists rr', rr' ∈ rrs /\ RecordKey rr' = id /\ m' !! id = Some (upserted now owner l zone rr')) /\
  ((forall rr, rr ∈ rrs -> RecordKey rr <> id) -> m' !! id = m !! id).
Proof.
  cbn zeta. induction rrs as [|rr rrs IH] using rev_ind; [split; [set_solver|done]|].
  rewrite foldl_app. cbn [foldl]. destruct IH as [IH1 IH2].
  destruct (decide (RecordKey rr = id)) as [<-|Hid].
  - rewrite lookup_insert_eq. split; [intros; exists rr; set_solver|].
    intros H. by destruct (H rr); [set_solver|].
  - rewrite lookup_insert_ne by done. split.
    + intros rr1. rewrite elem_of_app, list_elem_of_singleton. intros [Hin| ->] Hid1; [|done].
      destruct (IH1 rr1 Hin Hid1) as (rr' & ? & ? & ->). exists rr'. set_solver.
    + intros H. apply IH2. set_solver.
Qed.

Lemma UpsertNonKEYRecords_ok now owner rrs l zone st st' :
  WF st -> Forall (fun rr => rr_wf rr = true) rrs -> Normalize (Normalize owner) = Normalize owner ->
  UpsertNonKEYRecords now owner rrs l zone st = Ok st' ->
  WF st' /\ Normalize owner <> "" /\ leases st' = leases st /\ nameIdx st' = nameIdx st /\
  nonKeyRecords st' =
    foldl (fun m rr => <[RecordKey rr := upserted now (Normalize owner) l (Normalize zone) rr]> m)
      (nonKeyRecords st) rrs /\
  (forall rr e, rr ∈ rrs -> nonKeyRecords st !! RecordKey rr = Some e -> n_Parent e = Normalize owner).
Proof.
  intros W Hwf Hnorm. unfold UpsertNonKEYRecords. case_bool_decide as Ho; [done|].
  intros (toApply & (-> & Hown)%upsert_check_ok & [= <-])%bind_ok.
  destruct (upsert_all_spec now (Normalize owner) l (Normalize zone) rrs st) as (W' & Hl & Hi & Hn);
    [done..|]. by split_and!.
Qed.

(** The loop of [RemoveNonKEYRecords] over a list of children. *)
Lemma remove_fold_spec (l : list string) (nk : gmap string NonKEYRecord) (ks : gset string) :
  exists nk' ks',
    foldl (fun '(nk, ks') childID =>
             if bool_decide (is_Some (nk !! childID)) then (delete childID nk, ks' ∖ {[childID]})
             else (nk, ks')) (nk, ks) l = (nk', ks') /\
    nk' = filter (fun kv => kv.1 ∉ l) nk /\
    forall c, c ∈ ks' <-> c ∈ ks /\ ~ (c ∈ l /\ is_Some (nk !! c)).
Proof.
  revert nk ks. induction l as [|x l IH]; intros nk ks; cbn [foldl].
  - exists nk, ks. split_and!; [done| |set_solver].
    symmetry. apply map_filter_id. intros. apply not_elem_of_nil.
  - case_bool_decide as Hx.
    + destruct (IH (delete x nk) (ks ∖ {[x]})) as (nk' & ks' & -> & -> & Hks).
      eexists _, _. split_and!; [done| |].
      * apply map_eq. intros k. rewrite !map_lookup_filter.
        destruct (decide (k = x)) as [->|Hk];
          [rewrite lookup_delete_eq|rewrite lookup_delete_ne by done];
          (destruct (nk !! _); simpl; [|done]); repeat case_guard; set_solver.
      * intros c. rewrite Hks, elem_of_difference, elem_of_singleton, elem_of_cons.
        destruct (decide (c = x)) as [->|Hc]; [naive_solver|]. rewrite lookup_delete_ne by done. naive_solver.
    + destruct (IH nk ks) as (nk' & ks' & -> & -> & Hks). eexists _, _. split_and!; [done| |].
      * apply map_eq. intros k. rewrite !map_lookup_filter.
        destruct (nk !! k) eqn:Hk; simpl; [|done]. assert (k <> x) by (intros ->; eauto).
        repeat case_guard; set_solver.
      * intros c. rewrite Hks, elem_of_cons. naive_solver.
Qed.

(** Edges after the removal of nodes [R] that are the same non-KEY nodes the map lost. *)
Lemma WF_remove_nonKey st st' owner (R : gset string) :
  WF st -> (forall c, c ∈ R -> exists r, nonKeyRecords st !! c = Some r /\ n_Parent r = owner) ->
  leases st' = leases st -> nameIdx st' = nameIdx st ->
  nonKeyRecords st' = filter (fun kv => kv.1 ∉ R) (nonKeyRecords st) ->
  (forall p c, edge (children st') p c <-> edge (children st) p c /\ ~ (p = owner /\ c ∈ R)) ->
  nonempty_sets (children st') -> WF st'.
Proof.
  intros W HR Hl Hi Hn He Hne.
  split; rewrite ?Hl, ?Hi, ?Hn; try apply W; [|intros p c|done].
  - intros k r [H _]%map_lookup_filter_Some. by apply (wf_nonKey _ _ W).
  - rewrite He, (wf_edges _ _ W). unfold has_parent. rewrite Hl, Hn.
    setoid_rewrite map_lookup_filter_Some. cbn [fst].
    assert (Hd : forall r r', leases st !! c = Some r -> nonKeyRecords st !! c = Some r' -> False)
      by (intros r r'; by apply (WF_disjoint ∅ st c r r' W)).
    destruct (decide (c ∈ R)) as [Hc|Hc]; [|naive_solver].
    destruct (HR c Hc) as (r & Hr & <-). split.
    + intros [(Hp & _ & [(r1 & H1 & _)|(r1 & H1 & H2)]) H]; [by destruct (Hd r1 r)|].
      assert (r1 = r) as -> by congruence. naive_solver.
    + intros (Hp & _ & [(r1 & H1 & _)|(r1 & (H1 & H2) & _)]); [by destruct (Hd r1 r)|done].
Qed.

Lemma size_eq_empty (X : gset string) : (size X =? 0)%nat = bool_decide (X = ∅).
Proof.
  apply Bool.eq_iff_eq_true. rewrite Nat.eqb_eq, bool_decide_eq_true. by rewrite size_empty_iff, leibniz_equiv_iff.
Qed.

Lemma RemoveNonKEYRecords_spec owner st :
  WF st ->
  let st' := RemoveNonKEYRecords owner st in
  WF st' /\ leases st' = leases st /\ nameIdx st' = nameIdx st /\
  nonKeyRecords st' = filter (fun kv => n_Parent kv.2 <> Normalize owner) (nonKeyRecords st).
Proof.
  intros W. unfold RemoveNonKEYRecords. set (o := Normalize owner).
  destruct (remove_fold_spec (elements (kids st o)) (nonKeyRecords st) (kids st o))
    as (nk' & ks' & -> & -> & Hks).
  set (R := filter (fun c => is_Some (nonKeyRecords st !! c)) (kids st o)).
  assert (Hkid : forall c r, nonKeyRecords st !! c = Some r -> (c ∈ kids st o <-> n_Parent r = o)).
  { intros c r Hr. pose proof (wf_edges _ _ W o c) as E. unfold edge in E. fold (kids st o) in E. rewrite E.
    pose proof (wf_nonKey _ _ W _ _ Hr) as (_ & _ & Hp & _). unfold has_parent. split.
    - intros (_ & _ & [(r' & Hr' & _)|(r' & Hr' & <-)]); [by destruct (WF_disjoint ∅ st c r' r W)|congruence].
    - intros <-. split_and!; [done|set_solver|]. eauto. }
  assert (Hnk : filter (fun kv => kv.1 ∉ elements (kids st o)) (nonKeyRecords st) =
                filter (fun kv => n_Parent kv.2 <> o) (nonKeyRecords st)).
  { apply map_filter_ext. intros k r Hr. simpl. rewrite elem_of_elements, (Hkid k r Hr). done. }
  cbn zeta. cbn [set_children set_nonKey leases nameIdx nonKeyRecords]. rewrite Hnk. split_and!; try done.
  apply (WF_remove_nonKey st _ o R W); try done; cbn [set_children set_nonKey leases nameIdx nonKeyRecords children].
  - intros c. unfold R. rewrite elem_of_filter. intros [[r Hr] Hc]. exists r. split; [done|]. by apply Hkid in Hr as <-.
  - apply map_filter_ext. intros k r Hr. simpl. unfold R. rewrite elem_of_filter, (Hkid k r Hr). naive_solver.
  - assert (Hks' : forall c, c ∈ ks' <-> c ∈ kids st o /\ c ∉ R).
    { intros c. rewrite Hks. unfold R. rewrite elem_of_filter, elem_of_elements. tauto. }
    intros p c. rewrite size_eq_empty.
    assert (Ho : edge (children st) o c <-> c ∈ kids st o) by done.
    destruct (children st !! o) as [ks|] eqn:E; case_bool_decide as Hempty;
      rewrite ?edge_delete, ?edge_insert; (destruct (decide (p = o)) as [->|]; [|naive_solver]);
      rewrite Ho.
    + assert (c ∉ ks') by (rewrite Hempty; set_solver). naive_solver.
    + naive_solver.
    + assert (c ∉ kids st o) by (unfold kids; rewrite E; set_solver). naive_solver.
    + destruct Hempty. apply set_eq. intros x. rewrite Hks'. unfold kids. rewrite E. set_solver.
  - rewrite size_eq_empty. case_bool_decide as Hempty.
    + intros p ks [Hp H']%lookup_delete_Some. case_match; [rewrite lookup_insert_ne in H' by done|];
        by eapply (wf_nonempty _ _ W).
    + case_match; [|apply W]. intros p ks [[_ <-]|[_ H']]%lookup_insert_Some; [done|].
      by eapply (wf_nonempty _ _ W).
Qed.

Lemma RemoveSingle_ok owner rrKey st st' :
  WF st -> RemoveSingleNonKEYRecord owner rrKey st = Ok st' ->
  WF st' /\ leases st' = leases st /\ nameIdx st' = nameIdx st /\
  nonKeyRecords st' = delete rrKey (nonKeyRecords st) /\
  (forall r, nonKeyRecords st !! rrKey = Some r -> n_Parent r = Normalize owner).
Proof.
  intros W. unfold RemoveSingleNonKEYRecord. set (o := Normalize owner).
  destruct (nonKeyRecords st !! rrKey) as [r|] eqn:E.
  2:{ intros [= <-]. rewrite delete_id by done. by split_and!. }
  case_bool_decide as Ho; [|done]. cbn [negb]. intros H.
  assert (Hst : leases st' = leases st /\ nameIdx st' = nameIdx st /\
                nonKeyRecords st' = delete rrKey (nonKeyRecords st) /\
                children st' = children (detachNodeLocked rrKey o st)).
  { pose proof (wf_nonKey _ _ W _ _ E) as (_ & _ & Hp & _). rewrite Ho in Hp.
    unfold detachNodeLocked. rewrite bool_decide_false by done.
    destruct (children st !! o) as [ks|] eqn:Ek; cbn [set_nonKey children] in H; rewrite Ek in H;
      injection H as <-; [|done]. rewrite size_eq_empty.
    by case_bool_decide. }
  destruct Hst as (Hl & Hi & Hn & Hc). split_and!; [|done..|naive_solver].
  pose proof (wf_nonKey _ _ W _ _ E) as (_ & _ & Hp & _).
  apply (WF_remove_nonKey st _ o {[rrKey]} W); try done.
  - intros c ->%elem_of_singleton. eauto.
  - rewrite Hn. apply map_eq. intros k. rewrite map_lookup_filter.
    destruct (decide (k = rrKey)) as [->|Hk].
    + rewrite lookup_delete_eq, E. simpl. case_guard; set_solver.
    + rewrite lookup_delete_ne by done. destruct (_ !! k); simpl; [|done]. case_guard; set_solver.
  - intros p c. rewrite Hc, detach_edge, elem_of_singleton. rewrite Ho in Hp. naive_solver.
  - rewrite Hc. apply detach_nonempty, (wf_nonempty _ _ W).
Qed.

(** ** The lookups under the invariant *)

Lemma FindByName_elem now n st r :
  WF st -> r ∈ FindByName now n st <->
  exists k, leases st !! k = Some r /\ KeyName r = Normalize n /\ IsExpired now r = false.
Proof.
  intros W. unfold FindByName. rewrite list_elem_of_omap. split.
  - intros (k & Hk & Hr). apply (wf_names _ _ W) in Hk as (r' & Hr' & Hn). rewrite Hr' in Hr. simpl in Hr.
    destruct (IsExpired now r') eqn:E; [done|]. injection Hr as <-. eauto.
  - intros (k & Hk & Hn & He). exists k. split; [apply (wf_names _ _ W); eauto|].
    rewrite Hk. simpl. by rewrite He.
Qed.


(** The loop of [GetNonKEYRecordSet]. *)
Lemma record_set_fold st (l : list string) (m : gmap string NonKEYRecord) zone :
  let out :=
    foldl (fun '(records, zone) childID =>
             match nonKeyRecords st !! childID with
             | None => (records, zone)
             | Some rec => (<[childID := rec]> records, n_UpstreamZone rec)
             end) (m, zone) l in
  forall id r, out.1 !! id = Some r <->
    (id ∈ l /\ nonKeyRecords st !! id = Some r) \/
    (~ (id ∈ l /\ is_Some (nonKeyRecords st !! id)) /\ m !! id = Some r).
Proof.
  cbn zeta. revert m zone. induction l as [|x l IH]; intros m zone id r; cbn [foldl].
  - simpl. set_solver.
  - destruct (nonKeyRecords st !! x) as [rx|] eqn:E; rewrite IH, elem_of_cons.
    + destruct (decide (id = x)) as [->|Hx].
      * rewrite lookup_insert_eq, E.
        assert (is_Some (Some rx)) by eauto. destruct (decide (x ∈ l)); tauto.
      * rewrite lookup_insert_ne by done. tauto.
    + destruct (decide (id = x)) as [->|Hx]; [|tauto].
      rewrite E. assert (~ is_Some (@None NonKEYRecord)) by (by intros [? ?]). intuition congruence.
Qed.

(** The record set of an owner holds exactly the records that name it as parent; an
    owner without records has none. *)
Lemma GetNonKEYRecordSet_spec owner st :
  WF st ->
  match GetNonKEYRecordSet owner st with
  | Some s => set_Records s = filter (fun kv => n_Parent kv.2 = Normalize owner) (nonKeyRecords st) /\
              set_Records s <> ∅
  | None => forall id r, nonKeyRecords st !! id = Some r -> n_Parent r <> Normalize owner
  end.
Proof.
  intros W. unfold GetNonKEYRecordSet. set (o := Normalize owner).
  assert (Hkid : forall id r, nonKeyRecords st !! id = Some r -> n_Parent r = o -> id ∈ kids st o).
  { intros id r Hr <-. apply (wf_edges _ _ W). pose proof (wf_nonKey _ _ W _ _ Hr) as (_ & _ & Hp & _).
    split_and!; [done|set_solver|]. right. eauto. }
  rewrite size_eq_empty. case_bool_decide as He.
  { intros id r Hr Hp. pose proof (Hkid id r Hr Hp) as H. rewrite He in H. set_solver. }
  pose proof (record_set_fold st (elements (kids st o)) ∅ "") as Hf. cbn zeta in Hf.
  destruct (foldl _ _ _) as [records zone] eqn:E. cbn [fst] in Hf.
  assert (Hrec : records = filter (fun kv => n_Parent kv.2 = o) (nonKeyRecords st)).
  { apply map_eq. intros id. apply option_eq. intros r.
    rewrite Hf, map_lookup_filter_Some, elem_of_elements, lookup_empty. cbn [snd]. split.
    - intros [[Hk Hr]|[_ ?]]; [|done]. split; [done|].
      assert (Hk' : edge (children st) o id) by exact Hk.
      apply (wf_edges _ _ W) in Hk' as (_ & _ & [(r' & Hr' & _)|(r' & Hr' & <-)]);
        [by destruct (WF_disjoint ∅ st id r' r W)|congruence].
    - intros [Hr Hp]. left. split; [|done]. eauto. }
  destruct (size records =? 0)%nat eqn:Hs.
  - rewrite Nat.eqb_eq, map_size_empty_iff in Hs. intros id r Hr Hp.
    assert (records !! id = Some r) as Hid by (rewrite Hrec; by apply map_lookup_filter_Some).
    by rewrite Hs, lookup_empty in Hid.
  - rewrite Nat.eqb_neq, map_size_empty_iff in Hs. by subst.
Qed.
End invariant.
