(* ===== verification/LeaseSpec.v ===== *)
(** * What the lease store promises

    An abstract store ([Flat]): the KEY nodes and the non-KEY records, each with its
    parent, and no index.  The in-memory store refines it, operation by operation,
    errors included; the theorems the rest of the program relies on (termination and
    exactness of the subtree operations, atomicity of a batch, stability of
    ownership, renewal in place) are stated of the store itself. *)

From Stdlib Require Import Ascii String ZArith Lia.
From S2P Require Import Prelude DnsName DnsData NodeIdent LeaseStore LeaseTree LeaseInv.

Local Open Scope Z_scope.

(** ** The operations as data *)

Inductive store_op :=
| OpRegister (now : Z) (parent : string) (k : option KEY) (l kl : Z) (zone : string)
| OpRenew (now : Z) (k : option KEY) (l kl : Z)
| OpUpsert (now : Z) (owner : string) (rrs : list RR) (l : Z) (zone : string)
| OpRemoveAll (owner : string)
| OpRemoveOne (owner rrKey : string)
| OpDelete (nodeKey : string)
| OpSetHook (b : bool).

Section spec.
Context {L : DnsLib}.

Definition run_op (op : store_op) (st : Store) : result Store :=
  match op with
  | OpRegister now parent k l kl zone => RegisterWithParent now parent k l kl zone st
  | OpRenew now k l kl => RenewLease now k l kl st
  | OpUpsert now owner rrs l zone => UpsertNonKEYRecords now owner rrs l zone st
  | OpRemoveAll owner => Ok (RemoveNonKEYRecords owner st)
  | OpRemoveOne owner rrKey => RemoveSingleNonKEYRecord owner rrKey st
  | OpDelete nodeKey => default (Err "does not terminate") (DeleteSubtree nodeKey st)
  | OpSetHook b => Ok (SetPersistenceHook b st)
  end.

(** What the callers guarantee of an operation's arguments: the records of a batch
    are as the decoder produces them, and their owner (a node key) does not end in two
    dots, so that normalizing it again changes nothing. *)
Definition op_ok (op : store_op) : Prop :=
  match op with
  | OpUpsert _ owner rrs _ _ =>
      Forall (fun rr => rr_wf rr = true) rrs /\ Normalize (Normalize owner) = Normalize owner
  | _ => True
  end.

Definition store_step (st st' : Store) : Prop := exists op, op_ok op /\ run_op op st = Ok st'.

(** ** The abstract store *)

Record Flat := mkFlat { f_keys : gmap string KEYRecord; f_recs : gmap string NonKEYRecord }.

Definition abs (st : Store) : Flat := mkFlat (leases st) (nonKeyRecords st).

Definition f_parent (f : Flat) (c p : string) : Prop :=
  (exists r, f_keys f !! c = Some r /\ k_Parent r = p) \/
  (exists r, f_recs f !! c = Some r /\ n_Parent r = p).

(** [x] is [root] or names a parent at or below it. *)
Definition below (f : Flat) (root x : string) : Prop :=
  rtc (fun p c => p <> "" /\ f_parent f c p) root x.

Definition flat_step (op : store_op) (f : Flat) (out : result Flat) : Prop :=
  match op with
  | OpRegister now parent None l kl zone => out = Err "key rr is nil"
  | OpRegister now parent (Some k) l kl zone =>
      let p := eff_parent parent k in
      if bool_decide (Normalize (Name (key_Hdr k)) = "") then out = Err "key name is empty"
      else if negb (bool_decide (p = "")) && bool_decide (is_Some (f_recs f !! p))
      then out = Err "a non-KEY record can never be a parent"
      else out = Ok (mkFlat (<[NodeKey k := new_record now parent k l kl zone]> (f_keys f)) (f_recs f))
  | OpRenew now None l kl => out = Err "key rr is nil"
  | OpRenew now (Some k) l kl =>
      match f_keys f !! NodeKey k with
      | None => out = Err "no existing lease to renew"
      | Some r =>
          out = Ok (mkFlat (<[NodeKey k :=
            mkKEYRecord (mkBase (b_NodeKind (k_base r)) (b_RRType (k_base r)) (now + l * second) l
                           (b_RegisteredAt (k_base r)) (k_Parent r)) (KeyName r) k kl (k_UpstreamZone r)]>
              (f_keys f)) (f_recs f))
      end
  | OpUpsert now owner rrs l zone =>
      let o := Normalize owner in
      if bool_decide (o = "") then out = Err "owner key name is empty"
      else if existsb (fun rr => match f_recs f !! RecordKey rr with
                                 | Some e => negb (bool_decide (n_Parent e = o)) | None => false end) rrs
      then out = Err "non-KEY record is already registered under a different owner"
      else out = Ok (mkFlat (f_keys f)
             (foldl (fun m rr => <[RecordKey rr := upserted now o l (Normalize zone) rr]> m) (f_recs f) rrs))
  | OpRemoveAll owner =>
      out = Ok (mkFlat (f_keys f) (filter (fun kv => n_Parent kv.2 <> Normalize owner) (f_recs f)))
  | OpRemoveOne owner rrKey =>
      match f_recs f !! rrKey with
      | None => out = Ok f
      | Some r => if bool_decide (n_Parent r = Normalize owner)
                  then out = Ok (mkFlat (f_keys f) (delete rrKey (f_recs f)))
                  else out = Err "non-KEY record is not owned by"
      end
  | OpDelete nodeKey =>
      let root := Normalize nodeKey in
      if bool_decide (root = "") then out = Err "node key is empty"
      else exists f', out = Ok f' /\
           (forall k r, f_keys f' !! k = Some r <-> f_keys f !! k = Some r /\ ~ below f root k) /\
           (forall k r, f_recs f' !! k = Some r <-> f_recs f !! k = Some r /\ ~ below f root k)
  | OpSetHook _ => out = Ok f
  end.

Context {LL : DnsLibLaws L}.

Lemma reach_below st root x : WF st -> reach (children st) root x <-> below (abs st) root x.
Proof.
  intros W. unfold reach, below.
  assert (He : forall p c, edge (children st) p c <-> p <> "" /\ f_parent (abs st) c p).
  { intros p c. rewrite (wf_edges _ _ W). unfold has_parent, f_parent. simpl. set_solver. }
  split; induction 1; econstructor; try done; by apply He.
Qed.

Lemma upsert_check_err owner st rrs e :
  upsert_check owner st rrs = Err e ->
  e = "non-KEY record is already registered under a different owner".
Proof.
  intros (acc & rr & _ & H)%foldM_err. revert H. cbn zeta.
  repeat case_match; try done. by intros [= <-].
Qed.

Lemma existsb_other_owner st o rrs :
  existsb (fun rr => match nonKeyRecords st !! RecordKey rr with
                     | Some e => negb (bool_decide (n_Parent e = o)) | None => false end) rrs = false <->
  forall rr e, rr ∈ rrs -> nonKeyRecords st !! RecordKey rr = Some e -> n_Parent e = o.
Proof.
  induction rrs as [|rr rrs IH]; simpl; [set_solver|]. rewrite orb_false_iff, IH.
  setoid_rewrite elem_of_cons. destruct (nonKeyRecords st !! RecordKey rr) as [e|] eqn:E.
  - rewrite negb_false_iff, bool_decide_eq_true. split; [|naive_solver].
    intros [H1 H2] rr' e' [->|?] He; [congruence|eauto].
  - split; [|naive_solver]. intros [_ H2] rr' e' [->|?] He; [congruence|eauto].
Qed.

(** One operation on a well-formed store: the abstract operation, and a well-formed store. *)
Lemma run_op_refines op st :
  WF st -> op_ok op ->
  match run_op op st with
  | Ok st' => WF st' /\ flat_step op (abs st) (Ok (abs st'))
  | Err e => flat_step op (abs st) (Err e)
  end.
Proof.
  intros W Hok. destruct op as [now parent k l kl zone|now k l kl|now owner rrs l zone|owner|owner rrKey|nodeKey|b];
    cbn [run_op flat_step].
  - destruct (RegisterWithParent _ _ _ _ _ _ _) as [st'|e] eqn:E.
    + split; [by eapply RegisterWithParent_WF|].
      apply RegisterWithParent_ok in E as (k' & -> & Hn & Hp & Hl & Hr & _).
      rewrite bool_decide_false by done. unfold abs. cbn [f_keys f_recs]. rewrite Hl, Hr.
      destruct (_ && _) eqn:Hg; [|done]. rewrite andb_true_iff, negb_true_iff, bool_decide_eq_true,
        bool_decide_eq_false in Hg. destruct Hg as [Hg1 [x Hx]]. simpl in Hx. destruct Hp; congruence.
    + revert E. unfold RegisterWithParent. destruct k as [k|]; [|by intros [= <-]].
      case_bool_decide; [by intros [= <-]|]. fold (eff_parent parent k). cbn [abs f_recs].
      destruct (_ && _); [by intros [= <-]|done].
  - destruct (RenewLease _ _ _ _ _) as [st'|e] eqn:E.
    + split; [by eapply RenewLease_WF|].
      apply RenewLease_ok in E as (k' & r & -> & Hr & Hl & Hn & _).
      cbn [abs f_keys f_recs]. rewrite Hr. unfold abs. by rewrite Hl, Hn.
    + revert E. unfold RenewLease. destruct k as [k|]; [|by intros [= <-]]. cbn [abs f_keys].
      case_match; [done|]. by intros [= <-].
  - destruct (UpsertNonKEYRecords _ _ _ _ _ _) as [st'|e] eqn:E.
    + destruct Hok as [Hrr Hnorm]. apply UpsertNonKEYRecords_ok in E as (W' & Ho & Hl & _ & Hn & Hown); [|done..].
      split; [done|]. rewrite bool_decide_false by done. cbn [abs f_recs f_keys].
      rewrite (proj2 (existsb_other_owner st _ rrs)) by done. unfold abs. by rewrite Hl, Hn.
    + revert E. unfold UpsertNonKEYRecords. case_bool_decide; [by intros [= <-]|].
      destruct (upsert_check _ _ _) as [toApply|e'] eqn:E; [done|]. cbn. intros [= ->].
      cbn [abs f_recs]. destruct (existsb _ _) eqn:Hx; [by apply upsert_check_err in E as ->|].
      rewrite existsb_other_owner in Hx.
      rewrite (proj2 (upsert_check_ok _ _ _ _) (conj eq_refl Hx)) in E. done.
  - destruct (RemoveNonKEYRecords_spec owner st W) as (W' & Hl & _ & Hn). split; [done|].
    unfold abs. cbn [f_keys f_recs]. by rewrite Hl, Hn.
  - destruct (RemoveSingleNonKEYRecord _ _ _) as [st'|e] eqn:E.
    + pose proof (RemoveSingle_ok _ _ _ _ W E) as (W' & Hl & _ & Hn & Ho). split; [done|].
      cbn [abs f_recs f_keys]. destruct (nonKeyRecords st !! rrKey) as [r|] eqn:Er.
      * rewrite bool_decide_true by auto. unfold abs. by rewrite Hl, Hn.
      * unfold abs. by rewrite Hl, Hn, delete_id.
    + revert E. unfold RemoveSingleNonKEYRecord. cbn [abs f_recs].
      destruct (nonKeyRecords st !! rrKey); [|done]. case_bool_decide; cbn [negb].
      * by case_match.
      * by intros [= <-].
  - unfold DeleteSubtree. case_bool_decide as Hr; [done|].
    destruct (deleteSubtree_spec (Normalize nodeKey) st W) as (st' & seen & -> & W' & Hs & Hl & Hn).
    cbn. split; [done|]. exists (abs st'). split; [done|]. cbn [abs f_keys f_recs]. rewrite Hl, Hn.
    split; intros k r; rewrite map_lookup_filter_Some; cbn [fst]; by rewrite Hs, reach_below.
  - split; [|done]. destruct W. by split.
Qed.

Lemma store_steps_WF st st' : WF st -> rtc store_step st st' -> WF st'.
Proof.
  intros W. induction 1 as [|st st1 st' (op & Hok & Hop) _ IH]; [done|]. apply IH.
  pose proof (run_op_refines op st W Hok) as H. rewrite Hop in H. by destruct H.
Qed.

(** Running a sequence of operations, stopping at the first error. *)
Definition run_ops (ops : list store_op) (st : Store) : result Store :=
  foldM (fun st op => run_op op st) st ops.

Lemma run_ops_steps ops st st' : Forall op_ok ops -> run_ops ops st = Ok st' -> rtc store_step st st'.
Proof.
  revert st. induction ops as [|op ops IH]; intros st Hok; cbn.
  - intros [= <-]. constructor.
  - apply Forall_cons in Hok as [Ho Hok]. intros (st1 & H1 & H2)%bind_ok.
    eapply rtc_l; [by exists op|]. by apply IH.
Qed.

(** ** Theorems *)

(** [C13] Every state the store's operations can reach from an empty store is well
    formed: nodes are keyed by the identity of the record they hold, the children
    index holds exactly the parent links of the stored nodes with no empty entry, and
    the name index lists every KEY node of a name once. *)
Theorem store_reachable_WF (st : Store) : rtc store_step NewInMemoryManager st -> WF st.
Proof. apply store_steps_WF, WF_new. Qed.

(** [C12] The in-memory store implements the flat specification: on every reachable
    state each operation, with any arguments, either succeeds and changes the two node
    maps as the specification says, or returns the specification's error (and then
    there is no new state).  A subtree deletion terminates and removes exactly the
    nodes at or below its root. *)
Theorem store_refines_flat (st : Store) (op : store_op) :
  rtc store_step NewInMemoryManager st -> op_ok op ->
  match run_op op st with
  | Ok st' => flat_step op (abs st) (Ok (abs st'))
  | Err e => flat_step op (abs st) (Err e)
  end.
Proof.
  intros W%(store_steps_WF _ _ WF_new) Hok. pose proof (run_op_refines op st W Hok) as H.
  by destruct (run_op op st) as [st'|e]; [destruct H|].
Qed.

(** [ListSubtreeKeys] terminates and returns, once each and longest key first,
    exactly the proper descendants of a node; [DeleteSubtree] of the same node
    terminates, leaves none of them nor the node, and leaves every other KEY and
    non-KEY node as it was. *)
Theorem subtree_listed_and_deleted (st : Store) (nodeKey : string) :
  WF st -> Normalize nodeKey <> "" ->
  exists keys st',
    ListSubtreeKeys nodeKey st = Some keys /\ DeleteSubtree nodeKey st = Some (Ok st') /\
    NoDup keys /\ Sorted longer_first keys /\
    (forall x, x ∈ keys <-> x <> Normalize nodeKey /\ below (abs st) (Normalize nodeKey) x) /\
    (forall x, leases st' !! x =
       if bool_decide (x ∈ Normalize nodeKey :: keys) then None else leases st !! x) /\
    (forall x, nonKeyRecords st' !! x =
       if bool_decide (x ∈ Normalize nodeKey :: keys) then None else nonKeyRecords st !! x).
Proof.
  intros W Hne. set (root := Normalize nodeKey) in *.
  destruct (list_loop_reach (children st) root) as (all & Hl & Hnd & Hall).
  destruct (deleteSubtree_spec root st W) as (st' & seen & Hd & _ & Hs & Hlease & Hnk).
  exists (merge_sort longer_first all), st'. unfold ListSubtreeKeys, DeleteSubtree. fold root.
  rewrite Hl, bool_decide_false, Hd by done.
  assert (Hin : forall x, x ∈ merge_sort longer_first all <-> x <> root /\ reach (children st) root x).
  { intros x. by rewrite merge_sort_Permutation. }
  assert (Hseen : forall x, x ∈ root :: merge_sort longer_first all <-> x ∈ seen).
  { intros x. rewrite elem_of_cons, Hin, Hs. destruct (decide (x = root)) as [->|]; [|tauto].
    split; [constructor|by left]. }
  split_and!; [done|done| | | | |].
  - by rewrite merge_sort_Permutation.
  - apply Sorted_merge_sort. intros a b. unfold longer_first. lia.
  - intros x. by rewrite Hin, <- reach_below.
  - intros x. rewrite Hlease, map_lookup_filter. case_bool_decide as Hx; rewrite Hseen in Hx;
      (destruct (leases st !! x); simpl; [|done]); case_guard; done.
  - intros x. rewrite Hnk, map_lookup_filter. case_bool_decide as Hx; rewrite Hseen in Hx;
      (destruct (nonKeyRecords st !! x); simpl; [|done]); case_guard; done.
Qed.

(** A batch of records is registered whole or not at all: the call fails exactly
    when the owner is empty or some record of the batch is stored under another owner;
    when it succeeds every record of the batch is stored under the owner, expiring at
    [now + leaseDuration], and no other record and no KEY changes. *)
Theorem upsert_whole_batch (st : Store) (now : Z) (owner : string) (rrs : list RR) (l : Z) (zone : string) :
  WF st -> Forall (fun rr => rr_wf rr = true) rrs -> Normalize (Normalize owner) = Normalize owner ->
  (is_ok (UpsertNonKEYRecords now owner rrs l zone st) = true <->
   Normalize owner <> "" /\
   forall rr r, rr ∈ rrs -> LookupNonKEYRecord rr st = Some r -> n_Parent r = Normalize owner) /\
  forall st', UpsertNonKEYRecords now owner rrs l zone st = Ok st' ->
    leases st' = leases st /\
    (forall rr, rr ∈ rrs -> exists r, LookupNonKEYRecord rr st' = Some r /\
       n_Parent r = Normalize owner /\ n_ExpiresAt r = now + l * second /\ RecordKey (n_RR r) = RecordKey rr) /\
    (forall id, (forall rr, rr ∈ rrs -> RecordKey rr <> id) ->
       nonKeyRecords st' !! id = nonKeyRecords st !! id).
Proof.
  intros W Hwf Hnorm.
  assert (Hlook : forall rr st, LookupNonKEYRecord rr st = nonKeyRecords st !! RecordKey rr).
  { intros rr st0. unfold LookupNonKEYRecord. by rewrite bool_decide_false by apply RecordKey_ne. }
  split.
  - unfold UpsertNonKEYRecords. case_bool_decide as Ho; [split; [done|naive_solver]|].
    setoid_rewrite Hlook. destruct (upsert_check _ _ _) as [toApply|e] eqn:E; cbn.
    + apply upsert_check_ok in E as [_ E]. naive_solver.
    + split; [done|]. intros [_ H].
      rewrite (proj2 (upsert_check_ok _ _ _ _) (conj eq_refl H)) in E. done.
  - intros st' (_ & _ & Hl & _ & Hn & _)%UpsertNonKEYRecords_ok; [|done..]. split; [done|].
    setoid_rewrite Hlook. rewrite Hn. split.
    + intros rr Hin. destruct (upsert_map_lookup now (Normalize owner) l (Normalize zone) rrs
        (nonKeyRecords st) (RecordKey rr)) as [H _].
      destruct (H rr Hin eq_refl) as (rr' & _ & Hid & ->). by eexists.
    + intros id. apply upsert_map_lookup.
Qed.

(** No operation moves a non-KEY record from one owner to another: a record that
    is in the store before and after an operation has the same owner. *)
Theorem record_owner_stable (st st' : Store) (id : string) (r r' : NonKEYRecord) :
  WF st -> store_step st st' ->
  nonKeyRecords st !! id = Some r -> nonKeyRecords st' !! id = Some r' ->
  n_Parent r' = n_Parent r.
Proof.
  intros W (op & Hok & Hop) Hr Hr'. pose proof (run_op_refines op st W Hok) as H. rewrite Hop in H.
  destruct H as [_ H]. destruct op; cbn [flat_step abs f_keys f_recs] in H.
  - repeat case_match; simplify_eq. congruence.
  - repeat case_match; simplify_eq. congruence.
  - case_bool_decide; [done|]. destruct (existsb _ _) eqn:Hx; [done|]. injection H as _ H.
    rewrite existsb_other_owner in Hx. rewrite H in Hr'.
    destruct (decide (Exists (fun rr => RecordKey rr = id) rrs)) as [He|He].
    + apply Exists_exists in He as (rr & Hin & Hid). subst id.
      destruct (upsert_map_lookup now (Normalize owner) l (Normalize zone) rrs (nonKeyRecords st) (RecordKey rr))
        as [H1 _]. destruct (H1 rr Hin eq_refl) as (rr' & _ & _ & H2). rewrite H2 in Hr'.
      injection Hr' as <-. symmetry. by apply (Hx rr).
    + destruct (upsert_map_lookup now (Normalize owner) l (Normalize zone) rrs (nonKeyRecords st) id)
        as [_ H1]. rewrite H1 in Hr'; [congruence|]. intros rr Hin Hid. apply He, Exists_exists. eauto.
  - injection H as _ H. rewrite H, map_lookup_filter_Some in Hr'. destruct Hr'. congruence.
  - destruct (nonKeyRecords st !! rrKey); [|injection H as _ H; congruence].
    case_bool_decide; [|done]. injection H as _ H. rewrite H, lookup_delete_Some in Hr'.
    destruct Hr'; congruence.
  - case_bool_decide; [done|]. destruct H as (f' & [= <-] & _ & H). apply H in Hr' as [Hr' _]. cbn in *. congruence.
  - simplify_eq. congruence.
Qed.

(** Renewing is not re-creating: it succeeds exactly for a KEY that has a node,
    expired or not; it sets the timers and the key data and keeps the node's parent,
    registration time and zone, every other node and both indices. *)
Theorem renew_in_place (st : Store) (now : Z) (k : KEY) (l kl : Z) :
  match leases st !! NodeKey k with
  | None => RenewLease now (Some k) l kl st = Err "no existing lease to renew"
  | Some r => exists st' r', RenewLease now (Some k) l kl st = Ok st' /\
      leases st' = <[NodeKey k := r']> (leases st) /\
      k_Parent r' = k_Parent r /\ b_RegisteredAt (k_base r') = b_RegisteredAt (k_base r) /\
      KeyName r' = KeyName r /\ k_UpstreamZone r' = k_UpstreamZone r /\
      k_ExpiresAt r' = now + l * second /\ KeyLeaseDuration r' = kl /\ KeyRR r' = k /\
      nonKeyRecords st' = nonKeyRecords st /\ children st' = children st /\ nameIdx st' = nameIdx st
  end.
Proof.
  destruct (leases st !! NodeKey k) as [r|] eqn:E; unfold RenewLease; rewrite E; [|done].
  eexists _, _. split; [done|]. autorewrite with go_norm. by split_and!.
Qed.

(** The lookups answer from the nodes: by name, exactly the unexpired KEY nodes
    of that normalized name; by KEY and by the signer fields of a SIG(0) of that KEY,
    the same unexpired node; the records of an owner, exactly those that name it as
    parent; and every KEY node and every record owner is listed as an owner. *)
Theorem lookups_exact (st : Store) (now : Z) (n : string) (k : KEY) (owner : string) :
  WF st ->
  (forall r, r ∈ FindByName now n st <->
     exists id, leases st !! id = Some r /\ KeyName r = Normalize n /\ now <= k_ExpiresAt r) /\
  LookupBySIG now (Name (key_Hdr k)) (Algorithm (key_Data k)) (KeyTag (key_Data k)) st = LookupByKEY now k st /\
  (forall r, LookupByKEY now k st = Some r <-> leases st !! NodeKey k = Some r /\ now <= k_ExpiresAt r) /\
  (from_option set_Records ∅ (GetNonKEYRecordSet owner st) =
     filter (fun kv => n_Parent kv.2 = Normalize owner) (nonKeyRecords st)) /\
  (forall o, o ∈ ListOwners st <->
     is_Some (leases st !! o) \/ exists id r, nonKeyRecords st !! id = Some r /\ n_Parent r = o).
Proof.
  intros W. split_and!.
  - intros r. rewrite FindByName_elem by done. unfold IsExpired. setoid_rewrite Z.ltb_ge. done.
  - done.
  - intros r. unfold LookupByKEY, lookup_live. destruct (leases st !! NodeKey k) as [r0|]; simpl; [|naive_solver].
    unfold IsExpired. destruct (k_ExpiresAt r0 <? now) eqn:E; [rewrite Z.ltb_lt in E|rewrite Z.ltb_ge in E];
      split; intros H; simplify_eq; try done; try lia. destruct H; simplify_eq. lia. by destruct H; simplify_eq.
  - pose proof (GetNonKEYRecordSet_spec owner st W) as H.
    destruct (GetNonKEYRecordSet owner st) as [s|]; simpl; [by destruct H|].
    symmetry. apply map_empty_filter. intros id r Hr Hp. by apply (H id r Hr).
  - intros o. unfold ListOwners. rewrite merge_sort_Permutation, elem_of_elements, elem_of_list_to_set, elem_of_app.
    rewrite !list_elem_of_fmap. f_equiv.
    + split; [intros ([k' r] & -> & H%elem_of_map_to_list); eauto|].
      intros [r Hr]. exists (o, r). split; [done|]. by apply elem_of_map_to_list.
    + split; [intros ([k' r] & -> & H%elem_of_map_to_list); eauto|].
      intros (id & r & Hr & <-). exists (id, r). split; [done|]. by apply elem_of_map_to_list.
Qed.
End spec.

(** ** A concrete store *)

Definition ex_child : KEY := mkKEY (mkHeader "Dev.Example.org." 1 300) (mkKeyData 512 3 15 "xyz").
Definition ex_a : RR := mkRR (mkHeader "Host.Example.org." 1 120) (RD_A 3232235777).
Definition ex_txt : RR := mkRR (mkHeader "host.example.org." 1 120) (RD_TXT ["v=1"]).

Definition ex_parent_key : string := NodeKey (L := Demo.lib) ex_key.

Definition ex_ops : list store_op :=
  [OpRegister 0 "" (Some ex_key) 3600 86400 "example.org.";
   OpRegister 0 ex_parent_key (Some ex_child) 3600 86400 "example.org.";
   OpUpsert 0 ex_parent_key [ex_a; ex_srv] 3600 "example.org."].

Definition ex_store : Store :=
  match run_ops (L := Demo.lib) ex_ops NewInMemoryManager with Ok st => st | Err _ => NewInMemoryManager end.

Lemma ex_store_run : run_ops (L := Demo.lib) ex_ops NewInMemoryManager = Ok ex_store.
Proof. vm_compute. reflexivity. Qed.

Lemma ex_store_reachable : rtc (store_step (L := Demo.lib)) NewInMemoryManager ex_store.
Proof. apply (run_ops_steps (L := Demo.lib) ex_ops); [repeat constructor|apply ex_store_run]. Qed.

Lemma ex_store_WF : WF (L := Demo.lib) ex_store.
Proof. apply (store_steps_WF (LL := Demo.laws) NewInMemoryManager); [apply WF_new|apply ex_store_reachable]. Qed.

Lemma store_reachable_WF_witness : WF (L := Demo.lib) ex_store.
Proof. exact (store_reachable_WF (LL := Demo.laws) ex_store ex_store_reachable). Defined.

Lemma store_refines_flat_witness :
  flat_step (L := Demo.lib) (OpDelete ex_parent_key) (abs ex_store)
    (match run_op (L := Demo.lib) (OpDelete ex_parent_key) ex_store with Ok st => Ok (abs st) | Err e => Err e end).
Proof.
  pose proof (store_refines_flat (LL := Demo.laws) ex_store (OpDelete ex_parent_key) ex_store_reachable I) as H.
  destruct (run_op _ _); exact H.
Defined.

Lemma subtree_listed_and_deleted_witness :
  exists keys st', ListSubtreeKeys ex_parent_key ex_store = Some keys /\
    DeleteSubtree ex_parent_key ex_store = Some (Ok st') /\ length keys = 3%nat.
Proof.
  destruct (subtree_listed_and_deleted (LL := Demo.laws) ex_store ex_parent_key ex_store_WF
              ltac:(vm_compute; discriminate)) as (keys & st' & H1 & H2 & _).
  exists keys, st'. split_and!; [exact H1|exact H2|]. vm_compute in H1. by injection H1 as <-.
Defined.

Lemma upsert_whole_batch_witness :
  is_ok (UpsertNonKEYRecords (L := Demo.lib) 5 "other.+015+00001" [ex_a] 60 "example.org." ex_store) = false.
Proof.
  destruct (upsert_whole_batch (LL := Demo.laws) ex_store 5 "other.+015+00001" [ex_a] 60 "example.org."
              ex_store_WF ltac:(repeat constructor) eq_refl) as [H _].
  destruct (is_ok _); [|done]. destruct (proj1 H eq_refl) as [_ H1]. exfalso.
  specialize (H1 ex_a). destruct (LookupNonKEYRecord ex_a ex_store) as [r|] eqn:E; [|by vm_compute in E].
  specialize (H1 r ltac:(by left) eq_refl). vm_compute in E. injection E as <-. by vm_compute in H1.
Defined.

Definition ex_rec : NonKEYRecord :=
  upserted (L := Demo.lib) 0 ex_parent_key 3600 "example.org" ex_a.

Lemma record_owner_stable_witness :
  nonKeyRecords ex_store !! RecordKey (L := Demo.lib) ex_a = Some ex_rec /\ n_Parent ex_rec = ex_parent_key.
Proof.
  split; [vm_compute; reflexivity|].
  etransitivity; [exact (record_owner_stable (LL := Demo.laws) ex_store (RemoveNonKEYRecords "nobody" ex_store)
           (RecordKey (L := Demo.lib) ex_a) ex_rec ex_rec ex_store_WF
           (ex_intro _ (OpRemoveAll "nobody") (conj I eq_refl))
           ltac:(vm_compute; reflexivity) ltac:(vm_compute; reflexivity))|].
  vm_compute. reflexivity.
Defined.

Lemma lookups_exact_witness :
  LookupBySIG 7 (Name (key_Hdr ex_key)) (Algorithm (key_Data ex_key)) (@KeyTag Demo.lib (key_Data ex_key)) ex_store
    = LookupByKEY (L := Demo.lib) 7 ex_key ex_store /\
  length (FindByName 7 "HOST.example.org" ex_store) = 1%nat.
Proof.
  split; [|vm_compute; reflexivity].
  exact (proj1 (proj2 (lookups_exact (LL := Demo.laws) ex_store 7 "HOST.example.org" ex_key "x" ex_store_WF))).
Defined.

(** A non-KEY record can become a parent: registering a record under an owner key
    that is itself a stored record's key succeeds, and the tree then has an edge out of
    a non-KEY node, which the interface's documentation says can never happen. *)
Theorem nonkey_parent_accepted :
  let _ := Demo.lib in
  let id := RecordKey ex_a in
  exists st', UpsertNonKEYRecords 0 id [ex_txt] 60 "example.org." ex_store = Ok st' /\
    is_Some (nonKeyRecords st' !! id) /\ ChildrenOf id st' = [RecordKey ex_txt].
Proof. cbn zeta. eexists. split; [vm_compute; reflexivity|]. split; [eexists|]; by vm_compute. Qed.
