(* ===== verification/LeaseOption.v ===== *)
(** * The Update Lease EDNS(0) option

    pkg/lease/lease.go: the option's 8-byte and 4-byte forms, its encoding as the
    hex data of a raw EDNS(0) option, the search for it in a message, and the
    client's reading of a granted lease (client/lease_response.go).  Values are
    32-bit and carried in network byte order. *)

From Stdlib Require Import Ascii String ZArith Lia.
From S2P Require Import Prelude DnsName DnsData.

Local Open Scope Z_scope.

Definition OPTION_CODE : Z := 2.

(** [KeyLease = None] is the 4-byte variant. *)
Record LeaseOption := mkLeaseOption { Lease : Z; KeyLease : option Z }.

Definition Encode4Byte (lease : Z) : LeaseOption := mkLeaseOption lease None.
Definition Encode8Byte (lease keyLease : Z) : LeaseOption := mkLeaseOption lease (Some keyLease).

Definition Validate (lo : LeaseOption) : result unit :=
  match KeyLease lo with
  | Some kl =>
      if negb (kl =? 0) && negb (Lease lo =? 0) && (kl <? Lease lo) then Err "LEASE exceeds KEY-LEASE"
      else Ok tt
  | None => Ok tt
  end.

(** ** encoding/binary and encoding/hex *)

(** [binary.BigEndian.PutUint32]. *)
Definition PutUint32 (v : Z) : list Z :=
  [Z.shiftr v 24 mod 256; Z.shiftr v 16 mod 256; Z.shiftr v 8 mod 256; v mod 256].

(** [binary.BigEndian.Uint32] of the first four bytes. *)
Definition Uint32 (b : list Z) : Z :=
  match b with
  | b0 :: b1 :: b2 :: b3 :: _ =>
      Z.lor (Z.lor (Z.lor b3 (Z.shiftl b2 8)) (Z.shiftl b1 16)) (Z.shiftl b0 24)
  | _ => 0
  end.

Definition hex_digit (n : Z) : ascii :=
  if n <? 10 then ascii_of_N (48 + Z.to_N n)%N else ascii_of_N (87 + Z.to_N n)%N.

Definition hex_value (c : ascii) : option Z :=
  let n := N_of_ascii c in
  if (48 <=? n)%N && (n <=? 57)%N then Some (Z.of_N n - 48)
  else if (97 <=? n)%N && (n <=? 102)%N then Some (Z.of_N n - 87)
  else if (65 <=? n)%N && (n <=? 70)%N then Some (Z.of_N n - 55)
  else None.

(** [hex.EncodeToString]. *)
Fixpoint hex_encode (b : list Z) : string :=
  match b with
  | [] => ""
  | x :: b => String (hex_digit (x / 16)) (String (hex_digit (x mod 16)) (hex_encode b))
  end.

(** [hex.DecodeString]: an odd length or a character that is no hex digit is an error. *)
Fixpoint hex_decode (s : string) : option (list Z) :=
  match s with
  | EmptyString => Some []
  | String c (String d s) =>
      h ← hex_value c; l ← hex_value d; rest ← hex_decode s; Some (16 * h + l :: rest)
  | String _ EmptyString => None
  end.

(** ** Encode and decode *)

(** [Encode] appends one option to [opt.Options]. *)
Definition Encode (lo : LeaseOption) (options : list EDNS0) : result (list EDNS0) :=
  _ ← Validate lo;
  let keyLease := default 0 (KeyLease lo) in
  let data := hex_encode (PutUint32 (Lease lo) ++ PutUint32 keyLease) in
  Ok (options ++ [ERFC3597 OPTION_CODE data]).

Definition decodeERFC (code : string) : result LeaseOption :=
  match hex_decode code with
  | None => Err "invalid hex data"
  | Some data =>
      if (length data =? 4)%nat then
        let lo := mkLeaseOption (Uint32 data) None in _ ← Validate lo; Ok lo
      else if (length data =? 8)%nat then
        let lo := mkLeaseOption (Uint32 (take 4 data)) (Some (Uint32 (drop 4 data))) in
        _ ← Validate lo; Ok lo
      else Err "invalid option length for Update Lease"
  end.

(** A raw Update Lease option: its hex data. *)
Definition lease_erfc (o : EDNS0) : option string :=
  match o with
  | ERFC3597 c data => if c =? OPTION_CODE then Some data else None
  | _ => None
  end.

Fixpoint first_lease (os : list EDNS0) : option string :=
  match os with
  | [] => None
  | o :: os => match lease_erfc o with Some d => Some d | None => first_lease os end
  end.

Definition Decode (options : list EDNS0) : result LeaseOption :=
  match first_lease options with
  | Some data => decodeERFC data
  | None => Err "Update Lease option not found in OPT record"
  end.

(** The [scan] closure of [FindOption]: bare options and those inside an OPT record. *)
Fixpoint FindOption_scan (rrs : list RR) : option string :=
  match rrs with
  | [] => None
  | rr :: rrs =>
      match (match RD rr with
             | RD_EDNS0 o => lease_erfc o
             | RD_OPT os => first_lease os
             | _ => None
             end) with
      | Some d => Some d
      | None => FindOption_scan rrs
      end
  end.

Definition FindOption (msg : Msg) : option string :=
  match FindOption_scan (Pseudo msg) with
  | Some d => Some d
  | None => FindOption_scan (Extra msg)
  end.

Definition DecodeOption (erfc : string) : result LeaseOption := decodeERFC erfc.

Definition FindAndDecode (msg : Msg) : result LeaseOption :=
  match FindOption msg with
  | None => Err "Update Lease option not found in message"
  | Some erfc => DecodeOption erfc
  end.

(** ** The client's view *)

Definition EffectiveLeaseDuration (resp : Msg) (requestedLease requestedKeyLease : Z) : Z * Z :=
  match FindAndDecode resp with
  | Err _ => (requestedLease, requestedKeyLease)
  | Ok lo => (Lease lo, match KeyLease lo with Some kl => kl | None => Lease lo end)
  end.

(** Expiry times, in nanoseconds. *)
Definition ExpiryFromResponse (now requestedLease requestedKeyLease : Z) (resp : Msg) : Z * Z :=
  let '(lease, keyLease) := EffectiveLeaseDuration resp requestedLease requestedKeyLease in
  (now + lease * 1000000000, now + keyLease * 1000000000).

Definition StatusNotes (resp : Msg) : list string :=
  omap (fun rr => match RD rr with RD_EDNS0 (EDE _ text) => Some text | _ => None end) (Pseudo resp).

(** ** Lemmas *)

Definition byte_ok (x : Z) : Prop := 0 <= x < 256.

Lemma hex_value_digit n : 0 <= n < 16 -> hex_value (hex_digit n) = Some n.
Proof.
  intros H. unfold hex_digit. destruct (n <? 10) eqn:E; unfold hex_value;
    rewrite N_ascii_embedding by lia; repeat case_match; f_equal;
    repeat match goal with
    | H : (_ && _) = true |- _ => apply andb_true_iff in H as [?%N.leb_le ?%N.leb_le]
    | H : (_ && _) = false |- _ => apply andb_false_iff in H as [?%N.leb_gt|?%N.leb_gt]
    end; lia.
Qed.

Lemma hex_roundtrip b : Forall byte_ok b -> hex_decode (hex_encode b) = Some b.
Proof.
  induction b as [|x b IH]; intros Hb; [done|]. apply Forall_cons in Hb as [Hx Hb].
  unfold byte_ok in Hx. cbn [hex_encode hex_decode].
  pose proof (Z.mod_pos_bound x 16 ltac:(lia)).
  rewrite !hex_value_digit by (Z.to_euclidean_division_equations; lia).
  cbn. rewrite IH by done. cbn. do 2 f_equal. pose proof (Z.div_mod x 16). lia.
Qed.

Lemma PutUint32_bytes v : Forall byte_ok (PutUint32 v).
Proof. repeat constructor; unfold byte_ok; apply Z.mod_pos_bound; lia. Qed.

Lemma lor_shift_add a b k : 0 <= k -> 0 <= a < 2 ^ k -> Z.lor a (Z.shiftl b k) = a + b * 2 ^ k.
Proof.
  intros Hk Ha. rewrite <- Z.shiftl_mul_pow2 by done.
  enough (Hl : Z.land a (Z.shiftl b k) = 0).
  { by rewrite <- Z.add_lor_land, Hl, Z.add_0_r. }
  apply Z.bits_inj'. intros n Hn. rewrite Z.land_spec, Z.bits_0.
  destruct (Z.ltb_spec n k).
  - rewrite Z.shiftl_spec_low by lia. apply andb_false_r.
  - destruct (Z.eq_dec a 0) as [->|]; [by rewrite Z.bits_0|].
    rewrite (Z.bits_above_log2 a n); [done|lia|]. apply Z.log2_lt_pow2; [lia|].
    apply Z.lt_le_trans with (2 ^ k); [lia|]. apply Z.pow_le_mono_r; lia.
Qed.

Lemma Uint32_sum b0 b1 b2 b3 rest :
  byte_ok b0 -> byte_ok b1 -> byte_ok b2 -> byte_ok b3 ->
  Uint32 (b0 :: b1 :: b2 :: b3 :: rest) = b3 + b2 * 2 ^ 8 + b1 * 2 ^ 16 + b0 * 2 ^ 24.
Proof.
  unfold byte_ok. intros. cbn [Uint32]. rewrite (lor_shift_add b3) by lia.
  rewrite (lor_shift_add (b3 + _)) by lia. rewrite lor_shift_add by lia. done.
Qed.

Lemma Uint32_PutUint32 v rest : uint32_ok v -> Uint32 (PutUint32 v ++ rest) = v.
Proof.
  unfold uint32_ok. intros Hv. cbn [PutUint32 app].
  rewrite Uint32_sum by (apply Z.mod_pos_bound; lia). rewrite !Z.shiftr_div_pow2 by lia.
  pose proof (Z.mod_pos_bound v 256). pose proof (Z.mod_pos_bound (v / 2 ^ 8) 256).
  pose proof (Z.mod_pos_bound (v / 2 ^ 16) 256). pose proof (Z.mod_pos_bound (v / 2 ^ 24) 256).
  assert (v = 256 * (v / 2 ^ 8) + v mod 256) by (apply Z.div_mod; lia).
  assert (v / 2 ^ 8 = 256 * (v / 2 ^ 16) + (v / 2 ^ 8) mod 256).
  { replace (v / 2 ^ 16) with (v / 2 ^ 8 / 256) by (rewrite Z.div_div by lia; f_equal). apply Z.div_mod. lia. }
  assert (v / 2 ^ 16 = 256 * (v / 2 ^ 24) + (v / 2 ^ 16) mod 256).
  { replace (v / 2 ^ 24) with (v / 2 ^ 16 / 256) by (rewrite Z.div_div by lia; f_equal). apply Z.div_mod. lia. }
  rewrite (Z.mod_small (v / 2 ^ 24)) by (split; [apply Z.div_pos; lia|apply Z.div_lt_upper_bound; lia]).
  lia.
Qed.

Lemma decode_encoded lo :
  uint32_ok (Lease lo) -> uint32_ok (default 0 (KeyLease lo)) -> Validate lo = Ok tt ->
  decodeERFC (hex_encode (PutUint32 (Lease lo) ++ PutUint32 (default 0 (KeyLease lo)))) =
    Ok (mkLeaseOption (Lease lo) (Some (default 0 (KeyLease lo)))).
Proof.
  intros H1 H2 HV. unfold decodeERFC.
  rewrite hex_roundtrip by (apply Forall_app; split; apply PutUint32_bytes).
  set (kl := default 0 (KeyLease lo)) in *.
  change (length (PutUint32 (Lease lo) ++ PutUint32 kl)) with 8%nat. cbn [Nat.eqb].
  change (take 4 (PutUint32 (Lease lo) ++ PutUint32 kl)) with (PutUint32 (Lease lo) ++ []).
  change (drop 4 (PutUint32 (Lease lo) ++ PutUint32 kl)) with (PutUint32 kl ++ []). subst kl.
  rewrite !Uint32_PutUint32 by done.
  destruct lo as [l [kl|]]; cbn [Lease KeyLease default id] in *.
  - rewrite HV. done.
  - done.
Qed.

Lemma first_lease_app os1 os2 : first_lease os1 = None -> first_lease (os1 ++ os2) = first_lease os2.
Proof. induction os1 as [|o os1 IH]; [done|]. cbn. destruct (lease_erfc o); [done|exact IH]. Qed.

(** The option round-trips: what [Encode] appends to options holding no Update
    Lease yet, [Decode] reads back, as the 8-byte form with an absent KEY-LEASE read as
    0; [Encode] refuses exactly the pairs with LEASE above a non-zero KEY-LEASE, and no
    decoded option is such a pair. *)
Theorem lease_option_roundtrip (lo : LeaseOption) (options : list EDNS0) :
  uint32_ok (Lease lo) -> uint32_ok (default 0 (KeyLease lo)) -> first_lease options = None ->
  match Encode lo options with
  | Ok options' =>
      Decode options' = Ok (mkLeaseOption (Lease lo) (Some (default 0 (KeyLease lo)))) /\
      ~ (Lease lo <> 0 /\ default 0 (KeyLease lo) <> 0 /\ default 0 (KeyLease lo) < Lease lo)
  | Err _ => Lease lo <> 0 /\ default 0 (KeyLease lo) <> 0 /\ default 0 (KeyLease lo) < Lease lo
  end.
Proof.
  intros H1 H2 Hf. unfold Encode. destruct (Validate lo) as [[]|e] eqn:HV; cbn.
  - split.
    + unfold Decode. rewrite first_lease_app by done. cbn. by apply decode_encoded.
    + destruct lo as [l [kl|]]; cbn in *; [|lia].
      destruct (kl =? 0) eqn:E1, (l =? 0) eqn:E2, (kl <? l) eqn:E3; cbn in HV; try done; lia.
  - destruct lo as [l [kl|]]; cbn in *; [|done].
    destruct (kl =? 0) eqn:E1, (l =? 0) eqn:E2, (kl <? l) eqn:E3; cbn in HV; try done; lia.
Qed.

Lemma lease_option_roundtrip_witness :
  Decode [EOther 10; ERFC3597 2 "00000e1000015180"] = Ok (mkLeaseOption 3600 (Some 86400)).
Proof.
  pose proof (lease_option_roundtrip (Encode8Byte 3600 86400) [EOther 10]
                ltac:(split; done) ltac:(split; done) eq_refl) as H.
  exact (proj1 H).
Defined.

(** A decoded option is within 32 bits and satisfies LEASE <= KEY-LEASE. *)
Lemma Uint32_range b : Forall byte_ok b -> uint32_ok (Uint32 b).
Proof.
  intros Hb. unfold uint32_ok. destruct b as [|b0 [|b1 [|b2 [|b3 b]]]]; try (cbn [Uint32]; lia).
  repeat match goal with H : Forall _ (_ :: _) |- _ => apply Forall_cons in H as [? H] end.
  rewrite Uint32_sum by done. unfold byte_ok in *. lia.
Qed.

Lemma hex_decode_bytes s b : hex_decode s = Some b -> Forall byte_ok b.
Proof.
  revert s b. fix IH 1. intros [|c [|d s]] b; cbn; [intros [= <-]; constructor|done|].
  destruct (hex_value c) as [h|] eqn:Hc; [|done]. destruct (hex_value d) as [l|] eqn:Hd; [|done].
  cbn. destruct (hex_decode s) as [r|] eqn:Hs; [|done]. intros [= <-].
  constructor; [|by apply (IH s)].
  assert (Hv : forall c v, hex_value c = Some v -> 0 <= v < 16).
  { clear. intros [[][][][][][][][]] v H; vm_compute in H; try discriminate H; injection H as <-; lia. }
  apply Hv in Hc, Hd. unfold byte_ok. lia.
Qed.

Lemma decodeERFC_ok data lo :
  decodeERFC data = Ok lo ->
  uint32_ok (Lease lo) /\ uint32_ok (default 0 (KeyLease lo)) /\ Validate lo = Ok tt.
Proof.
  unfold decodeERFC. destruct (hex_decode data) as [b|] eqn:E; [|done].
  apply hex_decode_bytes in E. repeat case_match; intros; inv_ok; try done.
  - split_and!; [by apply Uint32_range|cbn; unfold uint32_ok; lia|done].
  - split_and!; cbn; [apply Uint32_range, Forall_take|apply Uint32_range, Forall_drop|]; try done.
    by match goal with H : Validate _ = Ok ?u |- _ => destruct u end.
Qed.
