(* ===== verification/LeasePolicy.v ===== *)
(** * Lease policy: which durations are accepted and granted

    handlers/lease_policy.go, handlers/opcode5_lease_option.go, handlers/record_ttl.go
    and the configuration readers of handlers/opcode5_setup.go they use.  Durations
    are 32-bit seconds; a bound of 0 is no bound, and a duration of 0 means delete. *)

From Stdlib Require Import Ascii String ZArith Lia.
From S2P Require Import Prelude DnsName DnsData LeaseStore LeaseOption.

Local Open Scope Z_scope.

Record LeasePolicy := mkLeasePolicy {
  MinKeyLease : Z; MaxKeyLease : Z; MinRRLease : Z; MaxRRLease : Z }.

Definition policy_validate (p : LeasePolicy) : result unit :=
  if (0 <? MaxKeyLease p) && (MaxKeyLease p <? MinKeyLease p)
  then Err "lease_policy min_key_lease_sec cannot be greater than max_key_lease_sec"
  else if (0 <? MaxRRLease p) && (MaxRRLease p <? MinRRLease p)
  then Err "lease_policy min_rr_lease_sec cannot be greater than max_rr_lease_sec"
  else if MinKeyLease p <? MinRRLease p
  then Err "lease_policy min_rr_lease_sec cannot be greater than min_key_lease_sec"
  else if (0 <? MaxKeyLease p) && ((MaxRRLease p =? 0) || (MaxKeyLease p <? MaxRRLease p))
  then Err "lease_policy max_rr_lease_sec must be set and not greater than max_key_lease_sec"
  else Ok tt.

Definition clampLease (lease min max : Z) : Z :=
  let lease := if (0 <? min) && (lease <? min) then min else lease in
  if (0 <? max) && (max <? lease) then max else lease.

Definition clamp (p : LeasePolicy) (lease keyLease : Z) : Z * Z :=
  let lease := if negb (lease =? 0) then clampLease lease (MinRRLease p) (MaxRRLease p) else lease in
  let keyLease :=
    if negb (keyLease =? 0) then clampLease keyLease (MinKeyLease p) (MaxKeyLease p) else keyLease in
  let lease := if negb (lease =? 0) && negb (keyLease =? 0) && (keyLease <? lease) then keyLease else lease in
  (lease, keyLease).

(** ** Configuration values

    A value of a [map[string]any].  A [float64] is given by its sign test and by its
    conversion to [uint32], which the language leaves to the implementation when the
    value is out of range.  [VStrings] is a []string, [VList] a []interface{}, [VManager] a
    LeaseManager and [VHook] a persistence hook, which only Go code can put there. *)
Inductive Value :=
| VInt (n : Z)
| VInt64 (n : Z)
| VFloat64 (negative : bool) (conv : Z)
| VUint32 (n : Z)
| VUint64 (n : Z)
| VString (s : string)
| VBool (b : bool)
| VMap (m : gmap string Value)
| VStrings (l : list string)
| VList (l : list Value)
| VManager (st : Store)
| VHook
| VNil
| VOther.

Definition toUint32 (v : option Value) : option Z :=
  match v with
  | Some (VInt n) => if n <? 0 then None else Some (wrap32 n)
  | Some (VInt64 n) => if n <? 0 then None else Some (wrap32 n)
  | Some (VFloat64 negative conv) => if negative then None else Some conv
  | Some (VUint32 n) => Some n
  | Some (VUint64 n) => Some (wrap32 n)
  | _ => None
  end.

Definition parseLeasePolicy (raw : Value) : result LeasePolicy :=
  match raw with
  | VMap cfg =>
      let field k := default 0 (toUint32 (cfg !! k)) in
      let p := mkLeasePolicy (field "min_key_lease_sec") (field "max_key_lease_sec")
                             (field "min_rr_lease_sec") (field "max_rr_lease_sec") in
      _ ← policy_validate p; Ok p
  | _ => Err "lease_policy must be a map"
  end.

Definition defaultRecordTTL : Z := 300.

Definition parseRecordTTL (cfg : gmap string Value) : result Z :=
  match cfg !! "record_ttl_sec" with
  | None => Ok defaultRecordTTL
  | Some raw =>
      match toUint32 (Some raw) with
      | None => Err "record_ttl_sec must be an integer"
      | Some ttl => if (ttl =? 0) || (2147483647 <? ttl) then Err "record_ttl_sec must be an integer" else Ok ttl
      end
  end.

(** ** Parsing a request's lease *)

Definition hasUpdateLeaseOption (msg : Msg) : bool :=
  match FindOption msg with Some _ => true | None => false end.

Definition parseLease (p : LeasePolicy) (prefer4ByteVariant : bool) (msg : Msg) : result (Z * Z) :=
  let minRRLease := MinRRLease p in
  let minKeyLease := MinKeyLease p in
  match FindOption msg with
  | None => Err "no Update Lease EDNS option found"
  | Some erfc =>
      lo ← DecodeOption erfc;
      match KeyLease lo with
      | None =>
          if (0 <? minRRLease) && (Lease lo <? minRRLease) then Err "lease duration below minimum"
          else if negb prefer4ByteVariant then Err "4-byte variant not permitted; prefer 8-byte variant"
          else Ok (Lease lo, 0)
      | Some keyLease =>
          let lease := Lease lo in
          if lease =? 0 then
            if negb (keyLease =? 0) && (0 <? minKeyLease) && (keyLease <? minKeyLease)
            then Err "key-lease duration below minimum"
            else Ok (lease, keyLease)
          else if (0 <? minRRLease) && (lease <? minRRLease) then Err "lease duration below minimum"
          else if negb (keyLease =? 0) then
            if (0 <? minKeyLease) && (keyLease <? minKeyLease) then Err "key-lease duration below minimum"
            else if keyLease <? lease then Err "lease duration cannot exceed key-lease duration"
            else Ok (lease, keyLease)
          else Ok (lease, keyLease)
      end
  end.

(** ** Lemmas *)

(** Comparisons of the goal and the hypotheses as propositions. *)
Ltac zb :=
  repeat match goal with
  | H : (_ && _) = true |- _ => apply andb_true_iff in H as [? ?]
  | H : (_ || _) = false |- _ => apply orb_false_iff in H as [? ?]
  | H : (_ && _) = false |- _ => apply andb_false_iff in H
  | H : (_ || _) = true |- _ => apply orb_true_iff in H
  | H : negb _ = true |- _ => apply negb_true_iff in H
  | H : negb _ = false |- _ => apply negb_false_iff in H
  | H : (_ <? _) = true |- _ => apply Z.ltb_lt in H
  | H : (_ <? _) = false |- _ => apply Z.ltb_ge in H
  | H : (_ =? _) = true |- _ => apply Z.eqb_eq in H
  | H : (_ =? _) = false |- _ => apply Z.eqb_neq in H
  end.

Lemma clampLease_bounds lease min max :
  0 < lease -> 0 <= min -> 0 <= max -> (0 < max -> min <= max) ->
  0 < clampLease lease min max /\ min <= clampLease lease min max /\
  (0 < max -> clampLease lease min max <= max) /\
  (min <= lease -> (0 < max -> lease <= max) -> clampLease lease min max = lease).
Proof.
  intros. unfold clampLease.
  destruct (0 <? min) eqn:?, (lease <? min) eqn:?; cbn [andb];
  destruct (0 <? max) eqn:?; cbn [andb];
  repeat match goal with |- context [if ?b then _ else _] => destruct b eqn:? end; zb; lia.
Qed.

Lemma clampLease_mono a b min max min' max' :
  a <= b -> 0 <= min <= min' -> (0 < max' -> 0 < max <= max') ->
  clampLease a min max <= clampLease b min' max' \/ (0 < max /\ min > max).
Proof.
  intros. unfold clampLease.
  destruct (0 <? min) eqn:?, (a <? min) eqn:?, (0 <? min') eqn:?, (b <? min') eqn:?;
  cbn [andb]; destruct (0 <? max) eqn:?, (0 <? max') eqn:?; cbn [andb];
  repeat match goal with |- context [if ?b then _ else _] => destruct b eqn:? end; zb; lia.
Qed.

Definition policy_nonneg (p : LeasePolicy) : Prop :=
  0 <= MinKeyLease p /\ 0 <= MaxKeyLease p /\ 0 <= MinRRLease p /\ 0 <= MaxRRLease p.

Lemma policy_validate_ok p :
  policy_nonneg p -> policy_validate p = Ok tt ->
  (0 < MaxKeyLease p -> MinKeyLease p <= MaxKeyLease p) /\
  (0 < MaxRRLease p -> MinRRLease p <= MaxRRLease p) /\
  MinRRLease p <= MinKeyLease p /\
  (0 < MaxKeyLease p -> 0 < MaxRRLease p <= MaxKeyLease p).
Proof.
  unfold policy_nonneg, policy_validate. intros Hp.
  destruct (_ && _) eqn:H1; [done|]. destruct (_ && _) eqn:H2 in |- *; [done|].
  destruct (_ <? _) eqn:H3 in |- *; [done|]. destruct (_ && _) eqn:H4 in |- *; [done|]. intros _.
  destruct (0 <? MaxKeyLease p) eqn:?, (0 <? MaxRRLease p) eqn:?; cbn [andb] in *; zb; lia.
Qed.

(** Under a policy [validate] accepts, clamping never turns a lease into a delete
    or a delete into a lease, grants durations within the policy's bounds, always grants
    LEASE <= KEY-LEASE, and leaves a request already within the bounds as it is. *)
Theorem clamp_grants (p : LeasePolicy) (lease keyLease : Z) :
  policy_nonneg p -> policy_validate p = Ok tt -> 0 <= lease -> 0 <= keyLease ->
  let '(l, k) := clamp p lease keyLease in
  (l = 0 <-> lease = 0) /\ (k = 0 <-> keyLease = 0) /\
  (l <> 0 -> MinRRLease p <= l /\ (0 < MaxRRLease p -> l <= MaxRRLease p)) /\
  (k <> 0 -> MinKeyLease p <= k /\ (0 < MaxKeyLease p -> k <= MaxKeyLease p)) /\
  (l <> 0 -> k <> 0 -> l <= k) /\
  (lease <= keyLease -> MinRRLease p <= lease -> MinKeyLease p <= keyLease ->
   (0 < MaxRRLease p -> lease <= MaxRRLease p) -> (0 < MaxKeyLease p -> keyLease <= MaxKeyLease p) ->
   l = lease /\ k = keyLease).
Proof.
  intros Hp Hv Hl Hk. pose proof (policy_validate_ok p Hp Hv) as (V1 & V2 & V3 & V4).
  destruct Hp as (P1 & P2 & P3 & P4). unfold clamp.
  destruct (lease =? 0) eqn:El, (keyLease =? 0) eqn:Ek; zb; subst; cbn [negb andb].
  - simpl. lia.
  - pose proof (clampLease_bounds keyLease (MinKeyLease p) (MaxKeyLease p)) as B. simpl. lia.
  - pose proof (clampLease_bounds lease (MinRRLease p) (MaxRRLease p)) as B.
    destruct (_ =? 0) eqn:E; zb; simpl; lia.
  - pose proof (clampLease_bounds lease (MinRRLease p) (MaxRRLease p)) as B1.
    pose proof (clampLease_bounds keyLease (MinKeyLease p) (MaxKeyLease p)) as B2.
    destruct (clampLease lease _ _ =? 0) eqn:E1; [zb; lia|].
    destruct (clampLease keyLease _ _ =? 0) eqn:E2; [zb; lia|]. cbn [negb andb].
    destruct (_ <? _) eqn:E3; zb; lia.
Qed.

Lemma clamp_grants_witness :
  clamp (mkLeasePolicy 60 7200 30 3600) 9000 9000 = (3600, 7200) /\ 3600 <= 7200.
Proof.
  pose proof (clamp_grants (mkLeasePolicy 60 7200 30 3600) 9000 9000
    ltac:(unfold policy_nonneg; cbn; lia) ltac:(reflexivity) ltac:(lia) ltac:(lia)) as H.
  split; [reflexivity|]. destruct H as (_ & _ & _ & _ & H & _). apply H; discriminate.
Defined.

(** What [parseLease] accepts. *)
Lemma parseLease_ok p pref msg l k :
  parseLease p pref msg = Ok (l, k) ->
  uint32_ok l /\ uint32_ok k /\ (l <> 0 -> k <> 0 -> l <= k) /\
  (l <> 0 -> MinRRLease p <= l \/ MinRRLease p <= 0) /\
  (k <> 0 -> MinKeyLease p <= k \/ MinKeyLease p <= 0).
Proof.
  unfold parseLease. destruct (FindOption msg) as [erfc|]; [|done].
  intros (lo & Hd & H)%bind_ok. apply decodeERFC_ok in Hd as (Hl & Hk & _).
  destruct lo as [lease [kl|]]; cbn [LeaseOption.KeyLease LeaseOption.Lease default id] in *.
  - repeat match goal with H : context [if ?b then _ else _] |- _ => destruct b eqn:? end;
      simplify_eq; zb; (split_and!; [done|done|..]; intros; zb; lia).
  - repeat match goal with H : context [if ?b then _ else _] |- _ => destruct b eqn:? end;
      simplify_eq; zb; unfold uint32_ok in *; (split_and!; intros; zb; lia).
Qed.

(** A negative configuration value is refused, but one of 2^32 or more wraps: a
    [record_ttl_sec] of 2^32 + 1 is read as a TTL of 1 second, although the value is
    documented to lie between 1 and 2^31 - 1 or fail. *)
Theorem record_ttl_wraps :
  parseRecordTTL {["record_ttl_sec" := VInt (-1)]} = Err "record_ttl_sec must be an integer" /\
  parseRecordTTL {["record_ttl_sec" := VInt 4294967297]} = Ok 1 /\
  parseRecordTTL ∅ = Ok 300.
Proof. split_and!; reflexivity. Qed.
