(* ===== verification/NodeLocks.v ===== *)
(** * Node locks

    pkg/lease/nodelock.go: a table of held ids, all-or-nothing acquisition, and the
    channel every [Release] closes and replaces to wake the waiting [Acquire]s.  The
    table's operations are functions on its state; the goroutines that call them are
    a step relation in which every critical section of the table's mutex is one
    step.  The channel is its generation number: closed means replaced. *)

From Stdlib Require Import Ascii String ZArith Lia.
From S2P Require Import Prelude.

(** ** The table *)

Record NodeLocks := mkNodeLocks { held : gset string; released : nat }.

Definition NewNodeLocks : NodeLocks := mkNodeLocks ∅ 0.

Record NodeLockSet := mkNodeLockSet { ids : list string; set_released : bool }.

(** [slices.Compact(slices.Sorted(slices.Values(l)))]. *)
Definition sorted_ids (l : list string) : list string :=
  merge_sort String.le (elements (list_to_set l : gset string)).

(** [tryLocked]: the set taken, or the held ids. *)
Definition tryLocked (lockSet : list string) (n : NodeLocks) : (NodeLocks * NodeLockSet) + list string :=
  let ids := sorted_ids lockSet in
  let busy := filter (fun id => id ∈ held n) ids in
  if (0 <? length busy)%nat then inr busy
  else inl (mkNodeLocks (foldl (fun h id => {[id]} ∪ h) (held n) ids) (released n), mkNodeLockSet ids false).

Definition TryAcquire (lockSet : list string) (n : NodeLocks) : NodeLocks * result NodeLockSet :=
  match tryLocked lockSet n with
  | inl (n', s) => (n', Ok s)
  | inr busy => (n, Err "lease-store node lock contention")
  end.

Definition IDs (s : NodeLockSet) : list string := ids s.

(** [Release]; the error is the source's panic on a second release. *)
Definition Release (s : NodeLockSet) (n : NodeLocks) : result (NodeLockSet * NodeLocks) :=
  if set_released s then Err "panic: lease-store node locks released twice"
  else Ok (mkNodeLockSet (ids s) true,
           mkNodeLocks (foldl (fun h id => h ∖ {[id]}) (held n) (ids s)) (S (released n))).

(** ** The goroutines

    [Waiting ch busy]: in the [select] of [Acquire], on the channel of generation
    [ch] read in the same critical section as the failed attempt. *)
Inductive thread :=
| Idle
| Waiting (ch : nat) (busy : list string)
| Holding (s : NodeLockSet).

Record system := mkSystem { table : NodeLocks; threads : gmap nat thread }.

(** A goroutine may run [Acquire]'s critical section: it is not in the call yet, or the
    channel it waits on is closed. *)
Definition may_try (n : NodeLocks) (t : thread) : Prop :=
  match t with
  | Idle => True
  | Waiting ch _ => (ch < released n)%nat
  | Holding _ => False
  end.

Inductive step : system -> system -> Prop :=
| step_acquire n ts t th lockSet n' s :
    ts !! t = Some th -> may_try n th -> tryLocked lockSet n = inl (n', s) ->
    step (mkSystem n ts) (mkSystem n' (<[t := Holding s]> ts))
| step_wait n ts t th lockSet busy :
    ts !! t = Some th -> may_try n th -> tryLocked lockSet n = inr busy ->
    step (mkSystem n ts) (mkSystem n (<[t := Waiting (released n) busy]> ts))
| step_try n ts t lockSet n' s :
    ts !! t = Some Idle -> TryAcquire lockSet n = (n', Ok s) ->
    step (mkSystem n ts) (mkSystem n' (<[t := Holding s]> ts))
| step_cancel n ts t ch busy :
    ts !! t = Some (Waiting ch busy) ->
    step (mkSystem n ts) (mkSystem n (<[t := Idle]> ts))
| step_release n ts t s s' n' :
    ts !! t = Some (Holding s) -> Release s n = Ok (s', n') ->
    step (mkSystem n ts) (mkSystem n' (<[t := Idle]> ts))
| step_spawn n ts t : ts !! t = None -> step (mkSystem n ts) (mkSystem n (<[t := Idle]> ts)).

Definition init : system := mkSystem NewNodeLocks ∅.

(** ** The invariant *)

Definition holds (ts : gmap nat thread) (t : nat) (id : string) : Prop :=
  exists s, ts !! t = Some (Holding s) /\ id ∈ ids s.

Record Inv (sys : system) : Prop := {
  inv_live : forall t s, threads sys !! t = Some (Holding s) -> set_released s = false;
  inv_held : forall id, id ∈ held (table sys) <-> exists t, holds (threads sys) t id;
  inv_excl : forall t1 t2 id, holds (threads sys) t1 id -> holds (threads sys) t2 id -> t1 = t2;
  inv_wait : forall t ch busy, threads sys !! t = Some (Waiting ch busy) ->
    (ch <= released (table sys))%nat /\
    (ch = released (table sys) -> busy <> [] /\ forall id, id ∈ busy -> id ∈ held (table sys)) }.

Lemma sorted_ids_elem l id : id ∈ sorted_ids l <-> id ∈ l.
Proof. unfold sorted_ids. rewrite merge_sort_Permutation, elem_of_elements. apply elem_of_list_to_set. Qed.

Lemma fold_add_elem (l : list string) (h : gset string) id :
  id ∈ foldl (fun h id => {[id]} ∪ h) h l <-> id ∈ l \/ id ∈ h.
Proof. revert h. induction l as [|x l IH]; intros h; cbn [foldl]; [set_solver|]. rewrite IH. set_solver. Qed.

Lemma fold_del_elem (l : list string) (h : gset string) id :
  id ∈ foldl (fun h id => h ∖ {[id]}) h l <-> id ∈ h /\ id ∉ l.
Proof. revert h. induction l as [|x l IH]; intros h; cbn [foldl]; [set_solver|]. rewrite IH. set_solver. Qed.

(** A successful attempt takes every id of the set, none of which was held; a failed
    one changes nothing and names a held id. *)
Lemma tryLocked_spec lockSet n :
  match tryLocked lockSet n with
  | inl (n', s) => released n' = released n /\ set_released s = false /\
      (forall id, id ∈ ids s <-> id ∈ lockSet) /\ (forall id, id ∈ lockSet -> id ∉ held n) /\
      (forall id, id ∈ held n' <-> id ∈ lockSet \/ id ∈ held n)
  | inr busy => busy <> [] /\ forall id, id ∈ busy <-> id ∈ lockSet /\ id ∈ held n
  end.
Proof.
  unfold tryLocked. destruct (filter _ _) as [|b busy] eqn:E; simpl.
  - split_and!; try done.
    + apply sorted_ids_elem.
    + intros id Hid Hh. assert (id ∈ filter (fun id => id ∈ held n) (sorted_ids lockSet)) as H.
      { apply list_elem_of_filter. by rewrite sorted_ids_elem. } rewrite E in H. set_solver.
    + intros id. by rewrite fold_add_elem, sorted_ids_elem.
  - split; [done|]. intros id. rewrite <- E, list_elem_of_filter, sorted_ids_elem. tauto.
Qed.

Lemma Inv_take n ts t th lockSet n' s :
  Inv (mkSystem n ts) -> ts !! t = Some th -> may_try n th -> tryLocked lockSet n = inl (n', s) ->
  Inv (mkSystem n' (<[t := Holding s]> ts)).
Proof.
  intros [I1 I2 I3 I4] Ht Hm Htry. pose proof (tryLocked_spec lockSet n) as H. rewrite Htry in H.
  destruct H as (Hr & Hs & Hids & Hfree & Hheld). cbn [table threads] in *.
  assert (Hh : forall t' id, holds (<[t := Holding s]> ts) t' id <->
                 (t' = t /\ id ∈ lockSet) \/ holds ts t' id).
  { intros t' id. unfold holds. destruct (decide (t' = t)) as [->|Hn].
    - rewrite lookup_insert_eq, Ht. split; [intros (? & [= <-] & ?); left; naive_solver|].
      intros [[_ H]|(s0 & [= ->] & _)]; [|done]. exists s. by rewrite Hids.
    - rewrite lookup_insert_ne by done. naive_solver. }
  split; cbn [table threads].
  - intros t' s'. rewrite lookup_insert_Some. intros [[_ [= <-]]|[_ H]]; eauto.
  - intros id. rewrite Hheld, I2. setoid_rewrite Hh. naive_solver.
  - intros t1 t2 id. rewrite !Hh. intros [[-> H1]|H1] [[-> H2]|H2]; eauto.
    + exfalso. apply (Hfree id H1), I2. eauto.
    + exfalso. apply (Hfree id H2), I2. eauto.
  - intros t' ch busy. rewrite lookup_insert_Some, Hr. intros [[_ ?]|[_ H]]; [done|].
    destruct (I4 _ _ _ H) as [H1 H2]. split; [done|]. intros Hc. destruct (H2 Hc) as [H3 H4].
    split; [done|]. intros id Hid. rewrite Hheld. auto.
Qed.

(** Replacing a goroutine that holds nothing by one that holds nothing. *)
Lemma Inv_nohold n ts t th :
  Inv (mkSystem n ts) -> (forall s, ts !! t <> Some (Holding s)) ->
  (match th with
   | Idle => True
   | Waiting ch busy => ch = released n /\ busy <> [] /\ forall id, id ∈ busy -> id ∈ held n
   | Holding _ => False
   end) ->
  Inv (mkSystem n (<[t := th]> ts)).
Proof.
  intros [I1 I2 I3 I4] Ht Hth. cbn [table threads] in *.
  assert (Hh : forall t' id, holds (<[t := th]> ts) t' id <-> holds ts t' id).
  { intros t' id. unfold holds. destruct (decide (t' = t)) as [->|Hn].
    - rewrite lookup_insert_eq. split; [intros (s & [= ->] & _); done|]. intros (s & H & _). by apply Ht in H.
    - by rewrite lookup_insert_ne. }
  split; cbn [table threads].
  - intros t' s'. rewrite lookup_insert_Some. intros [[_ ->]|[_ H]]; [done|eauto].
  - intros id. setoid_rewrite Hh. apply I2.
  - intros t1 t2 id. rewrite !Hh. apply I3.
  - intros t' ch busy. rewrite lookup_insert_Some. intros [[_ ->]|[_ H]]; [|eauto].
    destruct Hth as (-> & H1 & H2). eauto.
Qed.

Lemma Inv_release n ts t s s' n' :
  Inv (mkSystem n ts) -> ts !! t = Some (Holding s) -> Release s n = Ok (s', n') ->
  Inv (mkSystem n' (<[t := Idle]> ts)).
Proof.
  intros [I1 I2 I3 I4] Ht Hr. cbn [table threads] in *. unfold Release in Hr.
  destruct (set_released s); [done|]. injection Hr as <- <-.
  assert (Hh : forall t' id, holds (<[t := Idle]> ts) t' id <-> holds ts t' id /\ t' <> t).
  { intros t' id. unfold holds. destruct (decide (t' = t)) as [->|Hn].
    - rewrite lookup_insert_eq. naive_solver.
    - rewrite lookup_insert_ne by done. naive_solver. }
  split; cbn [table threads held released].
  - intros t' s0. rewrite lookup_insert_Some. intros [[_ ?]|[_ H]]; [done|eauto].
  - intros id. rewrite fold_del_elem, I2. setoid_rewrite Hh. split.
    + intros [[t' H] Hid]. exists t'. split; [done|]. intros ->. destruct H as (s0 & H & H'). naive_solver.
    + intros (t' & H & Hn). split; [eauto|]. intros Hid. apply Hn, (I3 t' t id H). by exists s.
  - intros t1 t2 id. rewrite !Hh. intros [? _] [? _]. eauto.
  - intros t' ch busy. rewrite lookup_insert_Some. intros [[_ ?]|[_ H]]; [done|].
    apply I4 in H as [H _]. lia.
Qed.

Lemma step_Inv sys sys' : Inv sys -> step sys sys' -> Inv sys'.
Proof.
  intros I H. destruct H as [n ts t th ls n' s Ht Hm Htry|n ts t th ls busy Ht Hm Htry|n ts t ls n' s Ht Htry
                           |n ts t ch busy Ht|n ts t s s' n' Ht Hr|n ts t Ht].
  - by eapply Inv_take.
  - apply Inv_nohold; [done|intros s Hs|].
    + rewrite Ht in Hs. injection Hs as ->. done.
    + pose proof (tryLocked_spec ls n) as H. rewrite Htry in H. destruct H as [H1 H2]. naive_solver.
  - unfold TryAcquire in Htry. destruct (tryLocked ls n) as [[n1 s1]|] eqn:E; simplify_eq.
    by eapply (Inv_take n ts t Idle).
  - apply Inv_nohold; naive_solver.
  - by eapply Inv_release.
  - apply Inv_nohold; naive_solver.
Qed.

Lemma init_Inv : Inv init.
Proof.
  split; cbn; intros *.
  - by rewrite lookup_empty.
  - unfold holds. setoid_rewrite lookup_empty. set_solver.
  - unfold holds. setoid_rewrite lookup_empty. naive_solver.
  - by rewrite lookup_empty.
Qed.

Lemma steps_Inv sys : rtc step init sys -> Inv sys.
Proof.
  assert (H : forall s1 s2, rtc step s1 s2 -> Inv s1 -> Inv s2).
  { induction 1; eauto using step_Inv. }
  intros Hs. apply (H init); [done|apply init_Inv].
Qed.

(** ** Theorems *)

(** Mutual exclusion: however the goroutines interleave, two of them never hold the
    same id, an id is in the table exactly while a goroutine holds it, and a holder's
    [Release] never panics. *)
Theorem locks_exclusive (sys : system) :
  rtc step init sys ->
  (forall t1 t2 id, holds (threads sys) t1 id -> holds (threads sys) t2 id -> t1 = t2) /\
  (forall id, id ∈ held (table sys) <-> exists t, holds (threads sys) t id) /\
  (forall t s, threads sys !! t = Some (Holding s) -> is_ok (Release s (table sys)) = true).
Proof.
  intros I%steps_Inv. split_and!; [apply I|apply I|].
  intros t s Ht. unfold Release. by rewrite (inv_live _ I t s Ht).
Qed.

(** No deadlock and no lost wake-up: a goroutine waiting in [Acquire] either finds
    its channel closed, so that it can try again, or waits for an id that another
    goroutine holds; and that goroutine, waiting for nothing itself, can release it,
    which wakes the waiter.  It waits holding nothing. *)
Theorem waiters_wake (sys : system) (t ch : nat) (busy : list string) :
  rtc step init sys -> threads sys !! t = Some (Waiting ch busy) ->
  (forall id, ~ holds (threads sys) t id) /\
  ((ch < released (table sys))%nat \/
   exists t' s id n', threads sys !! t' = Some (Holding s) /\ id ∈ busy /\ id ∈ ids s /\ t' <> t /\
     step sys (mkSystem n' (<[t' := Idle]> (threads sys))) /\ (ch < released n')%nat).
Proof.
  intros I%steps_Inv Ht. split; [intros id (s & Hs & _); congruence|].
  destruct (inv_wait _ I _ _ _ Ht) as [Hle Hw].
  destruct (decide (ch = released (table sys))) as [Hc|]; [right|left; lia].
  destruct (Hw Hc) as [Hne Hheld]. destruct busy as [|id busy]; [done|].
  destruct (proj1 (inv_held _ I id) (Hheld id ltac:(by left))) as (t' & s & Hs & Hid).
  pose proof (inv_live _ I _ _ Hs) as Hlive. destruct sys as [n ts]; cbn [table threads] in *.
  eexists t', s, id, _. split_and!; [done|by left|done|congruence| |].
  - eapply step_release; [done|]. unfold Release. by rewrite Hlive.
  - simpl. lia.
Qed.

(** An acquisition is all or nothing: it takes the whole set, sorted and without
    repetitions, exactly when none of it is held, and otherwise leaves the table as it
    was and names precisely the held ids of the set. *)
Theorem acquire_all_or_nothing (n : NodeLocks) (lockSet : list string) :
  match tryLocked lockSet n with
  | inl (n', s) => (forall id, id ∈ lockSet -> id ∉ held n) /\
      Sorted String.le (ids s) /\ NoDup (ids s) /\ (forall id, id ∈ ids s <-> id ∈ lockSet) /\
      (forall id, id ∈ held n' <-> id ∈ lockSet \/ id ∈ held n)
  | inr busy => busy <> [] /\ (forall id, id ∈ busy <-> id ∈ lockSet /\ id ∈ held n) /\
      fst (TryAcquire lockSet n) = n
  end.
Proof.
  pose proof (tryLocked_spec lockSet n) as H. unfold TryAcquire.
  destruct (tryLocked lockSet n) as [[n' s]|busy] eqn:E.
  - destruct H as (_ & _ & Hids & Hfree & Hheld). split_and!; try done.
    + revert E. unfold tryLocked. case_match; [done|]. intros [= _ <-]. apply Sorted_merge_sort, _.
    + revert E. unfold tryLocked. case_match; [done|]. intros [= _ <-].
      unfold sorted_ids. cbn [ids]. rewrite merge_sort_Permutation. apply NoDup_elements.
  - naive_solver.
Qed.

(** ** A contended run *)

Definition ex_sys : system :=
  mkSystem (mkNodeLocks {["a"]} 0) {[ 1%nat := Holding (mkNodeLockSet ["a"] false); 2%nat := Waiting 0 ["a"] ]}.

Lemma ex_sys_reachable : rtc step init ex_sys.
Proof.
  eapply rtc_l; [apply (step_spawn NewNodeLocks ∅ 1%nat); apply lookup_empty|].
  eapply rtc_l; [eapply (step_acquire _ _ 1%nat Idle ["a"]); [apply lookup_insert_eq|done|vm_compute; reflexivity]|].
  eapply rtc_l; [apply (step_spawn _ _ 2%nat); vm_compute; reflexivity|].
  eapply rtc_l; [eapply (step_wait _ _ 2%nat Idle ["a"]); [apply lookup_insert_eq|done|vm_compute; reflexivity]|].
  replace ex_sys with (mkSystem (mkNodeLocks {["a"]} 0)
     (<[2%nat := Waiting 0 ["a"]]> (<[2%nat := Idle]> (<[1%nat := Holding (mkNodeLockSet ["a"] false)]>
        (<[1%nat := Idle]> (∅ : gmap nat thread)))))); [constructor|].
  vm_compute. reflexivity.
Qed.

Lemma locks_exclusive_witness : "a" ∈ held (table ex_sys) <-> exists t, holds (threads ex_sys) t "a".
Proof. exact (proj1 (proj2 (locks_exclusive ex_sys ex_sys_reachable)) "a"). Defined.

Lemma waiters_wake_witness : ~ holds (threads ex_sys) 2%nat "a".
Proof. exact (proj1 (waiters_wake ex_sys 2%nat 0%nat ["a"] ex_sys_reachable ltac:(vm_compute; reflexivity)) "a"). Defined.
