(* ===== verification/WireLabel.v ===== *)
(** * Labels the library cannot carry

    pkg/dnsname/wire.go: the walk over a wire-format message that finds a label holding a
    dot, run on every request before its names are sent on.  A message is a list of
    bytes; an offset is a [nat]; a read past the end is an error exactly where the source
    checks for it.  The loop of [dottedName] has no structural bound, so it takes fuel;
    [dottedName_fuel] is enough for every message. *)

From Stdlib Require Import Ascii String ZArith Lia.
From S2P Require Import Prelude LeaseOption.

Local Open Scope Z_scope.

(** RDATA types with a name at a fixed offset. *)
Definition rdataNameOffset (t : Z) : option nat :=
  if bool_decide (t ∈ [2; 5; 6; 12; 39]) then Some 0%nat
  else if bool_decide (t ∈ [15; 18; 21; 36; 64; 65]) then Some 2%nat
  else if t =? 33 then Some 6%nat
  else if bool_decide (t ∈ [24; 46]) then Some 18%nat
  else None.

Definition maxPointerHops : nat := 127.

Definition u16 (msg : list Z) (off : nat) : Z :=
  Z.lor (Z.shiftl (default 0 (msg !! off)) 8) (default 0 (msg !! S off)).

Definition dot : Z := 46.

(** A step of the loop: a label found, the offset past the name, an error, or the next
    state (offset, [next], hops). *)
Inductive walk :=
| WFound (label : list Z)
| WDone (next : nat)
| WErr (e : string)
| WGo (off : nat) (next : option nat) (hops : nat).

Definition dotted_step (msg : list Z) (off : nat) (next : option nat) (hops : nat) : walk :=
  match msg !! off with
  | None => WErr "dns message truncated"
  | Some c =>
      let k := Z.land c 192 in
      if k =? 0 then
        if c =? 0 then WDone (match next with None => (off + 1)%nat | Some n => n end)
        else if (length msg <? off + 1 + Z.to_nat c)%nat then WErr "dns message truncated"
        else let l := take (Z.to_nat c) (drop (off + 1) msg) in
             if bool_decide (dot ∈ l) then WFound l
             else WGo (off + 1 + Z.to_nat c) next hops
      else if k =? 192 then
        match msg !! (off + 1)%nat with
        | None => WErr "dns message truncated"
        | Some d =>
            let ptr := Z.to_nat (Z.lor (Z.shiftl (Z.land c 63) 8) d) in
            if (off <=? ptr)%nat then WErr "dns message has a compression pointer that does not point backwards"
            else if (maxPointerHops <? S hops)%nat then WErr "dns message has a name with more than 127 compression pointers"
            else WGo ptr (match next with None => Some (off + 2)%nat | Some n => Some n end) (S hops)
        end
      else WErr "dns message has a reserved label type"
  end.

(** [inl label]: found; [inr next]: the name ends before [next]. *)
Fixpoint dotted_loop (fuel : nat) (msg : list Z) (off : nat) (next : option nat) (hops : nat)
    : option (result (list Z + nat)) :=
  match fuel with
  | O => None
  | S fuel =>
      match dotted_step msg off next hops with
      | WFound l => Some (Ok (inl l))
      | WDone n => Some (Ok (inr n))
      | WErr e => Some (Err e)
      | WGo off next hops => dotted_loop fuel msg off next hops
      end
  end.

Definition dottedName_fuel (msg : list Z) : nat := (128 * (length msg + 2) + length msg + 2)%nat.

Definition dottedName (msg : list Z) (off : nat) : option (result (list Z + nat)) :=
  dotted_loop (dottedName_fuel msg) msg off None 0.

(** [inl label]: found; [inr off]: no such label, the walk stands at [off]. *)
Fixpoint walk_questions (msg : list Z) (n : nat) (off : nat) : option (result (list Z + nat)) :=
  match n with
  | O => Some (Ok (inr off))
  | S n =>
      match dottedName msg off with
      | Some (Ok (inr off)) =>
          if (length msg <? off + 4)%nat then Some (Err "dns message truncated")
          else walk_questions msg n (off + 4)
      | r => r
      end
  end.

Fixpoint walk_records (msg : list Z) (n : nat) (off : nat) : option (result (list Z + nat)) :=
  match n with
  | O => Some (Ok (inr off))
  | S n =>
      match dottedName msg off with
      | Some (Ok (inr off)) =>
          if (length msg <? off + 10)%nat then Some (Err "dns message truncated")
          else
            let rrtype := u16 msg off in
            let rdlength := Z.to_nat (u16 msg (off + 8)) in
            let off := (off + 10)%nat in
            if (length msg <? off + rdlength)%nat then Some (Err "dns message truncated")
            else match rdataNameOffset rrtype with
            | Some k =>
                if (k <? rdlength)%nat then
                  match dottedName msg (off + k) with
                  | Some (Ok (inr _)) => walk_records msg n (off + rdlength)
                  | r => r
                  end
                else walk_records msg n (off + rdlength)
            | None => walk_records msg n (off + rdlength)
            end
      | r => r
      end
  end.

(** [Ok (Some label)]: found; [Ok None]: no such label. *)
Definition DottedWireLabel (msg : list Z) : option (result (option (list Z))) :=
  if (length msg <? 12)%nat then Some (Err "dns message truncated")
  else
    let qdcount := Z.to_nat (u16 msg 4) in
    let rrcount := Z.to_nat (u16 msg 6 + u16 msg 8 + u16 msg 10) in
    match walk_questions msg qdcount 12 with
    | Some (Ok (inr off)) =>
        match walk_records msg rrcount off with
        | Some (Ok (inr _)) => Some (Ok None)
        | Some (Ok (inl l)) => Some (Ok (Some l))
        | Some (Err e) => Some (Err e)
        | None => None
        end
    | Some (Ok (inl l)) => Some (Ok (Some l))
    | Some (Err e) => Some (Err e)
    | None => None
    end.

(** ** The wire format of a name (RFC 1035 S3.1, S4.1.4) *)

(** The name at [off] has these labels, takes [h] pointers, and ends before [next]. *)
Inductive wire_name (msg : list Z) : nat -> nat -> list (list Z) -> nat -> Prop :=
| wn_root off : msg !! off = Some 0 -> wire_name msg off 0 [] (off + 1)
| wn_label off c h ls next :
    msg !! off = Some c -> 0 < c < 64 -> (off + 1 + Z.to_nat c <= length msg)%nat ->
    wire_name msg (off + 1 + Z.to_nat c) h ls next ->
    wire_name msg off h (take (Z.to_nat c) (drop (off + 1) msg) :: ls) next
| wn_pointer off c d h ls next :
    msg !! off = Some c -> 192 <= c < 256 -> msg !! (off + 1)%nat = Some d ->
    (Z.to_nat (Z.lor (Z.shiftl (Z.land c 63) 8) d) < off)%nat ->
    wire_name msg (Z.to_nat (Z.lor (Z.shiftl (Z.land c 63) 8) d)) h ls next ->
    wire_name msg off (S h) ls (off + 2).

(** The name at [off] reaches [l], its first label that holds a dot, after [h] pointers; what
    comes behind it is not looked at. *)
Inductive first_dotted (msg : list Z) : nat -> nat -> list Z -> Prop :=
| fd_here off c :
    msg !! off = Some c -> 0 < c < 64 -> (off + 1 + Z.to_nat c <= length msg)%nat ->
    dot ∈ take (Z.to_nat c) (drop (off + 1) msg) -> first_dotted msg off 0 (take (Z.to_nat c) (drop (off + 1) msg))
| fd_label off c h l :
    msg !! off = Some c -> 0 < c < 64 -> (off + 1 + Z.to_nat c <= length msg)%nat ->
    dot ∉ take (Z.to_nat c) (drop (off + 1) msg) -> first_dotted msg (off + 1 + Z.to_nat c) h l -> first_dotted msg off h l
| fd_pointer off c d h l :
    msg !! off = Some c -> 192 <= c < 256 -> msg !! (off + 1)%nat = Some d ->
    (Z.to_nat (Z.lor (Z.shiftl (Z.land c 63) 8) d) < off)%nat ->
    first_dotted msg (Z.to_nat (Z.lor (Z.shiftl (Z.land c 63) 8) d)) h l -> first_dotted msg off (S h) l.

Lemma land_192 c : byte_ok c ->
  (Z.land c 192 = 0 <-> c < 64) /\ (Z.land c 192 = 192 <-> 192 <= c).
Proof.
  unfold byte_ok. intros Hc.
  assert (H : forallb (fun n => let c := Z.of_nat n in
     Bool.eqb (Z.land c 192 =? 0) (c <? 64) && Bool.eqb (Z.land c 192 =? 192) (192 <=? c)) (seq 0 256) = true)
    by (vm_compute; reflexivity).
  rewrite forallb_forall in H. specialize (H (Z.to_nat c)). rewrite in_seq, Z2Nat.id in H by lia.
  specialize (H ltac:(lia)). cbn zeta in H. apply andb_true_iff in H as [H1%eqb_prop H2%eqb_prop].
  rewrite <- !Z.eqb_eq, <- Z.ltb_lt, <- Z.leb_le, H1, H2. tauto.
Qed.

Definition measure (msg : list Z) (off hops : nat) : nat :=
  ((128 - hops) * (length msg + 2) + (length msg + 1 - off))%nat.

Lemma dotted_step_decreases msg off next hops off' next' hops' :
  Forall byte_ok msg -> (hops <= 127)%nat ->
  dotted_step msg off next hops = WGo off' next' hops' ->
  (hops' <= 127)%nat /\ (measure msg off' hops' < measure msg off hops)%nat.
Proof.
  intros Hb Hh. unfold dotted_step. destruct (msg !! off) as [c|] eqn:Hc; [|done].
  assert (Hlt : (off < length msg)%nat) by (apply lookup_lt_is_Some; eauto).
  pose proof (Forall_lookup_1 _ _ _ _ Hb Hc) as Hbyte. pose proof (land_192 c Hbyte) as [H0 H1].
  destruct (Z.land c 192 =? 0) eqn:E0.
  - destruct (c =? 0) eqn:Ec; [done|]. destruct (_ <? _)%nat eqn:El; [done|]. case_bool_decide; [done|].
    intros [= <- <- <-]. apply Nat.ltb_ge in El. apply Z.eqb_neq in Ec. unfold byte_ok in Hbyte.
    split; [done|]. unfold measure. lia.
  - destruct (Z.land c 192 =? 192); [|done]. destruct (msg !! (off + 1)%nat) as [d|]; [|done].
    destruct (off <=? _)%nat eqn:Ep; [done|]. destruct (maxPointerHops <? S hops)%nat eqn:Eh; [done|].
    intros [= <- <- <-]. apply Nat.leb_gt in Ep. apply Nat.ltb_ge in Eh. unfold maxPointerHops in Eh.
    split; [lia|]. unfold measure. nia.
Qed.

Lemma dotted_loop_total fuel msg off next hops :
  Forall byte_ok msg -> (hops <= 127)%nat -> (measure msg off hops < fuel)%nat ->
  is_Some (dotted_loop fuel msg off next hops).
Proof.
  intros Hb. revert off next hops. induction fuel as [|fuel IH]; intros off next hops Hh Hm; [lia|].
  cbn [dotted_loop]. destruct (dotted_step msg off next hops) as [| | |off' next' hops'] eqn:E; eauto.
  apply dotted_step_decreases in E as [Hh' Hd]; [|done..]. apply IH; [done|lia].
Qed.

Lemma dottedName_total msg off : Forall byte_ok msg -> is_Some (dottedName msg off).
Proof.
  intros Hb. apply dotted_loop_total; [done|lia|]. unfold measure, dottedName_fuel. lia.
Qed.

(** One step against the wire format: the labels read so far hold no dot. *)
Lemma dotted_loop_sound fuel msg off next hops r :
  Forall byte_ok msg -> dotted_loop fuel msg off next hops = Some (Ok r) ->
  match r with
  | inr n => exists h ls n', wire_name msg off h ls n' /\ (hops + h <= Nat.max hops 127)%nat /\
      Forall (fun l => dot ∉ l) ls /\ n = default n' next
  | inl l => exists h, first_dotted msg off h l /\ (hops + h <= Nat.max hops 127)%nat
  end.
Proof.
  intros Hb. revert off next hops. induction fuel as [|fuel IH]; intros off next hops; [done|].
  cbn [dotted_loop]. unfold dotted_step. destruct (msg !! off) as [c|] eqn:Hc; [|done].
  pose proof (Forall_lookup_1 _ _ _ _ Hb Hc) as Hbyte. pose proof (land_192 c Hbyte) as [H0 H1].
  unfold byte_ok in Hbyte.
  destruct (Z.land c 192 =? 0) eqn:E0.
  - apply Z.eqb_eq, H0 in E0. destruct (c =? 0) eqn:Ec.
    + apply Z.eqb_eq in Ec as ->. intros [= <-]. exists 0%nat, [], (off + 1)%nat.
      split_and!; [by constructor|lia|done|by destruct next].
    + apply Z.eqb_neq in Ec. destruct (_ <? _)%nat eqn:El; [done|]. apply Nat.ltb_ge in El.
      case_bool_decide as Hd.
      * intros [= <-]. exists 0%nat. split; [|lia]. apply (fd_here msg off c); [done|lia|lia|done].
      * intros H%IH. destruct r as [l|n]; [destruct H as (h & Hfd & Hh); exists h; split; [by apply (fd_label msg off c); [done|lia|lia|done|]|done]|].
        destruct H as (h & ls & n' & Hw & Hh & Hf & Hn).
        eexists h, (_ :: ls), n'. split_and!; [apply (wn_label msg off c); try done; lia|done|by constructor|done].
  - destruct (Z.land c 192 =? 192) eqn:E1; [|done]. apply Z.eqb_eq, H1 in E1.
    destruct (msg !! (off + 1)%nat) as [d|] eqn:Hd; [|done].
    destruct (off <=? _)%nat eqn:Ep; [done|]. destruct (maxPointerHops <? S hops)%nat eqn:Eh; [done|].
    apply Nat.leb_gt in Ep. apply Nat.ltb_ge in Eh. unfold maxPointerHops in Eh.
    intros H%IH. destruct r as [l|n]; [destruct H as (h & Hfd & Hh); exists (S h); split; [by apply (fd_pointer msg off c d); [done|lia|done|lia|]|lia]|].
    destruct H as (h & ls & n' & Hw & Hh & Hf & Hn).
    exists (S h), ls, (off + 2)%nat. split_and!; [apply (wn_pointer msg off c d h ls n'); try done; lia|lia|done|by destruct next].
Qed.

Lemma dotted_step_label msg off next hops c :
  msg !! off = Some c -> 0 < c < 64 -> (off + 1 + Z.to_nat c <= length msg)%nat ->
  dot ∉ take (Z.to_nat c) (drop (off + 1) msg) ->
  dotted_step msg off next hops = WGo (off + 1 + Z.to_nat c) next hops.
Proof.
  intros Hc Hr Hl Hd. unfold dotted_step. rewrite Hc.
  destruct (land_192 c ltac:(unfold byte_ok; lia)) as [H0 _].
  rewrite (proj2 (Z.eqb_eq _ _) (proj2 H0 ltac:(lia))), (proj2 (Z.eqb_neq c 0)) by lia.
  rewrite (proj2 (Nat.ltb_ge _ _)) by lia. by rewrite bool_decide_false.
Qed.

Lemma dotted_step_pointer msg off next hops c d :
  msg !! off = Some c -> 192 <= c < 256 -> msg !! (off + 1)%nat = Some d ->
  (Z.to_nat (Z.lor (Z.shiftl (Z.land c 63) 8) d) < off)%nat -> (hops < 127)%nat ->
  dotted_step msg off next hops =
    WGo (Z.to_nat (Z.lor (Z.shiftl (Z.land c 63) 8) d))
        (match next with None => Some (off + 2)%nat | Some n => Some n end) (S hops).
Proof.
  intros Hc Hr Hd Hp Hh. unfold dotted_step. rewrite Hc, Hd.
  destruct (land_192 c ltac:(unfold byte_ok; lia)) as [H0 H1].
  rewrite (proj2 (Z.eqb_neq _ _)) by (rewrite H0; lia).
  rewrite (proj2 (Z.eqb_eq _ _) (proj2 H1 ltac:(lia))).
  rewrite (proj2 (Nat.leb_gt _ _)), (proj2 (Nat.ltb_ge _ _)) by (unfold maxPointerHops; lia). done.
Qed.

Lemma dotted_loop_complete fuel msg off next hops h ls n' :
  Forall byte_ok msg -> wire_name msg off h ls n' -> (hops + h <= 127)%nat -> Forall (fun l => dot ∉ l) ls ->
  (measure msg off hops < fuel)%nat ->
  dotted_loop fuel msg off next hops = Some (Ok (inr (default n' next))).
Proof.
  intros Hb Hw. revert fuel next hops. induction Hw as
    [off Hc|off c h ls nx Hc Hr Hl _ IH|off c d h ls nx Hc Hr Hd Hp _ IH]; intros [|fuel] next hops Hh Hf Hm;
    try lia; cbn [dotted_loop].
  - unfold dotted_step. rewrite Hc. by destruct next.
  - apply Forall_cons in Hf as [Hdot Hf]. pose proof (dotted_step_label msg off next hops c Hc Hr Hl Hdot) as E.
    apply dotted_step_decreases in E as Hdec; [|done|lia]. rewrite E. apply IH; try done. lia.
  - pose proof (dotted_step_pointer msg off next hops c d Hc Hr Hd Hp ltac:(lia)) as E.
    apply dotted_step_decreases in E as Hdec; [|done|lia]. rewrite E, IH; [by destruct next|lia|done|lia].
Qed.

Lemma dotted_loop_finds fuel msg off next hops h l :
  Forall byte_ok msg -> first_dotted msg off h l -> (hops + h <= 127)%nat -> (measure msg off hops < fuel)%nat ->
  dotted_loop fuel msg off next hops = Some (Ok (inl l)).
Proof.
  intros Hb Hw. revert fuel next hops. induction Hw as
    [off c Hc Hr Hl Hdot|off c h l Hc Hr Hl Hdot _ IH|off c d h l Hc Hr Hd Hp _ IH]; intros [|fuel] next hops Hh Hm;
    try lia; cbn [dotted_loop].
  - unfold dotted_step. rewrite Hc. destruct (land_192 c ltac:(unfold byte_ok; lia)) as [H0 _].
    rewrite (proj2 (Z.eqb_eq _ _) (proj2 H0 ltac:(lia))), (proj2 (Z.eqb_neq c 0)) by lia.
    rewrite (proj2 (Nat.ltb_ge _ _)) by lia. by rewrite bool_decide_true.
  - pose proof (dotted_step_label msg off next hops c Hc Hr Hl Hdot) as E.
    apply dotted_step_decreases in E as Hdec; [|done|lia]. rewrite E. apply IH; lia.
  - pose proof (dotted_step_pointer msg off next hops c d Hc Hr Hd Hp ltac:(lia)) as E.
    apply dotted_step_decreases in E as Hdec; [|done|lia]. rewrite E. apply IH; lia.
Qed.

(** [dottedName] against the wire format: what it finds, and where a name ends. *)
Lemma dottedName_finds msg off l :
  Forall byte_ok msg -> dottedName msg off = Some (Ok (inl l)) <-> exists h, first_dotted msg off h l /\ (h <= 127)%nat.
Proof.
  intros Hb. split.
  - intros (h & Hfd & Hh)%dotted_loop_sound; [|done]. exists h. split; [done|lia].
  - intros (h & Hfd & Hh). unfold dottedName. rewrite (dotted_loop_finds _ msg off None 0 h l); try done. unfold measure, dottedName_fuel. lia.
Qed.

Lemma dottedName_spec msg off next :
  Forall byte_ok msg ->
  dottedName msg off = Some (Ok (inr next)) <->
  exists h ls, wire_name msg off h ls next /\ (h <= 127)%nat /\ Forall (fun l => dot ∉ l) ls.
Proof.
  intros Hb. split.
  - intros (h & ls & n' & Hw & Hh & Hf & ->)%dotted_loop_sound; [|done]. exists h, ls. split_and!; [done|lia|done].
  - intros (h & ls & Hw & Hh & Hf). unfold dottedName.
    rewrite (dotted_loop_complete _ msg off None 0 h ls next); try done. unfold measure, dottedName_fuel. lia.
Qed.

Lemma walk_questions_total msg n off : Forall byte_ok msg -> is_Some (walk_questions msg n off).
Proof.
  intros Hb. revert off. induction n as [|n IH]; intros off; cbn [walk_questions]; [eauto|].
  destruct (dottedName_total msg off Hb) as [r ->]. destruct r as [[l|o]|e]; eauto. case_match; eauto.
Qed.

Lemma walk_records_total msg n off : Forall byte_ok msg -> is_Some (walk_records msg n off).
Proof.
  intros Hb. revert off. induction n as [|n IH]; intros off; cbn [walk_records]; [eauto|].
  destruct (dottedName_total msg off Hb) as [r ->]. destruct r as [[l|o]|e]; eauto. cbn zeta.
  case_match; eauto. case_match; eauto. destruct (rdataNameOffset _) as [k|]; eauto. case_match; eauto.
  destruct (dottedName_total msg (o + 10 + k) Hb) as [r ->]. destruct r as [[l|o']|e]; eauto.
Qed.

Lemma dottedName_found msg off l :
  Forall byte_ok msg -> dottedName msg off = Some (Ok (inl l)) -> dot ∈ l /\ (1 <= length l <= 63)%nat.
Proof.
  intros Hb (h & Hfd & _)%dottedName_finds; [|done]. induction Hfd as [off c Hc Hr Hl Hd|off c h l ? ? ? ? _ IH|off c d h l ? ? ? ? _ IH]; [|done..].
  split; [done|]. rewrite length_take, length_drop. lia.
Qed.

Lemma walk_questions_found msg n off l :
  Forall byte_ok msg -> walk_questions msg n off = Some (Ok (inl l)) -> dot ∈ l /\ (1 <= length l <= 63)%nat.
Proof.
  intros Hb. revert off. induction n as [|n IH]; intros off; cbn [walk_questions]; [done|].
  destruct (dottedName msg off) as [[[l'|o]|e]|] eqn:E; try done.
  - intros [= <-]. by apply dottedName_found in E.
  - case_match; [done|]. apply IH.
Qed.

Lemma walk_records_found msg n off l :
  Forall byte_ok msg -> walk_records msg n off = Some (Ok (inl l)) -> dot ∈ l /\ (1 <= length l <= 63)%nat.
Proof.
  intros Hb. revert off. induction n as [|n IH]; intros off; cbn [walk_records]; [done|].
  destruct (dottedName msg off) as [[[l'|o]|e]|] eqn:E; try done.
  - intros [= <-]. by apply dottedName_found in E.
  - cbn zeta. case_match; [done|]. case_match; [done|]. destruct (rdataNameOffset _) as [k|]; [|apply IH].
    case_match; [|apply IH]. destruct (dottedName msg (o + 10 + k)) as [[[l'|o']|e]|] eqn:E'; try done; [|apply IH].
    intros [= <-]. by apply dottedName_found in E'.
Qed.

(** ** Theorems *)

(** [C40] Walking a name terminates whatever the bytes (pointer loops included), with one of
    three answers.  It finds a label exactly if that is the first label with a dot that the name
    there reaches, with at most 127 pointers on the way, each pointing backwards.  It ends without
    one at exactly the offset where the wire format's name ends, if and only if there is a
    well-formed name there, with at most 127 pointers and no label holding a dot.  Anything else
    is an error. *)
Theorem dottedName_wire_format (msg : list Z) (off : nat) :
  Forall byte_ok msg ->
  is_Some (dottedName msg off) /\
  (forall l, dottedName msg off = Some (Ok (inl l)) <-> exists h, first_dotted msg off h l /\ (h <= 127)%nat) /\
  (forall next, dottedName msg off = Some (Ok (inr next)) <->
    exists h ls, wire_name msg off h ls next /\ (h <= 127)%nat /\ Forall (fun l => dot ∉ l) ls).
Proof. intros Hb. split_and!; [by apply dottedName_total|intros l; by apply dottedName_finds|intros next; by apply dottedName_spec]. Qed.

(** The check of a whole message always ends, for every byte string, and a label it
    reports is a real one: 1 to 63 octets, with a dot among them. *)
Theorem DottedWireLabel_total (msg : list Z) :
  Forall byte_ok msg ->
  exists r, DottedWireLabel msg = Some r /\
    forall l, r = Ok (Some l) -> dot ∈ l /\ (1 <= length l <= 63)%nat.
Proof.
  intros Hb. unfold DottedWireLabel. case_match; [by eexists|]. cbn zeta.
  destruct (walk_questions_total msg (Z.to_nat (u16 msg 4)) 12 Hb) as [r Hq]. rewrite Hq.
  destruct r as [[l|off]|e].
  - eexists. split; [done|]. intros l' [= <-]. by apply walk_questions_found in Hq.
  - destruct (walk_records_total msg (Z.to_nat (u16 msg 6 + u16 msg 8 + u16 msg 10)) off Hb) as [r Hr]. rewrite Hr.
    destruct r as [[l|off']|e]; eexists; (split; [done|]); intros l'; try done.
    intros [= <-]. by apply walk_records_found in Hr.
  - by eexists.
Qed.

(** A query for one label "a.b" followed by the root. *)
Definition ex_wire : list Z := [0;0;0;0;0;1;0;0;0;0;0;0; 3;97;46;98;0; 0;1;0;1].

Lemma ex_wire_bytes : Forall byte_ok ex_wire.
Proof. repeat constructor; unfold byte_ok; lia. Qed.

Lemma dottedName_wire_format_witness :
  dottedName ex_wire 12 = Some (Ok (inl [97; 46; 98])) /\ dottedName ex_wire 16 = Some (Ok (inr 17%nat)).
Proof.
  split.
  - apply (proj1 (proj2 (dottedName_wire_format ex_wire 12 ex_wire_bytes))). exists 0%nat. split; [|lia].
    apply (fd_here ex_wire 12 3); [reflexivity|lia|cbn; lia|]. refine (bool_decide_eq_true_1 _ _). vm_compute. reflexivity.
  - apply (proj2 (proj2 (dottedName_wire_format ex_wire 16 ex_wire_bytes))). exists 0%nat, []. split; [by apply (wn_root ex_wire 16)|].
    split; [lia|constructor].
Defined.

Lemma DottedWireLabel_total_witness :
  exists r, DottedWireLabel ex_wire = Some r /\ r = Ok (Some [97; 46; 98]).
Proof.
  destruct (DottedWireLabel_total ex_wire ex_wire_bytes) as (r & Hr & _). exists r. split; [exact Hr|].
  vm_compute in Hr. injection Hr as <-. reflexivity.
Defined.
