(* ===== verification/UpdateCore.v ===== *)
(** * The upstream side: discovery, queries and signed UPDATEs

    pkg/updatecore: the [Coordinator] that finds the authoritative server of a name and
    talks to it, the construction of the UPDATEs the handlers send, the RRset TTL check
    and the walk to the proxy's signing key.  The network ([dns.Exchange]), the SIG(0)
    implementation and the keystore are parameters.  What the handlers need of a
    coordinator is the class [UpstreamCoordinator]; [Coordinator_upstream] is the
    instance the program runs with. *)

From Stdlib Require Import Ascii String ZArith Lia.
From S2P Require Import Prelude DnsName DnsData.

Local Open Scope Z_scope.

(** ** Interfaces *)

Inductive Transport := UDP | TCP.

(** [dns.Exchange(ctx, msg, transport, server)]: an answer (possibly nil) or an error. *)
Class Network := { Exchange : Msg -> Transport -> string -> result (option Msg) }.

(** pkg/sig0's two entry points. *)
Class Sig0 := {
  SignMessage : Msg -> KEY -> result Msg;
  VerifySignature : Msg -> KEY -> result unit }.

Inductive AuthoritativeKeyState := AuthNXDomain | AuthNoKey | AuthKeyPresent.

(** The two handlers' coordinator interfaces. *)
Class UpstreamCoordinator := {
  up_ResolveAuthoritativeZone : string -> result string;
  up_SendUpdate : string -> Msg -> result (option Msg);
  up_QueryRRs : string -> string -> Z -> result (list RR);
  up_QueryKeyAtName : string -> string -> result (AuthoritativeKeyState * list KEY);
  up_QueryPTRExists : string -> string -> result bool }.

(** ** Records of an UPDATE *)

(** [AsDelete]: class NONE, TTL 0, RDATA unchanged. *)
Definition AsDelete (rr : RR) : RR := mkRR (mkHeader (Name (Hdr rr)) ClassNONE 0) (RD rr).

Definition asDeletes (rrs : list RR) : list RR := map AsDelete rrs.

(** [opt.SetUDPSize(dns.DefaultMsgSize)] on an OPT record at the root. *)
Definition default_opt `{DnsLib} : RR := mkRR (mkHeader "." (DefaultMsgSize mod 2 ^ 16) 0) (RD_OPT []).

(** [BuildAndSign]; a configured key has both halves, an absent one is [None]. *)
Definition BuildAndSign `{DnsLib, Sig0} (upstreamZone : string) (prereqs records : list RR)
    (signingKey : option KEY) : result Msg :=
  match signingKey with
  | None => Err "updatecore: signing key is not configured"
  | Some k =>
      let m := new_update upstreamZone in
      let m := mkMsg (MsgHdr m) (Question m) (Answer m ++ prereqs) (Ns m ++ records)
                     (Extra m ++ [default_opt]) (Pseudo m) (Data m) in
      match SignMessage m k with
      | Err _ => Err "updatecore: failed to sign upstream UPDATE"
      | Ok signed => Ok signed
      end
  end.

(** ** RRset TTLs *)

Record rrsetKey := mkRrsetKey { rk_name : string; rk_class : Z; rk_type : Z }.

Global Instance rrsetKey_eq_dec : EqDecision rrsetKey.
Proof. solve_decision. Defined.

Definition keyFor (rr : RR) : rrsetKey :=
  mkRrsetKey (Normalize (Name (Hdr rr))) (Class (Hdr rr)) (RRToType rr).

(** The groups, in order of first appearance, each in the order of its records (Go
    leaves the order of the groups open). *)
Definition groupRRsets (records : list RR) : list (rrsetKey * list RR) :=
  map (fun k => (k, filter (fun rr => keyFor rr = k) records)) (remove_dups (map keyFor records)).

(** The body of the loop for one group. *)
Definition group_consistent (group : list RR) : result unit :=
  match group with
  | [] | [_] => Ok tt
  | rr0 :: rest =>
      seqM (fun rr => if TTL (Hdr rr) =? TTL (Hdr rr0) then Ok tt else Err "inconsistent TTLs in RRset") rest
  end.

Definition CheckConsistentTTLs (records : list RR) : result unit :=
  seqM (fun g => group_consistent g.2) (groupRRsets records).

(** ** Finding the authoritative server *)

Record StaticUpstream := mkStatic { su_Zone : string; su_Addr : string }.

Record Coordinator := mkCoordinator {
  bootstrapResolvers : list string;
  static : option StaticUpstream }.

Definition defaultBootstrapResolvers : list string := ["8.8.8.8:53"; "8.8.4.4:53"].

Definition NewCoordinator (resolvers : list string) (st : option StaticUpstream) : Coordinator :=
  let rs := match resolvers with [] => defaultBootstrapResolvers | _ => resolvers end in
  let st := match st with
            | Some s => if HasSuffix (su_Zone s) "." then Some s else Some (mkStatic (su_Zone s +:+ ".") (su_Addr s))
            | None => None
            end in
  mkCoordinator rs st.

Definition covers (c : Coordinator) (name : string) : bool :=
  match static c with Some s => IsAtOrBelow name (su_Zone s) | None => false end.

Definition soa_Ns (rr : RR) : option string :=
  match RD rr with RD_SOA ns _ _ _ _ _ _ => Some ns | _ => None end.

(** The inner loop of [discoverZone]: the first SOA decides ([break] on one that cannot
    be the answer). *)
Fixpoint first_soa (fqdn : string) (rrs : list RR) : option RR :=
  match rrs with
  | [] => None
  | rr :: rrs =>
      match soa_Ns rr with
      | None => first_soa fqdn rrs
      | Some ns =>
          let apex := Name (Hdr rr) in
          if bool_decide (Normalize apex = "") || negb (IsAtOrBelow fqdn apex) || bool_decide (Normalize ns = "")
          then None else Some rr
      end
  end.

(** A query, [dns.NewMsg(name, qtype)]. *)
Definition new_query (name : string) (qtype : Z) : Msg :=
  mkMsg (mkMsgHeader 0 0 false false false true RcodeSuccess 0) [mkQuest name ClassINET qtype] [] [] [] [] [].

Section coordinator.
Context {N : Network}.

Fixpoint ask_resolvers (fqdn : string) (resolvers : list string) : option RR :=
  match resolvers with
  | [] => None
  | resolver :: rest =>
      match Exchange (new_query fqdn TypeSOA) UDP resolver with
      | Ok (Some resp) =>
          let rc := Rcode (MsgHdr resp) in
          if negb (rc =? RcodeSuccess) && negb (rc =? RcodeNameError) then ask_resolvers fqdn rest
          else match first_soa fqdn (Answer resp ++ Ns resp) with
               | Some soa => Some soa
               | None => ask_resolvers fqdn rest
               end
      | _ => ask_resolvers fqdn rest
      end
  end.

Definition discoverZone (c : Coordinator) (name : string) : result RR :=
  let fqdn := if HasSuffix name "." then name else name +:+ "." in
  if bool_decide (Normalize fqdn = "") then Err "upstream zone is empty"
  else match ask_resolvers fqdn (bootstrapResolvers c) with
       | Some soa => Ok soa
       | None => Err "no zone SOA found via bootstrap resolvers"
       end.

(** [net.JoinHostPort(host, "53")]: a host with a colon is bracketed. *)
Definition JoinHostPort53 (host : string) : string :=
  if no_char ":" host then host +:+ ":53" else "[" +:+ host +:+ "]:53".

Definition ResolveSOAMasterServer (c : Coordinator) (zone : string) : result (string * string) :=
  match static c with
  | Some s => if IsAtOrBelow zone (su_Zone s) then Ok (su_Addr s, su_Zone s)
              else soa ← discoverZone c zone;
                   Ok (JoinHostPort53 (TrimSuffixDot (default "" (soa_Ns soa))), Name (Hdr soa))
  | None => soa ← discoverZone c zone;
            Ok (JoinHostPort53 (TrimSuffixDot (default "" (soa_Ns soa))), Name (Hdr soa))
  end.

Definition ResolveAuthoritativeZone (c : Coordinator) (zone : string) : result string :=
  match static c with
  | Some s => if IsAtOrBelow zone (su_Zone s) then Ok (su_Zone s)
              else soa ← discoverZone c zone; Ok (Name (Hdr soa))
  | None => soa ← discoverZone c zone; Ok (Name (Hdr soa))
  end.

Definition parentZone (zone : string) : string := (CutFirstLabel (TrimSuffixDot zone)).1.2.

(** [SendUpdate], with the exchanges it makes; the in-flight slot it holds around them is
    not part of its result. *)
Definition SendUpdate (c : Coordinator) (upstreamZone : string) (updateMsg : Msg)
    : list (Transport * string) * result (option Msg) :=
  if bool_decide (upstreamZone = "") then ([], Err "upstream zone is required")
  else match Question updateMsg with
  | [q] =>
      if negb (bool_decide (Normalize (q_Name q) = Normalize upstreamZone)) then ([], Err "update zone mismatch")
      else match ResolveSOAMasterServer c upstreamZone with
      | Err _ => ([], Err "SOA master resolution failed")
      | Ok (soaServer, _) =>
          match Exchange updateMsg UDP soaServer with
          | Ok resp => ([(UDP, soaServer)], Ok resp)
          | Err _ =>
              match Exchange updateMsg TCP soaServer with
              | Ok resp => ([(UDP, soaServer); (TCP, soaServer)], Ok resp)
              | Err _ => ([(UDP, soaServer); (TCP, soaServer)], Err "authoritative update failed to SOA master")
              end
          end
      end
  | _ => ([], Err "update message must contain exactly one question")
  end.

Definition no_recursion (m : Msg) : Msg :=
  let h := MsgHdr m in
  mkMsg (mkMsgHeader (ID h) (Opcode h) (Response h) (Authoritative h) (Truncated h) false (Rcode h) (UDPSize h))
        (Question m) (Answer m) (Ns m) (Extra m) (Pseudo m) (Data m).

Definition queryAuthoritative (c : Coordinator) (zoneHint : string) (req : Msg) : result Msg :=
  match ResolveSOAMasterServer c zoneHint with
  | Err _ => Err "failed to resolve authoritative server"
  | Ok (soaServer, _) =>
      let req := no_recursion req in
      let udp := Exchange req UDP soaServer in
      let fallback := match udp with
                      | Err _ => true
                      | Ok (Some resp) => Truncated (MsgHdr resp)
                      | Ok None => false
                      end in
      resp ← (if fallback then
                match Exchange req TCP soaServer with
                | Err _ => Err "query failed"
                | Ok tcpResp => Ok tcpResp
                end
              else udp);
      match resp with None => Err "query returned a nil response" | Some r => Ok r end
  end.

Definition QueryKeyAtName (c : Coordinator) (zoneHint name : string) : result (AuthoritativeKeyState * list KEY) :=
  resp ← queryAuthoritative c zoneHint (new_query name TypeKEY);
  let rc := Rcode (MsgHdr resp) in
  if rc =? RcodeNameError then Ok (AuthNXDomain, [])
  else if rc =? RcodeSuccess then
    match omap as_KEY (Answer resp) with
    | [] => Ok (AuthNoKey, [])
    | keys => Ok (AuthKeyPresent, keys)
    end
  else Err "KEY query returned unexpected rcode".

Definition QueryPTRExists (c : Coordinator) (zoneHint name : string) : result bool :=
  resp ← queryAuthoritative c zoneHint (new_query name TypePTR);
  let rc := Rcode (MsgHdr resp) in
  if rc =? RcodeNameError then Ok false
  else if rc =? RcodeSuccess then Ok (existsb is_PTR (Answer resp))
  else Err "PTR query returned unexpected rcode".

Definition QueryRRs (c : Coordinator) (zoneHint name : string) (rrType : Z) : result (list RR) :=
  resp ← queryAuthoritative c zoneHint (new_query name rrType);
  let rc := Rcode (MsgHdr resp) in
  if negb (rc =? RcodeSuccess) && negb (rc =? RcodeNameError) then Err "query returned unexpected rcode"
  else Ok (filter (fun rr => RRToType rr = rrType) (Answer resp)).

#[export] Instance Coordinator_upstream (c : Coordinator) : UpstreamCoordinator := {|
  up_ResolveAuthoritativeZone := ResolveAuthoritativeZone c;
  up_SendUpdate := fun zone m => (SendUpdate c zone m).2;
  up_QueryRRs := QueryRRs c;
  up_QueryKeyAtName := QueryKeyAtName c;
  up_QueryPTRExists := QueryPTRExists c |}.
End coordinator.

(** ** The proxy's signing key *)

Section keystore.
(** [keyrec.FindKeysByZone] (an error reads as no key) and [keyrec.LoadKeyFromFile]. *)
Context (FindKeysByZone : string -> list string) (LoadKeyFromFile : string -> option KEY).

(** The loop of [FindAuthorizedProxyKey]; each round drops a label, so the length of the
    zone bounds it. *)
Fixpoint find_key_loop (fuel : nat) (candidate : string) : option (result (KEY * string)) :=
  if bool_decide (candidate = "") then Some (Err "no proxy authorization key found for zone or any parent")
  else match fuel with
  | O => None
  | S fuel =>
      match FindKeysByZone (candidate +:+ ".") with
      | [] => find_key_loop fuel (parentZone candidate)
      | [name] =>
          match LoadKeyFromFile name with
          | None => Some (Err "error loading proxy authorization key")
          | Some k => Some (Ok (k, candidate +:+ "."))
          end
      | _ => Some (Err "More than one proxy authorization key found for zone")
      end
  end.

Definition FindAuthorizedProxyKey (zone : string) : option (result (KEY * string)) :=
  let zone := Normalize zone in
  if bool_decide (zone = "") then Some (Err "zone is empty")
  else find_key_loop (String.length zone) zone.
End keystore.

(** ** Lemmas *)

Lemma first_soa_sound fqdn rrs soa :
  first_soa fqdn rrs = Some soa ->
  soa ∈ rrs /\ is_Some (soa_Ns soa) /\ Normalize (Name (Hdr soa)) <> "" /\ IsAtOrBelow fqdn (Name (Hdr soa)) = true.
Proof.
  induction rrs as [|rr rrs IH]; cbn [first_soa]; [done|].
  destruct (soa_Ns rr) as [ns|] eqn:E.
  - destruct (_ || _) eqn:Hb; [done|]. intros [= <-].
    rewrite !orb_false_iff, negb_false_iff, !bool_decide_eq_false in Hb. destruct Hb as [[? ?] _].
    split_and!; [by left|by rewrite E|done..].
  - intros (? & ? & ? & ?)%IH. split_and!; [by right|done..].
Qed.

Lemma IsAtOrBelow_Normalize_l a b z : Normalize a = Normalize b -> IsAtOrBelow a z = IsAtOrBelow b z.
Proof. unfold IsAtOrBelow. by intros ->. Qed.

(** The final dot [discoverZone] adds does not change which zone a name is in. *)
Lemma Normalize_fqdn name : Normalize (if HasSuffix name "." then name else name +:+ ".") = Normalize name.
Proof.
  destruct (HasSuffix name ".") eqn:E; [done|].
  assert (Hn : forall p, name <> p +:+ ".").
  { intros p ->. assert (HasSuffix (p +:+ ".") "." = true) by (apply HasSuffix_spec; eauto). congruence. }
  unfold Normalize. rewrite Fold_app. change (Fold ".") with ".". rewrite TrimSuffixDot_dot.
  symmetry. apply TrimSuffixDot_nodot. intros p Hp.
  destruct (proj1 (Fold_dot_suffix name)) as [q Hq]; [eauto|]. by apply (Hn q).
Qed.

Section lemmas.
Context {N : Network}.

Lemma ask_resolvers_sound fqdn rs soa :
  ask_resolvers fqdn rs = Some soa ->
  is_Some (soa_Ns soa) /\ Normalize (Name (Hdr soa)) <> "" /\ IsAtOrBelow fqdn (Name (Hdr soa)) = true.
Proof.
  induction rs as [|r rs IH]; cbn [ask_resolvers]; [done|].
  destruct (Exchange _ _ _) as [[resp|]|]; [|done..]. case_match; [done|].
  destruct (first_soa _ _) as [s|] eqn:E; [|done]. intros [= <-].
  by apply first_soa_sound in E as (_ & ? & ? & ?).
Qed.

Lemma discoverZone_sound c name soa :
  discoverZone c name = Ok soa ->
  is_Some (soa_Ns soa) /\ Normalize (Name (Hdr soa)) <> "" /\ IsAtOrBelow name (Name (Hdr soa)) = true.
Proof.
  unfold discoverZone. case_bool_decide; [done|].
  destruct (ask_resolvers _ _) as [s|] eqn:E; [|done]. intros [= <-].
  apply ask_resolvers_sound in E as (? & ? & Hb). split_and!; [done..|].
  rewrite <- Hb. apply IsAtOrBelow_Normalize_l. symmetry. apply Normalize_fqdn.
Qed.

(** The zone an UPDATE is sent for contains the configured name: it is the static
    upstream's zone when that covers the name, and otherwise the owner of an SOA at or
    above the name, never the root; and the server it is sent to is resolved for that
    same zone. *)
Theorem resolved_zone_contains_name (c : Coordinator) (name zone : string) :
  ResolveAuthoritativeZone c name = Ok zone ->
  IsAtOrBelow name zone = true /\
  (covers c name = false -> Normalize zone <> "") /\
  exists server, ResolveSOAMasterServer c name = Ok (server, zone).
Proof.
  unfold ResolveAuthoritativeZone, ResolveSOAMasterServer, covers.
  assert (Hd : forall soa, discoverZone c name = Ok soa -> Name (Hdr soa) = zone ->
    IsAtOrBelow name zone = true /\ Normalize zone <> "")
    by (intros soa H <-; apply discoverZone_sound in H; tauto).
  destruct (static c) as [s|]; [destruct (IsAtOrBelow name (su_Zone s)) eqn:E|].
  - intros [= <-]. split_and!; [done|done|eauto].
  - intros (soa & Hs & [= Hz])%bind_ok. destruct (Hd soa Hs Hz). rewrite Hs, <- Hz. cbn. split_and!; eauto; by rewrite Hz.
  - intros (soa & Hs & [= Hz])%bind_ok. destruct (Hd soa Hs Hz). rewrite Hs, <- Hz. cbn. split_and!; eauto; by rewrite Hz.
Qed.

(** A truncated UDP answer is never taken as the state of a name: every answer the
    checks use either came over UDP complete or came over TCP, from the server resolved
    for the zone; in particular a name is reported absent, or without a KEY, only by such
    an answer. *)
Theorem truncated_answer_not_trusted (c : Coordinator) (zoneHint name : string) (st : AuthoritativeKeyState) (keys : list KEY) :
  QueryKeyAtName c zoneHint name = Ok (st, keys) ->
  exists server zone resp,
    ResolveSOAMasterServer c zoneHint = Ok (server, zone) /\
    (let req := no_recursion (new_query name TypeKEY) in
     (Exchange req UDP server = Ok (Some resp) /\ Truncated (MsgHdr resp) = false) \/
     Exchange req TCP server = Ok (Some resp)) /\
    match st with
    | AuthNXDomain => Rcode (MsgHdr resp) = RcodeNameError
    | AuthNoKey => Rcode (MsgHdr resp) = RcodeSuccess /\ keys = [] /\ omap as_KEY (Answer resp) = []
    | AuthKeyPresent => Rcode (MsgHdr resp) = RcodeSuccess /\ keys = omap as_KEY (Answer resp) /\ keys <> []
    end.
Proof.
  unfold QueryKeyAtName, queryAuthoritative. intros (resp & Hq & H)%bind_ok.
  destruct (ResolveSOAMasterServer c zoneHint) as [[server zone]|]; [|done].
  exists server, zone, resp. split; [done|]. cbn zeta in *. split.
  - destruct (Exchange _ UDP server) as [[r|]|] eqn:Eu; cbn in Hq.
    + destruct (Truncated (MsgHdr r)) eqn:Et.
      * right. destruct (Exchange _ TCP server) as [[r'|]|]; cbn in Hq; by simplify_eq.
      * left. cbn in Hq. by simplify_eq.
    + done.
    + right. destruct (Exchange _ TCP server) as [[r'|]|]; cbn in Hq; by simplify_eq.
  - destruct (_ =? RcodeNameError) eqn:E1; [injection H as <- <-; by apply Z.eqb_eq|].
    destruct (_ =? RcodeSuccess) eqn:E2; [|done]. apply Z.eqb_eq in E2.
    destruct (omap as_KEY (Answer resp)) eqn:E3; injection H as <- <-; done.
Qed.
End lemmas.

Lemma group_consistent_iff g :
  group_consistent g = Ok tt <-> forall r1 r2, r1 ∈ g -> r2 ∈ g -> TTL (Hdr r1) = TTL (Hdr r2).
Proof.
  destruct g as [|r0 [|r rest]]; cbn [group_consistent].
  - set_solver.
  - split; [|done]. intros _ r1 r2 ->%list_elem_of_singleton ->%list_elem_of_singleton. done.
  - rewrite foldM_ok_each.
    assert (Heq : forall x, (if TTL (Hdr x) =? TTL (Hdr r0) then Ok tt else Err "inconsistent TTLs in RRset") = Ok tt
              <-> TTL (Hdr x) = TTL (Hdr r0)).
    { intros x. rewrite <- Z.eqb_eq. by destruct (_ =? _). }
    split.
    + intros H. assert (Hall : forall x, x ∈ r0 :: r :: rest -> TTL (Hdr x) = TTL (Hdr r0)).
      { intros x [->|Hx]%elem_of_cons; [done|]. by apply Heq, H. }
      intros r1 r2 H1 H2. by rewrite (Hall r1 H1), (Hall r2 H2).
    + intros H x Hx. apply Heq, H; [by right|by left].
Qed.

(** The SRP TTL rule: the check accepts an update exactly when any two of its
    records in one RRset (same normalized name, class and type) carry the same TTL. *)
Lemma CheckConsistentTTLs_iff (records : list RR) :
  CheckConsistentTTLs records = Ok tt <->
  forall r1 r2, r1 ∈ records -> r2 ∈ records -> keyFor r1 = keyFor r2 -> TTL (Hdr r1) = TTL (Hdr r2).
Proof.
  unfold CheckConsistentTTLs. rewrite foldM_ok_each. unfold groupRRsets. split.
  - intros H r1 r2 H1 H2 Hk.
    assert (Hg := H (keyFor r1, filter (fun rr => keyFor rr = keyFor r1) records)).
    rewrite group_consistent_iff in Hg. apply Hg; cbn [snd].
    + apply list_elem_of_fmap. exists (keyFor r1). split; [done|].
      apply elem_of_remove_dups, list_elem_of_fmap. by exists r1.
    + by apply list_elem_of_filter.
    + by apply list_elem_of_filter.
  - intros H g (k & -> & _)%list_elem_of_fmap. cbn [snd]. apply group_consistent_iff.
    intros r1 r2 [H1 H1']%list_elem_of_filter [H2 H2']%list_elem_of_filter. apply H; congruence.
Qed.

(** ** The keystore walk *)

Lemma TrimSuffixDot_length s : (String.length (TrimSuffixDot s) <= String.length s)%nat.
Proof.
  destruct (TrimSuffixDot_cases s) as [(p & -> & ->)|[_ ->]]; [|done].
  rewrite string_length_app. lia.
Qed.

Lemma parentZone_shorter z : z <> "" -> (String.length (parentZone z) < String.length z)%nat.
Proof.
  intros Hz. unfold parentZone. pose proof (TrimSuffixDot_length z).
  pose proof (CutFirstLabel_spec (TrimSuffixDot z)) as H'.
  destruct (CutFirstLabel (TrimSuffixDot z)) as [[first rest] [|]]; cbn.
  - destruct H' as [E _]. apply (f_equal String.length) in E. rewrite !string_length_app in E. simpl in E. lia.
  - destruct H' as (_ & -> & _). destruct z; [done|]. simpl. lia.
Qed.

Section keystore_theorems.
Context (FindKeysByZone : string -> list string) (LoadKeyFromFile : string -> option KEY).

Lemma find_key_loop_spec fuel z :
  (String.length z <= fuel)%nat ->
  exists r, find_key_loop FindKeysByZone LoadKeyFromFile fuel z = Some r /\
    match r with
    | Ok (k, kz) => exists n name, let c := Nat.iter n parentZone z in
        kz = c +:+ "." /\ c <> "" /\ FindKeysByZone kz = [name] /\ LoadKeyFromFile name = Some k /\
        forall m, (m < n)%nat -> FindKeysByZone (Nat.iter m parentZone z +:+ ".") = []
    | Err _ => True
    end.
Proof.
  revert z. induction fuel as [|fuel IH]; intros z Hf; cbn [find_key_loop];
    (case_bool_decide as Hz; [by eexists|]).
  - destruct z; [done|]. simpl in Hf. lia.
  - destruct (FindKeysByZone (z +:+ ".")) as [|name [|name' names]] eqn:E.
    + destruct (IH (parentZone z)) as (r & Hr & Hspec).
      { pose proof (parentZone_shorter z Hz). lia. }
      exists r. split; [done|]. destruct r as [[k kz]|]; [|done].
      destruct Hspec as (n & name & Hkz & Hc & Hk & Hl & Hm).
      exists (S n), name. rewrite Nat.iter_succ_r. split_and!; try done.
      intros [|m] Hlt; [done|]. rewrite Nat.iter_succ_r. apply Hm. lia.
    + destruct (LoadKeyFromFile name) as [k|] eqn:El; eexists; (split; [done|]); [|done].
      exists 0%nat, name. split_and!; try done. intros m Hm. lia.
    + by eexists.
Qed.

(** The search for the proxy's signing key always ends, and a key it returns is the
    only key of the nearest enclosing zone that has any. *)
Theorem proxy_key_nearest_zone (zone : string) :
  exists r, FindAuthorizedProxyKey FindKeysByZone LoadKeyFromFile zone = Some r /\
    forall k kz, r = Ok (k, kz) ->
      exists n name, let c := Nat.iter n parentZone (Normalize zone) in
        kz = c +:+ "." /\ c <> "" /\ FindKeysByZone kz = [name] /\ LoadKeyFromFile name = Some k /\
        forall m, (m < n)%nat -> FindKeysByZone (Nat.iter m parentZone (Normalize zone) +:+ ".") = [].
Proof.
  unfold FindAuthorizedProxyKey. case_bool_decide as Hz; [by eexists|].
  destruct (find_key_loop_spec (String.length (Normalize zone)) (Normalize zone)) as (r & Hr & H); [done|].
  exists r. split; [done|]. intros k kz ->. done.
Qed.
End keystore_theorems.

(** ** A concrete network: one server, authoritative for example.org *)

Definition ex_soa : RR := mkRR (mkHeader "example.org." 1 3600) (RD_SOA "ns1.example.org." "h." 1 2 3 4 5).

Definition ex_net : Network := {|
  Exchange m tr server :=
    match Question m with
    | [q] =>
        if q_Type q =? TypeSOA then
          Ok (Some (mkMsg (mkMsgHeader 0 0 true true false false RcodeSuccess 0) [q] [] [ex_soa] [] [] []))
        else Ok (Some (mkMsg (mkMsgHeader 0 0 true true false false RcodeNameError 0) [q] [] [ex_soa] [] [] []))
    | _ => Err "no question"
    end |}.

Definition ex_coordinator : Coordinator := NewCoordinator [] None.

Lemma resolved_zone_contains_name_witness : IsAtOrBelow "dev.example.org" "example.org." = true.
Proof.
  exact (proj1 (resolved_zone_contains_name (N := ex_net) ex_coordinator "dev.example.org" "example.org." eq_refl)).
Defined.

Lemma truncated_answer_not_trusted_witness :
  exists server zone resp, ResolveSOAMasterServer (N := ex_net) ex_coordinator "example.org" = Ok (server, zone) /\
    Rcode (MsgHdr resp) = RcodeNameError.
Proof.
  destruct (truncated_answer_not_trusted (N := ex_net) ex_coordinator "example.org" "x.example.org." AuthNXDomain []
              eq_refl) as (server & zone & resp & H1 & _ & H2).
  exists server, zone, resp. split; [exact H1|exact H2].
Defined.
