(* ===== verification/HandlerBase.v ===== *)
(** * What both handlers share: results, replies and the upstream target

    handlers/handlers.go and handlers/result.go: handler results, the replies to an
    UPDATE, the refusal of labels the library cannot carry, and [upstreamTarget.send],
    through which every UPDATE leaves the proxy.  [World] is the state a handler's
    request works on: the lease store, the expiry timers, and the log of the UPDATEs
    handed to the coordinator with their outcome. *)

From Stdlib Require Import Ascii String ZArith Lia.
From S2P Require Import Prelude DnsName DnsData NodeIdent LeaseStore LeaseOption LeasePolicy WireLabel UpdateCore.

Local Open Scope Z_scope.

(** ** Results *)

Inductive HandlerStatus := StatusProcessed | StatusNotRelevant | StatusError.

Record HandlerResult := mkHandlerResult { Status : HandlerStatus; Message : option Msg; Reason : string }.

Definition NewProcessedResult (msg : Msg) : HandlerResult :=
  mkHandlerResult StatusProcessed (Some msg) "Handler processed packet successfully".

Definition NewNotRelevantResult (reason : string) : HandlerResult :=
  mkHandlerResult StatusNotRelevant None reason.

Definition NewErrorResult (msg : option Msg) (reason : string) : HandlerResult :=
  mkHandlerResult StatusError msg reason.

(** ** Replies *)

Definition updateResponse (req : Msg) (rcode : Z) : Msg :=
  let h := MsgHdr req in
  mkMsg (mkMsgHeader (ID h) (Opcode h) true (Authoritative h) (Truncated h) (RecursionDesired h) rcode (UDPSize h))
        [] [] [] [] [] [].

Definition makeErrorResponse (req : Msg) (rcode : Z) : Msg := updateResponse req rcode.

(** The error result every early return of a handler builds. *)
Definition error_result (req : Msg) (rcode : Z) (reason : string) : HandlerResult :=
  NewErrorResult (Some (makeErrorResponse req rcode)) reason.

Section replies.
Context {L : DnsLib}.

(** [leaseResponse]: the granted durations go in the reply's Pseudo section; an option
    that fails to encode is logged and left out. *)
Definition leaseResponse (req : Msg) (lease keyLease : Z) : Msg :=
  let resp := updateResponse req RcodeSuccess in
  let h := MsgHdr resp in
  let h := mkMsgHeader (ID h) (Opcode h) true true (Truncated h) (RecursionDesired h) (Rcode h) (DefaultMsgSize mod 2 ^ 16) in
  let options := match Encode (Encode8Byte lease keyLease) [] with Ok os => os | Err _ => [] end in
  mkMsg h (Question resp) (Answer resp) (Ns resp) (Extra resp)
        (Pseudo resp ++ map (fun o => mkRR (mkHeader "" 0 0) (RD_EDNS0 o)) options) (Data resp).

(** [refuseDottedLabels]: [None] lets the request through. *)
Definition refuseDottedLabels (r : Msg) : option HandlerResult :=
  match Data r with
  | [] => None
  | data =>
      match DottedWireLabel data with
      | Some (Err e) => Some (error_result r RcodeFormatError e)
      | Some (Ok None) => None
      | Some (Ok (Some _)) => Some (error_result r RcodeRefused "label contains a dot, which this proxy cannot carry")
      | None => Some (error_result r RcodeFormatError "does not terminate")
      end
  end.
End replies.

(** ** Sending an UPDATE *)

Record Sent := mkSent { sent_zone : string; sent_prereqs : list RR; sent_records : list RR; sent_ok : bool }.

Record upstreamTarget := mkTarget { t_signingKey : option KEY; t_zone : string }.

(** What [send] returns: the answer, when there is one, and the error, with the UPDATE
    it handed to the coordinator, if it got that far. *)
Record Outcome := mkOutcome { o_sent : list Sent; o_resp : option Msg; o_err : option string }.

Section send.
Context {L : DnsLib} {SG : Sig0} {U : UpstreamCoordinator}.

(** [send] once [requireUpstream] let it go on. *)
Definition send_update (t : upstreamTarget) (prereqs records : list RR) : Outcome :=
  match up_ResolveAuthoritativeZone (t_zone t) with
  | Err _ => mkOutcome [] None (Some "upstream zone resolution failed")
  | Ok zone =>
      match BuildAndSign zone prereqs records (t_signingKey t) with
      | Err _ => mkOutcome [] None (Some "building the upstream UPDATE")
      | Ok msg =>
          match up_SendUpdate zone msg with
          | Err _ => mkOutcome [mkSent zone prereqs records false] None (Some "upstream UPDATE failed")
          | Ok None => mkOutcome [mkSent zone prereqs records false] None (Some "upstream UPDATE rejected")
          | Ok (Some resp) =>
              if Rcode (MsgHdr resp) =? RcodeSuccess
              then mkOutcome [mkSent zone prereqs records true] (Some resp) None
              else mkOutcome [mkSent zone prereqs records false] (Some resp) (Some "upstream UPDATE rejected")
          end
      end
  end.

(** [send]; [None] is the panic of [requireUpstream] for a target without its signing key.  The
    coordinator is always there in this model. *)
Definition send (t : upstreamTarget) (prereqs records : list RR) : option Outcome :=
  if bool_decide (is_Some (t_signingKey t)) then Some (send_update t prereqs records) else None.

Lemma send_ready t prereqs records : is_Some (t_signingKey t) -> send t prereqs records = Some (send_update t prereqs records).
Proof. intros H. unfold send. by rewrite bool_decide_true. Qed.

Lemma send_Some t prereqs records out : send t prereqs records = Some out -> is_Some (t_signingKey t) /\ out = send_update t prereqs records.
Proof. unfold send. case_bool_decide; [|done]. by intros [= <-]. Qed.

(** No error is exactly a confirmation: one UPDATE of these records was sent and
    answered NOERROR. *)
Lemma send_ok t prereqs records :
  o_err (send_update t prereqs records) = None ->
  exists zone, o_sent (send_update t prereqs records) = [mkSent zone prereqs records true].
Proof. unfold send_update. repeat case_match; simpl; try done. eauto. Qed.

Lemma send_err t prereqs records e :
  o_err (send_update t prereqs records) = Some e ->
  forall s, s ∈ o_sent (send_update t prereqs records) -> sent_ok s = false.
Proof. unfold send_update. repeat case_match; simpl; intros; set_solver. Qed.
End send.

(** ** A concrete upstream: every query finds nothing, every UPDATE is confirmed *)
Module DemoUp.
Definition noerror (m : Msg) : Msg :=
  mkMsg (mkMsgHeader (ID (MsgHdr m)) OpcodeUpdate true true false false RcodeSuccess 0) [] [] [] [] [] [].

Definition sig0 : Sig0 := {|
  SignMessage m k := Ok m;
  VerifySignature m k := Ok tt |}.

Definition upstream : UpstreamCoordinator := {|
  up_ResolveAuthoritativeZone zone := Ok "example.org.";
  up_SendUpdate zone m := Ok (Some (noerror m));
  up_QueryRRs zone name t := Ok [];
  up_QueryKeyAtName zone name := Ok (AuthNXDomain, []);
  up_QueryPTRExists zone name := Ok false |}.

Definition proxy_key : KEY := mkKEY (mkHeader "example.org." 1 0) (mkKeyData 512 3 15 "proxy").
Definition target : upstreamTarget := mkTarget (Some proxy_key) "example.org.".
End DemoUp.
