(* ===== verification/Expiry.v ===== *)
(** * Lease expiry

    handlers/opcode5_lease.go: the per-node expiry timers, the retry backoff, and
    [leaseExpirer], the one path by which a lease ends in either handler: collect what is
    due, delete it upstream in one UPDATE, and forget it locally only once that UPDATE is
    confirmed.  A timer's callback is determined by its node key, so the timer table keeps
    the time each node's timer fires at. *)

From Stdlib Require Import Ascii String ZArith Lia.
From S2P Require Import Prelude DnsName DnsData NodeIdent LeaseStore LeaseTree LeaseInv LeaseSpec NodeLocks.
From S2P Require Import UpdateCore HandlerBase.

Local Open Scope Z_scope.

(** ** Timers *)

Record expiryTimers := mkTimers { timers : gmap string Z; failures : gmap string nat }.

Definition newExpiryTimers : expiryTimers := mkTimers ∅ ∅.

Definition maxExpiryRetryDelay : Z := 16 * second.

Fixpoint retry_loop (n : nat) (delay : Z) : Z :=
  match n with
  | O => delay
  | S n => if delay <? maxExpiryRetryDelay then retry_loop n (delay * 2) else delay
  end.

Definition expiryRetryDelay (failures : nat) : Z :=
  Z.min (retry_loop (failures - 1) second) maxExpiryRetryDelay.

Definition arm (nodeKey : string) (now delay : Z) (t : expiryTimers) : expiryTimers :=
  mkTimers (<[nodeKey := now + delay]> (timers t)) (failures t).

Definition disarm (nodeKey : string) (t : expiryTimers) : expiryTimers :=
  mkTimers (delete nodeKey (timers t)) (delete nodeKey (failures t)).

Definition armed (nodeKey : string) (t : expiryTimers) : bool := bool_decide (is_Some (timers t !! nodeKey)).

Section expiry.
Context {L : DnsLib}.

(** [nextLeaseEvent]: nanoseconds until the earlier of the KEY's and its records' expiry. *)
Definition nextLeaseEvent (now : Z) (store : Store) (nodeKey : string) : option Z :=
  let next := option_map k_ExpiresAt (Get nodeKey store) in
  let next :=
    match GetNonKEYRecordSet nodeKey store with
    | None => next
    | Some s =>
        foldl (fun next entry =>
                 match next with
                 | None => Some (n_ExpiresAt entry)
                 | Some t => if n_ExpiresAt entry <? t then Some (n_ExpiresAt entry) else Some t
                 end) next (map snd (map_to_list (set_Records s)))
    end in
  match next with
  | None => None
  | Some t =>
      let d := t - now in
      let d := if d <? 0 then 0 else d in
      Some (if d <? 100000000 then 100000000 else d)
  end.

Definition schedule (now : Z) (store : Store) (nodeKey : string) (t : expiryTimers) : expiryTimers :=
  match nextLeaseEvent now store nodeKey with
  | None => disarm nodeKey t
  | Some delay => arm nodeKey now delay t
  end.

Definition finish (now : Z) (store : Store) (nodeKey : string) (complete : bool) (t : expiryTimers) : expiryTimers :=
  if complete then schedule now store nodeKey (mkTimers (timers t) (delete nodeKey (failures t)))
  else
    let n := S (default 0%nat (failures t !! nodeKey)) in
    arm nodeKey now (expiryRetryDelay n) (mkTimers (timers t) (<[nodeKey := n]> (failures t))).

Definition reconcile (now : Z) (store : Store) (t : expiryTimers) : expiryTimers :=
  foldl (fun t nodeKey => if armed nodeKey t then t else schedule now store nodeKey t) t (ListOwners store).

(** ** What an event ends *)

Record dueRecord := mkDue { d_owner : string; d_rrKey : string; d_rr : RR }.

Definition due_le (a b : dueRecord) : Prop := String.le (d_rrKey a) (d_rrKey b).

Global Instance due_le_dec : RelDecision due_le.
Proof. intros a b. unfold due_le. apply _. Defined.

(** [ownRecords]: [due = None] (the zero time) means all of them. *)
Definition ownRecords (store : Store) (owner : string) (due : option Z) : list dueRecord :=
  match GetNonKEYRecordSet owner store with
  | None => []
  | Some s =>
      merge_sort due_le
        (omap (fun '(rrKey, rec) =>
                 if match due with None => true | Some d => negb (d <? n_ExpiresAt rec) end
                 then Some (mkDue owner rrKey (n_RR rec)) else None)
              (map_to_list (set_Records s)))
  end.

Definition subtreeLeases (store : Store) (nodeKey : string) : option (list KEY * list dueRecord) :=
  below ← ListSubtreeKeys nodeKey store;
  Some (foldl (fun '(keys, records) owner =>
                 (keys ++ match Get owner store with Some rec => [KeyRR rec] | None => [] end,
                  records ++ ownRecords store owner None))
              ([], []) (nodeKey :: below)).

Definition recordDeletes (records : list dueRecord) : list RR := map (fun r => AsDelete (d_rr r)) records.

(** ** The expirer *)

Record World := mkWorld { w_store : Store; w_timers : expiryTimers; w_sent : list Sent }.

Definition finish_world (now : Z) (nodeKey : string) (complete : bool) (w : World) : World :=
  mkWorld (w_store w) (finish now (w_store w) nodeKey complete (w_timers w)) (w_sent w).

Context {SG : Sig0} {U : UpstreamCoordinator}.

(** Whether the node's KEY has expired. *)
Definition key_due (now : Z) (nodeKey : string) (store : Store) : bool :=
  match Get nodeKey store with Some rec => negb (now <? k_ExpiresAt rec) | None => false end.

(** The first half of [expire]: the KEYs and records the event ends. *)
Definition due_set (dataCascade : bool) (now : Z) (nodeKey : string) (store : Store)
    : result (list KEY * list dueRecord) :=
  if key_due now nodeKey store then
    match subtreeLeases store nodeKey with
    | Some (keys, records) => Ok (keys, records)
    | None => Err "does not terminate"
    end
  else
    let records := ownRecords store nodeKey (Some now) in
    if (0 <? length records)%nat && dataCascade then
      match ListSubtreeKeys nodeKey store with
      | None => Err "does not terminate"
      | Some below =>
          Ok ([], foldl (fun records child =>
                           match Get child store with
                           | Some _ => records ++ ownRecords store child None
                           | None => records
                           end) records below)
      end
    else Ok ([], records).

(** [expire], its caller holding the node locks.  [now] is the time it starts at, [now']
    the time after the upstream round trip.  [Err] is a panic (or a walk that does not
    end). *)
Definition expire (t : upstreamTarget) (dataCascade : bool) (now now' : Z) (nodeKey : string) (w : World)
    : result (World * bool) :=
  let store := w_store w in
  due ← due_set dataCascade now nodeKey store;
  let '(keys, records) := due in
  if (length keys =? 0)%nat && (length records =? 0)%nat then Ok (finish_world now' nodeKey true w, false)
  else
    match send t [] (asDeletes (map KEY_RR keys) ++ recordDeletes records) with
    | None => Err "panic: upstream coordinator or signing key missing"
    | Some out =>
    let w := mkWorld store (w_timers w) (w_sent w ++ o_sent out) in
    match o_err out with
    | Some _ => Ok (finish_world now' nodeKey false w, false)
    | None =>
        if key_due now nodeKey store then
          if match Get nodeKey store with Some rec => negb (IsExpired now' rec) | None => false end
          then Err "panic: refreshed while its expiry held its node locks"
          else
            match ListSubtreeKeys nodeKey store, DeleteSubtree nodeKey store with
            | Some below, Some (Ok store') =>
                let ts := foldl (fun ts d => disarm d ts) (w_timers w) below in
                Ok (finish_world now' nodeKey true (mkWorld store' ts (w_sent w)), true)
            | Some _, Some (Err _) => Err "panic: lease expiry"
            | _, _ => Err "does not terminate"
            end
        else
          store' ← foldM (fun st r => match RemoveSingleNonKEYRecord (d_owner r) (d_rrKey r) st with
                                      | Ok st => Ok st
                                      | Err _ => Err "panic: lease expiry"
                                      end) store records;
          Ok (finish_world now' nodeKey true (mkWorld store' (w_timers w) (w_sent w)), true)
    end
    end.

(** [run]: a timer's event, under the node locks of the node and its subtree; a held lock
    is a failed attempt, not a wait. *)
Definition run (t : upstreamTarget) (dataCascade : bool) (lockIDs : string -> Store -> list string)
    (now now' : Z) (nodeKey : string) (locks : NodeLocks) (w : World) : result (NodeLocks * World * bool) :=
  match TryAcquire (lockIDs nodeKey (w_store w)) locks with
  | (_, Err _) => Ok (locks, finish_world now nodeKey false w, false)
  | (locks, Ok s) =>
      r ← expire t dataCascade now now' nodeKey w;
      let '(w, removed) := r in
      rel ← Release s locks;
      Ok (rel.2, w, removed)
  end.

(** The RFC 9664 handler's lock ids for a node: the node and everything below it. *)
Definition update_lockIDs (nodeKey : string) (store : Store) : list string :=
  nodeKey :: default [] (ListSubtreeKeys nodeKey store).
End expiry.

(** ** Lemmas *)

Section lemmas.
Context {L : DnsLib} {LL : DnsLibLaws L}.

Lemma Get_normal k st : Normalize k = k -> Get k st = leases st !! k.
Proof. unfold Get. by intros ->. Qed.

Lemma WF_lease_normal st k r : WF st -> leases st !! k = Some r -> Normalize k = k.
Proof. intros W (-> & _)%(wf_leases _ _ W). apply Normalize_NodeKey. Qed.

(** The records an owner has due. *)
Lemma ownRecords_elem st owner due d :
  WF st -> d ∈ ownRecords st owner due <->
  exists rec, nonKeyRecords st !! d_rrKey d = Some rec /\ n_Parent rec = Normalize owner /\
    d_owner d = owner /\ d_rr d = n_RR rec /\ (match due with None => True | Some t => n_ExpiresAt rec <= t end).
Proof.
  intros W. unfold ownRecords. pose proof (GetNonKEYRecordSet_spec owner st W) as H.
  destruct (GetNonKEYRecordSet owner st) as [s|].
  - destruct H as [Hs _]. rewrite merge_sort_Permutation, list_elem_of_omap. rewrite Hs.
    assert (Hd : forall rec, (match due with None => true | Some t => negb (t <? n_ExpiresAt rec) end) = true <->
                 match due with None => True | Some t => n_ExpiresAt rec <= t end).
    { intros rec. destruct due; [|done]. by rewrite negb_true_iff, Z.ltb_ge. }
    split.
    + intros ([k rec] & Hin & Hx). apply elem_of_map_to_list, map_lookup_filter_Some in Hin as [Hk Hp].
      specialize (Hd rec). destruct (match due with None => true | _ => _ end); [|done]. injection Hx as <-.
      exists rec. split_and!; try done. by apply Hd.
    + intros (rec & Hk & Hp & Ho & Hr & Hdue). exists (d_rrKey d, rec). split.
      * apply elem_of_map_to_list, map_lookup_filter_Some. done.
      * rewrite (proj2 (Hd rec)) by done. destruct d; simpl in *. by subst.
  - split; [set_solver|]. intros (rec & Hk & Hp & _). by apply (H _ _ Hk) in Hp.
Qed.

Lemma ListSubtreeKeys_spec st nodeKey :
  exists below, ListSubtreeKeys nodeKey st = Some below /\
    forall x, x ∈ below <-> x <> Normalize nodeKey /\ reach (children st) (Normalize nodeKey) x.
Proof.
  destruct (list_loop_reach (children st) (Normalize nodeKey)) as (all & Hl & _ & Hall).
  exists (merge_sort longer_first all). unfold ListSubtreeKeys. rewrite Hl. split; [done|].
  intros x. by rewrite merge_sort_Permutation.
Qed.

Lemma subtree_fold_elem st (l : list string) keys records :
  let out := foldl (fun '(keys, records) owner =>
                 (keys ++ match Get owner st with Some rec => [KeyRR rec] | None => [] end,
                  records ++ ownRecords st owner None)) (keys, records) l in
  (forall k, k ∈ out.1 <-> k ∈ keys \/ exists o rec, o ∈ l /\ Get o st = Some rec /\ k = KeyRR rec) /\
  (forall d, d ∈ out.2 <-> d ∈ records \/ exists o, o ∈ l /\ d ∈ ownRecords st o None).
Proof.
  cbn zeta. revert keys records. induction l as [|o l IH]; intros keys records; cbn [foldl].
  - set_solver.
  - destruct (IH (keys ++ match Get o st with Some rec => [KeyRR rec] | None => [] end)
                 (records ++ ownRecords st o None)) as [H1 H2].
    split; intros x; [rewrite H1|rewrite H2]; rewrite elem_of_app; setoid_rewrite elem_of_cons.
    + destruct (Get o st) as [rec|] eqn:E; [rewrite list_elem_of_singleton|]; split.
      * intros [[?| ->]|(o' & r' & ? & ? & ?)]; [by left|right; eauto 6..].
      * intros [?|(o' & r' & [->|?] & Hg & ->)]; [by left; left| |right; eauto 6].
        left; right. congruence.
      * intros [[?|?%elem_of_nil]|(o' & r' & ? & ? & ?)]; [by left|done|right; eauto 6].
      * intros [?|(o' & r' & [->|?] & Hg & ->)]; [by left; left|congruence|right; eauto 6].
    + split; [intros [[?|?]|(o' & ? & ?)]; eauto 6|]. intros [?|(o' & [->|?] & ?)]; eauto 6.
Qed.

(** Removing due records one by one. *)
Lemma remove_due_spec (ds : list dueRecord) st :
  WF st ->
  (forall d rec, d ∈ ds -> nonKeyRecords st !! d_rrKey d = Some rec -> n_Parent rec = Normalize (d_owner d)) ->
  exists st', foldM (fun st r => match RemoveSingleNonKEYRecord (d_owner r) (d_rrKey r) st with
                                 | Ok st => Ok st | Err _ => Err "panic: lease expiry" end) st ds = Ok st' /\
    WF st' /\ leases st' = leases st /\
    forall id, nonKeyRecords st' !! id =
      if bool_decide (id ∈ map d_rrKey ds) then None else nonKeyRecords st !! id.
Proof.
  revert st. induction ds as [|d ds IH]; intros st W Hown; cbn [foldM].
  - exists st. split_and!; try done.
  - destruct (RemoveSingleNonKEYRecord (d_owner d) (d_rrKey d) st) as [st1|e] eqn:E.
    + pose proof (RemoveSingle_ok _ _ _ _ W E) as (W1 & Hl & _ & Hn & _).
      destruct (IH st1 W1) as (st' & Hf & W' & Hl' & Hn').
      { intros d' rec Hd. rewrite Hn, lookup_delete_Some. intros [_ Hr]. apply (Hown d'); [by right|done]. }
      exists st'. cbn. split_and!; [done|done|congruence|].
      intros id. rewrite Hn', Hn. cbn [map]. destruct (decide (id = d_rrKey d)) as [->|Hid].
      * rewrite lookup_delete_eq, (bool_decide_true (_ ∈ _ :: _)) by by left. by case_bool_decide.
      * rewrite lookup_delete_ne by done. do 2 case_bool_decide; set_solver.
    + exfalso. revert E. unfold RemoveSingleNonKEYRecord.
      destruct (nonKeyRecords st !! d_rrKey d) as [rec|] eqn:Er; [|done].
      rewrite bool_decide_true by (by apply (Hown d); [left|]). cbn. by case_match.
Qed.
End lemmas.

Section theorems.
Context {L : DnsLib} {LL : DnsLibLaws L} {SG : Sig0} {U : UpstreamCoordinator}.

(** Which stored records the data event of a node ends. *)
Definition data_due (cascade : bool) (now : Z) (nodeKey : string) (st : Store) (rec : NonKEYRecord) : Prop :=
  (n_Parent rec = nodeKey /\ n_ExpiresAt rec <= now) \/
  (cascade = true /\ n_Parent rec <> nodeKey /\ is_Some (leases st !! n_Parent rec) /\
   reach (children st) nodeKey (n_Parent rec)).

(** No record's key, normalized, is a stored KEY's node key.  It holds of any store whose
    KEY names hold no space, since a record key always holds one. *)
Definition unshadowed (st : Store) : Prop :=
  forall id r, nonKeyRecords st !! id = Some r -> leases st !! Normalize id = None.

Lemma Fold_space s : no_char " " (Fold s) = no_char " " s.
Proof.
  rewrite Fold_map. induction s as [|c s IH]; [done|]. cbn [string_map]. rewrite !no_char_cons, IH. f_equal.
  destruct c as [[][][][][][][][]]; vm_compute; reflexivity.
Qed.

Lemma Normalize_space s : no_char " " (Normalize s) = no_char " " s.
Proof.
  rewrite <- (Fold_space s). unfold Normalize.
  destruct (TrimSuffixDot_cases (Fold s)) as [(p & -> & ->)|[_ ->]]; [|done].
  rewrite no_char_app. cbn. by rewrite andb_true_r.
Qed.

Lemma RecordKey_has_space rr : no_char " " (RecordKey rr) = false.
Proof.
  unfold RecordKey. repeat case_match; rewrite !no_char_app; cbn; by rewrite !andb_false_r.
Qed.

Lemma spaceless_unshadowed st :
  WF st -> (forall k r, leases st !! k = Some r -> no_char " " k = true) -> unshadowed st.
Proof.
  intros W H id r Hr. destruct (leases st !! Normalize id) as [rk|] eqn:E; [|done]. apply H in E.
  rewrite Normalize_space in E. apply (wf_nonKey _ _ W) in Hr as (-> & _). by rewrite RecordKey_has_space in E.
Qed.

(** What a KEY's deletion collects: the record of every node at or below it. *)
Lemma subtreeLeases_spec nodeKey st :
  WF st -> Normalize nodeKey = nodeKey -> is_Some (leases st !! nodeKey) ->
  exists keys records, subtreeLeases st nodeKey = Some (keys, records) /\
    (forall id r, leases st !! id = Some r -> reach (children st) nodeKey id -> KeyRR r ∈ keys) /\
    (forall id r, nonKeyRecords st !! id = Some r -> reach (children st) nodeKey id ->
       exists d, d ∈ records /\ d_rr d = n_RR r).
Proof.
  intros W Hn [rk Ek].
  destruct (ListSubtreeKeys_spec st nodeKey) as (below & Hb & Hbelow). rewrite Hn in Hbelow.
  unfold subtreeLeases. rewrite Hb. cbn [mbind option_bind].
  pose proof (subtree_fold_elem st (nodeKey :: below) [] []) as [Hkeys Hrecs].
  destruct (foldl _ _ _) as [keys records]. cbn [fst snd] in *. exists keys, records. split; [done|].
  assert (Hin : forall x, reach (children st) nodeKey x -> x ∈ nodeKey :: below).
  { intros x Hx. destruct (decide (x = nodeKey)) as [->|]; [by left|right]. by apply Hbelow. }
  split; intros id r Hr Hreach.
  - apply Hkeys. right. exists id, r. split_and!; [auto| |done].
    by rewrite Get_normal by (by eapply WF_lease_normal).
  - assert (Hne : id <> nodeKey) by (intros ->; by eapply (WF_disjoint ∅ st nodeKey rk r)).
    apply rtc_inv_r in Hreach as [->|(p & Hp & He)]; [done|].
    apply (wf_edges _ _ W) in He as (_ & _ & [(r' & Hr' & _)|(r' & Hr' & Hpar)]);
      [by destruct (WF_disjoint ∅ st id r' r W)|].
    assert (r' = r) as -> by congruence.
    pose proof (wf_nonKey _ _ W _ _ Hr) as (_ & _ & _ & _ & _ & _ & Hnp).
    exists (mkDue p id (n_RR r)). split; [|done]. apply Hrecs. right. exists p. split; [auto|].
    apply ownRecords_elem; [done|]. exists r. cbn. split_and!; try done. congruence.
Qed.

Lemma due_set_key cascade now nodeKey st :
  WF st -> Normalize nodeKey = nodeKey -> key_due now nodeKey st = true ->
  exists keys records, due_set cascade now nodeKey st = Ok (keys, records) /\
    (forall id r, leases st !! id = Some r -> reach (children st) nodeKey id -> KeyRR r ∈ keys) /\
    (forall id r, nonKeyRecords st !! id = Some r -> reach (children st) nodeKey id ->
       exists d, d ∈ records /\ d_rr d = n_RR r).
Proof.
  intros W Hn Hk. unfold due_set. rewrite Hk.
  destruct (subtreeLeases_spec nodeKey st W Hn) as (keys & records & -> & H); [|eauto].
  unfold key_due in Hk. rewrite Get_normal in Hk by done. destruct (leases st !! nodeKey); [eauto|done].
Qed.

(** The cascade loop of the data event. *)
Lemma cascade_fold_elem st (below : list string) rs d :
  d ∈ foldl (fun rs child => match Get child st with
                             | Some _ => rs ++ ownRecords st child None | None => rs end) rs below <->
  d ∈ rs \/ exists c, c ∈ below /\ is_Some (Get c st) /\ d ∈ ownRecords st c None.
Proof.
  revert rs. induction below as [|c below IH]; intros rs; cbn [foldl]; [set_solver|].
  rewrite IH. setoid_rewrite elem_of_cons. destruct (Get c st) as [rc|] eqn:E; [rewrite elem_of_app|];
    (split; [intros [?|(c' & ? & ? & ?)]; eauto 8|]).
  - destruct H; eauto 8.
  - intros [?|(c' & [->|?] & ? & ?)]; eauto 8.
  - intros [?|(c' & [->|?] & [? ?] & ?)]; [by left|congruence|eauto 8].
Qed.

(** A child that [Get] finds below a node is a KEY node itself. *)
Lemma Get_below_is_key st nodeKey c rc :
  WF st -> unshadowed st -> c <> nodeKey -> reach (children st) nodeKey c -> Get c st = Some rc -> Normalize c = c.
Proof.
  intros W Hsh Hne Hreach Hg. apply rtc_inv_r in Hreach as [?|(p & _ & He)]; [congruence|].
  apply (wf_edges _ _ W) in He as (_ & _ & [(r' & Hr' & _)|(r' & Hr' & _)]); [by eapply WF_lease_normal|].
  unfold Get in Hg. rewrite (Hsh c r' Hr') in Hg. done.
Qed.

(** What the data event of a node whose KEY has not expired collects. *)
Lemma due_set_data cascade now nodeKey st :
  WF st -> Normalize nodeKey = nodeKey -> key_due now nodeKey st = false ->
  exists records, due_set cascade now nodeKey st = Ok ([], records) /\
    (forall d, d ∈ records -> exists r, nonKeyRecords st !! d_rrKey d = Some r /\
       n_Parent r = Normalize (d_owner d) /\ d_rr d = n_RR r /\ ((cascade = true -> unshadowed st) -> data_due cascade now nodeKey st r)) /\
    (forall id r, nonKeyRecords st !! id = Some r ->
       data_due cascade now nodeKey st r /\ (records <> [] \/ n_Parent r = nodeKey) ->
       exists d, d ∈ records /\ d_rrKey d = id).
Proof.
  intros W Hn Hk. unfold due_set. rewrite Hk. cbn zeta. set (own := ownRecords st nodeKey (Some now)).
  assert (Hown : forall d, d ∈ own <-> exists r, nonKeyRecords st !! d_rrKey d = Some r /\ n_Parent r = nodeKey /\
            d_owner d = nodeKey /\ d_rr d = n_RR r /\ n_ExpiresAt r <= now).
  { intros d. unfold own. rewrite ownRecords_elem by done. by rewrite Hn. }
  assert (Hown2 : forall id r, nonKeyRecords st !! id = Some r -> n_Parent r = nodeKey -> n_ExpiresAt r <= now ->
            mkDue nodeKey id (n_RR r) ∈ own) by (intros id r ???; apply Hown; by exists r).
  destruct ((0 <? length own)%nat && cascade) eqn:Hc.
  - apply andb_true_iff in Hc as [_ ->].
    destruct (ListSubtreeKeys_spec st nodeKey) as (below & -> & Hbelow). rewrite Hn in Hbelow.
    eexists. split; [done|]. split.
    + intros d. rewrite cascade_fold_elem. intros [(r & ? & ? & ? & ? & ?)%Hown|(c & Hcb & [rc Hg] & Hd)].
      * exists r. split_and!; [done|congruence|done|by left].
      * apply ownRecords_elem in Hd as (r & Hr & Hp & Ho & Hrr & _); [|done].
        exists r. split_and!; [done|congruence|done|]. intros Hsh. right.
        apply Hbelow in Hcb as [Hne Hreach]. rewrite Hp.
        pose proof (Get_below_is_key st nodeKey c rc W (Hsh eq_refl) Hne Hreach Hg) as Hcn.
        unfold Get in Hg. rewrite Hcn in *. split_and!; eauto.
    + intros id r Hr [[[Hp He]|(_ & Hp & [rk Hrk] & Hreach)] _].
      * exists (mkDue nodeKey id (n_RR r)). split; [|done]. apply cascade_fold_elem. left. eauto.
      * exists (mkDue (n_Parent r) id (n_RR r)). split; [|done]. apply cascade_fold_elem. right.
        pose proof (WF_lease_normal _ _ _ W Hrk) as Hnp. exists (n_Parent r). split_and!.
        -- by apply Hbelow.
        -- rewrite Get_normal by done. eauto.
        -- apply ownRecords_elem; [done|]. exists r. by split_and!.
  - exists own. split; [done|]. split.
    + intros d (r & ? & ? & ? & ? & ?)%Hown. exists r. split_and!; [done|congruence|done|by left].
    + intros id r Hr [[[Hp He]|(-> & Hp & _)] Hne]; [eauto|].
      exfalso. destruct Hne; [|done]. destruct own; [done|]. by rewrite andb_true_r in Hc.
Qed.

(** The records of an UPDATE cover the loss of a node. *)
Definition covers_loss (recs : list RR) (st st' : Store) : Prop :=
  (forall id r, leases st !! id = Some r -> leases st' !! id = None -> AsDelete (KEY_RR (KeyRR r)) ∈ recs) /\
  (forall id r, nonKeyRecords st !! id = Some r -> nonKeyRecords st' !! id = None -> AsDelete (n_RR r) ∈ recs).

(** Everything left is as it was. *)
Definition only_removes (st st' : Store) : Prop :=
  (forall id r, leases st' !! id = Some r -> leases st !! id = Some r) /\
  (forall id r, nonKeyRecords st' !! id = Some r -> nonKeyRecords st !! id = Some r).

Lemma covers_loss_refl recs st : covers_loss recs st st.
Proof. split; congruence. Qed.

(** The state a confirmed event leaves. *)
Definition ended (cascade : bool) (now : Z) (nodeKey : string) (st st' : Store) : Prop :=
  if key_due now nodeKey st then
    (forall id, reach (children st) nodeKey id -> leases st' !! id = None /\ nonKeyRecords st' !! id = None) /\
    (forall id, ~ reach (children st) nodeKey id ->
       leases st' !! id = leases st !! id /\ nonKeyRecords st' !! id = nonKeyRecords st !! id)
  else
    leases st' = leases st /\
    (forall id r, nonKeyRecords st !! id = Some r ->
       (data_due cascade now nodeKey st r <-> nonKeyRecords st' !! id = None)).

(** What an event leaves of the world it started from. *)
Definition expire_post (cascade : bool) (now : Z) (nodeKey : string) (w w' : World) (removed : bool) : Prop :=
  WF (w_store w') /\ only_removes (w_store w) (w_store w') /\
  if removed then
    exists zone recs, w_sent w' = w_sent w ++ [mkSent zone [] recs true] /\
      covers_loss recs (w_store w) (w_store w') /\
      ((cascade = true -> unshadowed (w_store w)) -> ended cascade now nodeKey (w_store w) (w_store w'))
  else w_store w' = w_store w /\ exists extra, w_sent w' = w_sent w ++ extra /\
       Forall (fun s => sent_ok s = false) extra.

(** Nothing due, or the UPDATE not confirmed: nothing is forgotten. *)
Lemma expire_post_unchanged cascade now now' nodeKey complete w extra :
  WF (w_store w) -> Forall (fun s => sent_ok s = false) extra ->
  expire_post cascade now nodeKey w
    (finish_world now' nodeKey complete (mkWorld (w_store w) (w_timers w) (w_sent w ++ extra))) false.
Proof. intros W Hx. unfold expire_post. cbn. split_and!; [done|by split|done|eauto]. Qed.

Lemma expire_post_idle cascade now now' nodeKey complete w :
  WF (w_store w) -> expire_post cascade now nodeKey w (finish_world now' nodeKey complete w) false.
Proof.
  intros W. pose proof (expire_post_unchanged cascade now now' nodeKey complete w [] W ltac:(constructor)) as H.
  destruct w. cbn in *. by rewrite app_nil_r in H.
Qed.

(** A subtree removed after its records went upstream. *)
Lemma covers_loss_subtree keys records st st' (seen : list string) root :
  (forall x, x ∈ seen <-> reach (children st) root x) ->
  leases st' = filter (fun kv => kv.1 ∉ seen) (leases st) ->
  nonKeyRecords st' = filter (fun kv => kv.1 ∉ seen) (nonKeyRecords st) ->
  (forall id r, leases st !! id = Some r -> reach (children st) root id -> KeyRR r ∈ keys) ->
  (forall id r, nonKeyRecords st !! id = Some r -> reach (children st) root id ->
     exists d, d ∈ records /\ d_rr d = n_RR r) ->
  covers_loss (asDeletes (map KEY_RR keys) ++ recordDeletes records) st st'.
Proof.
  intros Hseen Hl Hnk HK HR. split; intros id r Hr; [rewrite Hl|rewrite Hnk]; intros Hgone; apply elem_of_app;
    (assert (Hin : id ∈ seen) by (destruct (decide (id ∈ seen)) as [|Hx]; [done|];
       exfalso; rewrite map_lookup_filter, Hr in Hgone; simpl in Hgone; by case_guard)).
  - left. apply Hseen, (HK _ _ Hr) in Hin. unfold asDeletes. rewrite list_elem_of_fmap.
    exists (KEY_RR (KeyRR r)). split; [done|]. rewrite list_elem_of_fmap. eauto.
  - right. apply Hseen in Hin. destruct (HR _ _ Hr Hin) as (d & Hd1 & Hd2).
    unfold recordDeletes. rewrite list_elem_of_fmap. exists d. by rewrite Hd2.
Qed.

(** The node's KEY expires at the very moment of both clock readings. *)
Definition same_instant (now now' : Z) (nodeKey : string) (st : Store) : Prop :=
  exists rec, leases st !! nodeKey = Some rec /\ k_ExpiresAt rec = now /\ now' = now.

Lemma expire_key_spec t cascade now now' nodeKey w :
  WF (w_store w) -> Normalize nodeKey = nodeKey -> nodeKey <> "" -> is_Some (t_signingKey t) -> now <= now' ->
  ~ same_instant now now' nodeKey (w_store w) -> key_due now nodeKey (w_store w) = true ->
  exists w' removed, expire t cascade now now' nodeKey w = Ok (w', removed) /\
    expire_post cascade now nodeKey w w' removed.
Proof.
  intros W Hn Hne Hkey Hnow Hinst Hk. unfold expire.
  destruct (due_set_key cascade now nodeKey (w_store w) W Hn Hk) as (keys & records & Hd & HK & HR).
  rewrite Hd. cbn [mbind result_bind]. case_match eqn:Hempty.
  { do 2 eexists. split; [done|]. by apply expire_post_idle. }
  rewrite send_ready by done. destruct (o_err (send_update t [] _)) as [e|] eqn:He.
  { do 2 eexists. split; [done|]. apply expire_post_unchanged; [done|].
    apply Forall_forall. intros s Hs. by eapply send_err. }
  apply send_ok in He as [zone Hsent]. rewrite Hk.
  destruct (Get nodeKey (w_store w)) as [rec|] eqn:Hg; [|by unfold key_due in Hk; rewrite Hg in Hk].
  assert (Hexp : IsExpired now' rec = true).
  { unfold key_due in Hk. rewrite Hg, negb_true_iff, Z.ltb_ge in Hk. apply Z.ltb_lt. rewrite Get_normal in Hg by done.
    destruct (Z.lt_ge_cases (k_ExpiresAt rec) now'); [done|]. destruct Hinst. exists rec. split_and!; [done|lia..]. }
  rewrite Hexp. cbn [negb].
  destruct (ListSubtreeKeys_spec (w_store w) nodeKey) as (below & -> & _).
  destruct (deleteSubtree_spec nodeKey (w_store w) W) as (st' & seen & Hdel & W' & Hseen & Hl & Hnk).
  unfold DeleteSubtree. rewrite Hn, bool_decide_false, Hdel by done. cbn [mbind option_bind].
  do 2 eexists. split; [done|]. unfold expire_post. cbn [finish_world w_store w_sent]. split_and!; [done| |].
  - split; intros id r; [rewrite Hl|rewrite Hnk]; rewrite map_lookup_filter_Some; tauto.
  - exists zone. eexists. rewrite Hsent. split_and!; [done|by eapply covers_loss_subtree|].
    intros _. unfold ended. rewrite Hk. split; intros id; rewrite <- Hseen; intros Hid; rewrite Hl, Hnk, !map_lookup_filter;
      (split; destruct (_ !! id); simpl; [|done| |done]); by case_guard.
Qed.

Lemma expire_data_spec t cascade now now' nodeKey w :
  WF (w_store w) -> Normalize nodeKey = nodeKey -> is_Some (t_signingKey t) -> key_due now nodeKey (w_store w) = false ->
  exists w' removed, expire t cascade now now' nodeKey w = Ok (w', removed) /\
    expire_post cascade now nodeKey w w' removed.
Proof.
  intros W Hn Hkey Hk. unfold expire.
  destruct (due_set_data cascade now nodeKey (w_store w) W Hn Hk) as (records & Hd & Hsound & Hcomp).
  rewrite Hd. cbn [mbind result_bind]. cbn [length Nat.eqb andb].
  destruct (length records =? 0)%nat eqn:Hempty.
  { do 2 eexists. split; [done|]. by apply expire_post_idle. }
  assert (Hrne : records <> []) by (by intros ->).
  rewrite send_ready by done. destruct (o_err (send_update t [] _)) as [e|] eqn:He.
  { do 2 eexists. split; [done|]. apply expire_post_unchanged; [done|].
    apply Forall_forall. intros s Hs. by eapply send_err. }
  apply send_ok in He as [zone Hsent]. rewrite Hk.
  destruct (remove_due_spec records (w_store w) W) as (st' & Hf & W' & Hl & Hnk).
  { intros d rec Hin Hr. destruct (Hsound d Hin) as (r & Hr' & Hp & _). congruence. }
  rewrite Hf. cbn [mbind result_bind]. do 2 eexists. split; [done|].
  unfold expire_post. cbn [finish_world w_store w_sent].
  assert (Hgone : forall id r, nonKeyRecords (w_store w) !! id = Some r ->
            (nonKeyRecords st' !! id = None <-> exists d, d ∈ records /\ d_rrKey d = id)).
  { intros id r Hr. rewrite Hnk. case_bool_decide as Hid; rewrite list_elem_of_fmap in Hid.
    - split; [|done]. intros _. destruct Hid as (d & -> & ?). eauto.
    - rewrite Hr. split; [done|]. intros (d & ? & <-). destruct Hid. eauto. }
  split_and!; [done| |].
  - split; intros id r; [by rewrite Hl|]. rewrite Hnk. by case_bool_decide.
  - exists zone. eexists. rewrite Hsent. split_and!; [done| |].
    + split; [intros id r Hr; rewrite Hl; congruence|]. intros id r Hr Hg.
      apply (Hgone id r Hr) in Hg as (d & Hin & <-). destruct (Hsound d Hin) as (r' & Hr' & _ & Hrr & _).
      assert (r' = r) as -> by congruence. apply elem_of_app. right. unfold recordDeletes.
      rewrite list_elem_of_fmap. exists d. by rewrite Hrr.
    + intros Hsh. unfold ended. rewrite Hk. split; [done|]. intros id r Hr. rewrite (Hgone id r Hr). split.
      * intros Hdue. apply (Hcomp id r Hr). auto.
      * intros (d & Hin & <-). destruct (Hsound d Hin) as (r' & Hr' & _ & _ & Hdue). specialize (Hdue Hsh). congruence.
Qed.

(** What one lease event leaves. *)
Lemma expire_spec (t : upstreamTarget) (cascade : bool) (now now' : Z) (nodeKey : string) (w : World) :
  WF (w_store w) -> Normalize nodeKey = nodeKey -> nodeKey <> "" -> is_Some (t_signingKey t) -> now <= now' ->
  ~ same_instant now now' nodeKey (w_store w) ->
  exists w' removed, expire t cascade now now' nodeKey w = Ok (w', removed) /\ expire_post cascade now nodeKey w w' removed.
Proof.
  intros W Hn Hne Hkey Hnow Hinst.
  destruct (key_due now nodeKey (w_store w)) eqn:Hk; [by apply expire_key_spec|by apply expire_data_spec].
Qed.

(** [C15] Nothing is forgotten before its deletion is confirmed.  A lease event of a handler that
    has its signing key, with a clock that does not run backwards, does not panic unless the
    node's KEY expires at the very moment of both of its clock readings (and then it does, once
    the UPDATE is confirmed: [expiry_panics_at_instant]).  If the store changes, exactly one
    UPDATE was sent and answered NOERROR, and it deletes every KEY and every record that
    disappeared from the store; otherwise the store is as it was and no UPDATE was confirmed.
    Nothing that stays is altered. *)
Theorem expiry_confirmed_before_forgotten (t : upstreamTarget) (cascade : bool) (now now' : Z) (nodeKey : string) (w : World) :
  WF (w_store w) -> Normalize nodeKey = nodeKey -> nodeKey <> "" -> is_Some (t_signingKey t) -> now <= now' ->
  ~ same_instant now now' nodeKey (w_store w) ->
  exists w' removed, expire t cascade now now' nodeKey w = Ok (w', removed) /\
    WF (w_store w') /\ only_removes (w_store w) (w_store w') /\
    ((w_store w' = w_store w /\ exists extra, w_sent w' = w_sent w ++ extra /\ Forall (fun s => sent_ok s = false) extra) \/
     exists zone recs, w_sent w' = w_sent w ++ [mkSent zone [] recs true] /\
       covers_loss recs (w_store w) (w_store w')).
Proof.
  intros W Hn Hne Hkey Hnow Hinst. destruct (expire_spec t cascade now now' nodeKey w W Hn Hne Hkey Hnow Hinst) as (w' & removed & He & HW & Ho & Hp).
  exists w', removed. split_and!; [done..|]. destruct removed; [right|by left].
  destruct Hp as (zone & recs & ? & ? & _). eauto.
Qed.

(** The assertion of a confirmed expiry fails when both clock readings are the moment the KEY
    expires at: the node was selected as due, but is not expired yet. *)
Theorem expiry_panics_at_instant (t : upstreamTarget) (cascade : bool) (now now' : Z) (nodeKey : string) (w : World) :
  WF (w_store w) -> Normalize nodeKey = nodeKey -> same_instant now now' nodeKey (w_store w) -> is_Some (t_signingKey t) ->
  (forall records, o_err (send_update t [] records) = None) ->
  is_ok (expire t cascade now now' nodeKey w) = false.
Proof.
  intros W Hn (rec & Hr & Hx & ->) Hkey Hup.
  assert (Hg : Get nodeKey (w_store w) = Some rec) by (by rewrite Get_normal).
  assert (Hk : key_due now nodeKey (w_store w) = true) by (unfold key_due; rewrite Hg, (proj2 (Z.ltb_ge _ _)); [done|lia]).
  unfold expire. destruct (due_set_key cascade now nodeKey (w_store w) W Hn Hk) as (keys & records & -> & HK & _). cbn [mbind result_bind].
  specialize (HK nodeKey rec Hr ltac:(apply rtc_refl)). destruct keys as [|k keys]; [by apply not_elem_of_nil in HK|]. cbn [length Nat.eqb andb].
  rewrite send_ready by done. rewrite Hup, Hk, Hg. unfold IsExpired. rewrite (proj2 (Z.ltb_ge _ _)) by lia. done.
Qed.

Lemma expire_removed_key t cascade now now' nodeKey w w' : expire t cascade now now' nodeKey w = Ok (w', true) -> is_Some (t_signingKey t).
Proof.
  unfold expire. destruct (due_set _ _ _ _) as [[keys records]|]; cbn [mbind result_bind]; [|done]. case_match; [done|].
  destruct (send _ _ _) as [out|] eqn:E; [|done]. by apply send_Some in E as [? _].
Qed.

(** [C16] A confirmed lease event ends exactly what is due.  If the node's KEY has expired,
    the node and everything below it is gone and nothing else; otherwise no KEY is gone,
    and of the records exactly the node's own whose lease has run out, together with, for
    a host (SRP), all data of the KEY nodes below it. *)
Theorem expiry_ends_exactly_due (t : upstreamTarget) (cascade : bool) (now now' : Z) (nodeKey : string) (w w' : World) :
  WF (w_store w) -> Normalize nodeKey = nodeKey -> nodeKey <> "" -> now < now' ->
  (cascade = true -> unshadowed (w_store w)) ->
  expire t cascade now now' nodeKey w = Ok (w', true) ->
  ended cascade now nodeKey (w_store w) (w_store w').
Proof.
  intros W Hn Hne Hnow Hsh Hexp. assert (Hkey : is_Some (t_signingKey t)) by (by eapply expire_removed_key).
  destruct (expire_spec t cascade now now' nodeKey w W Hn Hne Hkey) as (w1 & removed & He & HW & Ho & Hp); [lia|intros (? & _ & _ & ?); lia|].
  rewrite Hexp in He. simplify_eq. destruct Hp as (zone & recs & _ & _ & H). by apply H.
Qed.

(** ** Timers *)

Lemma retry_loop_spec n d :
  0 < d -> retry_loop n d = d * 2 ^ Z.of_nat n \/ (maxExpiryRetryDelay <= retry_loop n d /\ maxExpiryRetryDelay <= d * 2 ^ Z.of_nat n).
Proof.
  revert d. induction n as [|n IH]; intros d Hd; cbn [retry_loop]; [left; lia|].
  rewrite Nat2Z.inj_succ, Z.pow_succ_r by lia. destruct (d <? maxExpiryRetryDelay) eqn:E.
  - destruct (IH (d * 2) ltac:(lia)) as [->|[? ?]]; [left; lia|right; lia].
  - apply Z.ltb_ge in E. right. assert (1 <= 2 ^ Z.of_nat n) by (pose proof (Z.pow_pos_nonneg 2 (Z.of_nat n)); lia). nia.
Qed.

Lemma expiryRetryDelay_spec n :
  expiryRetryDelay (S n) = Z.min (2 ^ Z.of_nat n) 16 * second.
Proof.
  unfold expiryRetryDelay. replace (S n - 1)%nat with n by lia.
  destruct (retry_loop_spec n second ltac:(done)) as [->|[H1 H2]]; unfold maxExpiryRetryDelay in *; unfold second in *; lia.
Qed.

(** A failed expiry attempt keeps the node scheduled: its timer fires again after
    min(2^(n-1), 16) seconds, n the number of consecutive failures, whose count goes up by
    one; no other node's timer or count changes.  A completed one ends the run of failures. *)
Theorem failed_expiry_backs_off (now : Z) (st : Store) (nodeKey : string) (t : expiryTimers) :
  let n := default 0%nat (failures t !! nodeKey) in
  timers (finish now st nodeKey false t) = <[nodeKey := now + Z.min (2 ^ Z.of_nat n) 16 * second]> (timers t) /\
  failures (finish now st nodeKey false t) = <[nodeKey := S n]> (failures t) /\
  failures (finish now st nodeKey true t) !! nodeKey = None.
Proof.
  cbn zeta. split_and!; [|done|].
  - unfold finish, arm. cbn [timers]. by rewrite expiryRetryDelay_spec.
  - unfold finish, schedule. destruct (nextLeaseEvent _ _ _); cbn [arm disarm failures]; apply lookup_delete_eq.
Qed.

Lemma next_fold_is_Some (l : list NonKEYRecord) t :
  is_Some (foldl (fun next entry => match next with
                 | None => Some (n_ExpiresAt entry)
                 | Some t => if n_ExpiresAt entry <? t then Some (n_ExpiresAt entry) else Some t end) (Some t) l).
Proof. revert t. induction l as [|e l IH]; intros t; cbn [foldl]; [eauto|]. case_match; apply IH. Qed.

Lemma owner_has_event now st o :
  WF st -> o ∈ ListOwners st -> is_Some (nextLeaseEvent now st o).
Proof.
  intros W Ho. assert (Hcase : is_Some (leases st !! o) \/
    exists id r, nonKeyRecords st !! id = Some r /\ n_Parent r = o).
  { revert Ho. unfold ListOwners. rewrite merge_sort_Permutation, elem_of_elements, elem_of_list_to_set, elem_of_app.
    rewrite !list_elem_of_fmap. intros [([k r] & -> & H%elem_of_map_to_list)|([k r] & -> & H%elem_of_map_to_list)]; eauto. }
  unfold nextLeaseEvent. destruct Hcase as [[r Hr]|(id & r & Hr & Hp)].
  - rewrite Get_normal, Hr by (by eapply WF_lease_normal). cbn [option_map].
    destruct (GetNonKEYRecordSet o st) as [s|]; [|eauto].
    destruct (next_fold_is_Some (map snd (map_to_list (set_Records s))) (k_ExpiresAt r)) as [t ->]. eauto.
  - pose proof (wf_nonKey _ _ W _ _ Hr) as (_ & _ & _ & _ & _ & _ & Hnp).
    pose proof (GetNonKEYRecordSet_spec o st W) as Hs.
    destruct (GetNonKEYRecordSet o st) as [s|]; [|exfalso; apply (Hs id r Hr); congruence].
    destruct Hs as [_ Hne]. destruct (map_to_list (set_Records s)) as [|[k e] l] eqn:E.
    { apply map_to_list_empty_iff in E. done. }
    cbn [map foldl snd]. destruct (option_map _ _) as [t0|]; [destruct (n_ExpiresAt e <? t0)|];
      match goal with |- context [foldl _ (Some ?t) ?l] => destruct (next_fold_is_Some l t) as [t' ->] end; eauto.
Qed.

Lemma schedule_armed now st o t o' :
  WF st -> o ∈ ListOwners st -> armed o' t = true \/ o' = o -> armed o' (schedule now st o t) = true.
Proof.
  intros W Ho Ha. unfold schedule. destruct (owner_has_event now st o W Ho) as [d ->]. unfold armed, arm in *.
  cbn [timers]. apply bool_decide_eq_true. rewrite lookup_insert_is_Some.
  destruct Ha as [Ha| ->]; [|by left]. apply bool_decide_eq_true in Ha. destruct (decide (o = o')); auto.
Qed.

(** Reconciliation leaves no lease unwatched: after it every KEY node and every owner
    of records in the store has a timer, whatever the timers were before (all lost after a
    restart, say), and timers already set stay set. *)
Theorem reconcile_arms_every_owner (now : Z) (st : Store) (t : expiryTimers) (o : string) :
  WF st -> o ∈ ListOwners st \/ armed o t = true -> armed o (reconcile now st t) = true.
Proof.
  intros W. unfold reconcile.
  assert (H : forall l t, (forall x, x ∈ l -> x ∈ ListOwners st) -> (o ∈ l \/ armed o t = true) ->
    armed o (foldl (fun t nodeKey => if armed nodeKey t then t else schedule now st nodeKey t) t l) = true).
  { intros l. induction l as [|x l IH]; intros t0 Hl Ho; cbn [foldl]; [set_solver|].
    apply IH; [set_solver|]. destruct (armed x t0) eqn:Ex.
    - destruct Ho as [[->|Ho]%elem_of_cons|Ho]; auto.
    - rewrite elem_of_cons in Ho. destruct (decide (o = x)) as [->|].
      + right. apply schedule_armed; [done|apply Hl; by left|by right].
      + destruct Ho as [[?|?]|?]; [done|by left|]. right.
        apply schedule_armed; [done|apply Hl; by left|by left]. }
  apply H. done.
Qed.
End theorems.

(** ** A concrete event: the example store long after its leases *)

Definition ex_world : World := mkWorld ex_store newExpiryTimers [].
Definition ex_late : Z := 4000 * second.

Lemma ex_late_instant : ~ same_instant ex_late ex_late ex_parent_key (w_store ex_world).
Proof. intros (rec & Hr & Hx & _). vm_compute in Hr. injection Hr as <-. vm_compute in Hx. discriminate. Qed.

Lemma expiry_confirmed_before_forgotten_witness :
  exists w' removed zone recs,
    expire (L := Demo.lib) (SG := DemoUp.sig0) (U := DemoUp.upstream) DemoUp.target false ex_late ex_late
      ex_parent_key ex_world = Ok (w', removed) /\ removed = true /\ leases (w_store w') = ∅ /\
    w_sent w' = [mkSent zone [] recs true] /\ covers_loss recs (w_store ex_world) (w_store w').
Proof.
  destruct (expiry_confirmed_before_forgotten (LL := Demo.laws) (SG := DemoUp.sig0) (U := DemoUp.upstream)
    DemoUp.target false ex_late ex_late ex_parent_key ex_world ex_store_WF
    ltac:(vm_compute; reflexivity) ltac:(vm_compute; discriminate) ltac:(vm_compute; eauto) ltac:(lia) ex_late_instant)
    as (w' & removed & He & _ & _ & [[Hs _]|(zone & recs & Hs & Hc)]).
  - exfalso. vm_compute in He. injection He as <- _. discriminate (f_equal leases Hs).
  - exists w', removed, zone, recs. split; [exact He|]. split; [vm_compute in He; injection He as _ <-; reflexivity|].
    split; [vm_compute in He; injection He as <- _; reflexivity|]. split; [exact Hs|exact Hc].
Defined.

(** The same event at the very moment the KEY expires. *)
Example expiry_panic :
  let x := match leases ex_store !! ex_parent_key with Some r => k_ExpiresAt r | None => 0 end in
  expire (L := Demo.lib) (SG := DemoUp.sig0) (U := DemoUp.upstream) DemoUp.target false x x ex_parent_key ex_world =
    Err "panic: refreshed while its expiry held its node locks".
Proof. vm_compute. reflexivity. Qed.

Definition ex_after : World :=
  match expire (L := Demo.lib) (SG := DemoUp.sig0) (U := DemoUp.upstream) DemoUp.target false ex_late (ex_late + 1)
          ex_parent_key ex_world with Ok (w, _) => w | Err _ => ex_world end.

Lemma expiry_ends_exactly_due_witness : ended false ex_late ex_parent_key ex_store (w_store ex_after).
Proof.
  exact (expiry_ends_exactly_due (LL := Demo.laws) (SG := DemoUp.sig0) (U := DemoUp.upstream)
    DemoUp.target false ex_late (ex_late + 1) ex_parent_key ex_world ex_after ex_store_WF
    ltac:(vm_compute; reflexivity) ltac:(vm_compute; discriminate) ltac:(lia) ltac:(discriminate)
    ltac:(vm_compute; reflexivity)).
Defined.

Lemma reconcile_arms_every_owner_witness :
  armed ex_parent_key (reconcile 0 ex_store newExpiryTimers) = true.
Proof.
  refine (reconcile_arms_every_owner (L := Demo.lib) (LL := Demo.laws) 0 ex_store newExpiryTimers ex_parent_key ex_store_WF _).
  left. apply (bool_decide_unpack _). vm_compute. exact I.
Defined.
