(* ===== verification/UpdateHandler.v ===== *)
(** * The RFC 9664 update handler

    handlers/opcode5*.go: what [UpdateHandler.Handle] does with one UPDATE, from the wire
    checks to the reply.  Each helper is one definition.  [Handle] is split where the code
    splits: [prologue] up to the node locks, one definition per LEASE/KEY-LEASE case, the
    upstream forward, and the local apply.  A pending lease mutation, a closure in the
    source, is a constructor of [Mutation] carrying what the closure captures, and
    [apply_mutation] is its body.  [now] is the time of the checks and [now'] the time after
    the upstream round trip. *)

From Stdlib Require Import Ascii String ZArith Lia.
From S2P Require Import Prelude DnsName DnsData NodeIdent LeaseStore LeaseTree LeaseInv LeaseSpec LeaseOption LeasePolicy.
From S2P Require Import UpdateCore HandlerBase Expiry.

Local Open Scope Z_scope.

Record UpdateHandler := mkUpdateHandler {
  h_upstreamZone : string;
  h_upstreamKey : option KEY;
  h_LeasePolicy : LeasePolicy;
  h_recordTTL : Z;
  h_prefer4ByteVariant : bool;
  h_AllowOnlineKeyRegistration : bool;
  h_blacklistedTypes : list Z }.

(** The [upstreamTarget] of the handler. *)
Definition h_upstream (h : UpdateHandler) : upstreamTarget := mkTarget (h_upstreamKey h) (h_upstreamZone h).

(** ** strings.TrimSpace(s) == "": only white space, as UTF-8 *)

Definition code (c : ascii) : N := N_of_ascii c.

Definition ascii_space (c : ascii) : bool := bool_decide (code c ∈ [9; 10; 11; 12; 13; 32])%N.

Definition space2 (c d : ascii) : bool :=
  bool_decide (code c = 194)%N && bool_decide (code d ∈ [133; 160])%N.

Definition space3 (c d e : ascii) : bool :=
  (bool_decide (code c = 225)%N && bool_decide (code d = 154)%N && bool_decide (code e = 128)%N)
  || (bool_decide (code c = 226)%N && bool_decide (code d = 128)%N
      && ((128 <=? code e)%N && (code e <=? 138)%N || bool_decide (code e ∈ [168; 169; 175])%N))
  || (bool_decide (code c = 226)%N && bool_decide (code d = 129)%N && bool_decide (code e = 159)%N)
  || (bool_decide (code c = 227)%N && bool_decide (code d = 128)%N && bool_decide (code e = 128)%N).

Fixpoint all_space (s : string) : bool :=
  match s with
  | EmptyString => true
  | String c s1 =>
      if ascii_space c then all_space s1
      else match s1 with
           | String d s2 =>
               if space2 c d then all_space s2
               else match s2 with
                    | String e s3 => if space3 c d e then all_space s3 else false
                    | EmptyString => false
                    end
           | EmptyString => false
           end
  end.

(** ** Reading the request *)

Definition incomplete_KEY (k : KeyData) : bool :=
  (Algorithm k =? 0) || (Protocol k =? 0) || all_space (PublicKey k).

Definition extractUpdateRecords (msg : Msg) (blacklistedTypes : list Z) : result (list KEY * list RR) :=
  foldM (fun '(keyRRs, other) rr =>
           match as_KEY rr with
           | Some v =>
               if incomplete_KEY (key_Data v) then Err "incomplete KEY RR in update records: full KEY RDATA is required"
               else Ok (keyRRs ++ [v], other)
           | None =>
               if bool_decide (RRToType rr ∈ blacklistedTypes) then Err "RR type is blacklisted for registration"
               else Ok (keyRRs, other ++ [rr])
           end)
        ([], []) (Ns msg).

Definition extractAdditionalSigningKeys (msg : Msg) : result (list KEY) :=
  foldM (fun keys rr =>
           match as_KEY rr with
           | None => Ok keys
           | Some key =>
               if incomplete_KEY (key_Data key)
               then Err "incomplete KEY RR in Additional section: full KEY RDATA is required"
               else Ok (keys ++ [key])
           end)
        [] (Extra msg).

Fixpoint first_SIG (rrs : list RR) : option SigData :=
  match rrs with
  | [] => None
  | rr :: rrs => match as_SIG rr with Some s => Some s | None => first_SIG rrs end
  end.

Definition extractSig0 (msg : Msg) : result SigData :=
  match first_SIG (Pseudo msg) with
  | Some s => Ok s
  | None => match first_SIG (Extra msg) with Some s => Ok s | None => Err "no SIG(0) in message" end
  end.

Inductive signerKeySource :=
| signerKeySourceUnknown | signerKeySourceRequest | signerKeySourceLeaseStore | signerKeySourceAuthoritative.

Definition signerAuthorizedForNewRegistration (h : UpdateHandler) (signerManaged signerInUpdate : bool)
    (signerSource : signerKeySource) : bool :=
  if signerManaged || signerInUpdate then true
  else match signerSource with
       | signerKeySourceAuthoritative => h_AllowOnlineKeyRegistration h
       | _ => false
       end.

Definition validateSignerHierarchyForUpdateRecords (signerName : string) (keyRRs : list KEY) (otherRecords : list RR)
    : result unit :=
  let signerCanon := Normalize signerName in
  if bool_decide (signerCanon = "") then Err "SIG(0) signer name is empty"
  else
    _ ← seqM (fun keyRR =>
                if bool_decide (Name (key_Hdr keyRR) = "") then Err "invalid KEY RR owner name in update section"
                else
                  let keyOwnerCanon := Normalize (Name (key_Hdr keyRR)) in
                  if bool_decide (keyOwnerCanon = signerCanon) then Ok tt
                  else if negb (IsAtOrBelow keyOwnerCanon signerCanon) then Err "KEY RR owner is outside signer subtree"
                  else Ok tt) keyRRs;
    seqM (fun rr =>
            let ownerCanon := Normalize (Name (Hdr rr)) in
            if negb (IsAtOrBelow ownerCanon signerCanon) then Err "non-KEY RR owner is outside signer subtree"
            else Ok tt) otherRecords.

(** ** Grouping non-KEY records by owning key

    A [map[keyID][]dns.RR] as an association list; a missing key reads as no records. *)
Definition groups := list (keyID * list RR).

Fixpoint group_get (g : groups) (k : keyID) : list RR :=
  match g with
  | [] => []
  | (k', rrs) :: g => if bool_decide (k' = k) then rrs else group_get g k
  end.

Fixpoint group_add (g : groups) (k : keyID) (rrs : list RR) : groups :=
  match g with
  | [] => [(k, rrs)]
  | (k', rrs') :: g => if bool_decide (k' = k) then (k', rrs' ++ rrs) :: g else (k', rrs') :: group_add g k rrs
  end.

Section handler.
Context {L : DnsLib}.

(** The inner loop of the hierarchy mode: the deepest KEY at or above the record, the
    signer breaking a tie. *)
Definition best_key (signerID : keyID) (keyIDs : list keyID) (rrOwner : string) : option (keyID * nat * bool) :=
  foldl (fun st kid =>
           if negb (IsAtOrBelow rrOwner (kid_Name kid)) then st
           else
             let len := String.length (kid_Name kid) in
             match st with
             | None => Some (kid, len, false)
             | Some (best, bestLen, ambiguous) =>
                 if (bestLen <? len)%nat then Some (kid, len, false)
                 else if (len =? bestLen)%nat then
                   if bool_decide (kid = signerID) then Some (kid, bestLen, false)
                   else if negb (bool_decide (best = signerID)) then Some (best, bestLen, true)
                   else st
                 else st
             end)
        None keyIDs.

Definition groupOtherRecordsByTargetKey (signerID : keyID) (updateKeyRRs : list KEY) (updateOtherRRs : list RR)
    (useHierarchy : bool) : result groups :=
  match updateOtherRRs with
  | [] => Ok []
  | rr0 :: _ =>
      if negb useHierarchy then Ok (group_add [] signerID updateOtherRRs)
      else match updateKeyRRs with
      | [] =>
          let owner := Normalize (Name (Hdr rr0)) in
          foldM (fun g rr =>
                   if negb (bool_decide (Normalize (Name (Hdr rr)) = owner))
                   then Err "mixed non-KEY owner names are not allowed without KEY RRs in update section"
                   else Ok (group_add g signerID [rr]))
                [] updateOtherRRs
      | [k] => Ok (group_add [] (keyIDFromKEY k) updateOtherRRs)
      | _ =>
          if existsb (fun k => bool_decide (Name (key_Hdr k) = "")) updateKeyRRs
          then Err "invalid KEY RR owner name in update section"
          else
            let keyIDs := map keyIDFromKEY updateKeyRRs in
            foldM (fun g rr =>
                     match best_key signerID keyIDs (Normalize (Name (Hdr rr))) with
                     | None => Err "non-KEY RR owner does not map to any KEY owner in multi-KEY update"
                     | Some (best, _, ambiguous) =>
                         if ambiguous then Err "non-KEY RR owner maps ambiguously to multiple KEY owners"
                         else Ok (group_add g best [rr])
                     end)
                  [] updateOtherRRs
      end
  end.

(** ** Checks against the authoritative server *)

Context {SG : Sig0} {U : UpstreamCoordinator}.

Definition authoritativeHasRR (zoneHint : string) (rr : RR) : result bool :=
  rrs ← up_QueryRRs zoneHint (Name (Hdr rr)) (RRToType rr);
  Ok (existsb (fun existing => rrEqual existing rr) rrs).

Definition authoritativeHasKeyAtName (zoneHint fqdn : string) : result bool :=
  rrs ← up_QueryRRs zoneHint fqdn TypeKEY;
  Ok (0 <? length rrs)%nat.

(** [filterDuplicateRegistrations]: the accepted records; it never adds a note. *)
Definition filterDuplicateRegistrations (st : Store) (keyName zoneHint : string) (records : list RR) : result (list RR) :=
  foldM (fun accepted rr =>
           match LookupNonKEYRecord rr st with
           | Some existing =>
               if negb (bool_decide (n_Parent existing = keyName))
               then Err "duplicate registration rejected: already registered under a different key"
               else Ok (accepted ++ [rr])
           | None =>
               exists_ ← authoritativeHasRR zoneHint rr;
               if (exists_ : bool) then Err "duplicate registration rejected: authoritative RR already exists"
               else Ok (accepted ++ [rr])
           end)
        [] records.

(** ** SIG(0) *)

(** [verifyFromCandidates]: the first candidate that verifies; an error if there were
    candidates and none did. *)
Fixpoint verifyFromCandidates (msg : Msg) (candidates : list KEY) (lastErr : bool) : result (option KEY) :=
  match candidates with
  | [] => if lastErr then Err "SIG(0) cryptographic verification failed for all candidates" else Ok None
  | k :: rest =>
      match VerifySignature msg k with
      | Ok _ => Ok (Some k)
      | Err _ => verifyFromCandidates msg rest true
      end
  end.

(** A KEY whose identity is the signer's. *)
Definition matches_signer (signerCanon : string) (sig : SigData) (k : KEY) : bool :=
  bool_decide (Normalize (Name (key_Hdr k)) = signerCanon) && (KeyTag (key_Data k) =? sig_KeyTag sig)
  && (Algorithm (key_Data k) =? sig_Algorithm sig).

Definition extractAndValidateSig0 (st : Store) (now : Z) (msg : Msg) (downstreamZone : string)
    (additionalSigningKeys updateKeys : list KEY) : result (SigData * KEY * signerKeySource) :=
  sigRR ← extractSig0 msg;
  let downstreamZoneCanon := Normalize downstreamZone in
  if bool_decide (downstreamZoneCanon = "") then Err "empty downstream zone"
  else
    let signerCanon := Normalize (SignerName sigRR) in
    if bool_decide (signerCanon = "") then Err "SIG(0) signer name is empty"
    else if negb (IsAtOrBelow downstreamZoneCanon signerCanon)
    then Err "SIG(0) signer is outside allowed hierarchy for downstream zone"
    else
      let verifyCandidates := filter (fun k => matches_signer signerCanon sigRR k = true)
                                     (additionalSigningKeys ++ updateKeys) in
      resolved ← verifyFromCandidates msg verifyCandidates false;
      match resolved with
      | Some k => Ok (sigRR, k, signerKeySourceRequest)
      | None =>
          stored ← match LookupBySIG now (SignerName sigRR) (sig_Algorithm sigRR) (sig_KeyTag sigRR) st with
                   | Some leaseRecord =>
                       let leaseKey := KeyRR leaseRecord in
                       if matches_signer signerCanon sigRR leaseKey then verifyFromCandidates msg [leaseKey] false
                       else Ok None
                   | None => Ok None
                   end;
          match stored with
          | Some k => Ok (sigRR, k, signerKeySourceLeaseStore)
          | None =>
              authRRS ← match up_QueryRRs downstreamZone (SignerName sigRR) TypeKEY with
                        | Ok rrs => Ok rrs
                        | Err _ => Err "failed to resolve signer KEY from authoritative DNS"
                        end;
              let authCandidates := filter (fun key => KeyTag (key_Data key) = sig_KeyTag sigRR /\
                                                       Algorithm (key_Data key) = sig_Algorithm sigRR)
                                           (omap as_KEY authRRS) in
              match authCandidates with
              | [] => Err "no matching KEY candidate found for signer"
              | _ =>
                  resolved ← verifyFromCandidates msg authCandidates false;
                  match resolved with
                  | Some k => Ok (sigRR, k, signerKeySourceAuthoritative)
                  | None => Err "no matching KEY candidate found for signer"
                  end
              end
          end
      end.

(** ** Lease checks *)

Definition authorizeKeyRefresh (st : Store) (now : Z) (clientKeyRR : KEY) (signerID : keyID) : result unit :=
  match LookupByKEY now clientKeyRR st with
  | None => Err "refresh rejected: lease does not exist"
  | Some existing =>
      if negb (keyRREqual (KeyRR existing) clientKeyRR) then Err "refresh rejected: key mismatch"
      else if negb (bool_decide (keyIDFromKEY clientKeyRR = signerID)) then
        let signerOwnerKey := NodeKeyFromSIG (kid_Name signerID) (kid_Algorithm signerID) (kid_KeyTag signerID) in
        if negb (bool_decide (k_Parent existing = signerOwnerKey))
        then Err "refresh rejected: signer is not the registered owner" else Ok tt
      else Ok tt
  end.

(** Whole seconds left, at least one. *)
Definition remaining_lease (now : Z) (rec : KEYRecord) : Z :=
  let remaining := wrap32 (TimeRemaining now rec / second) in
  if remaining =? 0 then 1 else remaining.

Definition effectiveRefreshKeyLease (now : Z) (zone : string) (keyRR : KEY) (existingKey : KEYRecord)
    (requestedKeyLease : Z) : result (Z * bool) :=
  keyAtFQDN ← authoritativeHasKeyAtName zone (Name (key_Hdr keyRR));
  if (keyAtFQDN : bool) then Ok (requestedKeyLease, true)
  else Ok (remaining_lease now existingKey, false).

Definition registerKeyLease (h : UpdateHandler) (now : Z) (signerID : keyID) (keyRR : KEY)
    (leaseDuration keyLeaseDuration : Z) (st : Store) : result Store :=
  let signerNodeKey := NodeKeyFromSIG (kid_Name signerID) (kid_Algorithm signerID) (kid_KeyTag signerID) in
  let keyNodeKey := NodeKey keyRR in
  let parent := if negb (bool_decide (signerNodeKey = keyNodeKey)) then signerNodeKey else "" in
  RegisterWithParent now parent (Some keyRR) leaseDuration keyLeaseDuration (h_upstreamZone h) st.

Definition upstreamUpdateRecords (keyRRs : list KEY) (otherRecords recordsToDelete : list RR) : list RR :=
  map KEY_RR keyRRs ++ otherRecords ++ asDeletes recordsToDelete.

(** ** The prologue of [Handle]: everything before the node locks *)

Record Request := mkRequest {
  q_zone : string;
  q_lease : Z;
  q_keyLease : Z;
  q_keys : list KEY;
  q_others : list RR;
  q_sig : SigData;
  q_signerKey : KEY;
  q_source : signerKeySource;
  q_groups : groups }.

Definition signer_of (q : Request) : keyID := keyIDFromSIG (q_sig q).

Definition prologue (h : UpdateHandler) (st : Store) (now : Z) (r : Msg) : HandlerResult + Request :=
  if negb (hasUpdateLeaseOption r) then inl (NewNotRelevantResult "UPDATE without UPDATE-LEASE EDNS option - not sig0lease")
  else match refuseDottedLabels r with
  | Some res => inl res
  | None =>
  match Question r with
  | [q] =>
      let zone := q_Name q in
      match parseLease (h_LeasePolicy h) (h_prefer4ByteVariant h) r with
      | Err e => inl (error_result r 16 "lease parsing failed")
      | Ok (l0, k0) =>
      let '(lease, keyLease) := clamp (h_LeasePolicy h) l0 k0 in
      match extractUpdateRecords r (h_blacklistedTypes h) with
      | Err e => inl (error_result r RcodeFormatError e)
      | Ok (updateKeyRRs, updateOtherRRs) =>
      match extractAdditionalSigningKeys r with
      | Err e => inl (error_result r RcodeFormatError e)
      | Ok additionalSigningKeys =>
      match extractAndValidateSig0 st now r zone additionalSigningKeys updateKeyRRs with
      | Err e => inl (error_result r RcodeRefused "SIG(0) validation failed")
      | Ok (sigRR, signerKey, signerSource) =>
      (* the requester's TTLs are replaced, in place, after the signature is checked *)
      let updateKeyRRs := map (key_set_TTL (Z.min (h_recordTTL h) keyLease)) updateKeyRRs in
      let updateOtherRRs := map (set_TTL (Z.min (h_recordTTL h) lease)) updateOtherRRs in
      match validateSignerHierarchyForUpdateRecords (SignerName sigRR) updateKeyRRs updateOtherRRs with
      | Err e => inl (error_result r RcodeRefused "hierarchy validation failed")
      | Ok _ =>
      match groupOtherRecordsByTargetKey (keyIDFromSIG sigRR) updateKeyRRs updateOtherRRs false with
      | Err e => inl (error_result r RcodeRefused "invalid mixed-owner update")
      | Ok g => inr (mkRequest zone lease keyLease updateKeyRRs updateOtherRRs sigRR signerKey signerSource g)
      end end end end end end
  | _ => inl (error_result r RcodeFormatError "invalid question count")
  end end.

(** ** Pending mutations *)

Inductive Mutation :=
| MRenewMissing (k : KEY) (records : list RR) (keyLease : Z)   (* Case A: the KEY is gone from DNS *)
| MRefresh (k : KEY) (records : list RR)                       (* Case A: normal refresh *)
| MRegister (k : KEY) (records : list RR)                      (* Case A: new KEY *)
| MData (owner : string) (records : list RR)                   (* Cases A and B: the signer's data *)
| MRenewOnly (k : KEY) (keyLease : Z)                          (* Case B: the KEY is gone from DNS *)
| MKeyOnly (isRefresh : bool) (k : KEY) (keyLease : Z) (removals : list RR). (* Case D *)

Record Plan := mkPlan {
  p_mutations : list Mutation;
  p_upstreamKeys : list KEY;
  p_accepted : list RR;
  p_toDelete : list RR;
  p_notes : list string }.

Definition empty_plan : Plan := mkPlan [] [] [] [] [].

Definition plan_app (a b : Plan) : Plan :=
  mkPlan (p_mutations a ++ p_mutations b) (p_upstreamKeys a ++ p_upstreamKeys b) (p_accepted a ++ p_accepted b)
         (p_toDelete a ++ p_toDelete b) (p_notes a ++ p_notes b).

(** A loop that a [return] of the handler may leave. *)
Fixpoint foldP {A} (f : A -> HandlerResult + Plan) (l : list A) (p : Plan) : HandlerResult + Plan :=
  match l with
  | [] => inr p
  | x :: l => match f x with inl res => inl res | inr p' => foldP f l (plan_app p p') end
  end.

(** The errors a mutation can end in: an error the handler answers, or a panic. *)
Inductive Fault := FErr (e : string) | FPanic (e : string).

(** The body of a mutation, on the store and the timers; effects before a fault stay. *)
Definition apply_mutation (h : UpdateHandler) (q : Request) (now : Z) (m : Mutation) (w : World) : World * option Fault :=
  let set st w := mkWorld st (w_timers w) (w_sent w) in
  let sched k w := mkWorld (w_store w) (schedule now (w_store w) k (w_timers w)) (w_sent w) in
  let upsert owner records w cont :=
    match UpsertNonKEYRecords now owner records (q_lease q) (h_upstreamZone h) (w_store w) with
    | Err e => (w, Some (FErr e))
    | Ok st => cont (set st w)
    end in
  let upsert_some owner records w cont :=
    if (0 <? length records)%nat then upsert owner records w cont else cont w in
  match m with
  | MRenewMissing k records keyLease =>
      match RenewLease now (Some k) keyLease keyLease (w_store w) with
      | Err e => (w, Some (FErr e))
      | Ok st => upsert (NodeKey k) records (set st w) (fun w => (sched (NodeKey k) w, None))
      end
  | MRefresh k records =>
      match RenewLease now (Some k) (q_keyLease q) (q_keyLease q) (w_store w) with
      | Err e => (w, Some (FErr e))
      | Ok st => upsert_some (NodeKey k) records (set st w) (fun w => (sched (NodeKey k) w, None))
      end
  | MRegister k records =>
      match registerKeyLease h now (keyIDFromSIG (q_sig q)) k (q_keyLease q) (q_keyLease q) (w_store w) with
      | Err e => (w, Some (FErr e))
      | Ok st => upsert_some (NodeKey k) records (set st w) (fun w => (sched (NodeKey k) w, None))
      end
  | MData owner records => upsert owner records w (fun w => (sched owner w, None))
  | MRenewOnly k keyLease =>
      match RenewLease now (Some k) keyLease keyLease (w_store w) with
      | Err e => (w, Some (FErr e))
      | Ok st => (set st w, None)
      end
  | MKeyOnly isRefresh k keyLease removals =>
      match (if isRefresh then RenewLease now (Some k) keyLease keyLease (w_store w)
             else registerKeyLease h now (keyIDFromSIG (q_sig q)) k keyLease keyLease (w_store w)) with
      | Err e => (w, Some (FErr e))
      | Ok st =>
          match foldM (fun st rr => RemoveSingleNonKEYRecord (NodeKey k) (RecordKey rr) st) st removals with
          | Err e => (set st w, Some (FPanic e))
          | Ok st => (sched (NodeKey k) (set st w), None)
          end
      end
  end.

Fixpoint apply_all (h : UpdateHandler) (q : Request) (now : Z) (ms : list Mutation) (w : World) : World * option Fault :=
  match ms with
  | [] => (w, None)
  | m :: ms => match apply_mutation h q now m w with
               | (w, None) => apply_all h q now ms w
               | (w, Some f) => (w, Some f)
               end
  end.

(** ** The four cases *)

Definition signer_node (q : Request) : string :=
  NodeKeyFromSIG (SignerName (q_sig q)) (sig_Algorithm (q_sig q)) (sig_KeyTag (q_sig q)).

Definition signer_managed (q : Request) (st : Store) (now : Z) : bool :=
  match LookupBySIG now (SignerName (q_sig q)) (sig_Algorithm (q_sig q)) (sig_KeyTag (q_sig q)) st with
  | Some _ => true | None => false
  end.

Definition signer_in_update (q : Request) : bool :=
  existsb (fun kr => bool_decide (keyIDFromKEY kr = signer_of q)) (q_keys q).

(** Case A for one KEY of the Update section. *)
Definition caseA_key (h : UpdateHandler) (q : Request) (st : Store) (now : Z) (r : Msg) (keyRR : KEY) : HandlerResult + Plan :=
  let scoped := group_get (q_groups q) (keyIDFromKEY keyRR) in
  match LookupByKEY now keyRR st with
  | Some existingKey =>
      match authorizeKeyRefresh st now keyRR (signer_of q) with
      | Err e => inl (error_result r RcodeRefused e)
      | Ok _ =>
      match effectiveRefreshKeyLease now (q_zone q) keyRR existingKey (q_keyLease q) with
      | Err e => inl (error_result r RcodeServerFailure "authoritative key lookup failed")
      | Ok (effective, false) => inr (mkPlan [MRenewMissing keyRR scoped effective] [keyRR] scoped [] [])
      | Ok (_, true) => inr (mkPlan [MRefresh keyRR scoped] [] scoped [] [])
      end end
  | None =>
      match authoritativeHasRR (q_zone q) (KEY_RR keyRR) with
      | Err e => inl (error_result r RcodeServerFailure "authoritative duplicate check failed")
      | Ok true => inl (error_result r RcodeRefused "duplicate registration rejected")
      | Ok false =>
      match filterDuplicateRegistrations st (NodeKey keyRR) (q_zone q) scoped with
      | Err e => inl (error_result r RcodeRefused "duplicate registration rejected")
      | Ok accepted => inr (mkPlan [MRegister keyRR accepted] [keyRR] accepted [] [])
      end end
  end.

Definition caseA (h : UpdateHandler) (q : Request) (st : Store) (now : Z) (r : Msg) : HandlerResult + Plan :=
  if (length (q_keys q) =? 0)%nat || (length (q_others q) =? 0)%nat
  then inl (error_result r RcodeFormatError "invalid update for register/refresh")
  else if negb (signerAuthorizedForNewRegistration h (signer_managed q st now) (signer_in_update q) (q_source q))
  then inl (error_result r RcodeRefused "signer not authorized for new registration")
  else match foldP (caseA_key h q st now r) (q_keys q) empty_plan with
  | inl res => inl res
  | inr p =>
      if signer_in_update q then inr p
      else
        let dataForSigner := group_get (q_groups q) (signer_of q) in
        if (length dataForSigner =? 0)%nat then inr p
        else match filterDuplicateRegistrations st (signer_node q) (q_zone q) dataForSigner with
        | Err e => inl (error_result r RcodeRefused "duplicate registration rejected")
        | Ok accepted => inr (plan_app p (mkPlan [MData (signer_node q) accepted] [] accepted [] []))
        end
  end.

Definition caseB (h : UpdateHandler) (q : Request) (st : Store) (now : Z) (r : Msg) : HandlerResult + Plan :=
  if (length (q_others q) =? 0)%nat then inl (error_result r RcodeRefused "invalid non-KEY-only lease request")
  else if (0 <? length (q_keys q))%nat then inl (error_result r RcodeRefused "invalid non-KEY-only lease request")
  else match LookupBySIG now (SignerName (q_sig q)) (sig_Algorithm (q_sig q)) (sig_KeyTag (q_sig q)) st with
  | None => inl (error_result r RcodeRefused "signing key not managed for non-KEY-only lease")
  | Some signerLease =>
      let signerOwnerKey := NodeKey (q_signerKey q) in
      match authoritativeHasKeyAtName (q_zone q) (Name (key_Hdr (q_signerKey q))) with
      | Err e => inl (error_result r RcodeServerFailure "authoritative key lookup failed")
      | Ok keyExists =>
          let p :=
            if (keyExists : bool) then empty_plan
            else
              let remaining := remaining_lease now signerLease in
              let k := KeyRR signerLease in
              mkPlan [MRenewOnly k remaining] [key_set_TTL (Z.min (h_recordTTL h) remaining) k] [] []
                     ["KEY " +:+ Name (key_Hdr k) +:+
                      " was missing at the authoritative DNS and has been re-registered with remaining lease"] in
          match filterDuplicateRegistrations st signerOwnerKey (q_zone q) (q_others q) with
          | Err e => inl (error_result r RcodeRefused "duplicate registration rejected")
          | Ok accepted =>
              inr (plan_app p (mkPlan (if (0 <? length accepted)%nat then [MData signerOwnerKey accepted] else [])
                                      [] accepted [] []))
          end
      end
  end.

(** Case D for one KEY. *)
Definition caseD_key (h : UpdateHandler) (q : Request) (st : Store) (now : Z) (r : Msg) (keyRR : KEY) : HandlerResult + Plan :=
  let scoped := group_get (q_groups q) (keyIDFromKEY keyRR) in
  let mine rr := match LookupNonKEYRecord rr st with
                 | Some existing => bool_decide (n_Parent existing = NodeKey keyRR) | None => false end in
  let recordsToDelete := filter (fun rr => mine rr = true) scoped in
  let notes := map (fun rr => "record not found for delete: " +:+ RR_String rr) (filter (fun rr => mine rr = false) scoped) in
  match LookupByKEY now keyRR st with
  | None =>
      match authoritativeHasRR (q_zone q) (KEY_RR keyRR) with
      | Err e => inl (error_result r RcodeServerFailure "authoritative duplicate check failed")
      | Ok true => inl (error_result r RcodeRefused "duplicate registration rejected")
      | Ok false =>
          if negb (signerAuthorizedForNewRegistration h (signer_managed q st now) (signer_in_update q) (q_source q))
          then inl (error_result r RcodeRefused "signer not authorized for new registration")
          else inr (mkPlan [MKeyOnly false keyRR (q_keyLease q) recordsToDelete] [keyRR] [] recordsToDelete notes)
      end
  | Some existingKey =>
      match authorizeKeyRefresh st now keyRR (signer_of q) with
      | Err e => inl (error_result r RcodeRefused e)
      | Ok _ =>
      match effectiveRefreshKeyLease now (q_zone q) keyRR existingKey (q_keyLease q) with
      | Err e => inl (error_result r RcodeServerFailure "authoritative key lookup failed")
      | Ok (effective, _) =>
          inr (mkPlan [MKeyOnly true keyRR effective recordsToDelete] [keyRR] [] recordsToDelete notes)
      end end
  end.

Definition caseD (h : UpdateHandler) (q : Request) (st : Store) (now : Z) (r : Msg) : HandlerResult + Plan :=
  if (length (q_keys q) =? 0)%nat then inl (error_result r RcodeFormatError "invalid key-only lease request")
  else foldP (caseD_key h q st now r) (q_keys q) empty_plan.

(** ** Replies *)

Definition appendStatusNotes (resp : Msg) (notes : list string) : Msg :=
  mkMsg (MsgHdr resp) (Question resp) (Answer resp) (Ns resp) (Extra resp)
        (Pseudo resp ++ map (fun note => mkRR (mkHeader "" 0 0) (RD_EDNS0 (EDE 0 note))) notes) (Data resp).

Definition buildSuccessResponse (r : Msg) (notes : list string) (lease keyLease : Z) : Msg :=
  appendStatusNotes (leaseResponse r lease keyLease) notes.

(** ** Case C: deletes *)

(** What Case C may delete: a KEY by itself or by its parent, a record by its owner. *)
Definition caseC_keys (q : Request) (st : Store) (now : Z) : list KEY * list string :=
  let deletable keyRR :=
    match LookupByKEY now keyRR st with
    | None => false
    | Some existing => bool_decide (keyIDFromKEY keyRR = signer_of q)
                       || bool_decide (k_Parent existing = NodeKey (q_signerKey q))
    end in
  (filter (fun k => deletable k = true) (q_keys q),
   map (fun k => "KEY " +:+ Name (key_Hdr k) +:+ " not found for delete") (filter (fun k => deletable k = false) (q_keys q))).

Definition caseC_records (q : Request) (st : Store) : list RR * list string :=
  let deletable rr :=
    match LookupNonKEYRecord rr st with
    | None => false
    | Some existing => bool_decide (n_Parent existing = NodeKey (q_signerKey q))
    end in
  (filter (fun rr => deletable rr = true) (q_others q),
   map (fun rr => "record not found for delete: " +:+ RR_String rr) (filter (fun rr => deletable rr = false) (q_others q))).

(** The RRs that delete a KEY's subtree upstream. *)
Definition subtree_deletes (st : Store) (k : KEY) : option (list RR) :=
  kr ← subtreeLeases st (NodeKey k);
  Some (asDeletes (map KEY_RR kr.1) ++ recordDeletes kr.2).

(** The local half of Case C for one KEY: its timers and its subtree. *)
Definition caseC_forget (w : World) (k : KEY) : option World :=
  below ← ListSubtreeKeys (NodeKey k) (w_store w);
  del ← DeleteSubtree (NodeKey k) (w_store w);
  match del with
  | Ok st => Some (mkWorld st (foldl (fun ts d => disarm d ts) (w_timers w) (NodeKey k :: below)) (w_sent w))
  | Err _ => None
  end.

(** [None] is a panic (or a walk that does not end). *)
Definition caseC (h : UpdateHandler) (q : Request) (now : Z) (r : Msg) (w : World) : option (World * HandlerResult) :=
  let st := w_store w in
  if (length (q_keys q) =? 0)%nat && (length (q_others q) =? 0)%nat
  then Some (w, error_result r RcodeFormatError "invalid delete request")
  else
    let '(keysToDelete, knotes) := caseC_keys q st now in
    let '(recordsToDelete, rnotes) := caseC_records q st in
    let success := NewProcessedResult (buildSuccessResponse r (knotes ++ rnotes) (q_lease q) (q_keyLease q)) in
    if (length keysToDelete =? 0)%nat && (length recordsToDelete =? 0)%nat then Some (w, success)
    else
      subtrees ← mapM (subtree_deletes st) keysToDelete;
      out ← send (h_upstream h) [] (asDeletes recordsToDelete ++ concat subtrees);
      let w := mkWorld st (w_timers w) (w_sent w ++ o_sent out) in
      match o_err out with
      | Some e => Some (w, error_result r RcodeServerFailure e)
      | None =>
          match foldM (fun st rr => RemoveSingleNonKEYRecord (NodeKey (q_signerKey q)) (RecordKey rr) st) st recordsToDelete with
          | Err _ => None
          | Ok st =>
              w ← foldl (fun ow k => ow ≫= fun w => caseC_forget w k) (Some (mkWorld st (w_timers w) (w_sent w))) keysToDelete;
              Some (w, success)
          end
      end.

(** ** [Handle] *)

(** The end of [Handle] for Cases A, B and D: one UPDATE, then the local apply. *)
Definition epilogue (h : UpdateHandler) (q : Request) (now' : Z) (r : Msg) (p : Plan) (w : World) : option (World * HandlerResult) :=
  let need := (0 <? length (p_upstreamKeys p))%nat || (0 <? length (p_accepted p))%nat || (0 <? length (p_toDelete p))%nat in
  out ← (if need then send (h_upstream h) [] (upstreamUpdateRecords (p_upstreamKeys p) (p_accepted p) (p_toDelete p))
         else Some (mkOutcome [] None None));
  let w := mkWorld (w_store w) (w_timers w) (w_sent w ++ o_sent out) in
  match o_err out with
  | Some e => Some (w, error_result r RcodeServerFailure e)
  | None =>
      match apply_all h q now' (p_mutations p) w with
      | (w, None) => Some (w, NewProcessedResult (buildSuccessResponse r (p_notes p) (q_lease q) (q_keyLease q)))
      | (w, Some (FErr e)) => Some (w, error_result r RcodeServerFailure "lease-store update failed")
      | (_, Some (FPanic _)) => None
      end
  end.

(** The case dispatch on the granted durations, under the node locks. *)
Definition dispatch (h : UpdateHandler) (q : Request) (now now' : Z) (r : Msg) (w : World) : option (World * HandlerResult) :=
  let finish p := match p with
                  | inl res => Some (w, res)
                  | inr p => epilogue h q now' r p w
                  end in
  if negb (q_keyLease q =? 0) && negb (q_lease q =? 0) then finish (caseA h q (w_store w) now r)
  else if (q_keyLease q =? 0) && negb (q_lease q =? 0) then finish (caseB h q (w_store w) now r)
  else if (q_keyLease q =? 0) && (q_lease q =? 0) then caseC h q now r w
  else finish (caseD h q (w_store w) now r).

(** [requireUpstream]: [true] when the handler may go on; [false] is its panic.  The
    coordinator is always there in this model, the signing key is optional. *)
Definition requireUpstream (h : UpdateHandler) : bool := bool_decide (is_Some (h_upstreamKey h)).

(** [Handle]; [None] is a panic.  [st0] and [now0] are the store and the time the request
    was read at, before the node locks; [w] and [now] those once the locks were held, so
    that other requests may have run in between.  [acquired] is whether the locks were
    taken before the request's context ended. *)
Definition Handle (h : UpdateHandler) (acquired : bool) (st0 : Store) (now0 now now' : Z) (r : Msg) (w : World)
    : option (World * HandlerResult) :=
  if hasUpdateLeaseOption r && negb (requireUpstream h) then None
  else match prologue h st0 now0 r with
  | inl res => Some (w, res)
  | inr q =>
      if negb acquired then Some (w, error_result r RcodeServerFailure "lease-store node lock contention")
      else dispatch h q now now' r w
  end.

(** [requestLockSet]: the ids Handle locks. *)
Definition requestLockSet (q : Request) (st : Store) : list string :=
  let deleting := (q_lease q =? 0) && (q_keyLease q =? 0) in
  let signer := signer_of q in
  (if negb deleting then [NodeKeyFromSIG (kid_Name signer) (kid_Algorithm signer) (kid_KeyTag signer)] else [])
  ++ concat (map (fun k => NodeKey k :: (if deleting then default [] (ListSubtreeKeys (NodeKey k) st) else [])) (q_keys q))
  ++ map RecordKey (q_others q).
End handler.
