(* ===== verification/UpdateFootprint.v ===== *)
(** * What one UPDATE may change

    The footprint of a request of the RFC 9664 handler: which nodes its pending mutations
    touch ([m_key], [m_records], [m_removals]), that the plan of every case only names the
    signer's own nodes and forwards what it is about to store, and what the prologue
    establishes.  UpdateTheorems states the results. *)

From Stdlib Require Import Ascii String ZArith Lia.
From S2P Require Import Prelude DnsName DnsData NodeIdent LeaseStore LeaseTree LeaseInv LeaseSpec LeaseOption LeasePolicy.
From S2P Require Import UpdateCore HandlerBase Expiry UpdateHandler.

Local Open Scope Z_scope.

(** ** The footprint of a mutation *)

Section footprint.
Context {L : DnsLib}.

Definition m_key (m : Mutation) : option KEY :=
  match m with
  | MRenewMissing k _ _ | MRefresh k _ | MRegister k _ | MRenewOnly k _ | MKeyOnly _ k _ _ => Some k
  | MData _ _ => None
  end.

Definition m_new (m : Mutation) : bool :=
  match m with MRegister _ _ | MKeyOnly false _ _ _ => true | _ => false end.

Definition m_owner (m : Mutation) : string :=
  match m with
  | MRenewMissing k _ _ | MRefresh k _ | MRegister k _ | MRenewOnly k _ | MKeyOnly _ k _ _ => NodeKey k
  | MData owner _ => owner
  end.

Definition m_records (m : Mutation) : list RR :=
  match m with
  | MRenewMissing _ rs _ | MRefresh _ rs | MRegister _ rs | MData _ rs => rs
  | MRenewOnly _ _ | MKeyOnly _ _ _ _ => []
  end.

Definition m_removals (m : Mutation) : list RR := match m with MKeyOnly _ _ _ rs => rs | _ => [] end.

(** The parent a KEY registered in the request gets: the signer, unless it is the signer. *)
Definition signer_parent (q : Request) (k : KEY) : string :=
  if bool_decide (signer_node q = NodeKey k) then "" else signer_node q.

(** How a list of mutations may change one KEY node and one record. *)
Definition key_change (q : Request) (ms : list Mutation) (st st' : Store) (id : string) : Prop :=
  leases st' !! id = leases st !! id \/
  exists m k r', m ∈ ms /\ m_key m = Some k /\ id = NodeKey k /\ leases st' !! id = Some r' /\
    ((m_new m = false /\ exists r, leases st !! id = Some r /\ k_Parent r' = k_Parent r) \/
     (exists m', m' ∈ ms /\ m_new m' = true /\ m_owner m' = id /\ k_Parent r' = signer_parent q k)).

Definition rec_change (ms : list Mutation) (st st' : Store) (id : string) : Prop :=
  nonKeyRecords st' !! id = nonKeyRecords st !! id \/
  (exists m r', m ∈ ms /\ nonKeyRecords st' !! id = Some r' /\ n_RR r' ∈ m_records m /\ id = RecordKey (n_RR r') /\
     n_Parent r' = m_owner m /\
     forall r, nonKeyRecords st !! id = Some r ->
       n_Parent r = n_Parent r' \/ exists m' rr, m' ∈ ms /\ rr ∈ m_removals m' /\ id = RecordKey rr) \/
  (nonKeyRecords st' !! id = None /\ exists m rr, m ∈ ms /\ rr ∈ m_removals m /\ id = RecordKey rr).

Definition changes (q : Request) (ms : list Mutation) (st st' : Store) : Prop :=
  forall id, key_change q ms st st' id /\ rec_change ms st st' id.

Lemma signer_parent_key q k k' : NodeKey k = NodeKey k' -> signer_parent q k = signer_parent q k'.
Proof. unfold signer_parent. by intros ->. Qed.

Lemma changes_refl q ms st : changes q ms st st.
Proof. intros id. split; by left. Qed.

Lemma key_change_trans q ms st st1 st2 id :
  key_change q ms st st1 id -> key_change q ms st1 st2 id -> key_change q ms st st2 id.
Proof.
  intros H1 [H2|(m & k & r2 & Hm & Hk & Hid & Hr2 & Hp)].
  { destruct H1 as [H1|(m & k & r & ? & ? & ? & ? & ?)]; [left; congruence|right].
    exists m, k, r. split_and!; try done. congruence. }
  right. exists m, k, r2. split_and!; try done. destruct Hp as [(Hnew & r1 & Hr1 & Hp)|?]; [|by right].
  destruct H1 as [H1|(m1 & k1 & r1' & _ & _ & Hid1 & Hr1' & Hp1)]; [left; split; [done|]; exists r1; split; congruence|].
  assert (r1' = r1) as -> by congruence. destruct Hp1 as [(_ & r & ? & ?)|(m' & ? & ? & ? & ?)].
  - left. split; [done|]. exists r. split; [done|congruence].
  - right. exists m'. split_and!; try done. rewrite Hp, (signer_parent_key q k k1); congruence.
Qed.

Lemma rec_change_trans ms st st1 st2 id :
  rec_change ms st st1 id -> rec_change ms st1 st2 id -> rec_change ms st st2 id.
Proof.
  intros H1 [H2|[(m & r2 & Hm & Hr2 & Hin & Hid & Hp & Hown)|H2]]; [| |by right; right].
  { destruct H1 as [H1|[(m & r & ? & ? & ? & ? & ? & ?)|[? ?]]]; [left; congruence|right; left|right; right].
    - exists m, r. split_and!; try done. congruence.
    - split; [congruence|done]. }
  right; left. exists m, r2. split_and!; try done. intros r Hr.
  destruct H1 as [H1|[(m1 & r1 & _ & Hr1 & _ & _ & _ & Ho1)|[_ ?]]].
  - apply Hown. congruence.
  - destruct (Hown r1 Hr1) as [E|?]; [|by right]. rewrite <- E. by apply Ho1.
  - by right.
Qed.

Lemma changes_trans q ms st st1 st2 : changes q ms st st1 -> changes q ms st1 st2 -> changes q ms st st2.
Proof.
  intros H1 H2 id. destruct (H1 id), (H2 id). split; [by eapply key_change_trans|by eapply rec_change_trans].
Qed.

Lemma changes_mono q ms ms' st st' : ms ⊆ ms' -> changes q ms st st' -> changes q ms' st st'.
Proof.
  intros Hs H id. destruct (H id) as [[Hk|(m & k & r & Hm & ? & ? & ? & Hp)] Hr].
  - split; [by left|]. destruct Hr as [Hr|[(m & r & ? & ? & ? & ? & ? & Ho)|(? & m & rr & ? & ? & ?)]].
    + by left.
    + right; left. exists m, r. split_and!; auto. intros r0 Hr0.
      destruct (Ho r0 Hr0) as [?|(m' & rr & ? & ? & ?)]; [by left|right; eauto 6].
    + right; right. eauto 8.
  - split.
    + right. exists m, k, r. split_and!; auto. destruct Hp as [?|(m' & ? & ? & ? & ?)]; [by left|right; eauto 6].
    + destruct Hr as [Hr|[(m0 & r0 & ? & ? & ? & ? & ? & Ho)|(? & m0 & rr & ? & ? & ?)]].
      * by left.
      * right; left. exists m0, r0. split_and!; auto. intros r1 Hr1.
        destruct (Ho r1 Hr1) as [?|(m' & rr & ? & ? & ?)]; [by left|right; eauto 6].
      * right; right. eauto 8.
Qed.
End footprint.

(** ** The effect of the store operations a mutation makes *)

Section effects.
Context {L : DnsLib} {LL : DnsLibLaws L}.

(** Names as the decoder renders them do not end in an empty label. *)
Definition signer_name_ok (q : Request) : Prop :=
  Normalize (Normalize (SignerName (q_sig q))) = Normalize (SignerName (q_sig q)).

Lemma signer_node_kid q :
  signer_name_ok q ->
  NodeKeyFromSIG (kid_Name (signer_of q)) (kid_Algorithm (signer_of q)) (kid_KeyTag (signer_of q)) = signer_node q.
Proof. intros H. unfold signer_node. rewrite !NodeKeyFromSIG_eq. unfold signer_of, keyIDFromSIG.
  cbn [kid_Name kid_Algorithm kid_KeyTag]. by rewrite H. Qed.

Lemma renew_change q ms m now k l kl st st' :
  m ∈ ms -> m_key m = Some k -> m_new m = false ->
  RenewLease now (Some k) l kl st = Ok st' ->
  (WF st -> WF st') /\ nonKeyRecords st' = nonKeyRecords st /\ changes q ms st st'.
Proof.
  intros Hm Hk Hnew H. split; [by intros W; eapply RenewLease_WF|].
  apply RenewLease_ok in H as (k' & r & [= <-] & Hr & Hl & Hn & _). split; [done|].
  intros id. split; [|left; by rewrite Hn]. unfold key_change. rewrite Hl.
  destruct (decide (id = NodeKey k)) as [->|Hid]; [|left; by rewrite lookup_insert_ne].
  right. eexists m, k, _. rewrite lookup_insert_eq. split_and!; [done..|]. left. split; [done|]. by exists r.
Qed.

Lemma register_change h q ms m now k l kl st st' :
  signer_name_ok q -> m ∈ ms -> m_key m = Some k -> m_new m = true -> m_owner m = NodeKey k ->
  registerKeyLease h now (signer_of q) k l kl st = Ok st' ->
  (WF st -> WF st') /\ nonKeyRecords st' = nonKeyRecords st /\ changes q ms st st'.
Proof.
  intros Hq Hm Hk Hnew Ho. unfold registerKeyLease. rewrite signer_node_kid by done. intros H.
  split; [by intros W; eapply RegisterWithParent_WF|].
  apply RegisterWithParent_ok in H as (k' & [= <-] & _ & _ & Hl & Hn & _). split; [done|].
  intros id. split; [|left; by rewrite Hn]. unfold key_change. rewrite Hl.
  destruct (decide (id = NodeKey k)) as [->|Hid]; [|left; by rewrite lookup_insert_ne].
  right. eexists m, k, _. rewrite lookup_insert_eq. split_and!; [done..|]. right. exists m. split_and!; [done..|].
  cbn [k_Parent k_base new_record b_ParentKeyName]. unfold eff_parent, signer_parent.
  destruct (decide (signer_node q = NodeKey k)) as [E|E].
  - rewrite (bool_decide_true (signer_node q = _)) by done. cbn [negb]. change (Normalize "") with "". match goal with |- (if ?b then _ else _) = _ => by destruct b end.
  - rewrite (bool_decide_false (signer_node q = _)) by done. cbn [negb]. unfold signer_node.
    rewrite Normalize_NodeKeyFromSIG. fold (signer_node q). by rewrite bool_decide_false.
Qed.

Lemma upsert_change q ms m now owner l zone st st' :
  m ∈ ms -> owner = m_owner m -> Normalize owner = owner ->
  WF st -> Forall (fun rr => rr_wf rr = true) (m_records m) ->
  UpsertNonKEYRecords now owner (m_records m) l zone st = Ok st' ->
  WF st' /\ changes q ms st st'.
Proof.
  intros Hm Ho Hn W Hwf H. apply UpsertNonKEYRecords_ok in H as (W' & _ & Hl & _ & Hnk & Hown); [|done|done|congruence].
  split; [done|]. intros id. split; [left; by rewrite Hl|].
  pose proof (upsert_map_lookup now (Normalize owner) l (Normalize zone) (m_records m) (nonKeyRecords st) id) as [Hin Hout].
  rewrite <- Hnk in Hin, Hout.
  destruct (decide (id ∈ map RecordKey (m_records m))) as [Hid|Hid].
  - apply list_elem_of_fmap in Hid as (rr & -> & Hrr). destruct (Hin rr Hrr eq_refl) as (rr' & Hrr' & Hk & Hlk).
    right; left. exists m, (upserted now (Normalize owner) l (Normalize zone) rr'). split_and!; try done.
    + cbn. congruence.
    + intros r Hr. left. cbn. by apply (Hown rr).
  - left. apply Hout. intros rr Hrr E. apply Hid, list_elem_of_fmap. by exists rr.
Qed.

(** Removing records of one owner, one by one. *)
Lemma remove_list_spec owner rrs st :
  WF st -> (forall rr r, rr ∈ rrs -> nonKeyRecords st !! RecordKey rr = Some r -> n_Parent r = Normalize owner) ->
  exists st', foldM (fun st rr => RemoveSingleNonKEYRecord owner (RecordKey rr) st) st rrs = Ok st' /\
    WF st' /\ leases st' = leases st /\
    forall id, nonKeyRecords st' !! id = if bool_decide (id ∈ map RecordKey rrs) then None else nonKeyRecords st !! id.
Proof.
  revert st. induction rrs as [|rr rrs IH]; intros st W Hown; cbn [foldM]; [by exists st|].
  assert (exists st1, RemoveSingleNonKEYRecord owner (RecordKey rr) st = Ok st1) as [st1 E].
  { unfold RemoveSingleNonKEYRecord. destruct (nonKeyRecords st !! RecordKey rr) as [r|] eqn:Er; [|eauto].
    rewrite bool_decide_true by (by apply (Hown rr); [left|]). cbn [negb]. case_match; eauto. }
  pose proof (RemoveSingle_ok _ _ _ _ W E) as (W1 & Hl & _ & Hn & _).
  destruct (IH st1 W1) as (st' & Hf & W' & Hl' & Hn').
  { intros rr' r Hin. rewrite Hn, lookup_delete_Some. intros [_ Hr]. apply (Hown rr'); [by right|done]. }
  exists st'. rewrite E. cbn [mbind result_bind]. split_and!; [done|done|congruence|].
  intros id. rewrite Hn', Hn. cbn [map]. destruct (decide (id = RecordKey rr)) as [->|Hid].
  - rewrite lookup_delete_eq, (bool_decide_true (_ ∈ _ :: _)) by by left. by case_bool_decide.
  - rewrite lookup_delete_ne by done.
    assert (id ∈ RecordKey rr :: map RecordKey rrs <-> id ∈ map RecordKey rrs) by (rewrite elem_of_cons; tauto).
    do 2 case_bool_decide; tauto.
Qed.

Lemma remove_change q ms m st :
  m ∈ ms -> WF st -> Normalize (m_owner m) = m_owner m ->
  (forall rr r, rr ∈ m_removals m -> nonKeyRecords st !! RecordKey rr = Some r -> n_Parent r = m_owner m) ->
  exists st', foldM (fun st rr => RemoveSingleNonKEYRecord (m_owner m) (RecordKey rr) st) st (m_removals m) = Ok st' /\
    WF st' /\ changes q ms st st'.
Proof.
  intros Hm W Hn Hown. destruct (remove_list_spec (m_owner m) (m_removals m) st W) as (st' & Hf & W' & Hl & Hnk).
  { rewrite Hn. done. }
  exists st'. split_and!; [done..|]. intros id. split; [left; by rewrite Hl|]. unfold rec_change. rewrite Hnk.
  case_bool_decide as Hid; [|by left]. right; right. split; [done|].
  apply list_elem_of_fmap in Hid as (rr & -> & Hrr). eauto 6.
Qed.

(** What a mutation does to the world, fault or not. *)
Definition mutation_post (q : Request) (ms : list Mutation) (w w' : World) (f : option Fault) : Prop :=
  WF (w_store w') /\ w_sent w' = w_sent w /\ changes q ms (w_store w) (w_store w') /\
  match f with Some (FPanic _) => False | _ => True end.

Lemma mutation_post_refl q ms w f :
  WF (w_store w) -> match f with Some (FPanic _) => False | _ => True end -> mutation_post q ms w w f.
Proof. intros W Hf. split_and!; auto using changes_refl. Qed.

Lemma mutation_post_step q ms w w1 w2 f :
  changes q ms (w_store w) (w_store w1) -> w_sent w1 = w_sent w ->
  mutation_post q ms w1 w2 f -> mutation_post q ms w w2 f.
Proof. intros Hc Hs (? & ? & ? & ?). split_and!; [done|congruence|by eapply changes_trans|done]. Qed.

(** A batch of records, then the timer. *)
Lemma upsert_sched_post q ms m now zone w w' f (sched : World -> World) :
  (forall w, w_store (sched w) = w_store w /\ w_sent (sched w) = w_sent w) ->
  m ∈ ms -> Normalize (m_owner m) = m_owner m -> WF (w_store w) -> Forall (fun rr => rr_wf rr = true) (m_records m) ->
  (match UpsertNonKEYRecords now (m_owner m) (m_records m) (q_lease q) zone (w_store w) with
   | Err e => (w, Some (FErr e))
   | Ok st => (sched (mkWorld st (w_timers w) (w_sent w)), None)
   end) = (w', f) -> mutation_post q ms w w' f.
Proof.
  intros Hs Hm Hn W Hwf. destruct (UpsertNonKEYRecords _ _ _ _ _ _) as [st|e] eqn:E; intros [= <- <-].
  - apply (upsert_change q ms m) in E as [W' Hc]; [|done..]. destruct (Hs (mkWorld st (w_timers w) (w_sent w))) as [H1 H2].
    unfold mutation_post. rewrite H1, H2. done.
  - by apply mutation_post_refl.
Qed.

(** The KEY half of a mutation, then the rest. *)
Lemma key_op_post h q now ms m k (isnew : bool) l kl w w' f (cont : Store -> World * option Fault) :
  signer_name_ok q -> m ∈ ms -> m_key m = Some k -> m_owner m = NodeKey k -> isnew = m_new m ->
  WF (w_store w) ->
  (forall st1, WF st1 -> nonKeyRecords st1 = nonKeyRecords (w_store w) -> cont st1 = (w', f) ->
     mutation_post q ms (mkWorld st1 (w_timers w) (w_sent w)) w' f) ->
  match (if isnew then registerKeyLease h now (signer_of q) k l kl (w_store w) else RenewLease now (Some k) l kl (w_store w)) with
  | Err e => (w, Some (FErr e))
  | Ok st => cont st
  end = (w', f) -> mutation_post q ms w w' f.
Proof.
  intros Hq Hm Hk Ho Hnew W Hcont. destruct (if isnew then _ else _) as [st1|e] eqn:E.
  - intros H. assert ((WF (w_store w) -> WF st1) /\ nonKeyRecords st1 = nonKeyRecords (w_store w) /\
      changes q ms (w_store w) st1) as (W1 & Hnk & Hc).
    { symmetry in Hnew. destruct isnew; [by eapply register_change; eauto|by eapply renew_change]. }
    eapply (mutation_post_step q ms w (mkWorld st1 (w_timers w) (w_sent w))); [done|done|]. apply Hcont; auto.
  - intros [= <- <-]. by apply mutation_post_refl.
Qed.

Lemma apply_mutation_post h q now ms m w w' f :
  signer_name_ok q -> m ∈ ms -> Normalize (m_owner m) = m_owner m -> WF (w_store w) ->
  Forall (fun rr => rr_wf rr = true) (m_records m) ->
  (forall rr r, rr ∈ m_removals m -> nonKeyRecords (w_store w) !! RecordKey rr = Some r -> n_Parent r = m_owner m) ->
  apply_mutation h q now m w = (w', f) -> mutation_post q ms w w' f.
Proof.
  intros Hq Hm Hn W Hwf Hrem.
  set (sched k w := mkWorld (w_store w) (schedule now (w_store w) k (w_timers w)) (w_sent w)).
  assert (Hsched : forall k w, w_store (sched k w) = w_store w /\ w_sent (sched k w) = w_sent w) by done.
  pose proof (fun st W1 => upsert_sched_post q ms m now (h_upstreamZone h) (mkWorld st (w_timers w) (w_sent w)) w' f
                (sched (m_owner m)) (Hsched _) Hm Hn W1 Hwf) as Hup.
  destruct m as [k rs kl|k rs|k rs|owner rs|k kl|isr k kl rs]; cbn [apply_mutation].
  - eapply (key_op_post h q now ms _ k false); try done. intros st1 W1 _. by apply Hup.
  - eapply (key_op_post h q now ms _ k false); try done. intros st1 W1 _. case_match; [by apply Hup|].
    intros [= <- <-]. split_and!; [done|done|apply changes_refl|done].
  - eapply (key_op_post h q now ms _ k true); try done. intros st1 W1 _. case_match; [by apply Hup|].
    intros [= <- <-]. split_and!; [done|done|apply changes_refl|done].
  - destruct w as [st0 ts sn]. exact (Hup st0 W).
  - eapply (key_op_post h q now ms _ k false); try done. intros st1 W1 _ [= <- <-]. by apply mutation_post_refl.
  - pose proof (key_op_post h q now ms (MKeyOnly isr k kl rs) k (negb isr) kl kl w w' f) as Hk.
    destruct isr; apply Hk; try done; intros st1 W1 Hnk;
      match goal with _ : ?m0 ∈ ms |- _ => destruct (remove_change q ms m0 st1) as (st2 & Hf & W2 & Hc); [done..| |] end;
      try (rewrite Hnk; exact Hrem);
      cbn [m_owner m_removals] in Hf; rewrite Hf; intros [= <- <-]; by split_and!.
Qed.

(** ** What a plan may contain *)

(** The node of the key that signed the request: by the SIG's fields, by the key found. *)
Definition signer_nodes (q : Request) : list string := [signer_node q; NodeKey (q_signerKey q)].

Record mut_ok (q : Request) (st : Store) (now : Z) (m : Mutation) : Prop := {
  mo_norm : Normalize (m_owner m) = m_owner m;
  mo_key : forall k, m_key m = Some k ->
    m_owner m = NodeKey k /\ (k ∈ q_keys q \/ NodeKey k = signer_node q) /\
    if m_new m then lookup_live now (NodeKey k) st = None
    else exists r, lookup_live now (NodeKey k) st = Some r /\ (NodeKey k = signer_node q \/ k_Parent r = signer_node q);
  mo_recs : forall rr, rr ∈ m_records m -> rr ∈ q_others q /\ m_owner m ∈ signer_nodes q;
  mo_rem : forall rr, rr ∈ m_removals m -> rr ∈ q_others q /\ m_owner m = signer_node q /\
    forall r, nonKeyRecords st !! RecordKey rr = Some r -> n_Parent r = m_owner m }.

Context {U : UpstreamCoordinator}.

(** A KEY to be renewed is forwarded, or the server said that it holds a KEY at its name. *)
Definition held_or_forwarded (keys : list KEY) (q : Request) (k : KEY) : Prop :=
  (exists k', k' ∈ keys /\ NodeKey k' = NodeKey k) \/ authoritativeHasKeyAtName (q_zone q) (Name (key_Hdr k)) = Ok true.

(** Every mutation of a plan is allowed, what it will store or remove is in the UPDATE,
    and a plan does not both add and remove records ([adding] tells which). *)
Record plan_ok (adding : bool) (q : Request) (st : Store) (now : Z) (p : Plan) : Prop := {
  po_mut : forall m, m ∈ p_mutations p -> mut_ok q st now m;
  po_mode : forall m, m ∈ p_mutations p -> if adding then m_removals m = [] else m_records m = [];
  po_acc : forall m rr, m ∈ p_mutations p -> rr ∈ m_records m -> rr ∈ p_accepted p;
  po_keys : forall m k, m ∈ p_mutations p -> m_new m = true -> m_key m = Some k -> k ∈ p_upstreamKeys p;
  po_del : forall m rr, m ∈ p_mutations p -> rr ∈ m_removals m -> rr ∈ p_toDelete p;
  po_held : forall m k, m ∈ p_mutations p -> m_key m = Some k -> held_or_forwarded (p_upstreamKeys p) q k }.

Lemma held_mono keys keys' q k : keys ⊆ keys' -> held_or_forwarded keys q k -> held_or_forwarded keys' q k.
Proof. intros Hs [(k' & ? & ?)|?]; [left; exists k'; auto|by right]. Qed.

Lemma plan_ok_empty adding q st now : plan_ok adding q st now empty_plan.
Proof. split; intros m; cbn; intros; exfalso; by eapply not_elem_of_nil. Qed.

Lemma plan_ok_app adding q st now p1 p2 :
  plan_ok adding q st now p1 -> plan_ok adding q st now p2 -> plan_ok adding q st now (plan_app p1 p2).
Proof.
  intros [M1 D1 A1 K1 L1 H1] [M2 D2 A2 K2 L2 H2]. split; cbn [plan_app p_mutations p_upstreamKeys p_accepted p_toDelete]; intros m.
  - intros [?|?]%elem_of_app; auto.
  - intros [?|?]%elem_of_app; [by apply D1|by apply D2].
  - intros rr [?|?]%elem_of_app ?; apply elem_of_app; eauto.
  - intros k [?|?]%elem_of_app ??; apply elem_of_app; eauto.
  - intros rr [?|?]%elem_of_app ?; apply elem_of_app; eauto.
  - intros k [?|?]%elem_of_app ?; (eapply held_mono; [|eauto]); intros ??; apply elem_of_app; auto.
Qed.

Lemma foldP_ok {A} adding q st now (f : A -> HandlerResult + Plan) (l : list A) p p' :
  (forall x p, x ∈ l -> f x = inr p -> plan_ok adding q st now p) ->
  plan_ok adding q st now p -> foldP f l p = inr p' -> plan_ok adding q st now p'.
Proof.
  revert p. induction l as [|x l IH]; intros p Hf Hp; cbn [foldP]; [by intros [= <-]|].
  destruct (f x) as [|p1] eqn:E; [done|]. apply IH.
  - intros y p2 Hy. apply Hf. by right.
  - apply plan_ok_app; [done|]. eapply Hf; [by left|done].
Qed.

(** A plan of one mutation. *)
Lemma plan_ok_single (adding : bool) q st now m keys acc del notes :
  mut_ok q st now m -> (if adding then m_removals m = [] else m_records m = []) ->
  m_records m ⊆ acc -> (m_new m = true -> forall k, m_key m = Some k -> k ∈ keys) -> m_removals m ⊆ del ->
  (forall k, m_key m = Some k -> held_or_forwarded keys q k) ->
  plan_ok adding q st now (mkPlan [m] keys acc del notes).
Proof.
  intros Hm Hmode Ha Hk Hd Hh. split; cbn [p_mutations p_upstreamKeys p_accepted p_toDelete]; intros *;
    rewrite list_elem_of_singleton; intros ->; auto.
Qed.

(** ** The plans of the cases *)

(** What the prologue established of the request. *)
Record request_ok (q : Request) : Prop := {
  ro_name : signer_name_ok q;
  ro_groups : forall id, group_get (q_groups q) id = if bool_decide (id = signer_of q) then q_others q else [];
  ro_wf : Forall (fun rr => rr_wf rr = true) (q_others q) }.

Lemma scoped_elem q k rr :
  request_ok q -> rr ∈ group_get (q_groups q) (keyIDFromKEY k) -> rr ∈ q_others q /\ NodeKey k = signer_node q.
Proof.
  intros [_ Hg _]. rewrite Hg. case_bool_decide as E; [|by intros ?%not_elem_of_nil]. intros ?. split; [done|].
  by apply keyID_NodeKey.
Qed.

Lemma refresh_ok_spec q st now k u :
  signer_name_ok q -> authorizeKeyRefresh st now k (signer_of q) = Ok u ->
  exists r, lookup_live now (NodeKey k) st = Some r /\ (NodeKey k = signer_node q \/ k_Parent r = signer_node q) /\
    keyRREqual (KeyRR r) k = true.
Proof.
  intros Hq. unfold authorizeKeyRefresh, LookupByKEY. destruct (lookup_live _ _ _) as [r|]; [|done].
  destruct (keyRREqual _ _) eqn:He; [|done]. cbn [negb]. rewrite signer_node_kid by done.
  case_bool_decide as E; cbn [negb].
  - intros _. exists r. split_and!; [done| |done]. left. by apply keyID_NodeKey.
  - case_bool_decide; [|done]. intros _. exists r. split_and!; auto.
Qed.

Lemma mut_ok_scoped q st now m k :
  request_ok q -> k ∈ q_keys q -> m_key m = Some k -> m_owner m = NodeKey k ->
  (if m_new m then lookup_live now (NodeKey k) st = None
   else exists r, lookup_live now (NodeKey k) st = Some r /\ (NodeKey k = signer_node q \/ k_Parent r = signer_node q)) ->
  m_records m ⊆ group_get (q_groups q) (keyIDFromKEY k) ->
  (forall rr, rr ∈ m_removals m -> rr ∈ group_get (q_groups q) (keyIDFromKEY k) /\
     forall r, nonKeyRecords st !! RecordKey rr = Some r -> n_Parent r = NodeKey k) ->
  mut_ok q st now m.
Proof.
  intros Hq Hin Hk Ho Hlive Hrs Hrm. split.
  - rewrite Ho. apply Normalize_NodeKey.
  - intros k' Hk'. assert (k' = k) as -> by congruence. auto.
  - intros rr Hrr. apply Hrs, (scoped_elem _ _ _ Hq) in Hrr as [? E]. split; [done|]. rewrite Ho, E. by left.
  - intros rr Hrr. destruct (Hrm rr Hrr) as [[? E]%(scoped_elem _ _ _ Hq) Hp]. split_and!; [done|congruence|].
    intros r Hr. rewrite Ho. auto.
Qed.
End effects.

Section plans.
Context {L : DnsLib} {LL : DnsLibLaws L} {SG : Sig0} {U : UpstreamCoordinator}.

Lemma filterDuplicate_ok st owner zone rs acc :
  filterDuplicateRegistrations st owner zone rs = Ok acc ->
  acc = rs /\ forall rr e, rr ∈ rs -> LookupNonKEYRecord rr st = Some e -> n_Parent e = owner.
Proof.
  unfold filterDuplicateRegistrations.
  enough (H : forall rs acc0 acc, foldM (fun accepted rr =>
           match LookupNonKEYRecord rr st with
           | Some existing =>
               if negb (bool_decide (n_Parent existing = owner))
               then Err "duplicate registration rejected: already registered under a different key"
               else Ok (accepted ++ [rr])
           | None =>
               exists_ ← authoritativeHasRR zone rr;
               if (exists_ : bool) then Err "duplicate registration rejected: authoritative RR already exists"
               else Ok (accepted ++ [rr])
           end) acc0 rs = Ok acc ->
    acc = acc0 ++ rs /\ forall rr e, rr ∈ rs -> LookupNonKEYRecord rr st = Some e -> n_Parent e = owner) by apply H.
  clear rs acc. induction rs as [|rr rs IH]; intros acc0 acc; cbn [foldM].
  { intros [= <-]. rewrite app_nil_r. split; [done|]. intros rr e Hrr. by apply not_elem_of_nil in Hrr. }
  intros (acc1 & H1 & H2)%bind_ok. apply IH in H2 as [-> H2].
  assert (acc1 = acc0 ++ [rr] /\ forall e, LookupNonKEYRecord rr st = Some e -> n_Parent e = owner) as [-> Hrr].
  { destruct (LookupNonKEYRecord rr st) as [e|].
    - revert H1. case_bool_decide; cbn [negb]; [|done]. intros [= <-]. split; [done|]. by intros e' [= <-].
    - apply bind_ok in H1 as ([] & _ & H1); [done|]. injection H1 as <-. by split. }
  rewrite <- app_assoc. split; [done|]. intros rr' e [->|?]%elem_of_cons; eauto.
Qed.

Lemma caseA_key_ok h q st now r k p :
  request_ok q -> k ∈ q_keys q -> caseA_key h q st now r k = inr p -> plan_ok true q st now p.
Proof.
  intros Hq Hin. unfold caseA_key. destruct (LookupByKEY now k st) as [e|] eqn:Hlive.
  - destruct (authorizeKeyRefresh _ _ _ _) as [u|] eqn:Ha; [|done].
    apply refresh_ok_spec in Ha as (r0 & Hr0 & Hown & _); [|apply Hq].
    destruct (effectiveRefreshKeyLease _ _ _ _ _) as [[eff [|]]|] eqn:Heff; [| |done]; intros [= <-];
      (apply plan_ok_single; [apply (mut_ok_scoped q st now _ k); cbn; eauto|..]; cbn; try done;
       try (intros rr Hrr; by apply not_elem_of_nil in Hrr)); intros k' [= <-].
    + right. unfold effectiveRefreshKeyLease in Heff. apply bind_ok in Heff as (b & Hb & Heff). by destruct b.
    + left. exists k. split; [by left|done].
  - destruct (authoritativeHasRR _ _) as [[|]|]; [done| |done].
    destruct (filterDuplicateRegistrations _ _ _ _) as [acc|] eqn:Hf; [|done]. apply filterDuplicate_ok in Hf as [-> _].
    intros [= <-]. apply plan_ok_single; [apply (mut_ok_scoped q st now _ k); cbn; eauto|..]; cbn; try done.
    + intros rr Hrr; by apply not_elem_of_nil in Hrr.
    + intros _ k' [= <-]. by left.
    + intros k' [= <-]. left. exists k. split; [by left|done].
Qed.

Lemma data_plan_ok q st now owner acc :
  owner ∈ signer_nodes q -> acc ⊆ q_others q -> plan_ok true q st now (mkPlan [MData owner acc] [] acc [] []).
Proof.
  intros Ho Ha. apply plan_ok_single; cbn; try done. split; cbn; try done.
  - apply list_elem_of_In in Ho as [<-|[<-|[]]]; [apply Normalize_NodeKeyFromSIG|apply Normalize_NodeKey].
  - eauto.
  - intros rr Hrr; by apply not_elem_of_nil in Hrr.
Qed.

Lemma group_get_others q id : request_ok q -> group_get (q_groups q) id ⊆ q_others q.
Proof. intros [_ Hg _]. rewrite Hg. case_bool_decide; [done|]. intros x Hx. by apply not_elem_of_nil in Hx. Qed.

Lemma caseA_ok h q st now r p :
  request_ok q -> caseA h q st now r = inr p -> plan_ok true q st now p.
Proof.
  intros Hq. unfold caseA. do 2 (case_match; [done|]).
  destruct (foldP _ _ _) as [|p0] eqn:Hp; [done|].
  assert (plan_ok true q st now p0) as Hp0.
  { eapply foldP_ok; [|apply plan_ok_empty|exact Hp]. intros k p1 Hk. by apply caseA_key_ok. }
  case_match; [by intros [= <-]|]. case_match; [by intros [= <-]|].
  destruct (filterDuplicateRegistrations _ _ _ _) as [acc|] eqn:Hf; [|done]. apply filterDuplicate_ok in Hf as [-> _].
  intros [= <-]. apply plan_ok_app; [done|]. apply data_plan_ok; [by left|by apply group_get_others].
Qed.

Lemma caseB_ok h q st now r p :
  WF st -> request_ok q -> caseB h q st now r = inr p -> plan_ok true q st now p.
Proof.
  intros W Hq. unfold caseB. do 2 (case_match; [done|]).
  destruct (LookupBySIG _ _ _ _ _) as [e|] eqn:Hs; [|done].
  destruct (authoritativeHasKeyAtName _ _) as [ex|]; [|done]. cbn zeta.
  destruct (filterDuplicateRegistrations _ _ _ _) as [acc|] eqn:Hf; [|done]. apply filterDuplicate_ok in Hf as [-> _].
  intros [= <-]. apply plan_ok_app.
  - destruct ex; [apply plan_ok_empty|]. apply plan_ok_single; cbn; try done.
    2:{ intros k [= <-]. left. eexists. split; [by left|done]. }
    unfold LookupBySIG in Hs. fold (signer_node q) in Hs.
    assert (Hn : NodeKey (KeyRR e) = signer_node q).
    { unfold lookup_live in Hs. destruct (leases st !! signer_node q) as [e'|] eqn:He; [|done]. cbn in Hs.
      destruct (IsExpired now e'); [done|]. injection Hs as ->. by apply (wf_leases _ _ W) in He as [-> _]. }
    split; cbn.
    + apply Normalize_NodeKey.
    + intros k [= <-]. split_and!; [done|by right|]. exists e. rewrite Hn. auto.
    + intros rr Hrr; by apply not_elem_of_nil in Hrr.
    + intros rr Hrr; by apply not_elem_of_nil in Hrr.
  - case_match; [apply data_plan_ok; [by right; left|done]|]. by destruct (q_others q).
Qed.

Lemma caseD_key_ok h q st now r k p :
  request_ok q -> k ∈ q_keys q -> caseD_key h q st now r k = inr p -> plan_ok false q st now p.
Proof.
  intros Hq Hin. unfold caseD_key. set (del := filter _ _). cbn zeta.
  assert (Hdel : forall rr, rr ∈ del -> rr ∈ group_get (q_groups q) (keyIDFromKEY k) /\
     forall r, nonKeyRecords st !! RecordKey rr = Some r -> n_Parent r = NodeKey k).
  { intros rr [Hm Hg]%list_elem_of_filter. split; [done|]. intros e He. revert Hm. unfold LookupNonKEYRecord.
    rewrite He. case_bool_decide; [done|]. by rewrite bool_decide_eq_true. }
  destruct (LookupByKEY now k st) as [e|] eqn:Hlive.
  - destruct (authorizeKeyRefresh _ _ _ _) as [u|] eqn:Ha; [|done].
    apply refresh_ok_spec in Ha as (r0 & Hr0 & Hown & _); [|apply Hq].
    destruct (effectiveRefreshKeyLease _ _ _ _ _) as [[eff b]|]; [|done]; intros [= <-].
    apply plan_ok_single; [apply (mut_ok_scoped q st now _ k); cbn; eauto|..]; cbn; try done.
    + intros rr Hrr; by apply not_elem_of_nil in Hrr.
    + intros k' [= <-]. left. exists k. split; [by left|done].
  - destruct (authoritativeHasRR _ _) as [[|]|]; [done| |done]. case_match; [done|].
    intros [= <-]. apply plan_ok_single; [apply (mut_ok_scoped q st now _ k); cbn; eauto|..]; cbn; try done.
    + intros rr Hrr; by apply not_elem_of_nil in Hrr.
    + intros _ k' [= <-]. by left.
    + intros k' [= <-]. left. exists k. split; [by left|done].
Qed.

Lemma caseD_ok h q st now r p :
  request_ok q -> caseD h q st now r = inr p -> plan_ok false q st now p.
Proof.
  intros Hq. unfold caseD. case_match; [done|]. intros Hp.
  eapply foldP_ok; [|apply plan_ok_empty|exact Hp]. intros k p1 Hk. by apply caseD_key_ok.
Qed.

(** ** Forwarding and applying a plan *)

Definition removals_owned (ms : list Mutation) (st : Store) : Prop :=
  forall m rr r, m ∈ ms -> rr ∈ m_removals m -> nonKeyRecords st !! RecordKey rr = Some r -> n_Parent r = m_owner m.

Lemma removals_owned_step (adding : bool) q ms st st' :
  (forall m, m ∈ ms -> if adding then m_removals m = [] else m_records m = []) ->
  removals_owned ms st -> changes q ms st st' -> removals_owned ms st'.
Proof.
  intros Hmode H Hc m rr r Hm Hrr Hr. pose proof (Hmode m Hm) as Hm'. destruct adding.
  { rewrite Hm' in Hrr. by apply not_elem_of_nil in Hrr. }
  destruct (Hc (RecordKey rr)) as [_ [E|[(m1 & r1 & Hm1 & _ & Hin & _)|[E _]]]].
  - apply (H m rr r); congruence.
  - rewrite (Hmode m1 Hm1) in Hin. by apply not_elem_of_nil in Hin.
  - congruence.
Qed.

Lemma apply_all_post (adding : bool) h q now st0 now0 ms0 ms w w' f :
  request_ok q -> ms ⊆ ms0 -> (forall m, m ∈ ms0 -> mut_ok q st0 now0 m) ->
  (forall m, m ∈ ms0 -> if adding then m_removals m = [] else m_records m = []) ->
  removals_owned ms0 (w_store w) -> WF (w_store w) ->
  apply_all h q now ms w = (w', f) -> mutation_post q ms0 w w' f.
Proof.
  intros Hq Hs Hok Hmode. revert w. induction ms as [|m ms IH]; intros w Hown W; cbn [apply_all].
  { intros [= <- <-]. by apply mutation_post_refl. }
  assert (Hm : m ∈ ms0) by (apply Hs; by left).
  destruct (apply_mutation h q now m w) as [w1 f1] eqn:E.
  apply (apply_mutation_post h q now ms0) in E; [|apply Hq|done|by apply Hok|done| |by intros rr r; apply Hown].
  2:{ apply Forall_forall. intros rr Hrr. apply (mo_recs _ _ _ _ (Hok m Hm)) in Hrr as [Hrr _].
      pose proof (ro_wf _ Hq) as Hwf. rewrite Forall_forall in Hwf. auto. }
  destruct E as (W1 & Hs1 & Hc1 & Hf1). destruct f1 as [f1|]; intros Hrest.
  - injection Hrest as <- <-. by split_and!.
  - eapply mutation_post_step; [done|done|]. apply IH; [|by eapply removals_owned_step|done|done].
    intros x Hx. apply Hs. by right.
Qed.

(** The records of an UPDATE account for what the request changed in the store.  A KEY whose
    lease was only renewed may be missing from them if the authoritative server said that it
    holds a KEY at its name. *)
Definition confirmed (recs : list RR) (st st' : Store) : Prop :=
  (forall id r', leases st' !! id = Some r' -> leases st !! id = Some r' \/ (exists k, NodeKey k = id /\ KEY_RR k ∈ recs) \/
     exists zone k, NodeKey k = id /\ authoritativeHasKeyAtName zone (Name (key_Hdr k)) = Ok true) /\
  (forall id, is_Some (leases st' !! id) -> leases st !! id = None -> exists k, NodeKey k = id /\ KEY_RR k ∈ recs) /\
  (forall id r, nonKeyRecords st' !! id = Some r -> nonKeyRecords st !! id = Some r \/ n_RR r ∈ recs) /\
  (forall id, is_Some (leases st !! id) -> leases st' !! id = None -> exists k, NodeKey k = id /\ AsDelete (KEY_RR k) ∈ recs) /\
  (forall id, is_Some (nonKeyRecords st !! id) -> nonKeyRecords st' !! id = None ->
     exists rr, RecordKey rr = id /\ AsDelete rr ∈ recs).

Lemma changes_confirmed adding q st now p st' :
  plan_ok adding q st now p -> changes q (p_mutations p) st st' ->
  confirmed (upstreamUpdateRecords (p_upstreamKeys p) (p_accepted p) (p_toDelete p)) st st'.
Proof.
  intros Hp Hc. unfold upstreamUpdateRecords. split_and!; intros id.
  - intros r' Hr'. destruct (Hc id) as [[E|(m & k & r & Hm & Hk & -> & _)] _]; [left; congruence|right].
    destruct (po_held _ _ _ _ _ Hp m k Hm Hk) as [(k' & Hk' & En)|Hh]; [left|by right; eauto].
    exists k'. split; [done|]. apply elem_of_app. left. apply list_elem_of_fmap. by exists k'.
  - intros [r' Hr'] Hnone. destruct (Hc id) as [[E|(m & k & r & _ & _ & _ & _ & Hpar)] _]; [congruence|].
    destruct Hpar as [(_ & r0 & ? & _)|(m' & Hm' & Hnew & Ho & _)]; [congruence|].
    assert (exists k', m_key m' = Some k') as [k' Hk'] by (destruct m'; try done; eauto).
    destruct (mo_key _ _ _ _ (po_mut _ _ _ _ _ Hp m' Hm') k' Hk') as [Ho' _].
    exists k'. split; [congruence|]. apply elem_of_app. left. apply list_elem_of_fmap.
    exists k'. split; [done|]. by eapply po_keys.
  - intros r Hr. destruct (Hc id) as [_ [E|[(m & r1 & Hm & Hr1 & Hin & _)|[E _]]]]; [left; congruence| |congruence].
    right. assert (r1 = r) as -> by congruence. rewrite !elem_of_app. right; left. by eapply po_acc.
  - intros [r Hr] Hnone. destruct (Hc id) as [[E|(m & k & r' & _ & _ & _ & ? & _)] _]; congruence.
  - intros [r Hr] Hnone. destruct (Hc id) as [_ [E|[(m & r1 & _ & ? & _)|[_ (m & rr & Hm & Hrr & ->)]]]]; [congruence..|].
    exists rr. split; [done|]. rewrite !elem_of_app. right; right. unfold asDeletes. apply list_elem_of_fmap.
    exists rr. split; [done|]. by eapply po_del.
Qed.

(** Every plan has something to forward. *)
Definition need_upstream (p : Plan) : bool :=
  (0 <? length (p_upstreamKeys p))%nat || (0 <? length (p_accepted p))%nat || (0 <? length (p_toDelete p))%nat.

(** What a request may leave of the world: nothing changed and nothing confirmed, or one
    confirmed UPDATE and the changes it covers. *)
Definition request_post (w w' : World) (res : HandlerResult) (may : Store -> Store -> Prop) : Prop :=
  WF (w_store w') /\
  ((w_store w' = w_store w /\ w_timers w' = w_timers w /\
    exists extra, w_sent w' = w_sent w ++ extra /\ Forall (fun s => sent_ok s = false) extra) \/
   exists zone recs, w_sent w' = w_sent w ++ [mkSent zone [] recs true] /\
     confirmed recs (w_store w) (w_store w') /\ may (w_store w) (w_store w')).

Lemma request_post_idle w res may : WF (w_store w) -> request_post w w res may.
Proof. intros W. split; [done|]. left. split_and!; [done..|]. exists []. by rewrite app_nil_r. Qed.

Lemma epilogue_post adding h q now now' r p w :
  request_ok q -> WF (w_store w) -> is_Some (h_upstreamKey h) -> plan_ok adding q (w_store w) now p -> need_upstream p = true ->
  exists w' res, epilogue h q now' r p w = Some (w', res) /\
    request_post w w' res (changes q (p_mutations p)).
Proof.
  intros Hq W Hkey Hp Hneed. unfold epilogue. fold (need_upstream p). rewrite Hneed.
  set (recs := upstreamUpdateRecords _ _ _). rewrite send_ready by done. cbn [mbind option_bind].
  destruct (o_err (send_update (h_upstream h) [] recs)) as [e|] eqn:He.
  { do 2 eexists. split; [done|]. split; [done|]. left. cbn. split_and!; [done..|].
    eexists. split; [done|]. apply Forall_forall. intros s. by apply (send_err _ _ _ e). }
  apply send_ok in He as [zone Hs]. rewrite Hs.
  set (w1 := mkWorld (w_store w) (w_timers w) (w_sent w ++ [mkSent zone [] recs true])).
  destruct (apply_all h q now' (p_mutations p) w1) as [w' f] eqn:E.
  apply (apply_all_post adding h q now' (w_store w) now (p_mutations p)) in E as (W' & Hsent & Hc & Hf);
    [|done|done|apply Hp|apply Hp| |done].
  2:{ intros m rr r0 Hm Hrr. by apply (mo_rem _ _ _ _ (po_mut _ _ _ _ _ Hp m Hm) rr Hrr). }
  assert (Hpost : forall res, request_post w w' res (changes q (p_mutations p))).
  { intros res. split; [done|]. right. exists zone, recs. split_and!; [by rewrite Hsent| |done].
    by eapply changes_confirmed. }
  destruct f as [[e|e]|]; [eauto|done|eauto].
Qed.

Lemma need_accepted p rr : rr ∈ p_accepted p -> need_upstream p = true.
Proof.
  unfold need_upstream. intros H. destruct (p_accepted p); [by apply not_elem_of_nil in H|].
  cbn [length]. by rewrite orb_true_r.
Qed.

Lemma need_keys p k : k ∈ p_upstreamKeys p -> need_upstream p = true.
Proof. unfold need_upstream. intros H. destruct (p_upstreamKeys p); [by apply not_elem_of_nil in H|done]. Qed.

(** A loop's plan holds the plan of each round. *)
Lemma foldP_elem {A} (f : A -> HandlerResult + Plan) (l : list A) p p' :
  foldP f l p = inr p' ->
  (p_accepted p ⊆ p_accepted p' /\ p_upstreamKeys p ⊆ p_upstreamKeys p') /\
  forall x, x ∈ l -> exists px, f x = inr px /\ p_accepted px ⊆ p_accepted p' /\ p_upstreamKeys px ⊆ p_upstreamKeys p'.
Proof.
  revert p. induction l as [|x l IH]; intros p; cbn [foldP].
  { intros [= <-]. split; [done|]. intros x Hx. by apply not_elem_of_nil in Hx. }
  destruct (f x) as [|px] eqn:E; [done|]. intros [[Ha Hk] Hl]%IH. cbn [plan_app p_accepted p_upstreamKeys] in Ha, Hk.
  split; [split; intros y Hy; [apply Ha|apply Hk]; apply elem_of_app; by left|].
  intros y [->|Hy]%elem_of_cons; [|by apply Hl]. exists px.
  split_and!; [done|..]; intros z Hz; [apply Ha|apply Hk]; apply elem_of_app; by right.
Qed.

Lemma caseA_need h q st now r p :
  request_ok q -> caseA h q st now r = inr p -> need_upstream p = true.
Proof.
  intros Hq. unfold caseA. destruct (_ || _) eqn:Hne; [done|]. apply orb_false_iff in Hne as [_ Hne].
  destruct (q_others q) as [|rr rest] eqn:Hoth; [done|]. case_match; [done|].
  destruct (foldP _ _ _) as [|p0] eqn:Hp; [done|]. apply foldP_elem in Hp as [_ Hp].
  assert (Hg : forall id, id = signer_of q -> rr ∈ group_get (q_groups q) id).
  { intros id ->. rewrite (ro_groups _ Hq), bool_decide_true, Hoth by done. by left. }
  destruct (signer_in_update q) eqn:Hsu.
  - intros [= <-]. apply existsb_exists in Hsu as (k & Hk & Hid). rewrite <- list_elem_of_In in Hk.
    rewrite bool_decide_eq_true in Hid. destruct (Hp k Hk) as (px & Hpx & Ha & _).
    apply (need_accepted _ rr), Ha. revert Hpx. unfold caseA_key. repeat case_match; try done; intros [= <-]; cbn;
      try (by apply Hg). match goal with H : filterDuplicateRegistrations _ _ _ _ = Ok _ |- _ =>
        apply filterDuplicate_ok in H as [-> _] end. by apply Hg.
  - specialize (Hg _ eq_refl). case_match eqn:Hl; [by destruct (group_get _ _); [apply not_elem_of_nil in Hg|]|].
    destruct (filterDuplicateRegistrations _ _ _ _) as [acc|] eqn:Hf; [|done]. apply filterDuplicate_ok in Hf as [-> _].
    intros [= <-]. apply (need_accepted _ rr). cbn. apply elem_of_app. by right.
Qed.

Lemma caseB_need h q st now r p : caseB h q st now r = inr p -> need_upstream p = true.
Proof.
  unfold caseB. destruct (q_others q) as [|rr rest] eqn:Hoth; [done|]. cbn [length Nat.eqb]. case_match; [done|].
  destruct (LookupBySIG _ _ _ _ _); [|done]. destruct (authoritativeHasKeyAtName _ _); [|done]. cbn zeta.
  destruct (filterDuplicateRegistrations _ _ _ _) as [acc|] eqn:Hf; [|done]. apply filterDuplicate_ok in Hf as [-> _].
  intros [= <-]. apply (need_accepted _ rr). cbn. apply elem_of_app. right. by left.
Qed.

Lemma caseD_need h q st now r p : caseD h q st now r = inr p -> need_upstream p = true.
Proof.
  unfold caseD. destruct (q_keys q) as [|k rest] eqn:Hk; [done|]. cbn [length Nat.eqb]. intros [_ Hp]%foldP_elem.
  destruct (Hp k ltac:(by left)) as (px & Hpx & _ & Hks). apply (need_keys _ k), Hks. revert Hpx.
  unfold caseD_key. repeat case_match; try done; intros [= <-]; by left.
Qed.

(** The case of the request that is not a delete. *)
Definition deleting (q : Request) : bool := (q_keyLease q =? 0) && (q_lease q =? 0).

Lemma dispatch_plan_post h q now now' r w :
  request_ok q -> WF (w_store w) -> is_Some (h_upstreamKey h) -> deleting q = false ->
  exists w' res, dispatch h q now now' r w = Some (w', res) /\
    request_post w w' res (fun st st' => exists adding p, plan_ok adding q st now p /\ changes q (p_mutations p) st st').
Proof.
  intros Hq W Hkey Hdel. unfold dispatch. fold (deleting q). rewrite Hdel.
  assert (Hgo : forall adding (c : HandlerResult + Plan),
    (forall p, c = inr p -> plan_ok adding q (w_store w) now p /\ need_upstream p = true) ->
    exists w' res, match c with inl res => Some (w, res) | inr p => epilogue h q now' r p w end = Some (w', res) /\
      request_post w w' res (fun st st' => exists adding p, plan_ok adding q st now p /\ changes q (p_mutations p) st st')).
  { intros adding [res|p] H; [exists w, res; split; [done|]; by apply request_post_idle|].
    destruct (H p eq_refl) as [Hp Hneed].
    destruct (epilogue_post adding h q now now' r p w Hq W Hkey Hp Hneed) as (w' & res & He & W' & Hor).
    exists w', res. split; [done|]. split; [done|]. destruct Hor as [?|(zone & recs & ? & ? & ?)]; [by left|].
    right. exists zone, recs. split_and!; eauto. }
  case_match; [apply (Hgo true)|case_match; [apply (Hgo true)|apply (Hgo false)]]; intros p Hp.
  - split; [by eapply caseA_ok|by eapply caseA_need].
  - split; [by eapply caseB_ok|by eapply caseB_need].
  - split; [by eapply caseD_ok|by eapply caseD_need].
Qed.

(** ** Case C *)

(** What the signer may delete: the subtree of a KEY named in the request that is the
    signer or was registered by it, and a named record it owns. *)
Definition deletable_key (q : Request) (now : Z) (st : Store) (k : KEY) : Prop :=
  k ∈ q_keys q /\ exists r, LookupByKEY now k st = Some r /\
    (keyIDFromKEY k = signer_of q \/ k_Parent r = NodeKey (q_signerKey q)).

Definition deletable_record (q : Request) (st : Store) (rr : RR) : Prop :=
  rr ∈ q_others q /\ exists r, LookupNonKEYRecord rr st = Some r /\ n_Parent r = NodeKey (q_signerKey q).

Definition may_delete (q : Request) (now : Z) (st : Store) (id : string) : Prop :=
  (exists k, deletable_key q now st k /\ below (abs st) (NodeKey k) id) \/
  (exists rr, deletable_record q st rr /\ RecordKey rr = id).

Lemma caseC_keys_spec q st now k : k ∈ (caseC_keys q st now).1 <-> deletable_key q now st k.
Proof.
  unfold caseC_keys, deletable_key. cbn [fst]. rewrite list_elem_of_filter.
  destruct (LookupByKEY now k st) as [r|].
  - rewrite orb_true_iff, !bool_decide_eq_true. split.
    + intros [H ?]. eauto.
    + intros [? (r' & [= <-] & H)]. done.
  - split; [by intros [? ?]|by intros [_ (? & ? & _)]].
Qed.

Lemma caseC_records_spec q st rr : rr ∈ (caseC_records q st).1 <-> deletable_record q st rr.
Proof.
  unfold caseC_records, deletable_record. cbn [fst]. rewrite list_elem_of_filter.
  destruct (LookupNonKEYRecord rr st) as [r|].
  - rewrite bool_decide_eq_true. split; [intros [H ?]; eauto|]. by intros [? (r' & [= <-] & H)].
  - split; [by intros [? ?]|by intros [_ (? & ? & _)]].
Qed.

Lemma only_removes_reach st st' x y :
  WF st -> WF st' -> only_removes st st' -> reach (children st') x y -> reach (children st) x y.
Proof.
  intros W W' [Hl Hn]. induction 1 as [|x z y He _ IH]; [constructor|]. eapply rtc_l; [|exact IH].
  apply (wf_edges _ _ W') in He as (Hne & _ & Hp). apply (wf_edges _ _ W). split_and!; [done|set_solver|].
  destruct Hp as [(r & ? & ?)|(r & ? & ?)]; [left|right]; eauto.
Qed.

Lemma only_removes_trans st st1 st2 : only_removes st st1 -> only_removes st1 st2 -> only_removes st st2.
Proof. intros [] []. split; eauto. Qed.

(** Forgetting one KEY's subtree. *)
Lemma caseC_forget_spec w k :
  WF (w_store w) ->
  exists w', caseC_forget w k = Some w' /\ WF (w_store w') /\ w_sent w' = w_sent w /\
    forall id, (leases (w_store w') !! id = leases (w_store w) !! id /\
                nonKeyRecords (w_store w') !! id = nonKeyRecords (w_store w) !! id /\
                ~ reach (children (w_store w)) (NodeKey k) id) \/
               (leases (w_store w') !! id = None /\ nonKeyRecords (w_store w') !! id = None /\
                reach (children (w_store w)) (NodeKey k) id).
Proof.
  intros W. unfold caseC_forget.
  destruct (ListSubtreeKeys_spec (w_store w) (NodeKey k)) as (below & -> & _).
  destruct (deleteSubtree_spec (NodeKey k) (w_store w) W) as (st' & seen & Hdel & W' & Hseen & Hl & Hnk).
  unfold DeleteSubtree. rewrite Normalize_NodeKey, bool_decide_false, Hdel by apply NodeKey_ne.
  cbn [mbind option_bind]. eexists. split; [done|]. cbn [w_store w_sent]. split_and!; [done..|].
  intros id. rewrite <- Hseen, Hl, Hnk, !map_lookup_filter. destruct (decide (id ∈ seen)) as [Hid|Hid]; [right|left];
    (destruct (leases (w_store w) !! id), (nonKeyRecords (w_store w) !! id); simpl); repeat case_guard; done.
Qed.

(** The loop over the named KEYs: nothing is touched but what is below them in the store
    the request started from. *)
Lemma caseC_forget_all ks st0 w :
  WF st0 -> WF (w_store w) -> only_removes st0 (w_store w) ->
  exists w', foldl (fun ow k => ow ≫= fun w => caseC_forget w k) (Some w) ks = Some w' /\
    WF (w_store w') /\ w_sent w' = w_sent w /\
    (forall id, (leases (w_store w') !! id = leases (w_store w) !! id /\
                 nonKeyRecords (w_store w') !! id = nonKeyRecords (w_store w) !! id) \/
                (leases (w_store w') !! id = None /\ nonKeyRecords (w_store w') !! id = None /\
                 exists k, k ∈ ks /\ reach (children st0) (NodeKey k) id)) /\
    (forall k, k ∈ ks -> leases (w_store w') !! NodeKey k = None).
Proof.
  intros W0. revert w. induction ks as [|k ks IH]; intros w W Ho; cbn [foldl].
  { exists w. split_and!; [done..|by left|]. intros k Hk. by apply not_elem_of_nil in Hk. }
  destruct (caseC_forget_spec w k W) as (w1 & Hf & W1 & Hs1 & H1). cbn [mbind option_bind]. rewrite Hf.
  assert (Ho1 : only_removes (w_store w) (w_store w1)).
  { split; intros id r Hr; destruct (H1 id) as [(E1 & E2 & _)|(E1 & E2 & _)]; congruence. }
  destruct (IH w1 W1 (only_removes_trans _ _ _ Ho Ho1)) as (w' & Hf' & W' & Hs' & H' & Hk').
  exists w'. split_and!; [done|done|congruence| |].
  - intros id. destruct (H' id) as [(E1 & E2)|(E1 & E2 & k' & Hin & Hr)].
    + destruct (H1 id) as [(E3 & E4 & _)|(E3 & E4 & Hr)]; [left; split; congruence|right].
      split_and!; [congruence..|]. exists k. split; [by left|]. by apply (only_removes_reach st0 (w_store w)).
    + right. split_and!; [done..|]. exists k'. split; [by right|done].
  - intros k' [->|Hin]%elem_of_cons; [|by apply Hk'].
    destruct (H1 (NodeKey k)) as [(_ & _ & Hr)|(E1 & _ & _)]; [by destruct Hr; constructor|].
    destruct (H' (NodeKey k)) as [(E & _)|(E & _)]; congruence.
Qed.

(** The UPDATE of Case C covers everything below the named KEYs. *)
Lemma subtree_deletes_spec st k :
  WF st -> is_Some (leases st !! NodeKey k) ->
  exists dels, subtree_deletes st k = Some dels /\
    (forall id r, leases st !! id = Some r -> reach (children st) (NodeKey k) id -> AsDelete (KEY_RR (KeyRR r)) ∈ dels) /\
    (forall id r, nonKeyRecords st !! id = Some r -> reach (children st) (NodeKey k) id -> AsDelete (n_RR r) ∈ dels).
Proof.
  intros W Hk. destruct (subtreeLeases_spec (NodeKey k) st W (Normalize_NodeKey k) Hk) as (keys & records & Hs & HK & HR).
  unfold subtree_deletes. rewrite Hs. eexists. split; [done|]. cbn [fst snd].
  split; intros id r Hr Hreach; apply elem_of_app.
  - left. unfold asDeletes. apply list_elem_of_fmap. eexists. split; [done|]. apply list_elem_of_fmap. eauto.
  - right. destruct (HR id r Hr Hreach) as (d & Hd & E). unfold recordDeletes. apply list_elem_of_fmap.
    exists d. by rewrite E.
Qed.

Lemma subtree_deletes_all st ks :
  WF st -> (forall k, k ∈ ks -> is_Some (leases st !! NodeKey k)) ->
  exists subs, mapM (subtree_deletes st) ks = Some subs /\
    forall k id, k ∈ ks -> reach (children st) (NodeKey k) id ->
      (forall r, leases st !! id = Some r -> AsDelete (KEY_RR (KeyRR r)) ∈ concat subs) /\
      (forall r, nonKeyRecords st !! id = Some r -> AsDelete (n_RR r) ∈ concat subs).
Proof.
  intros W. induction ks as [|k ks IH]; intros Hks.
  { exists []. split; [done|]. intros k id Hk. by apply not_elem_of_nil in Hk. }
  destruct (subtree_deletes_spec st k W) as (dels & Hd & H1 & H2); [apply Hks; by left|].
  destruct IH as (subs & Hm & IH); [intros k' Hk'; apply Hks; by right|].
  exists (dels :: subs). cbn [mapM]. rewrite Hd. cbn [mbind option_bind]. rewrite Hm. split; [done|].
  intros k' id [->|Hk']%elem_of_cons Hr; cbn [concat]; setoid_rewrite elem_of_app.
  - split; intros r Hr'; left; eauto.
  - destruct (IH k' id Hk' Hr). split; intros r Hr'; right; eauto.
Qed.

Definition deletes_only (q : Request) (now : Z) (st st' : Store) : Prop :=
  only_removes st st' /\
  (forall id, leases st' !! id <> leases st !! id \/ nonKeyRecords st' !! id <> nonKeyRecords st !! id ->
     may_delete q now st id) /\
  (forall k, deletable_key q now st k -> leases st' !! NodeKey k = None) /\
  (forall rr, deletable_record q st rr -> nonKeyRecords st' !! RecordKey rr = None).

(** The local half of Case C, from a store the UPDATE was confirmed for. *)
Lemma caseC_apply_spec q now w st1 w' (ks : list KEY) (rrs : list RR) :
  WF (w_store w) ->
  (forall k, k ∈ ks <-> deletable_key q now (w_store w) k) ->
  (forall rr, rr ∈ rrs <-> deletable_record q (w_store w) rr) ->
  leases st1 = leases (w_store w) ->
  (forall id, nonKeyRecords st1 !! id =
     if bool_decide (id ∈ map RecordKey rrs) then None else nonKeyRecords (w_store w) !! id) ->
  (forall id, (leases (w_store w') !! id = leases st1 !! id /\ nonKeyRecords (w_store w') !! id = nonKeyRecords st1 !! id) \/
              (leases (w_store w') !! id = None /\ nonKeyRecords (w_store w') !! id = None /\
               exists k, k ∈ ks /\ reach (children (w_store w)) (NodeKey k) id)) ->
  (forall k, k ∈ ks -> leases (w_store w') !! NodeKey k = None) ->
  deletes_only q now (w_store w) (w_store w').
Proof.
  intros W Hks Hrrs Hl1 Hn1 H' Hk'. split_and!.
  - split; intros id r Hr; destruct (H' id) as [(E1 & E2)|(E1 & E2 & _)]; try congruence.
    rewrite E2, Hn1 in Hr. by case_bool_decide.
  - intros id Hch. destruct (H' id) as [(E1 & E2)|(_ & _ & k & Hk & Hr)].
    + right. rewrite E1, E2, Hl1, Hn1 in Hch. case_bool_decide as Hid; [|by destruct Hch].
      apply list_elem_of_fmap in Hid as (rr & -> & Hrr). exists rr. by rewrite <- Hrrs.
    + left. exists k. by rewrite <- Hks, <- reach_below.
  - intros k Hk%Hks. auto.
  - intros rr Hrr%Hrrs. destruct (H' (RecordKey rr)) as [(_ & E2)|(_ & E2 & _)]; [|done].
    rewrite E2, Hn1, bool_decide_true; [done|]. apply list_elem_of_fmap. eauto.
Qed.

(** The UPDATE covers what such a change loses. *)
Lemma caseC_confirmed q now st st' (rrs : list RR) subs (ks : list KEY) :
  WF st -> deletes_only q now st st' ->
  (forall k, k ∈ ks <-> deletable_key q now st k) -> (forall rr, rr ∈ rrs <-> deletable_record q st rr) ->
  (forall k id, k ∈ ks -> reach (children st) (NodeKey k) id ->
      (forall r, leases st !! id = Some r -> AsDelete (KEY_RR (KeyRR r)) ∈ concat subs) /\
      (forall r, nonKeyRecords st !! id = Some r -> AsDelete (n_RR r) ∈ concat subs)) ->
  confirmed (asDeletes rrs ++ concat subs) st st'.
Proof.
  intros W ([Ho1 Ho2] & Hmay & _) Hks Hrrs Hsub. split_and!; intros id.
  - intros r Hr%Ho1. by left.
  - intros [r Hr%Ho1]. congruence.
  - intros r Hr%Ho2. by left.
  - intros [r Hr] Hgone. exists (KeyRR r). pose proof (wf_leases _ _ W _ _ Hr) as [-> _]. split; [done|].
    apply elem_of_app. right. destruct (Hmay (NodeKey (KeyRR r))) as [(k & Hk%Hks & Hb)|(rr & [_ (r' & Hr' & _)] & E)].
    + left. congruence.
    + apply reach_below in Hb; [|done]. by apply (Hsub k _ Hk Hb).
    + unfold LookupNonKEYRecord in Hr'. case_bool_decide; [done|]. rewrite E in Hr'.
      by destruct (WF_disjoint ∅ st _ r r' W Hr Hr').
  - intros [r Hr] Hgone. destruct (Hmay id) as [(k & Hk%Hks & Hb)|(rr & Hrr%Hrrs & E)].
    + right. congruence.
    + exists (n_RR r). pose proof (wf_nonKey _ _ W _ _ Hr) as [E _]. split; [done|].
      apply elem_of_app. right. apply reach_below in Hb; [|done]. by apply (Hsub k _ Hk Hb).
    + exists rr. split; [done|]. apply elem_of_app. left. apply list_elem_of_fmap. by exists rr.
Qed.

Lemma caseC_post h q now r w :
  WF (w_store w) -> is_Some (h_upstreamKey h) ->
  exists w' res, caseC h q now r w = Some (w', res) /\ request_post w w' res (deletes_only q now).
Proof.
  intros W Hkey. unfold caseC. case_match; [do 2 eexists; split; [done|by apply request_post_idle]|].
  pose proof (fun k => caseC_keys_spec q (w_store w) now k) as Hks.
  pose proof (fun rr => caseC_records_spec q (w_store w) rr) as Hrrs.
  destruct (caseC_keys q (w_store w) now) as [ks kn]. destruct (caseC_records q (w_store w)) as [rrs rn].
  cbn [fst] in Hks, Hrrs. case_match; [do 2 eexists; split; [done|by apply request_post_idle]|].
  destruct (subtree_deletes_all (w_store w) ks W) as (subs & -> & Hsub).
  { intros k [_ (rk & Hk & _)]%Hks. unfold LookupByKEY, lookup_live in Hk. destruct (leases _ !! _); [eauto|done]. }
  cbn [mbind option_bind]. rewrite send_ready by done. cbn [mbind option_bind]. destruct (o_err (send_update _ _ _)) as [e|] eqn:He.
  { do 2 eexists. split; [done|]. split; [done|]. left. cbn. split_and!; [done..|].
    eexists. split; [done|]. apply Forall_forall. intros s. by apply (send_err _ _ _ e). }
  apply send_ok in He as [zone Hs].
  destruct (remove_list_spec (NodeKey (q_signerKey q)) rrs (w_store w) W) as (st1 & Hf1 & W1 & Hl1 & Hn1).
  { intros rr r0 [_ (r1 & Hr1 & Hp)]%Hrrs Hr0. rewrite Normalize_NodeKey. revert Hr1. unfold LookupNonKEYRecord.
    case_bool_decide; [done|]. intros ?. congruence. }
  rewrite Hf1. destruct (caseC_forget_all ks (w_store w) (mkWorld st1 (w_timers w) (w_sent w ++ o_sent (send_update (h_upstream h) []
    (asDeletes rrs ++ concat subs)))) W W1) as (w' & Hf & W' & Hs' & H' & Hk').
  { split; intros id r0; cbn [w_store]; [by rewrite Hl1|]. rewrite Hn1. by case_bool_decide. }
  cbn [w_timers w_sent w_store]. cbn [w_timers w_sent w_store] in Hf. rewrite Hf. cbn [mbind option_bind].
  do 2 eexists. split; [done|]. split; [done|]. right. exists zone, (asDeletes rrs ++ concat subs).
  assert (Hdel : deletes_only q now (w_store w) (w_store w')) by (by eapply (caseC_apply_spec q now w st1 w' ks rrs)).
  split_and!; [rewrite Hs'; cbn; by rewrite Hs|by eapply caseC_confirmed|done].
Qed.
End plans.

(** ** What the prologue establishes *)

Section prologue.
Context {L : DnsLib} {LL : DnsLibLaws L} {SG : Sig0} {U : UpstreamCoordinator}.

(** The loop of [extractUpdateRecords] from any prefix. *)
Lemma extractUpdateRecords_ok msg bl keys others :
  extractUpdateRecords msg bl = Ok (keys, others) ->
  (forall k, k ∈ keys -> incomplete_KEY (key_Data k) = false) /\
  (forall rr, rr ∈ others -> rr ∈ Ns msg /\ as_KEY rr = None /\ RRToType rr ∉ bl).
Proof.
  unfold extractUpdateRecords. intros H. change keys with (keys, others).1. change others with (keys, others).2.
  eapply (foldM_inv (fun p : list KEY * list RR =>
    (forall k, k ∈ p.1 -> incomplete_KEY (key_Data k) = false) /\
    (forall rr, rr ∈ p.2 -> rr ∈ Ns msg /\ as_KEY rr = None /\ RRToType rr ∉ bl))); [| |exact H].
  - intros [ks os] rr [ks' os'] Hrr [H1 H2]. destruct (as_KEY rr) as [v|] eqn:Ev.
    + destruct (incomplete_KEY (key_Data v)) eqn:Ei; [done|]. intros [= <- <-]. cbn [fst snd] in *.
      split; [|done]. intros k [?| ->%list_elem_of_singleton]%elem_of_app; auto.
    + case_bool_decide; [done|]. intros [= <- <-]. cbn [fst snd] in *. split; [done|].
      intros x [?| ->%list_elem_of_singleton]%elem_of_app; auto.
  - cbn. split; intros x Hx; by apply not_elem_of_nil in Hx.
Qed.

Lemma verifyFromCandidates_ok msg cs b k :
  verifyFromCandidates msg cs b = Ok (Some k) -> k ∈ cs /\ VerifySignature msg k = Ok tt.
Proof.
  revert b. induction cs as [|c cs IH]; intros b; cbn [verifyFromCandidates]; [by destruct b|].
  destruct (VerifySignature msg c) as [[]|] eqn:E.
  - intros [= <-]. split; [by left|done].
  - intros [? ?]%IH. split; [by right|done].
Qed.

(** The signer: at or above the zone, and its key, with the SIG's tag and algorithm,
    verifies the message; a key from the request or from the lease store is the SIG's by
    name too. *)
Lemma extractAndValidateSig0_ok st now msg zone add upd sig k src :
  extractAndValidateSig0 st now msg zone add upd = Ok (sig, k, src) ->
  extractSig0 msg = Ok sig /\ VerifySignature msg k = Ok tt /\ Normalize (SignerName sig) <> "" /\
  IsAtOrBelow (Normalize zone) (Normalize (SignerName sig)) = true /\
  KeyTag (key_Data k) = sig_KeyTag sig /\ Algorithm (key_Data k) = sig_Algorithm sig /\
  (src <> signerKeySourceAuthoritative -> keyIDFromKEY k = keyIDFromSIG sig).
Proof.
  unfold extractAndValidateSig0. intros (s & Hs0 & H)%bind_ok. revert H.
  case_bool_decide as Hz; [done|]. cbn zeta. case_bool_decide as Hs; [done|].
  destruct (IsAtOrBelow _ _) eqn:Hb; [|done]. cbn [negb]. intros (res & Hres & H)%bind_ok.
  assert (Hm : forall k, matches_signer (Normalize (SignerName s)) s k = true ->
    KeyTag (key_Data k) = sig_KeyTag s /\ Algorithm (key_Data k) = sig_Algorithm s /\ keyIDFromKEY k = keyIDFromSIG s).
  { intros k0. unfold matches_signer. rewrite !andb_true_iff, !Z.eqb_eq, bool_decide_eq_true. intros [[Hn Ht] Ha].
    split_and!; [done|done|]. unfold keyIDFromKEY, keyIDFromSIG. congruence. }
  destruct res as [k1|].
  { injection H as <- <- <-. apply verifyFromCandidates_ok in Hres as [[Hk _]%list_elem_of_filter Hv].
    apply Hm in Hk as (? & ? & ?). by split_and!. }
  apply bind_ok in H as (stored & Hst & H). destruct stored as [k1|].
  { injection H as <- <- <-. destruct (LookupBySIG _ _ _ _ _) as [rec|]; [|done].
    destruct (matches_signer _ _ _) eqn:Hk; [|done].
    apply verifyFromCandidates_ok in Hst as [->%list_elem_of_singleton Hv]. apply Hm in Hk as (? & ? & ?). by split_and!. }
  apply bind_ok in H as (rrs & _ & H). destruct (filter _ (omap as_KEY rrs)) as [|c cs] eqn:Hf; [done|].
  apply bind_ok in H as (res & Hres2 & H). destruct res as [k1|]; [|done]. injection H as <- <- <-.
  apply verifyFromCandidates_ok in Hres2 as [Hk Hv]. rewrite <- Hf in Hk.
  apply list_elem_of_filter in Hk as [[? ?] _]. by split_and!.
Qed.

Lemma validateSignerHierarchy_ok name keys others u :
  validateSignerHierarchyForUpdateRecords name keys others = Ok u ->
  (forall k, k ∈ keys -> IsAtOrBelow (Normalize (Name (key_Hdr k))) (Normalize name) = true) /\
  (forall rr, rr ∈ others -> IsAtOrBelow (Normalize (Name (Hdr rr))) (Normalize name) = true).
Proof.
  unfold validateSignerHierarchyForUpdateRecords. case_bool_decide; [done|].
  intros ([] & H1 & H2)%bind_ok. destruct u. rewrite foldM_ok_each in H1. cbn beta in H2. rewrite foldM_ok_each in H2. split.
  - intros k Hk. specialize (H1 k Hk). revert H1. cbn zeta. case_bool_decide; [done|]. case_bool_decide as E.
    + intros _. rewrite E. apply IsAtOrBelow_refl.
    + by destruct (IsAtOrBelow _ _).
  - intros rr Hrr. specialize (H2 rr Hrr). revert H2. cbn zeta. by destruct (IsAtOrBelow _ _).
Qed.

(** Everything [Handle] knows of a request it goes on with. *)
Record authenticated (h : UpdateHandler) (r : Msg) (q : Request) : Prop := {
  au_verified : VerifySignature r (q_signerKey q) = Ok tt;
  au_key : KeyTag (key_Data (q_signerKey q)) = sig_KeyTag (q_sig q) /\
           Algorithm (key_Data (q_signerKey q)) = sig_Algorithm (q_sig q) /\
           (q_source q <> signerKeySourceAuthoritative -> NodeKey (q_signerKey q) = signer_node q);
  au_signer : Normalize (SignerName (q_sig q)) <> "" /\
              IsAtOrBelow (Normalize (q_zone q)) (Normalize (SignerName (q_sig q))) = true;
  au_keys : forall k, k ∈ q_keys q -> incomplete_KEY (key_Data k) = false /\
              IsAtOrBelow (Normalize (Name (key_Hdr k))) (Normalize (SignerName (q_sig q))) = true;
  au_others : forall rr, rr ∈ q_others q -> as_KEY rr = None /\ (RRToType rr ∉ h_blacklistedTypes h) /\
              IsAtOrBelow (Normalize (Name (Hdr rr))) (Normalize (SignerName (q_sig q))) = true;
  au_ttl : (forall k, k ∈ q_keys q -> TTL (key_Hdr k) = Z.min (h_recordTTL h) (q_keyLease q)) /\
           (forall rr, rr ∈ q_others q -> TTL (Hdr rr) = Z.min (h_recordTTL h) (q_lease q)) }.

Lemma set_TTL_same ttl rr :
  as_KEY rr = None -> as_KEY (set_TTL ttl rr) = None /\ RRToType (set_TTL ttl rr) = RRToType rr /\
  rr_wf (set_TTL ttl rr) = rr_wf rr.
Proof. unfold as_KEY. cbn. by destruct (RD rr). Qed.

Lemma prologue_inv h st now r q :
  prologue h st now r = inr q ->
  exists qst l0 k0 keys0 others0 add g,
    hasUpdateLeaseOption r = true /\ Question r = [qst] /\ q_zone q = q_Name qst /\
    parseLease (h_LeasePolicy h) (h_prefer4ByteVariant h) r = Ok (l0, k0) /\
    clamp (h_LeasePolicy h) l0 k0 = (q_lease q, q_keyLease q) /\
    extractUpdateRecords r (h_blacklistedTypes h) = Ok (keys0, others0) /\
    extractAndValidateSig0 st now r (q_zone q) add keys0 = Ok (q_sig q, q_signerKey q, q_source q) /\
    q_keys q = map (key_set_TTL (Z.min (h_recordTTL h) (q_keyLease q))) keys0 /\
    q_others q = map (set_TTL (Z.min (h_recordTTL h) (q_lease q))) others0 /\
    validateSignerHierarchyForUpdateRecords (SignerName (q_sig q)) (q_keys q) (q_others q) = Ok tt /\
    groupOtherRecordsByTargetKey (signer_of q) (q_keys q) (q_others q) false = Ok g /\ q_groups q = g.
Proof.
  unfold prologue. destruct (hasUpdateLeaseOption r) eqn:Hopt; [|done]. cbn [negb].
  destruct (refuseDottedLabels r); [done|]. destruct (Question r) as [|qst [|]]; [done| |done].
  destruct (parseLease _ _ _) as [[l0 k0]|] eqn:Hp; [|done]. destruct (clamp _ l0 k0) as [l k] eqn:Hc.
  destruct (extractUpdateRecords _ _) as [[keys0 others0]|] eqn:He; [|done].
  destruct (extractAdditionalSigningKeys r) as [add|]; [|done].
  destruct (extractAndValidateSig0 _ _ _ _ _ _) as [[[sig sk] src]|] eqn:Hs; [|done]. cbn zeta.
  destruct (validateSignerHierarchyForUpdateRecords _ _ _) as [[]|] eqn:Hv; [|done].
  destruct (groupOtherRecordsByTargetKey _ _ _ _) as [g|] eqn:Hg; [|done]. intros [= <-]. cbn.
  exists qst, l0, k0, keys0, others0, add, g. by split_and!.
Qed.

Lemma prologue_authenticated h st now r q : prologue h st now r = inr q -> authenticated h r q.
Proof.
  intros (qst & l0 & k0 & keys0 & others0 & add & g & _ & _ & _ & _ & _ & He & Hs & Hk & Ho & Hv & _)%prologue_inv.
  apply extractUpdateRecords_ok in He as [He1 He2].
  apply extractAndValidateSig0_ok in Hs as (_ & Hver & Hne & Hb & Ht & Ha & Hid).
  apply validateSignerHierarchy_ok in Hv as [Hv1 Hv2]. split.
  - done.
  - split_and!; [done..|]. intros Hsrc. by apply keyID_NodeKey, Hid.
  - done.
  - intros k Hin. split; [|auto]. rewrite Hk in Hin. apply list_elem_of_fmap in Hin as (k1 & -> & Hin). exact (He1 k1 Hin).
  - intros rr Hin. pose proof (Hv2 rr Hin). rewrite Ho in Hin. apply list_elem_of_fmap in Hin as (r1 & -> & Hin).
    apply He2 in Hin as (_ & Hnk & Hbl). destruct (set_TTL_same (Z.min (h_recordTTL h) (q_lease q)) r1 Hnk) as (-> & -> & _).
    by split_and!.
  - rewrite Hk, Ho. split; intros x (y & -> & _)%list_elem_of_fmap; done.
Qed.

Lemma prologue_request_ok h st now r q :
  prologue h st now r = inr q -> Forall (fun rr => rr_wf rr = true) (Ns r) ->
  signer_name_ok q -> request_ok q.
Proof.
  intros (qst & l0 & k0 & keys0 & others0 & add & g & _ & _ & _ & _ & _ & He & _ & _ & Ho & _ & Hg & Hgq)%prologue_inv Hwf Hn.
  split; [done| |].
  - intros id. rewrite Hgq. revert Hg. unfold groupOtherRecordsByTargetKey. destruct (q_others q) as [|rr rest]; cbn [negb]; intros Hg; injection Hg as <-.
    + by destruct (bool_decide (id = signer_of q)).
    + cbn [negb group_add group_get]. destruct (decide (id = signer_of q)) as [->|Hid].
      * by rewrite !bool_decide_true.
      * by rewrite !bool_decide_false.
  - rewrite Ho. apply Forall_forall. intros rr (r1 & -> & Hin)%list_elem_of_fmap.
    apply extractUpdateRecords_ok in He as [_ He2]. apply He2 in Hin as (Hin & Hnk & _).
    destruct (set_TTL_same (Z.min (h_recordTTL h) (q_lease q)) r1 Hnk) as (_ & _ & ->).
    rewrite Forall_forall in Hwf. auto.
Qed.
End prologue.
