(* ===== verification/UpdateTheorems.v ===== *)
(** * What the RFC 9664 handler guarantees

    Theorems on [Handle]: only a verified request has an effect, nothing is stored or
    forgotten before the upstream confirmed it, a request stays with its signer's nodes and
    inside its lock set, deletes need ownership, and the reply carries what was granted. *)

From Stdlib Require Import Ascii String ZArith Lia.
From S2P Require Import Prelude DnsName DnsData NodeIdent LeaseStore LeaseTree LeaseInv LeaseSpec LeaseOption LeasePolicy.
From S2P Require Import UpdateCore HandlerBase Expiry UpdateHandler UpdateFootprint.

Local Open Scope Z_scope.

(** A request as the decoder produces it: well-formed records, and no empty label at the
    end of the signer's name. *)
Definition decoded (r : Msg) : Prop :=
  Forall (fun rr => rr_wf rr = true) (Ns r) /\
  forall sig, extractSig0 r = Ok sig -> Normalize (Normalize (SignerName sig)) = Normalize (SignerName sig).

Section theorems.
Context {L : DnsLib} {LL : DnsLibLaws L} {SG : Sig0} {U : UpstreamCoordinator}.

Lemma decoded_request_ok h st now r q : prologue h st now r = inr q -> decoded r -> request_ok q.
Proof.
  intros Hp [Hwf Hsig]. eapply prologue_request_ok; [done..|]. apply Hsig.
  apply prologue_inv in Hp as (? & ? & ? & ? & ? & ? & ? & _ & _ & _ & _ & _ & _ & Hs & _).
  by apply extractAndValidateSig0_ok in Hs as [? _].
Qed.

(** One request that passed the prologue and holds its locks. *)
Lemma dispatch_post h q now now' r w :
  request_ok q -> WF (w_store w) -> is_Some (h_upstreamKey h) ->
  exists w' res, dispatch h q now now' r w = Some (w', res) /\
    request_post w w' res (fun st st' =>
      if deleting q then deletes_only q now st st'
      else exists adding p, plan_ok adding q st now p /\ changes q (p_mutations p) st st').
Proof.
  intros Hq W Hkey. destruct (deleting q) eqn:Hd; [|by apply dispatch_plan_post].
  destruct (caseC_post h q now r w W Hkey) as (w' & res & Hc & Hp). exists w', res. split; [|done].
  unfold deleting in Hd. apply andb_true_iff in Hd as [Hk Hl]. unfold dispatch. by rewrite Hk, Hl.
Qed.

Lemma prologue_inl_status h st now r res : prologue h st now r = inl res -> Status res <> StatusProcessed.
Proof.
  unfold prologue. case_match; [by intros [= <-]|].
  destruct (refuseDottedLabels r) as [res'|] eqn:E.
  { intros [= <-]. revert E. unfold refuseDottedLabels. repeat case_match; try done; by intros [= <-]. }
  repeat (case_match; try (by intros [= <-])); done.
Qed.

(** [Handle] is the prologue, then, with the locks, the dispatch. *)
Lemma Handle_cases h acquired st0 now0 now now' r w w' res :
  Handle h acquired st0 now0 now now' r w = Some (w', res) ->
  (w' = w /\ Status res <> StatusProcessed) \/
  (acquired = true /\ exists q, prologue h st0 now0 r = inr q /\ dispatch h q now now' r w = Some (w', res)).
Proof.
  unfold Handle. case_match; [done|]. destruct (prologue h st0 now0 r) as [res0|q] eqn:Hp.
  - intros [= <- <-]. left. split; [done|]. by eapply prologue_inl_status.
  - destruct acquired; cbn [negb]; [|by intros [= <- <-]; left]. intros Hd. right. eauto.
Qed.

(** A request that passed the prologue found the signing key. *)
Lemma Handle_key h acquired st0 now0 now now' r w w' res q :
  prologue h st0 now0 r = inr q -> Handle h acquired st0 now0 now now' r w = Some (w', res) -> is_Some (h_upstreamKey h).
Proof.
  intros Hp HH. destruct (hasUpdateLeaseOption r) eqn:Ho; [|unfold prologue in Hp; by rewrite Ho in Hp].
  unfold Handle in HH. rewrite Ho in HH. cbn [andb] in HH. destruct (requireUpstream h) eqn:E; [|done]. exact (proj1 (bool_decide_eq_true _) E).
Qed.

(** [C2] An UPDATE has no effect unless it is authenticated: if [Handle] sends anything,
    changes the store or a timer, or reports success, then the message verified under the
    signer's key, that key has the SIG(0)'s key tag and algorithm (and is the SIG(0)'s
    node, unless only the authoritative DNS knew it), the signer is at or above the zone
    and every record of the Update section is at or below the signer, every KEY is
    complete, no record is of a blacklisted type, and all of them carry the configured TTL
    cut to the granted lease. *)
Theorem unauthenticated_changes_nothing (h : UpdateHandler) (acquired : bool) (st0 : Store) (now0 now now' : Z)
    (r : Msg) (w w' : World) (res : HandlerResult) :
  Handle h acquired st0 now0 now now' r w = Some (w', res) ->
  (w' = w /\ Status res <> StatusProcessed) \/
  (acquired = true /\ exists q, prologue h st0 now0 r = inr q /\ authenticated h r q).
Proof.
  intros [?|(? & q & Hq & _)]%Handle_cases; [by left|right]. split; [done|]. exists q. split; [done|].
  by eapply prologue_authenticated.
Qed.

(** What one request leaves; [handle_confirmed_before_applied] below. *)
Lemma Handle_post (h : UpdateHandler) (acquired : bool) (st0 : Store) (now0 now now' : Z)
    (r : Msg) (w : World) :
  WF (w_store w) -> decoded r -> requireUpstream h = true ->
  exists w' res, Handle h acquired st0 now0 now now' r w = Some (w', res) /\ WF (w_store w') /\
    ((w_store w' = w_store w /\ w_timers w' = w_timers w /\
      exists extra, w_sent w' = w_sent w ++ extra /\ Forall (fun s => sent_ok s = false) extra) \/
     exists zone recs, w_sent w' = w_sent w ++ [mkSent zone [] recs true] /\
       confirmed recs (w_store w) (w_store w')).
Proof.
  intros W Hdec Hup. unfold Handle. rewrite Hup, andb_false_r.
  assert (Hidle : forall res : HandlerResult, exists w' res', Some (w, res) = Some (w', res') /\ WF (w_store w') /\
    ((w_store w' = w_store w /\ w_timers w' = w_timers w /\
      exists extra, w_sent w' = w_sent w ++ extra /\ Forall (fun s => sent_ok s = false) extra) \/
     exists zone recs, w_sent w' = w_sent w ++ [mkSent zone [] recs true] /\ confirmed recs (w_store w) (w_store w'))).
  { intros res. exists w, res. split_and!; [done..|]. left. split_and!; [done..|]. exists []. by rewrite app_nil_r. }
  destruct (prologue h st0 now0 r) as [res|q] eqn:Hp; [apply Hidle|].
  destruct acquired; cbn [negb]; [|apply Hidle].
  destruct (dispatch_post h q now now' r w) as (w' & res & Hd & W' & Hor); [by eapply decoded_request_ok|done|exact (proj1 (bool_decide_eq_true _) Hup)|].
  exists w', res. split_and!; [done..|]. destruct Hor as [?|(zone & recs & ? & ? & _)]; [by left|right; eauto].
Qed.

(** [C1] The handler never panics and never runs ahead of the upstream: from a well-formed
    store it always returns, the store stays well formed, and either the store and the
    timers are as they were and no UPDATE was confirmed, or exactly one UPDATE was sent and
    answered NOERROR; its records add every KEY that is new in the store and every record that
    is new or changed, they delete every one that is gone, and they add every KEY that was
    renewed unless the authoritative server had answered that there is a KEY at its name. *)
Theorem handle_confirmed_before_applied (h : UpdateHandler) (acquired : bool) (st0 : Store) (now0 now now' : Z)
    (r : Msg) (w : World) :
  WF (w_store w) -> decoded r -> requireUpstream h = true ->
  exists w' res, Handle h acquired st0 now0 now now' r w = Some (w', res) /\ WF (w_store w') /\
    ((w_store w' = w_store w /\ w_timers w' = w_timers w /\
      exists extra, w_sent w' = w_sent w ++ extra /\ Forall (fun s => sent_ok s = false) extra) \/
     exists zone recs, w_sent w' = w_sent w ++ [mkSent zone [] recs true] /\
       confirmed recs (w_store w) (w_store w')).
Proof. apply Handle_post. Qed.

(** What a change by a plan does to one KEY node and to one record. *)
Lemma plan_keys adding q st now p st' id :
  WF st -> plan_ok adding q st now p -> changes q (p_mutations p) st st' ->
  (forall r', leases st' !! id = Some r' -> leases st !! id = Some r' \/ id = signer_node q \/ k_Parent r' = signer_node q) /\
  (forall r, leases st !! id = Some r -> exists r', leases st' !! id = Some r' /\ (now <= k_ExpiresAt r -> k_Parent r' = k_Parent r)).
Proof.
  intros W Hp Hc. destruct (Hc id) as [[E|(m & k & r' & Hm & Hk & Hid & Hr' & Hpar)] _].
  { rewrite E. split; eauto. }
  assert (Hlive : forall r, leases st !! id = Some r -> now <= k_ExpiresAt r -> lookup_live now id st = Some r).
  { intros r Hr Hn. unfold lookup_live. rewrite Hr. cbn. unfold IsExpired. by rewrite (proj2 (Z.ltb_ge _ _)). }
  rewrite Hr'. destruct (mo_key _ _ _ _ (po_mut _ _ _ _ _ Hp m Hm) k Hk) as (_ & _ & Hown).
  assert (Hsp : k_Parent r' = signer_parent q k -> id = signer_node q \/ k_Parent r' = signer_node q).
  { unfold signer_parent. case_bool_decide; [left|right]; congruence. }
  destruct Hpar as [(Hnew & r & Hr & Ep)|(m' & Hm' & Hnew' & Ho' & Ep)].
  - rewrite Hnew in Hown. destruct Hown as (r1 & Hr1 & Hor). rewrite <- Hid in *.
    assert (r1 = r) as ->.
    { unfold lookup_live in Hr1. rewrite Hr in Hr1. cbn in Hr1. destruct (IsExpired now r); congruence. }
    split.
    + intros ? [= <-]. right. destruct Hor; [by left|right; congruence].
    + intros r0 Hr0. exists r'. split; [done|]. intros _. congruence.
  - split; [intros ? [= <-]; right; by apply Hsp|].
    intros r Hr. exists r'. split; [done|]. intros Hn. exfalso.
    assert (exists k', m_key m' = Some k') as [k' Hk'] by (destruct m'; try done; eauto).
    destruct (mo_key _ _ _ _ (po_mut _ _ _ _ _ Hp m' Hm') k' Hk') as (Hok & _ & Hdead).
    rewrite Hnew', <- Hok, Ho' in Hdead. rewrite (Hlive r Hr Hn) in Hdead. done.
Qed.

Lemma plan_records adding q st now p st' id rec :
  plan_ok adding q st now p -> changes q (p_mutations p) st st' ->
  nonKeyRecords st !! id = Some rec \/ nonKeyRecords st' !! id = Some rec ->
  nonKeyRecords st' !! id = nonKeyRecords st !! id \/ n_Parent rec ∈ signer_nodes q.
Proof.
  intros Hp Hc Hrec.
  assert (Hrem : forall m rr, m ∈ p_mutations p -> rr ∈ m_removals m -> id = RecordKey rr ->
    nonKeyRecords st !! id = Some rec -> n_Parent rec ∈ signer_nodes q).
  { intros m rr Hm Hrr -> Hr. destruct (mo_rem _ _ _ _ (po_mut _ _ _ _ _ Hp m Hm) rr Hrr) as (_ & Ho & Hpar).
    rewrite (Hpar rec Hr), Ho. by left. }
  destruct (Hc id) as [_ [E|[(m & r' & Hm & Hr' & Hin & Hid & Hpar & Hold)|[E (m & rr & Hm & Hrr & Hid)]]]]; [by left|right..].
  - destruct (mo_recs _ _ _ _ (po_mut _ _ _ _ _ Hp m Hm) _ Hin) as [_ Hs]. rewrite <- Hpar in Hs.
    destruct Hrec as [Hr|Hr]; [|congruence].
    destruct (Hold rec Hr) as [->|(m' & rr & Hm' & Hrr & Hid')]; eauto.
  - destruct Hrec; [eauto|congruence].
Qed.

(** A handled request, from the store it ran on to the store it left. *)
Lemma Handle_effect h acquired st0 now0 now now' r w w' res q :
  WF (w_store w) -> decoded r -> prologue h st0 now0 r = inr q ->
  Handle h acquired st0 now0 now now' r w = Some (w', res) ->
  w_store w' = w_store w \/
  if deleting q then deletes_only q now (w_store w) (w_store w')
  else exists adding p, plan_ok adding q (w_store w) now p /\ changes q (p_mutations p) (w_store w) (w_store w').
Proof.
  intros W Hdec Hp HH. pose proof (Handle_key _ _ _ _ _ _ _ _ _ _ _ Hp HH) as Hkey. apply Handle_cases in HH as [[-> _]|(_ & q' & Hq & Hd)]; [by left|].
  assert (q' = q) as -> by congruence.
  destruct (dispatch_post h q now now' r w) as (w1 & res1 & Hd1 & _ & Hor); [by eapply decoded_request_ok|done|done|].
  assert (w1 = w') as -> by congruence. destruct Hor as [[? _]|(_ & _ & _ & _ & ?)]; [by left|by right].
Qed.

(** [C3] A request that is not a delete stays with its signer: it deletes no KEY; every KEY
    node it adds or changes is the signer's own or a child of the signer; an unexpired KEY
    keeps its parent; and a record it adds, changes or removes is, before and after, owned
    by the signer's node. *)
Theorem request_stays_with_signer (h : UpdateHandler) (acquired : bool) (st0 : Store) (now0 now now' : Z)
    (r : Msg) (w w' : World) (res : HandlerResult) (q : Request) (id : string) :
  WF (w_store w) -> decoded r -> prologue h st0 now0 r = inr q -> deleting q = false ->
  Handle h acquired st0 now0 now now' r w = Some (w', res) ->
  (forall k', leases (w_store w') !! id = Some k' ->
     leases (w_store w) !! id = Some k' \/ id = signer_node q \/ k_Parent k' = signer_node q) /\
  (forall k, leases (w_store w) !! id = Some k -> exists k', leases (w_store w') !! id = Some k' /\
     (now <= k_ExpiresAt k -> k_Parent k' = k_Parent k)) /\
  (forall rec, nonKeyRecords (w_store w) !! id = Some rec \/ nonKeyRecords (w_store w') !! id = Some rec ->
     nonKeyRecords (w_store w') !! id = nonKeyRecords (w_store w) !! id \/ n_Parent rec ∈ signer_nodes q).
Proof.
  intros W Hdec Hp Hd HH. destruct (Handle_effect _ _ _ _ _ _ _ _ _ _ _ W Hdec Hp HH) as [->|Hch].
  { split_and!; eauto. }
  rewrite Hd in Hch. destruct Hch as (adding & p & Hpl & Hc).
  destruct (plan_keys adding q _ now p _ id W Hpl Hc). split_and!; [done..|].
  intros rec. by eapply plan_records.
Qed.

(** [C4] A delete needs ownership: a request with both leases zero only removes nodes; what
    it removes is the subtree of a named, unexpired KEY that is the signer itself or was
    registered by it, or a named record the signer owns; and if it removes anything at all,
    every such named KEY and record is gone. *)
Theorem delete_needs_ownership (h : UpdateHandler) (acquired : bool) (st0 : Store) (now0 now now' : Z)
    (r : Msg) (w w' : World) (res : HandlerResult) (q : Request) :
  WF (w_store w) -> decoded r -> prologue h st0 now0 r = inr q -> deleting q = true ->
  Handle h acquired st0 now0 now now' r w = Some (w', res) ->
  only_removes (w_store w) (w_store w') /\
  (forall id, leases (w_store w') !! id <> leases (w_store w) !! id \/
              nonKeyRecords (w_store w') !! id <> nonKeyRecords (w_store w) !! id -> may_delete q now (w_store w) id) /\
  (w_store w' = w_store w \/
   ((forall k, deletable_key q now (w_store w) k -> leases (w_store w') !! NodeKey k = None) /\
    (forall rr, deletable_record q (w_store w) rr -> nonKeyRecords (w_store w') !! RecordKey rr = None))).
Proof.
  intros W Hdec Hp Hd HH. destruct (Handle_effect _ _ _ _ _ _ _ _ _ _ _ W Hdec Hp HH) as [->|Hch].
  { split_and!; [by split|by intros id []|by left]. }
  rewrite Hd in Hch. destruct Hch as (? & ? & ? & ?). auto.
Qed.

Lemma lock_key q st k : k ∈ q_keys q -> NodeKey k ∈ requestLockSet q st.
Proof.
  intros Hk. unfold requestLockSet. cbn zeta. rewrite !elem_of_app. right; left.
  apply list_elem_of_In, in_concat.
  eexists. split; [apply in_map_iff; exists k; split; [reflexivity|by apply list_elem_of_In]|by left].
Qed.

Lemma lock_record q st rr : rr ∈ q_others q -> RecordKey rr ∈ requestLockSet q st.
Proof.
  intros Hk. unfold requestLockSet. cbn zeta. rewrite !elem_of_app. right; right. apply list_elem_of_fmap. eauto.
Qed.

Lemma lock_signer q st : signer_name_ok q -> deleting q = false -> signer_node q ∈ requestLockSet q st.
Proof.
  intros Hn Hd. unfold requestLockSet. cbn zeta. unfold deleting in Hd. rewrite andb_comm in Hd. rewrite Hd.
  cbn [negb]. rewrite signer_node_kid by done. apply elem_of_app. by left; left.
Qed.

Lemma lock_subtree q st k id :
  WF st -> deleting q = true -> k ∈ q_keys q -> below (abs st) (NodeKey k) id -> id ∈ requestLockSet q st.
Proof.
  intros W Hd Hk Hb. destruct (decide (id = NodeKey k)) as [->|Hne]; [by apply lock_key|].
  unfold requestLockSet. cbn zeta. unfold deleting in Hd. rewrite andb_comm in Hd. rewrite Hd.
  rewrite !elem_of_app. right; left. apply list_elem_of_In, in_concat.
  eexists. split; [apply in_map_iff; exists k; split; [reflexivity|by apply list_elem_of_In]|].
  right. apply list_elem_of_In.
  destruct (ListSubtreeKeys_spec st (NodeKey k)) as (bel & -> & Hbel). cbn [default]. apply Hbel.
  rewrite Normalize_NodeKey. split; [done|]. by apply reach_below.
Qed.

(** [C5] The node locks cover the request: any node whose KEY or record differs after
    [Handle] is among the ids [Handle] locked, those of [requestLockSet] on the store it
    then read. *)
Theorem changes_inside_lock_set (h : UpdateHandler) (acquired : bool) (st0 : Store) (now0 now now' : Z)
    (r : Msg) (w w' : World) (res : HandlerResult) (q : Request) (id : string) :
  WF (w_store w) -> decoded r -> prologue h st0 now0 r = inr q ->
  Handle h acquired st0 now0 now now' r w = Some (w', res) ->
  leases (w_store w') !! id <> leases (w_store w) !! id \/
  nonKeyRecords (w_store w') !! id <> nonKeyRecords (w_store w) !! id ->
  id ∈ requestLockSet q (w_store w).
Proof.
  intros W Hdec Hp HH Hdiff. pose proof (decoded_request_ok _ _ _ _ _ Hp Hdec) as Hq.
  destruct (Handle_effect _ _ _ _ _ _ _ _ _ _ _ W Hdec Hp HH) as [E|Hch]; [rewrite E in Hdiff; by destruct Hdiff|].
  destruct (deleting q) eqn:Hd.
  - destruct Hch as (_ & Hmay & _). apply Hmay in Hdiff as [(k & [Hk _] & Hb)|(rr & [Hrr _] & <-)].
    + by eapply lock_subtree.
    + by apply lock_record.
  - destruct Hch as (adding & p & Hpl & Hc). destruct (Hc id) as [Hkc Hrc].
    destruct Hdiff as [Hdiff|Hdiff].
    + destruct Hkc as [E|(m & k & r' & Hm & Hk & -> & _)]; [done|].
      destruct (mo_key _ _ _ _ (po_mut _ _ _ _ _ Hpl m Hm) k Hk) as (_ & [Hin| ->] & _); [by apply lock_key|].
      by apply lock_signer; [apply Hq|].
    + destruct Hrc as [E|[(m & r' & Hm & _ & Hin & -> & _)|(_ & m & rr & Hm & Hrr & ->)]]; [done|..]; apply lock_record.
      * by apply (mo_recs _ _ _ _ (po_mut _ _ _ _ _ Hpl m Hm)).
      * by apply (mo_rem _ _ _ _ (po_mut _ _ _ _ _ Hpl m Hm)).
Qed.

(** ** Replies *)

(** An error reply: to this request, with an rcode that is not NOERROR. *)
Definition error_reply (r : Msg) (res : HandlerResult) : Prop :=
  Status res = StatusError /\ exists m, Message res = Some m /\ ID (MsgHdr m) = ID (MsgHdr r) /\
    Response (MsgHdr m) = true /\ Rcode (MsgHdr m) <> RcodeSuccess.

(** A success reply that grants [lease] and [keyLease]: the client reads exactly these
    durations, and the notes, from it; it copies no section of the request. *)
Definition grant_reply (r : Msg) (lease keyLease : Z) (res : HandlerResult) : Prop :=
  Status res = StatusProcessed /\ exists m notes, Message res = Some m /\ ID (MsgHdr m) = ID (MsgHdr r) /\
    Response (MsgHdr m) = true /\ Rcode (MsgHdr m) = RcodeSuccess /\
    Question m = [] /\ Answer m = [] /\ Ns m = [] /\ Extra m = [] /\
    (forall l k, EffectiveLeaseDuration m l k = (lease, keyLease)) /\ StatusNotes m = notes.

Lemma error_result_reply r rc e : rc <> RcodeSuccess -> error_reply r (error_result r rc e).
Proof. intros H. split; [done|]. eexists. by split_and!. Qed.

Lemma granted_encodes lease keyLease :
  (lease <> 0 -> keyLease <> 0 -> lease <= keyLease) -> Validate (Encode8Byte lease keyLease) = Ok tt.
Proof.
  intros H. unfold Validate, Encode8Byte. cbn.
  destruct (keyLease =? 0) eqn:E1, (lease =? 0) eqn:E2, (keyLease <? lease) eqn:E3; cbn; try done; lia.
Qed.

Lemma success_reply r notes lease keyLease :
  uint32_ok lease -> uint32_ok keyLease -> (lease <> 0 -> keyLease <> 0 -> lease <= keyLease) ->
  grant_reply r lease keyLease (NewProcessedResult (buildSuccessResponse r notes lease keyLease)).
Proof.
  intros Hl Hk Hle. split; [done|]. eexists _, notes. split; [done|].
  unfold buildSuccessResponse, appendStatusNotes, leaseResponse, Encode. rewrite granted_encodes by done.
  cbn [mbind result_bind]. cbn [MsgHdr ID Response Rcode Question Answer Ns Extra Pseudo updateResponse].
  split_and!; [done..| |].
  - intros l k. unfold EffectiveLeaseDuration, FindAndDecode, FindOption, DecodeOption. cbn [Pseudo app map].
    cbn [FindOption_scan RD lease_erfc]. rewrite Z.eqb_refl.
    rewrite (decode_encoded (Encode8Byte lease keyLease)) by (done || by apply granted_encodes). done.
  - unfold StatusNotes. cbn [Pseudo app map omap list_omap RD]. clear. induction notes as [|n ns IH]; [done|].
    cbn. by f_equal.
Qed.

Lemma clamp_ok p l k l' k' :
  clamp p l k = (l', k') -> policy_nonneg p -> uint32_ok (MaxRRLease p) -> uint32_ok (MaxKeyLease p) ->
  uint32_ok (MinRRLease p) -> uint32_ok (MinKeyLease p) -> uint32_ok l -> uint32_ok k ->
  uint32_ok l' /\ uint32_ok k' /\ (l' <> 0 -> k' <> 0 -> l' <= k').
Proof.
  unfold clamp, clampLease, policy_nonneg, uint32_ok. intros H ???????. revert H.
  repeat match goal with |- context [if ?b then _ else _] => destruct b eqn:? end;
    intros [= <- <-]; zb; split_and!; intros; zb; lia.
Qed.

(** Every early return of the cases is an error reply. *)
Ltac early_return :=
  repeat (case_match; try done); intros; simplify_eq; by apply error_result_reply.

Lemma foldP_error {A} r (f : A -> HandlerResult + Plan) l p res :
  (forall x res, f x = inl res -> error_reply r res) -> foldP f l p = inl res -> error_reply r res.
Proof.
  intros Hf. revert p. induction l as [|x l IH]; intros p; cbn [foldP]; [done|].
  destruct (f x) as [res'|p'] eqn:E; [|apply IH]. intros [= <-]. eauto.
Qed.

Lemma caseA_error h q st now r res : caseA h q st now r = inl res -> error_reply r res.
Proof.
  unfold caseA. do 2 (case_match; [intros [= <-]; by apply error_result_reply|]).
  destruct (foldP _ _ _) as [res'|p] eqn:E.
  - intros [= <-]. eapply foldP_error; [|exact E]. intros k res0. unfold caseA_key. early_return.
  - early_return.
Qed.

Lemma caseB_error h q st now r res : caseB h q st now r = inl res -> error_reply r res.
Proof. unfold caseB. early_return. Qed.

Lemma caseD_error h q st now r res : caseD h q st now r = inl res -> error_reply r res.
Proof.
  unfold caseD. case_match; [intros [= <-]; by apply error_result_reply|].
  apply foldP_error. intros k res0. unfold caseD_key. cbn zeta. early_return.
Qed.

(** The reply to a request that reached the cases. *)
Lemma dispatch_reply h q now now' r w w' res :
  uint32_ok (q_lease q) -> uint32_ok (q_keyLease q) -> (q_lease q <> 0 -> q_keyLease q <> 0 -> q_lease q <= q_keyLease q) ->
  dispatch h q now now' r w = Some (w', res) -> error_reply r res \/ grant_reply r (q_lease q) (q_keyLease q) res.
Proof.
  intros Hl Hk Hle. pose proof (fun notes => success_reply r notes _ _ Hl Hk Hle) as Hok.
  assert (Hep : forall p, epilogue h q now' r p w = Some (w', res) -> error_reply r res \/ grant_reply r (q_lease q) (q_keyLease q) res).
  { intros p. unfold epilogue. cbn zeta. destruct (if _ || _ || _ then _ else _) as [out|]; [|done]. cbn [mbind option_bind]. destruct (o_err _); [intros [= <- <-]; left; by apply error_result_reply|].
    destruct (apply_all _ _ _ _ _) as [w1 [[e|e]|]]; [|done|]; intros [= <- <-]; [left; by apply error_result_reply|by right]. }
  unfold dispatch. case_match; [|case_match; [|case_match]].
  - destruct (caseA _ _ _ _ _) eqn:E; [|apply Hep]. intros [= <- <-]. left. by eapply caseA_error.
  - destruct (caseB _ _ _ _ _) eqn:E; [|apply Hep]. intros [= <- <-]. left. by eapply caseB_error.
  - unfold caseC. case_match; [intros [= <- <-]; left; by apply error_result_reply|].
    destruct (caseC_keys _ _ _) as [ks kn], (caseC_records _ _) as [rrs rn].
    case_match; [intros [= <- <-]; by right|]. destruct (mapM _ _) as [subs|]; [|done]. cbn [mbind option_bind].
    destruct (send _ _ _) as [out|]; [|done]. cbn [mbind option_bind]. destruct (o_err _); [intros [= <- <-]; left; by apply error_result_reply|].
    destruct (foldM _ _ _) as [st1|]; [|done]. destruct (foldl _ _ _) as [w1|]; [|done]. cbn.
    intros [= <- <-]. by right.
  - destruct (caseD _ _ _ _ _) eqn:E; [|apply Hep]. intros [= <- <-]. left. by eapply caseD_error.
Qed.

Definition policy_uint32 (p : LeasePolicy) : Prop :=
  uint32_ok (MinKeyLease p) /\ uint32_ok (MaxKeyLease p) /\ uint32_ok (MinRRLease p) /\ uint32_ok (MaxRRLease p).

Lemma prologue_error h st now r res :
  hasUpdateLeaseOption r = true -> prologue h st now r = inl res -> error_reply r res.
Proof.
  intros Hopt. unfold prologue. rewrite Hopt. cbn [negb]. destruct (refuseDottedLabels r) as [res'|] eqn:E.
  - intros [= <-]. revert E. unfold refuseDottedLabels. early_return.
  - early_return.
Qed.

(** Every reply is either an error or a grant: an UPDATE without the lease option is
    left alone (no reply); otherwise the reply answers the request, and it is either an
    error with a non-zero rcode, or NOERROR carrying the durations that were granted to it
    after clamping, so that a client computes its expiry from what the proxy granted. *)
Theorem reply_carries_grant (h : UpdateHandler) (acquired : bool) (st0 : Store) (now0 now now' : Z)
    (r : Msg) (w w' : World) (res : HandlerResult) :
  policy_uint32 (h_LeasePolicy h) ->
  Handle h acquired st0 now0 now now' r w = Some (w', res) ->
  if negb (hasUpdateLeaseOption r) then Status res = StatusNotRelevant /\ Message res = None /\ w' = w
  else error_reply r res \/
       exists q, prologue h st0 now0 r = inr q /\ grant_reply r (q_lease q) (q_keyLease q) res.
Proof.
  intros (P1 & P2 & P3 & P4). unfold Handle. destruct (hasUpdateLeaseOption r) eqn:Hopt; cbn [negb andb].
  2:{ unfold prologue. rewrite Hopt. by intros [= <- <-]. }
  case_match; [done|]. destruct (prologue h st0 now0 r) as [res0|q] eqn:Hp.
  - intros [= <- <-]. left. by eapply prologue_error.
  - destruct acquired; cbn [negb]; [|intros [= <- <-]; left; by apply error_result_reply].
    pose proof (prologue_inv _ _ _ _ _ Hp) as (qst & l0 & k0 & _ & _ & _ & _ & _ & _ & _ & Hpl & Hc & _).
    apply parseLease_ok in Hpl as (Hl0 & Hk0 & _).
    apply clamp_ok in Hc as (Hl & Hk & Hle); [|unfold policy_nonneg, uint32_ok in *; lia|done..].
    intros Hd. destruct (dispatch_reply _ _ _ _ _ _ _ _ Hl Hk Hle Hd); [by left|right; eauto].
Qed.
End theorems.

(** ** Concrete requests *)

Definition ex_handler : UpdateHandler :=
  mkUpdateHandler "example.org." (Some DemoUp.proxy_key) (mkLeasePolicy 0 0 0 0) 300 false false [].

(** A request of [ex_key], with its lease option and its SIG(0), on the given records. *)
Definition ex_request (option_hex : string) (records : list RR) : Msg :=
  mkMsg (mkMsgHeader 7 OpcodeUpdate false false false false 0 0) [mkQuest "host.example.org." 1 TypeSOA] [] records []
    [mkRR (mkHeader "" 0 0) (RD_EDNS0 (ERFC3597 2 option_hex));
     mkRR (mkHeader "" 0 0) (RD_SIG (mkSigData 15 0 0 0 0 (@KeyTag Demo.lib (key_Data ex_key)) "host.example.org." ""))] [].

(** A full registration (3600 s, 7200 s), and a delete of the KEY. *)
Definition ex_register : Msg := ex_request "00000e1000001c20" [KEY_RR ex_key; ex_a].
Definition ex_delete : Msg := ex_request "0000000000000000" [KEY_RR ex_key].

Definition ex_handle (r : Msg) (w : World) : option (World * HandlerResult) :=
  Handle (L := Demo.lib) (SG := DemoUp.sig0) (U := DemoUp.upstream) ex_handler true (w_store w) 5 5 6 r w.

Definition ex_q (r : Msg) : Request :=
  match prologue (L := Demo.lib) (SG := DemoUp.sig0) (U := DemoUp.upstream) ex_handler ex_store 5 r with
  | inr q => q | inl _ => mkRequest "" 0 0 [] [] (mkSigData 0 0 0 0 0 0 "" "") ex_key signerKeySourceUnknown [] end.

Definition ex_result (r : Msg) : World * HandlerResult :=
  default (ex_world, NewNotRelevantResult "") (ex_handle r ex_world).

Lemma decoded_ex o rs : Forall (fun rr => rr_wf rr = true) rs -> decoded (ex_request o rs).
Proof. intros H. split; [done|]. intros sig Hs. cbn in Hs. injection Hs as <-. vm_compute. reflexivity. Qed.

Lemma decoded_register : decoded ex_register.
Proof. apply decoded_ex. repeat constructor. Qed.

Lemma decoded_delete : decoded ex_delete.
Proof. apply decoded_ex. repeat constructor. Qed.

Lemma unauthenticated_changes_nothing_witness :
  Status (ex_result ex_register).2 = StatusProcessed /\
  VerifySignature (Sig0 := DemoUp.sig0) ex_register (q_signerKey (ex_q ex_register)) = Ok tt.
Proof.
  split; [vm_compute; reflexivity|].
  destruct (unauthenticated_changes_nothing (L := Demo.lib) (SG := DemoUp.sig0) (U := DemoUp.upstream)
              ex_handler true ex_store 5 5 6 ex_register ex_world (ex_result ex_register).1 (ex_result ex_register).2
              ltac:(vm_compute; reflexivity)) as [[_ H]|(_ & q & _ & H)].
  - vm_compute in H. by destruct H.
  - reflexivity.
Defined.

Lemma handle_confirmed_before_applied_witness :
  exists w' res, ex_handle ex_register ex_world = Some (w', res) /\ length (w_sent w') = 1%nat.
Proof.
  destruct (handle_confirmed_before_applied (LL := Demo.laws) (SG := DemoUp.sig0) (U := DemoUp.upstream)
              ex_handler true ex_store 5 5 6 ex_register ex_world ex_store_WF
              decoded_register eq_refl) as (w' & res & H & _).
  exists w', res. split; [exact H|]. vm_compute in H. injection H as <- <-. vm_compute. reflexivity.
Defined.

Lemma request_stays_with_signer_witness :
  exists k', leases (w_store (ex_result ex_register).1) !! ex_parent_key = Some k' /\ k_Parent k' = "".
Proof.
  destruct (request_stays_with_signer (LL := Demo.laws) (SG := DemoUp.sig0) (U := DemoUp.upstream)
              ex_handler true ex_store 5 5 6 ex_register ex_world (ex_result ex_register).1 (ex_result ex_register).2
              (ex_q ex_register) ex_parent_key ex_store_WF decoded_register
              ltac:(vm_compute; reflexivity) ltac:(vm_compute; reflexivity) ltac:(vm_compute; reflexivity))
    as (_ & H & _).
  destruct (leases ex_store !! ex_parent_key) as [k|] eqn:E; [|vm_compute in E; discriminate E].
  destruct (H k E) as (k' & H1 & H2). exists k'. split; [exact H1|]. vm_compute in E. injection E as <-.
  rewrite H2; [reflexivity|]. vm_compute. discriminate.
Defined.

Lemma delete_needs_ownership_witness :
  only_removes ex_store (w_store (ex_result ex_delete).1) /\ leases (w_store (ex_result ex_delete).1) = ∅.
Proof.
  destruct (delete_needs_ownership (LL := Demo.laws) (SG := DemoUp.sig0) (U := DemoUp.upstream)
              ex_handler true ex_store 5 5 6 ex_delete ex_world (ex_result ex_delete).1 (ex_result ex_delete).2
              (ex_q ex_delete) ex_store_WF decoded_delete
              ltac:(vm_compute; reflexivity) ltac:(vm_compute; reflexivity) ltac:(vm_compute; reflexivity))
    as (H & _).
  split; [exact H|vm_compute; reflexivity].
Defined.

Lemma changes_inside_lock_set_witness : ex_parent_key ∈ requestLockSet (L := Demo.lib) (ex_q ex_delete) ex_store.
Proof.
  refine (changes_inside_lock_set (LL := Demo.laws) (SG := DemoUp.sig0) (U := DemoUp.upstream)
              ex_handler true ex_store 5 5 6 ex_delete ex_world (ex_result ex_delete).1 (ex_result ex_delete).2
              (ex_q ex_delete) ex_parent_key ex_store_WF decoded_delete
              ltac:(vm_compute; reflexivity) ltac:(vm_compute; reflexivity) _).
  left. vm_compute. discriminate.
Defined.

Lemma reply_carries_grant_witness :
  exists m, Message (ex_result ex_register).2 = Some m /\ EffectiveLeaseDuration m 1 1 = (3600, 7200).
Proof.
  pose proof (reply_carries_grant (L := Demo.lib) (SG := DemoUp.sig0) (U := DemoUp.upstream)
              ex_handler true ex_store 5 5 6 ex_register ex_world (ex_result ex_register).1 (ex_result ex_register).2
              ltac:(vm_compute; intuition discriminate) ltac:(vm_compute; reflexivity)) as H.
  change (hasUpdateLeaseOption ex_register) with true in H. cbn [negb] in H.
  destruct H as [[H _]|(q & Hq & _ & m & notes & Hm & H)]; [vm_compute in H; discriminate H|].
  exists m. split; [exact Hm|]. destruct H as (_ & _ & _ & _ & _ & _ & _ & H & _). rewrite H.
  vm_compute in Hq. injection Hq as <-. reflexivity.
Defined.
