(* ===== verification/DnsSd.v ===== *)
(** * DNS-SD names and the enumeration records

    pkg/dnssd: the shape of a service type and of a service instance name (names.go), and
    the targeted differences by which the enumeration records of a zone are kept up to date
    (enumeration.go). *)

From Stdlib Require Import Ascii String ZArith Lia.
From S2P Require Import Prelude DnsName DnsData.

Local Open Scope Z_scope.

(** ** Names *)

Definition isServiceLabel (label : string) : bool :=
  match label with
  | String c (String _ _) => bool_decide (c = "_"%char)
  | _ => false
  end.

Definition isProtoLabel (label : string) : bool :=
  bool_decide (label = "_tcp") || bool_decide (label = "_udp").

Definition ServiceTypeFromServiceName (name : string) : option string :=
  match Labels (Fold name) with
  | l0 :: l1 :: _ :: _ =>
      if negb (isServiceLabel l0) || negb (isProtoLabel l1) then None else Some (l0 +:+ "." +:+ l1)
  | _ => None
  end.

Definition ServiceTypeFromInstanceName (name : string) : option string :=
  let '(_, service, found) := CutFirstLabel name in
  if negb found then None else ServiceTypeFromServiceName service.

(** The loop of [validateServiceNameSyntax]: [prev] is the preceding character, if any;
    the result is whether a letter was seen. *)
Fixpoint service_name_loop (prev : option ascii) (s : string) (hasLetter : bool) : result bool :=
  match s with
  | EmptyString => Ok hasLetter
  | String c rest =>
      let n := N_of_ascii c in
      if ((97 <=? n) && (n <=? 122) || (65 <=? n) && (n <=? 90))%N then service_name_loop (Some c) rest true
      else if ((48 <=? n) && (n <=? 57))%N then service_name_loop (Some c) rest hasLetter
      else if bool_decide (c = "-"%char) then
        if bool_decide (prev = None) || bool_decide (rest = "") || bool_decide (prev = Some "-"%char)
        then Err "Service Name must not begin or end with a hyphen or contain adjacent hyphens"
        else service_name_loop (Some c) rest hasLetter
      else Err "Service Name may contain only letters, digits and hyphens"
  end.

Definition validateServiceNameSyntax (name : string) : result unit :=
  if (String.length name <? 1)%nat || (15 <? String.length name)%nat then Err "Service Name must be 1-15 characters"
  else
    hasLetter ← service_name_loop None name false;
    if negb hasLetter then Err "Service Name must contain at least one letter" else Ok tt.

Definition ValidateServiceType (svcType : string) : result unit :=
  match Labels svcType with
  | [service; proto] =>
      if negb (isProtoLabel (Fold proto)) then Err "service type: second label must be _tcp or _udp"
      else match service with
      | String c rest =>
          if bool_decide (c = "_"%char) then validateServiceNameSyntax rest
          else Err "service type: first label must be an underscore followed by the Service Name"
      | EmptyString => Err "service type: first label must be an underscore followed by the Service Name"
      end
  | _ => Err "service type must be exactly two labels"
  end.

(** ** Enumeration records *)

Definition EnumerationOwnerName (zone : string) : string := "_services._dns-sd._udp." +:+ zone.
Definition BrowsingOwnerName (svcType zone : string) : string := svcType +:+ "." +:+ zone.

Definition BrowseDomainPrefix : string := "b".
Definition DefaultBrowseDomainPrefix : string := "db".
Definition LegacyBrowseDomainPrefix : string := "lb".
Definition RegistrationDomainPrefix : string := "r".
Definition DefaultRegistrationDomainPrefix : string := "dr".

Definition DomainEnumerationOwnerName (prefix zone : string) : string := prefix +:+ "._dns-sd._udp." +:+ zone.

Definition PTR_RR (owner : string) (cls ttl : Z) (target : string) : RR := mkRR (mkHeader owner cls ttl) (RD_PTR target).

Definition DiffSelfPointingDomainRecord (prefix zone : string) (wasPresent isPresent : bool) (ttl : Z) : list RR :=
  if Bool.eqb wasPresent isPresent then []
  else if isPresent then [PTR_RR (DomainEnumerationOwnerName prefix zone) ClassINET ttl zone]
  else [PTR_RR (DomainEnumerationOwnerName prefix zone) ClassNONE 0 zone].

Definition dedupedSet (types : list string) : gset string :=
  list_to_set (filter (fun t => t <> "") (map Fold types)).

Definition ptr_of (rr : RR) : string := match RD rr with RD_PTR p => p | _ => "" end.

Definition ptr_le (a b : RR) : Prop := String.le (ptr_of a) (ptr_of b).

Global Instance ptr_le_dec : RelDecision ptr_le.
Proof. intros a b. unfold ptr_le. apply _. Defined.

Definition DiffEnumerationRecords (zone : string) (previous current : list string) (ttl : Z) : list RR :=
  let owner := EnumerationOwnerName zone in
  let prevSet := dedupedSet previous in
  let currSet := dedupedSet current in
  merge_sort ptr_le
    (map (fun t => PTR_RR owner ClassINET ttl (t +:+ "." +:+ zone)) (elements (currSet ∖ prevSet))
     ++ map (fun t => PTR_RR owner ClassNONE 0 (t +:+ "." +:+ zone)) (elements (prevSet ∖ currSet))).

(** ** What the differences do to a zone *)

(** The PTR targets at a name, as an UPDATE (RFC 2136 S3.4.2) leaves them: class IN adds a
    target, class NONE deletes it; records at other names or of other classes do not touch
    it. *)
Definition apply_ptr (owner : string) (targets : gset string) (rr : RR) : gset string :=
  if negb (bool_decide (Name (Hdr rr) = owner)) then targets
  else if Class (Hdr rr) =? ClassINET then {[ptr_of rr]} ∪ targets
  else if Class (Hdr rr) =? ClassNONE then targets ∖ {[ptr_of rr]}
  else targets.

Definition apply_ptrs (owner : string) (targets : gset string) (rrs : list RR) : gset string :=
  foldl (apply_ptr owner) targets rrs.

(** A list of adds and deletes with no target in both. *)
Lemma apply_ptrs_spec owner rrs targets x :
  (forall rr, rr ∈ rrs -> Name (Hdr rr) = owner /\ (Class (Hdr rr) = ClassINET \/ Class (Hdr rr) = ClassNONE)) ->
  (forall r1 r2, r1 ∈ rrs -> r2 ∈ rrs -> ptr_of r1 = ptr_of r2 -> Class (Hdr r1) = Class (Hdr r2)) ->
  x ∈ apply_ptrs owner targets rrs <->
  (exists rr, rr ∈ rrs /\ Class (Hdr rr) = ClassINET /\ ptr_of rr = x) \/
  (x ∈ targets /\ ~ exists rr, rr ∈ rrs /\ Class (Hdr rr) = ClassNONE /\ ptr_of rr = x).
Proof.
  revert targets. induction rrs as [|rr rrs IH]; intros targets Hc Hd; cbn [apply_ptrs foldl].
  { split; [|intros [(rr & Hrr & _)|[? _]]; [by apply not_elem_of_nil in Hrr|done]].
    intros ?. right. split; [done|]. intros (rr & Hrr & _). by apply not_elem_of_nil in Hrr. }
  fold (apply_ptrs owner (apply_ptr owner targets rr) rrs).
  rewrite IH; [|by intros; apply Hc; right|by intros; apply Hd; [right|right|]].
  destruct (Hc rr ltac:(by left)) as [Hn Hcl]. unfold apply_ptr. rewrite bool_decide_true by done. cbn [negb].
  setoid_rewrite elem_of_cons.
  assert (Hother : forall r, r ∈ rrs -> ptr_of r = ptr_of rr -> Class (Hdr r) = Class (Hdr rr)).
  { intros r Hr. apply Hd; [by right|by left]. }
  destruct Hcl as [Hcl|Hcl]; rewrite Hcl; cbn [Z.eqb ClassINET ClassNONE Pos.eqb].
  - rewrite elem_of_union, elem_of_singleton. split.
    + intros [(r & ? & ? & ?)|[[->|?] Hno]]; [left; exists r; auto|left; exists rr; auto|].
      right. split; [done|]. intros (r & [->|?] & Hcn & ?); [by rewrite Hcl in Hcn|]. apply Hno. eauto.
    + intros [(r & [->|?] & ? & ?)|[? Hno]]; [|left; eauto|right; split; [by right|]; intros (r & ? & ? & ?); apply Hno; eauto].
      right. split; [by left|]. intros (r & Hr & Hcr & Hx). specialize (Hother r Hr ltac:(congruence)).
      rewrite Hcl, Hcr in Hother. done.
  - rewrite elem_of_difference, elem_of_singleton. split.
    + intros [(r & ? & ? & ?)|[[? Hx] Hno]]; [left; exists r; auto|].
      right. split; [done|]. intros (r & [->|?] & ? & ?); [congruence|]. apply Hno. eauto.
    + intros [(r & [->|?] & Hcr & ?)|[? Hno]]; [by rewrite Hcl in Hcr|left; eauto|].
      right. split; [split; [done|]; intros ->; apply Hno; eauto|]. intros (r & ? & ? & ?). apply Hno. eauto.
Qed.

Lemma diff_elem zone previous current ttl rr :
  rr ∈ DiffEnumerationRecords zone previous current ttl <->
  (exists t, t ∈ dedupedSet current ∖ dedupedSet previous /\
     rr = PTR_RR (EnumerationOwnerName zone) ClassINET ttl (BrowsingOwnerName t zone)) \/
  (exists t, t ∈ dedupedSet previous ∖ dedupedSet current /\
     rr = PTR_RR (EnumerationOwnerName zone) ClassNONE 0 (BrowsingOwnerName t zone)).
Proof.
  unfold DiffEnumerationRecords. cbn zeta. rewrite merge_sort_Permutation, elem_of_app, !list_elem_of_fmap.
  setoid_rewrite elem_of_elements. split; (intros [(t & ? & ?)|(t & ? & ?)]; [left|right]; eauto).
Qed.

Lemma BrowsingOwnerName_inj t t' zone : BrowsingOwnerName t zone = BrowsingOwnerName t' zone -> t = t'.
Proof. unfold BrowsingOwnerName. apply string_app_inj_r. Qed.

(** The enumeration difference is exact and targeted: applied to the service types
    published for a zone it adds every current type and deletes exactly those that were
    previously this process's and no longer are; a type it was not told about, another
    registrar's say, stays as it was, and with nothing to change it is empty. *)
Lemma DiffEnumerationRecords_exact (zone : string) (previous current : list string) (ttl : Z) (targets : gset string) :
  let owner := EnumerationOwnerName zone in
  let diff := DiffEnumerationRecords zone previous current ttl in
  (forall t, BrowsingOwnerName t zone ∈ apply_ptrs owner targets diff <->
     (t ∈ dedupedSet current /\ t ∉ dedupedSet previous) \/
     (BrowsingOwnerName t zone ∈ targets /\ (t ∈ dedupedSet previous -> t ∈ dedupedSet current))) /\
  (dedupedSet previous = dedupedSet current -> diff = []).
Proof.
  cbn zeta. split.
  - intros t. rewrite apply_ptrs_spec.
    2:{ intros rr [(u & _ & ->)|(u & _ & ->)]%diff_elem; cbn; auto. }
    2:{ intros r1 r2 [(u & Hu & ->)|(u & Hu & ->)]%diff_elem [(v & Hv & ->)|(v & Hv & ->)]%diff_elem; cbn; try done;
        intros ->%BrowsingOwnerName_inj; set_solver. }
    setoid_rewrite diff_elem. split.
    + intros [(rr & Hrr & Hc & Hp)|[Hin Hno]].
      * destruct Hrr as [(u & Hu & ->)|(u & Hu & ->)]; [|done]. cbn in Hp. apply BrowsingOwnerName_inj in Hp as ->.
        left. set_solver.
      * right. split; [done|]. intros Hpr. destruct (decide (t ∈ dedupedSet current)) as [|Hn]; [done|].
        destruct Hno. eexists. split; [right; exists t; split; [set_solver|done]|done].
    + intros [[Hc Hp]|[Hin Himp]].
      * left. eexists. split; [left; exists t; split; [set_solver|done]|done].
      * right. split; [done|]. intros (rr & [(u & _ & ->)|(u & Hu & ->)] & Hc & Hp); [done|].
        cbn in Hp. apply BrowsingOwnerName_inj in Hp as ->. set_solver.
  - intros E. destruct (DiffEnumerationRecords zone previous current ttl) as [|rr l] eqn:Ed; [done|].
    assert (Hin : rr ∈ DiffEnumerationRecords zone previous current ttl) by (rewrite Ed; by left).
    apply diff_elem in Hin as [(u & Hu & _)|(u & Hu & _)]; set_solver.
Qed.
