(* ===== verification/SrpClassify.v ===== *)
(** * SRP updates: classification

    pkg/srp/instruction.go and names.go: [Classify] reads the Update section as RFC 9665
    instructions.  The source's instructions point at the records of the message, and later
    steps change those records in place through these pointers (the TTLs, the rewritten
    names), so here an instruction holds references: [ref], the position of a record in the
    Update section [ns], which plays the heap. *)

From Stdlib Require Import Ascii String ZArith Lia.
From S2P Require Import Prelude DnsName DnsData.

Local Open Scope Z_scope.

(** A position in the Update section. *)
Notation ref := nat (only parsing).

Record HostDescription := mkHost {
  host_Name : string;
  host_Delete : ref;
  host_Key : option ref;
  host_Addresses : list ref }.

Record ServiceInstance := mkInst {
  inst_Name : string;
  inst_Delete : ref;
  inst_Key : option ref;
  inst_SRV : option ref;
  inst_TXT : list ref;
  inst_removalShaped : bool }.

Record ServiceDiscovery := mkSD {
  sd_Name : string;
  sd_Target : string;
  sd_IsAdd : bool;
  sd_RR : ref;
  sd_BaseType : string }.

Record ClassifiedUpdate := mkCU {
  cu_Host : HostDescription;
  cu_Instances : list ServiceInstance;
  cu_Discovery : list ServiceDiscovery }.

(** The accumulator of the scan.  The source's map of instances and its list in order of
    sighting hold the same objects; here the list alone, searched by name.  [ptrAdds], the
    positions of the adds in [discovery], is the filter [sd_IsAdd]. *)
Record classifyState := mkCS {
  st_deletes : gmap string ref;
  st_consumed : gset string;
  st_host : option HostDescription;
  st_order : list ServiceInstance;
  st_discovery : list ServiceDiscovery;
  st_keyAdds : list ref }.

Definition ptrAdds (ds : list ServiceDiscovery) : list ServiceDiscovery := filter (fun d => sd_IsAdd d = true) ds.

(** ** names.go *)

(** [isSubtypePTROwner]: the base type of a subtype owner name. *)
Definition isSubtypePTROwner (owner : string) : option string :=
  match Labels (Fold owner) with
  | _ :: l1 :: rest =>
      if (2 <=? length rest)%nat && bool_decide (l1 = "_sub") then Some (JoinDot rest) else None
  | _ => None
  end.

Definition baseTypeOrEmpty (sub : option string) : string := default "" sub.

(** ** The scan *)

Fixpoint instance_named (name : string) (l : list ServiceInstance) : option ServiceInstance :=
  match l with
  | [] => None
  | inst :: l => if bool_decide (inst_Name inst = name) then Some inst else instance_named name l
  end.

(** The objects of the list are shared: changing one changes it in place. *)
Definition update_instance (name : string) (f : ServiceInstance -> ServiceInstance) (l : list ServiceInstance)
    : list ServiceInstance :=
  map (fun inst => if bool_decide (inst_Name inst = name) then f inst else inst) l.

Definition set_host (h : HostDescription) (st : classifyState) : classifyState :=
  mkCS (st_deletes st) (st_consumed st) (Some h) (st_order st) (st_discovery st) (st_keyAdds st).
Definition set_order (l : list ServiceInstance) (st : classifyState) : classifyState :=
  mkCS (st_deletes st) (st_consumed st) (st_host st) l (st_discovery st) (st_keyAdds st).
Definition consume (name : string) (st : classifyState) : classifyState :=
  mkCS (st_deletes st) ({[name]} ∪ st_consumed st) (st_host st) (st_order st) (st_discovery st) (st_keyAdds st).
Definition add_discovery (d : ServiceDiscovery) (st : classifyState) : classifyState :=
  mkCS (st_deletes st) (st_consumed st) (st_host st) (st_order st) (st_discovery st ++ [d]) (st_keyAdds st).
Definition add_key (i : ref) (st : classifyState) : classifyState :=
  mkCS (st_deletes st) (st_consumed st) (st_host st) (st_order st) (st_discovery st) (st_keyAdds st ++ [i]).

Definition addHostAddress (name : string) (i : ref) (st : classifyState) : result classifyState :=
  match st_deletes st !! name with
  | None => Err "srp: ADD with no preceding Delete All RRsets"
  | Some del =>
      match st_host st with
      | None => Ok (consume name (set_host (mkHost name del None [i]) st))
      | Some h =>
          if negb (bool_decide (host_Name h = name)) then Err "srp: more than one hostname in update"
          else Ok (set_host (mkHost (host_Name h) (host_Delete h) (host_Key h) (host_Addresses h ++ [i])) st)
      end
  end.

Definition instanceFor (name : string) (st : classifyState) : result classifyState :=
  match instance_named name (st_order st) with
  | Some _ => Ok st
  | None =>
      match st_deletes st !! name with
      | None => Err "srp: ADD for service instance with no preceding Delete All RRsets"
      | Some del => Ok (consume name (set_order (st_order st ++ [mkInst name del None None [] false]) st))
      end
  end.

Definition addPTR (name : string) (i : ref) (ptr : string) (cls : Z) (st : classifyState) : result classifyState :=
  let sub := isSubtypePTROwner name in
  let target := Fold ptr in
  if cls =? ClassINET then
    let found := match sub with
                 | None => true
                 | Some baseType =>
                     existsb (fun d => bool_decide (sd_BaseType d = "") && bool_decide (sd_Name d = baseType)
                                       && bool_decide (sd_Target d = target)) (ptrAdds (st_discovery st))
                 end in
    if negb found then Err "srp: subtype PTR add has no preceding base-type PTR add"
    else Ok (add_discovery (mkSD name target true i (baseTypeOrEmpty sub)) st)
  else if cls =? ClassNONE then Ok (add_discovery (mkSD name target false i (baseTypeOrEmpty sub)) st)
  else Err "srp: unrecognized PTR update".

(** The first pass: the Delete All RRsets of the update. *)
Definition collect_deletes (ns : list RR) : result (gmap string ref) :=
  foldM (fun dels '(i, rr) =>
           match RD rr with
           | RD_ANY =>
               let name := Fold (Name (Hdr rr)) in
               match dels !! name with
               | Some _ => Err "srp: more than one Delete All RRsets"
               | None => Ok (<[name := i]> dels)
               end
           | _ => Ok dels
           end)
        ∅ (imap pair ns).

(** The body of the second pass. *)
Definition classify_rr (st : classifyState) (p : ref * RR) : result classifyState :=
  let '(i, rr) := p in
  let name := Fold (Name (Hdr rr)) in
  let cls := Class (Hdr rr) in
  match RD rr with
  | RD_ANY => Ok st
  | RD_KEY _ => if negb (cls =? ClassINET) then Err "srp: unrecognized KEY update" else Ok (add_key i st)
  | RD_A _ => if negb (cls =? ClassINET) then Err "srp: unrecognized A update" else addHostAddress name i st
  | RD_AAAA _ => if negb (cls =? ClassINET) then Err "srp: unrecognized AAAA update" else addHostAddress name i st
  | RD_SRV _ _ _ _ =>
      if negb (cls =? ClassINET) then Err "srp: unrecognized SRV update"
      else
        st ← instanceFor name st;
        match instance_named name (st_order st) with
        | Some (mkInst _ _ _ (Some _) _ _) => Err "srp: more than one SRV add for service instance"
        | _ =>
            Ok (set_order (update_instance name
                  (fun inst => mkInst (inst_Name inst) (inst_Delete inst) (inst_Key inst) (Some i) (inst_TXT inst)
                                      (inst_removalShaped inst)) (st_order st)) st)
        end
  | RD_TXT _ =>
      if negb (cls =? ClassINET) then Err "srp: unrecognized TXT update"
      else
        st ← instanceFor name st;
        Ok (set_order (update_instance name
              (fun inst => mkInst (inst_Name inst) (inst_Delete inst) (inst_Key inst) (inst_SRV inst)
                                  (inst_TXT inst ++ [i]) (inst_removalShaped inst)) (st_order st)) st)
  | RD_PTR ptr => addPTR name i ptr cls st
  | _ => Err "srp: unrecognized RR type"
  end.

(** ** The reconciliation *)

Section reconcile.
Context (ns : list RR).

(** [dnsname.Fold(k.Hdr.Name)] of a referenced record. *)
Definition owner_of (i : ref) : string := from_option (fun rr => Fold (Name (Hdr rr))) "" (ns !! i).

(** [inst.SRV.Target]. *)
Definition srv_target (i : ref) : string :=
  match ns !! i with Some (mkRR _ (RD_SRV _ _ _ target)) => target | _ => "" end.

(** The host-removal fallback: the first KEY add at an unclaimed Delete All RRsets. *)
Fixpoint host_fallback (keys : list ref) (st : classifyState) : classifyState :=
  match keys with
  | [] => st
  | k :: keys =>
      let name := owner_of k in
      match st_deletes st !! name with
      | Some del => if negb (bool_decide (name ∈ st_consumed st))
                    then consume name (set_host (mkHost name del None []) st)
                    else host_fallback keys st
      | None => host_fallback keys st
      end
  end.

(** Every PTR add's target is an instance with an SRV. *)
Definition check_targets (st : classifyState) : result unit :=
  seqM (fun d => match instance_named (sd_Target d) (st_order st) with
                 | Some (mkInst _ _ _ (Some _) _ _) => Ok tt
                 | _ => Err "srp: Service Discovery add targets no Service Description in this update"
                 end) (ptrAdds (st_discovery st)).

(** Every instance with an SRV has a TXT, targets the host and is discoverable. *)
Definition check_instances (hostName : string) (st : classifyState) : result unit :=
  seqM (fun inst =>
          match inst_SRV inst with
          | None => Ok tt
          | Some srv =>
              if (length (inst_TXT inst) =? 0)%nat then Err "srp: service instance has an SRV add with no TXT add"
              else if negb (bool_decide (Fold (srv_target srv) = hostName))
              then Err "srp: service instance's SRV target does not match the Host Description name"
              else if negb (existsb (fun d => bool_decide (sd_Target d = inst_Name inst)) (ptrAdds (st_discovery st)))
              then Err "srp: service instance is not referenced by any Service Discovery add"
              else Ok tt
          end) (st_order st).

(** The unclaimed Delete All RRsets become removal-shaped instances.  The source visits them in
    the order of a Go map, which is unspecified; here in that of the finite map. *)
Definition add_removals (st : classifyState) : classifyState :=
  foldl (fun st '(name, del) =>
           if bool_decide (name ∈ st_consumed st) then st
           else consume name (set_order (st_order st ++ [mkInst name del None None [] true]) st))
        st (map_to_list (st_deletes st)).

(** One KEY add: the host's or an instance's, and only one each. *)
Definition assign_key (hl : HostDescription * list ServiceInstance) (k : ref)
    : result (HostDescription * list ServiceInstance) :=
  let '(host, insts) := hl in
  let name := owner_of k in
  if bool_decide (name = host_Name host) then
    match host_Key host with
    | None => Ok (mkHost (host_Name host) (host_Delete host) (Some k) (host_Addresses host), insts)
    | Some _ => Err "srp: more than one KEY add for host"
    end
  else
    match instance_named name insts with
    | None => Err "srp: KEY add is neither the Host Description name nor a service instance name"
    | Some inst =>
        match inst_Key inst with
        | Some _ => Err "srp: more than one KEY add for service instance"
        | None =>
            Ok (host, update_instance name
                  (fun inst => mkInst (inst_Name inst) (inst_Delete inst) (Some k) (inst_SRV inst) (inst_TXT inst)
                                      (inst_removalShaped inst)) insts)
        end
    end.

Definition classify_reconcile (st : classifyState) : result ClassifiedUpdate :=
  let st := match st_host st with None => host_fallback (st_keyAdds st) st | Some _ => st end in
  match st_host st with
  | None => Err "srp: update does not include a Host Description"
  | Some host =>
      _ ← check_targets st;
      _ ← check_instances (host_Name host) st;
      let st := add_removals st in
      hl ← foldM assign_key (host, st_order st) (st_keyAdds st);
      match host_Key hl.1 with
      | None => Err "srp: Host Description has no KEY add"
      | Some _ => Ok (mkCU hl.1 hl.2 (st_discovery st))
      end
  end.
End reconcile.

(** The two passes. *)
Definition scan (ns : list RR) : result classifyState :=
  dels ← collect_deletes ns;
  foldM classify_rr (mkCS dels ∅ None [] [] []) (imap pair ns).

Definition Classify (msg : Msg) : result ClassifiedUpdate :=
  st ← scan (Ns msg);
  classify_reconcile (Ns msg) st.

(** ** Instances by name *)

Definition option_list {A} (o : option A) : list A := match o with Some x => [x] | None => [] end.

Lemma instance_named_Some name l inst :
  instance_named name l = Some inst -> inst ∈ l /\ inst_Name inst = name.
Proof.
  induction l as [|x l IH]; cbn [instance_named]; [done|]. case_bool_decide as E.
  - intros [= <-]. split; [by left|done].
  - intros [? ?]%IH. split; [by right|done].
Qed.

Lemma instance_named_None name l : instance_named name l = None <-> name ∉ map inst_Name l.
Proof.
  induction l as [|x l IH]; cbn [instance_named map]; [split; [intros _; apply not_elem_of_nil|done]|].
  rewrite not_elem_of_cons. case_bool_decide as E; [split; [done|]; intros [? _]; congruence|].
  rewrite IH. split; [split; [congruence|done]|tauto].
Qed.

Lemma update_instance_names name g l :
  (forall inst, inst_Name (g inst) = inst_Name inst) -> map inst_Name (update_instance name g l) = map inst_Name l.
Proof.
  intros Hg. unfold update_instance. rewrite map_map. apply map_ext. intros inst. by case_bool_decide.
Qed.

Lemma update_instance_elem name g l x :
  x ∈ update_instance name g l -> (x ∈ l /\ inst_Name x <> name) \/ exists inst, inst ∈ l /\ inst_Name inst = name /\ x = g inst.
Proof.
  unfold update_instance. intros (inst & -> & Hin)%list_elem_of_fmap. case_bool_decide; [right; eauto|by left].
Qed.

Lemma update_instance_id name g l : name ∉ map inst_Name l -> update_instance name g l = l.
Proof.
  intros Hn. unfold update_instance. rewrite <- (map_id l) at 2. apply map_ext_in. intros inst Hin.
  case_bool_decide; [|done]. exfalso. apply Hn, list_elem_of_fmap. exists inst. split; [done|]. by apply list_elem_of_In.
Qed.

(** What one instance gains, the list gains. *)
Lemma update_instance_perm (f : ServiceInstance -> list ref) g name l inst extra :
  NoDup (map inst_Name l) -> instance_named name l = Some inst -> f (g inst) ≡ₚ extra ++ f inst ->
  concat (map f (update_instance name g l)) ≡ₚ extra ++ concat (map f l).
Proof.
  induction l as [|x l IH]; cbn [instance_named map]; [done|]. intros [Hx Hnd]%NoDup_cons.
  unfold update_instance. cbn [map]. fold (update_instance name g l). case_bool_decide as E.
  - intros [= ->] Hf. rewrite update_instance_id by (by rewrite <- E). cbn [concat]. rewrite Hf. by rewrite app_assoc.
  - intros Hi Hf. cbn [concat]. rewrite (IH Hnd Hi Hf). rewrite !app_assoc. f_equiv. apply Permutation_app_comm.
Qed.

(** ** The first pass *)

(** A record of the update, by position. *)
Definition is_ANY (rr : RR) : bool := match RD rr with RD_ANY => true | _ => false end.

Definition delete_at (ns : list RR) (name : string) (i : ref) : Prop :=
  exists rr, ns !! i = Some rr /\ is_ANY rr = true /\ Fold (Name (Hdr rr)) = name.

Lemma imap_pair_snoc (l : list RR) x : imap pair (l ++ [x]) = imap pair l ++ [(length l, x)].
Proof. rewrite imap_app. f_equal. cbn. by rewrite Nat.add_0_r. Qed.

Lemma lookup_snoc_cases (l : list RR) x i rr :
  (l ++ [x]) !! i = Some rr <-> l !! i = Some rr \/ (i = length l /\ rr = x).
Proof.
  rewrite lookup_app. destruct (l !! i) as [y|] eqn:E.
  - split; [by left|]. intros [?|[-> ->]]; [done|]. apply lookup_lt_Some in E. lia.
  - apply lookup_ge_None in E. split.
    + intros H. right. rewrite list_lookup_singleton_Some in H. destruct H as [? ->]. split; [lia|done].
    + intros [?|[-> ->]]; [done|]. by rewrite Nat.sub_diag.
Qed.

Lemma collect_deletes_spec ns dels :
  collect_deletes ns = Ok dels ->
  (forall name i, dels !! name = Some i <-> delete_at ns name i).
Proof.
  unfold collect_deletes. revert dels. induction ns as [|rr ns IH] using rev_ind; intros dels.
  { cbn. intros [= <-] name i. rewrite lookup_empty. split; [done|]. by intros (? & ? & _). }
  rewrite imap_pair_snoc, foldM_app. intros (d0 & Hd0 & H)%bind_ok. cbn [foldM] in H.
  apply bind_ok in H as (d1 & Hstep & [= <-]). specialize (IH d0 Hd0). intros name i.
  unfold delete_at in *. setoid_rewrite lookup_snoc_cases.
  assert (Hcase : (is_ANY rr = false /\ d1 = d0) \/
    (is_ANY rr = true /\ d0 !! Fold (Name (Hdr rr)) = None /\ d1 = <[Fold (Name (Hdr rr)) := length ns]> d0)).
  { revert Hstep. unfold is_ANY. destruct (RD rr); try (by intros [= <-]; left).
    destruct (d0 !! Fold (Name (Hdr rr))); [done|]. intros [= <-]. by right. }
  destruct Hcase as [[Ha ->]|(Ha & Hnone & ->)].
  - rewrite IH. split; [intros (x & ? & ?); eauto|]. intros (x & [?|[_ ->]] & ? & ?); [eauto|congruence].
  - destruct (decide (name = Fold (Name (Hdr rr)))) as [->|Hne].
    + rewrite lookup_insert_eq. split.
      * intros [= <-]. exists rr. auto.
      * intros (x & [Hx|[-> ->]] & Hxa & Hxn); [|done]. exfalso.
        assert (d0 !! Fold (Name (Hdr rr)) = Some i) by (apply IH; eauto). congruence.
    + rewrite lookup_insert_ne by done. rewrite IH. split; [intros (x & ? & ?); eauto|].
      intros (x & [?|[-> ->]] & ? & ?); [eauto|congruence].
Qed.

(** ** The second pass *)

(** The positions of the adds (and of the PTR deletes): every record but the Delete Alls. *)
Definition add_positions (ns : list RR) : list ref :=
  omap (fun p : ref * RR => if is_ANY p.2 then None else Some p.1) (imap pair ns).

Definition inst_adds (inst : ServiceInstance) : list ref :=
  option_list (inst_Key inst) ++ option_list (inst_SRV inst) ++ inst_TXT inst.

Definition scan_adds (st : classifyState) : list ref :=
  from_option host_Addresses [] (st_host st) ++ concat (map inst_adds (st_order st)) ++ map sd_RR (st_discovery st)
  ++ st_keyAdds st.

(** What is at a position. *)
Definition address_at (ns : list RR) (name : string) (i : ref) : Prop :=
  exists rr, ns !! i = Some rr /\ (RRToType rr = TypeA \/ RRToType rr = TypeAAAA) /\
    Class (Hdr rr) = ClassINET /\ Fold (Name (Hdr rr)) = name.

Definition srv_at (ns : list RR) (name : string) (i : ref) : Prop :=
  exists hdr p w port target, ns !! i = Some (mkRR hdr (RD_SRV p w port target)) /\
    Class hdr = ClassINET /\ Fold (Name hdr) = name.

Definition txt_at (ns : list RR) (name : string) (i : ref) : Prop :=
  exists hdr txt, ns !! i = Some (mkRR hdr (RD_TXT txt)) /\ Class hdr = ClassINET /\ Fold (Name hdr) = name.

Definition key_at (ns : list RR) (name : string) (i : ref) : Prop :=
  exists k, ns !! i = Some (KEY_RR k) /\ Class (key_Hdr k) = ClassINET /\ Fold (Name (key_Hdr k)) = name.

Definition ptr_at (ns : list RR) (d : ServiceDiscovery) : Prop :=
  exists hdr ptr, ns !! sd_RR d = Some (mkRR hdr (RD_PTR ptr)) /\ sd_Name d = Fold (Name hdr) /\ sd_Target d = Fold ptr /\
    Class hdr = (if sd_IsAdd d then ClassINET else ClassNONE) /\ sd_BaseType d = baseTypeOrEmpty (isSubtypePTROwner (sd_Name d)).

(** A subtype add follows a base-type add with its target. *)
Definition subtypes_ok (ds : list ServiceDiscovery) : Prop :=
  forall n d base, ds !! n = Some d -> sd_IsAdd d = true -> isSubtypePTROwner (sd_Name d) = Some base ->
    exists m d', (m < n)%nat /\ ds !! m = Some d' /\ sd_IsAdd d' = true /\ sd_BaseType d' = "" /\ sd_Name d' = base /\
      sd_Target d' = sd_Target d.

Record inst_ok (ns : list RR) (inst : ServiceInstance) : Prop := {
  io_del : delete_at ns (inst_Name inst) (inst_Delete inst);
  io_srv : forall i, inst_SRV inst = Some i -> srv_at ns (inst_Name inst) i;
  io_txt : forall i, i ∈ inst_TXT inst -> txt_at ns (inst_Name inst) i;
  io_key : forall i, inst_Key inst = Some i -> key_at ns (inst_Name inst) i }.

Record scan_inv (ns l : list RR) (st : classifyState) : Prop := {
  si_dels : forall name i, st_deletes st !! name = Some i <-> delete_at ns name i;
  si_adds : scan_adds st ≡ₚ add_positions l;
  si_host : forall h, st_host st = Some h -> host_Key h = None /\ delete_at ns (host_Name h) (host_Delete h) /\
              forall i, i ∈ host_Addresses h -> address_at ns (host_Name h) i;
  si_inst : forall inst, inst ∈ st_order st -> inst_ok ns inst /\ inst_Key inst = None /\ inst_removalShaped inst = false;
  si_names : NoDup (map inst_Name (st_order st));
  si_consumed : forall name, name ∈ st_consumed st <->
                  (exists h, st_host st = Some h /\ host_Name h = name) \/ name ∈ map inst_Name (st_order st);
  si_disc : forall d, d ∈ st_discovery st -> ptr_at ns d;
  si_sub : subtypes_ok (st_discovery st);
  si_keys : forall i, i ∈ st_keyAdds st -> exists name, key_at ns name i }.

Lemma add_positions_snoc l rr :
  add_positions (l ++ [rr]) = add_positions l ++ (if is_ANY rr then [] else [length l]).
Proof. unfold add_positions. rewrite imap_pair_snoc, omap_app. cbn. by destruct (is_ANY rr). Qed.

Lemma perm_mid (a b : list ref) i : (a ++ [i]) ++ b ≡ₚ (a ++ b) ++ [i].
Proof. rewrite <- !app_assoc. f_equiv. apply Permutation_app_comm. Qed.

Lemma addHostAddress_inv ns l st rr st' :
  scan_inv ns l st -> ns !! length l = Some rr -> is_ANY rr = false ->
  (RRToType rr = TypeA \/ RRToType rr = TypeAAAA) -> Class (Hdr rr) = ClassINET ->
  addHostAddress (Fold (Name (Hdr rr))) (length l) st = Ok st' -> scan_inv ns (l ++ [rr]) st'.
Proof.
  intros I Hrr Ha Ht Hc. unfold addHostAddress. set (name := Fold (Name (Hdr rr))).
  destruct (st_deletes st !! name) as [del|] eqn:Hd; [|done]. apply I in Hd.
  assert (Hat : address_at ns name (length l)) by (by exists rr).
  destruct (st_host st) as [h|] eqn:Hh.
  - case_bool_decide as Hn; [|done]. cbn [negb]. intros [= <-]. destruct (si_host _ _ _ I h Hh) as (Hk & Hdel & Hadd).
    destruct I as [I1 I2 I3 I4 I5 I6 I7 I8 I9]. split; cbn [set_host st_deletes st_consumed st_host st_order st_discovery st_keyAdds]; try done.
    + rewrite add_positions_snoc, Ha, <- I2. unfold scan_adds. rewrite Hh. cbn [set_host st_host st_order st_discovery st_keyAdds from_option host_Addresses].
      apply perm_mid.
    + intros h' [= <-]. cbn. split_and!; [done..|]. intros i [?| ->%list_elem_of_singleton]%elem_of_app; [auto|].
      by rewrite Hn.
    + intros n. rewrite I6, Hh. cbn. split; intros [(h' & [= <-] & E)|?]; [left; eauto|by right|left; eauto|by right].
  - intros [= <-]. destruct I as [I1 I2 I3 I4 I5 I6 I7 I8 I9]. split; cbn [consume set_host st_deletes st_consumed st_host st_order st_discovery st_keyAdds]; try done.
    + rewrite add_positions_snoc, Ha, <- I2. unfold scan_adds. rewrite Hh. cbn [consume set_host st_host st_order st_discovery st_keyAdds from_option host_Addresses].
      rewrite app_nil_l. apply (Permutation_app_comm [length l]).
    + intros h' [= <-]. cbn. split_and!; [done..|]. by intros i ->%list_elem_of_singleton.
    + intros n. rewrite elem_of_union, elem_of_singleton, I6, Hh. split.
      * intros [->|[(h' & ? & _)|?]]; [left; eexists; split; done|done|by right].
      * intros [(h' & [= <-] & <-)|?]; [by left|by right; right].
Qed.

Lemma concat_snoc {A} (ls : list (list A)) x : concat (ls ++ [x]) = concat ls ++ x.
Proof. rewrite concat_app. cbn. by rewrite app_nil_r. Qed.

Lemma instanceFor_inv ns l st name st' :
  scan_inv ns l st -> instanceFor name st = Ok st' ->
  scan_inv ns l st' /\ exists inst, instance_named name (st_order st') = Some inst.
Proof.
  intros I. unfold instanceFor. destruct (instance_named name (st_order st)) as [inst|] eqn:Hi.
  { intros [= <-]. eauto. }
  destruct (st_deletes st !! name) as [del|] eqn:Hd; [|done]. intros [= <-].
  apply instance_named_None in Hi. apply I in Hd. set (new := mkInst name del None None [] false).
  split; [|exists new; cbn [consume set_order st_order]].
  - destruct I as [I1 I2 I3 I4 I5 I6 I7 I8 I9].
    split; cbn [consume set_order st_deletes st_consumed st_host st_order st_discovery st_keyAdds]; try done.
    + rewrite <- I2. unfold scan_adds. cbn [consume set_order st_host st_order st_discovery st_keyAdds].
      rewrite map_app. cbn [map]. by rewrite concat_snoc, app_nil_r.
    + intros inst [?| ->%list_elem_of_singleton]%elem_of_app; [auto|]. split; [|done].
      split; try done. intros i Hin. by apply not_elem_of_nil in Hin.
    + rewrite map_app. apply NoDup_app. split_and!; [done| |by apply NoDup_singleton].
      intros x Hx ->%list_elem_of_singleton. done.
    + intros n. rewrite elem_of_union, elem_of_singleton, I6, map_app, elem_of_app. cbn [map].
      rewrite list_elem_of_singleton. cbn [new inst_Name]. tauto.
  - clear I. induction (st_order st) as [|x xs IH]; cbn [app instance_named].
    + by rewrite bool_decide_true.
    + cbn [map] in Hi. apply not_elem_of_cons in Hi as [Hx Hi]. rewrite bool_decide_false by congruence. auto.
Qed.

Lemma update_inv ns l st rr name inst g :
  scan_inv ns l st -> is_ANY rr = false -> instance_named name (st_order st) = Some inst ->
  (forall x, inst_Name (g x) = inst_Name x /\ inst_Key (g x) = inst_Key x /\ inst_removalShaped (g x) = inst_removalShaped x) ->
  inst_adds (g inst) ≡ₚ [length l] ++ inst_adds inst ->
  (forall x, inst_Name x = name -> inst_ok ns x -> inst_ok ns (g x)) ->
  scan_inv ns (l ++ [rr]) (set_order (update_instance name g (st_order st)) st).
Proof.
  intros I Ha Hi Hg Hp Hok.
  assert (Hnames : map inst_Name (update_instance name g (st_order st)) = map inst_Name (st_order st)).
  { apply update_instance_names. intros x. apply Hg. }
  pose proof (update_instance_perm inst_adds g name (st_order st) inst _ (si_names _ _ _ I) Hi Hp) as Hperm.
  destruct I as [I1 I2 I3 I4 I5 I6 I7 I8 I9].
  split; cbn [set_order st_deletes st_consumed st_host st_order st_discovery st_keyAdds]; try done.
  - rewrite add_positions_snoc, Ha, <- I2. unfold scan_adds. cbn [set_order st_host st_order st_discovery st_keyAdds].
    rewrite Hperm. rewrite <- (perm_mid _ (concat (map inst_adds (st_order st)) ++ map sd_RR (st_discovery st) ++ st_keyAdds st)).
    by rewrite <- !app_assoc.
  - intros x [[Hx _]|(y & Hy & Hn & ->)]%update_instance_elem; [auto|].
    destruct (I4 y Hy) as (? & ? & ?), (Hg y) as (? & -> & ->). split_and!; auto.
  - by rewrite Hnames.
  - intros n. by rewrite Hnames.
Qed.

Lemma addPTR_inv ns l st hdr ptr st' :
  scan_inv ns l st -> ns !! length l = Some (mkRR hdr (RD_PTR ptr)) ->
  addPTR (Fold (Name hdr)) (length l) ptr (Class hdr) st = Ok st' -> scan_inv ns (l ++ [mkRR hdr (RD_PTR ptr)]) st'.
Proof.
  intros I Hrr. unfold addPTR. cbn zeta. set (name := Fold (Name hdr)).
  assert (Hgo : forall add, Class hdr = (if add : bool then ClassINET else ClassNONE) ->
    (add = true -> forall base, isSubtypePTROwner name = Some base ->
       existsb (fun d => bool_decide (sd_BaseType d = "") && bool_decide (sd_Name d = base)
                         && bool_decide (sd_Target d = Fold ptr)) (ptrAdds (st_discovery st)) = true) ->
    scan_inv ns (l ++ [mkRR hdr (RD_PTR ptr)])
      (add_discovery (mkSD name (Fold ptr) add (length l) (baseTypeOrEmpty (isSubtypePTROwner name))) st)).
  { intros add Hc Hsub. destruct I as [I1 I2 I3 I4 I5 I6 I7 I8 I9].
    split; cbn [add_discovery st_deletes st_consumed st_host st_order st_discovery st_keyAdds]; try done.
    - rewrite add_positions_snoc. cbn [is_ANY RD]. rewrite <- I2. unfold scan_adds.
      cbn [add_discovery st_host st_order st_discovery st_keyAdds]. rewrite map_app. cbn [map sd_RR].
      rewrite !app_assoc. apply perm_mid.
    - intros d [?| ->%list_elem_of_singleton]%elem_of_app; [auto|]. exists hdr, ptr. cbn. by split_and!.
    - intros n d base Hn Hadd Hbase. apply lookup_app_Some in Hn as [Hn|[Hge Hn]].
      + destruct (I8 n d base Hn Hadd Hbase) as (m & d' & Hlt & Hd' & H). exists m, d'. split_and!; [done| |apply H..].
        by apply lookup_app_l_Some.
      + apply list_lookup_singleton_Some in Hn as [Hn <-]. cbn in Hadd, Hbase |- *. subst add.
        specialize (Hsub eq_refl base Hbase). apply existsb_exists in Hsub as (d' & Hin & Hd').
        rewrite !andb_true_iff, !bool_decide_eq_true in Hd'. apply list_elem_of_In, list_elem_of_filter in Hin as [Ha' Hin].
        apply list_elem_of_lookup in Hin as (m & Hm). exists m, d'. pose proof (lookup_lt_Some _ _ _ Hm).
        split_and!; [lia|by apply lookup_app_l_Some|tauto..]. }
  destruct (Class hdr =? ClassINET) eqn:E1.
  - destruct (isSubtypePTROwner name) as [base|] eqn:Hb.
    + destruct (existsb _ _) eqn:Hex; [|done]. cbn [negb]. intros [= <-]. apply (Hgo true); [by apply Z.eqb_eq|].
      by intros _ ? [= <-].
    + cbn [negb]. intros [= <-]. by apply (Hgo true); [apply Z.eqb_eq|].
  - destruct (Class hdr =? ClassNONE) eqn:E2; [|done]. intros [= <-]. by apply (Hgo false); [apply Z.eqb_eq|].
Qed.

Lemma classify_rr_inv ns l st rr st' :
  scan_inv ns l st -> ns !! length l = Some rr -> classify_rr st (length l, rr) = Ok st' -> scan_inv ns (l ++ [rr]) st'.
Proof.
  intros I Hrr. unfold classify_rr. cbn zeta. destruct rr as [hdr rd]. cbn [Hdr RD].
  assert (Hcls : forall e (k : result classifyState),
    (if negb (Class hdr =? ClassINET) then Err e else k) = Ok st' -> Class hdr = ClassINET /\ k = Ok st').
  { intros e k. destruct (Class hdr =? ClassINET) eqn:E; [|done]. intros H. split; [by apply Z.eqb_eq|done]. }
  destruct rd; try done.
  - intros [Hc H]%Hcls. apply (addHostAddress_inv ns l st (mkRR hdr (RD_A addr))); auto.
  - intros [Hc H]%Hcls. apply (addHostAddress_inv ns l st (mkRR hdr (RD_AAAA addr))); auto.
  - intros [Hc [= <-]]%Hcls. destruct I as [I1 I2 I3 I4 I5 I6 I7 I8 I9].
    split; cbn [add_key st_deletes st_consumed st_host st_order st_discovery st_keyAdds]; try done.
    + rewrite add_positions_snoc. cbn [is_ANY RD]. rewrite <- I2. unfold scan_adds.
      cbn [add_key st_host st_order st_discovery st_keyAdds]. by rewrite !app_assoc.
    + intros i [?| ->%list_elem_of_singleton]%elem_of_app; [auto|]. eexists. exists (mkKEY hdr k). by split_and!.
  - intros [Hc H]%Hcls. apply bind_ok in H as (st1 & H1 & H2). apply instanceFor_inv with (ns := ns) (l := l) in H1 as [I1 [inst Hi]]; [|done].
    rewrite Hi in H2. destruct inst as [n d k0 [srv|] t rs]; [done|]. injection H2 as <-.
    eapply update_inv; [done|done|done| | |].
    + done.
    + cbn. unfold inst_adds. cbn. symmetry. apply Permutation_middle.
    + intros x Hn [X1 X2 X3 X4]. split; cbn; try done. intros i [= <-]. rewrite Hn. unfold srv_at. eauto 10.
  - intros [Hc H]%Hcls. apply bind_ok in H as (st1 & H1 & H2). apply instanceFor_inv with (ns := ns) (l := l) in H1 as [I1 [inst Hi]]; [|done].
    injection H2 as <-. eapply update_inv; [done|done|done| | |].
    + done.
    + cbn. unfold inst_adds. cbn. rewrite !app_assoc. apply (Permutation_app_comm _ [length l]).
    + intros x Hn [X1 X2 X3 X4]. split; cbn; try done. intros i [?| ->%list_elem_of_singleton]%elem_of_app; [auto|].
      rewrite Hn. unfold txt_at. eauto 10.
  - intros H. by eapply addPTR_inv.
  - intros [= <-]. destruct I as [I1 I2 I3 I4 I5 I6 I7 I8 I9]. split; try done.
    rewrite add_positions_snoc. cbn [is_ANY RD]. by rewrite app_nil_r.
Qed.

Lemma scan_spec ns st : scan ns = Ok st -> scan_inv ns ns st.
Proof.
  unfold scan. intros (dels & Hd & H)%bind_ok. pose proof (collect_deletes_spec ns dels Hd) as Hdels.
  assert (Hgen : forall l st, l `prefix_of` ns ->
    foldM classify_rr (mkCS dels ∅ None [] [] []) (imap pair l) = Ok st -> scan_inv ns l st).
  { clear st H. intros l. induction l as [|rr l IH] using rev_ind; intros st Hpre.
    - cbn. intros [= <-]. split; cbn; try done.
      + intros inst Hx. by apply not_elem_of_nil in Hx.
      + apply NoDup_nil_2.
      + intros n. split; [set_solver|]. intros [(? & ? & _)|Hx]; [done|by apply not_elem_of_nil in Hx].
      + intros d Hx. by apply not_elem_of_nil in Hx.
      + intros i Hx. by apply not_elem_of_nil in Hx.
    - rewrite imap_pair_snoc, foldM_app. intros (st1 & H1 & H2)%bind_ok. cbn [foldM] in H2.
      apply bind_ok in H2 as (st2 & H2 & [= <-]). destruct Hpre as [suf ->].
      assert (Hrr : ((l ++ [rr]) ++ suf) !! length l = Some rr).
      { rewrite <- app_assoc. cbn. by rewrite list_lookup_middle. }
      eapply classify_rr_inv; [|exact Hrr|exact H2]. apply IH; [|done]. exists ([rr] ++ suf). by rewrite app_assoc. }
  by apply Hgen.
Qed.

(** ** The reconciliation *)

Lemma host_fallback_inv ns keys st :
  scan_inv ns ns st -> st_host st = None -> scan_inv ns ns (host_fallback ns keys st).
Proof.
  intros I Hh. induction keys as [|k keys IH]; cbn [host_fallback]; [done|]. cbn zeta.
  destruct (st_deletes st !! owner_of ns k) as [del|] eqn:Hd; [|done]. case_bool_decide as Hc; [done|]. cbn [negb].
  apply I in Hd. clear IH. destruct I as [I1 I2 I3 I4 I5 I6 I7 I8 I9].
  split; cbn [consume set_host st_deletes st_consumed st_host st_order st_discovery st_keyAdds]; try done.
  - rewrite <- I2. unfold scan_adds. by rewrite Hh.
  - intros h [= <-]. cbn. split_and!; [done..|]. intros i Hi. by apply not_elem_of_nil in Hi.
  - intros n. rewrite elem_of_union, elem_of_singleton, I6, Hh. split.
    + intros [->|[(h' & ? & _)|?]]; [left; eexists; split; done|done|by right].
    + intros [(h' & [= <-] & <-)|?]; [by left|by right; right].
Qed.

Definition removal (p : string * ref) : ServiceInstance := mkInst p.1 p.2 None None [] true.

Lemma filter_consumed (l : list (string * ref)) (C : gset string) name :
  name ∉ map fst l ->
  map removal (filter (fun p => p.1 ∉ {[name]} ∪ C) l) = map removal (filter (fun p => p.1 ∉ C) l).
Proof.
  induction l as [|[n d] l IH]; intros Hn; [done|]. cbn [map fst] in Hn. apply not_elem_of_cons in Hn as [Hne Hn].
  rewrite !filter_cons. cbn [fst]. destruct (decide (n ∉ C)) as [Hc|Hc].
  - rewrite decide_True by set_solver. cbn [map]. f_equal. auto.
  - rewrite decide_False by set_solver. auto.
Qed.

Lemma add_removals_loop (l : list (string * ref)) st :
  NoDup (map fst l) ->
  let st' := foldl (fun st '(name, del) =>
           if bool_decide (name ∈ st_consumed st) then st
           else consume name (set_order (st_order st ++ [mkInst name del None None [] true]) st)) st l in
  st_order st' = st_order st ++ map removal (filter (fun p => p.1 ∉ st_consumed st) l) /\
  st_host st' = st_host st /\ st_discovery st' = st_discovery st /\ st_keyAdds st' = st_keyAdds st.
Proof.
  revert st. induction l as [|[name del] l IH]; intros st; cbn [foldl map fst].
  { intros _. cbn. by rewrite app_nil_r. }
  intros [Hn Hnd]%NoDup_cons. rewrite filter_cons. cbn [fst]. case_bool_decide as Hc.
  - rewrite decide_False by tauto. by apply IH.
  - rewrite decide_True by done. destruct (IH (consume name (set_order (st_order st ++ [mkInst name del None None [] true]) st)) Hnd)
      as (E1 & E2 & E3 & E4). cbn [consume set_order st_order st_host st_discovery st_keyAdds st_consumed] in E1, E2, E3, E4.
    cbn zeta in *. rewrite E1, E2, E3, E4. split_and!; try done. rewrite <- app_assoc. cbn [map app]. do 2 f_equal.
    by apply filter_consumed.
Qed.

(** The instances after the removals were added. *)
Lemma add_removals_spec ns st :
  scan_inv ns ns st ->
  exists rs, st_order (add_removals st) = st_order st ++ rs /\
    (forall r, r ∈ rs -> inst_ok ns r /\ inst_adds r = [] /\ inst_Key r = None /\ inst_SRV r = None /\ inst_removalShaped r = true) /\
    NoDup (map inst_Name (st_order st ++ rs)) /\
    (forall name i, delete_at ns name i -> (exists h, st_host st = Some h /\ host_Name h = name) \/ name ∈ map inst_Name (st_order st ++ rs)) /\
    st_host (add_removals st) = st_host st /\ st_discovery (add_removals st) = st_discovery st /\
    st_keyAdds (add_removals st) = st_keyAdds st.
Proof.
  intros I. destruct (add_removals_loop (map_to_list (st_deletes st)) st) as (E1 & E2 & E3 & E4).
  { apply NoDup_fst_map_to_list. }
  set (rs := map removal _) in E1. exists rs. unfold add_removals.
  assert (Hrs : forall r, r ∈ rs <-> exists name del, r = removal (name, del) /\ st_deletes st !! name = Some del /\ name ∉ st_consumed st).
  { intros r. unfold rs. rewrite list_elem_of_fmap. split.
    - intros ([n d] & -> & [Hc Hin]%list_elem_of_filter). apply elem_of_map_to_list in Hin. eauto.
    - intros (n & d & -> & Hd & Hc). exists (n, d). split; [done|]. apply list_elem_of_filter. split; [done|].
      by apply elem_of_map_to_list. }
  split_and!; [done| | | |done..].
  - intros r (n & d & -> & Hd & _)%Hrs. split_and!; try done. split; cbn; try done; [by apply I|].
    intros i Hi. by apply not_elem_of_nil in Hi.
  - rewrite map_app. apply NoDup_app. split_and!; [apply I| |].
    + intros n Hn (r & -> & (n' & d & -> & _ & Hc)%Hrs)%list_elem_of_fmap. apply Hc, I. by right.
    + unfold rs. rewrite map_map. cbn. generalize (NoDup_fst_map_to_list (st_deletes st)).
      generalize (map_to_list (st_deletes st)). intros l. induction l as [|p l IHl]; intros Hnd; [apply NoDup_nil_2|].
      apply NoDup_cons in Hnd as [Hp Hnd]. rewrite filter_cons. case_decide; [|auto]. cbn [map]. apply NoDup_cons.
      split; [|auto]. intros (q & Hq & [_ Hin]%list_elem_of_filter)%list_elem_of_fmap. apply Hp, list_elem_of_fmap. eauto.
  - intros name i Hd%I. rewrite map_app, elem_of_app. destruct (decide (name ∈ st_consumed st)) as [Hc|Hc].
    + apply I in Hc as [?|?]; [by left|right; by left].
    + right; right. apply list_elem_of_fmap. exists (removal (name, i)). split; [done|]. apply Hrs. eauto.
Qed.

(** Assigning the KEYs changes nothing but the KEYs. *)
Definition same_but_key (a b : ServiceInstance) : Prop :=
  inst_Name a = inst_Name b /\ inst_Delete a = inst_Delete b /\ inst_SRV a = inst_SRV b /\ inst_TXT a = inst_TXT b /\
  inst_removalShaped a = inst_removalShaped b.

Lemma update_same name g l :
  (forall x, same_but_key x (g x)) -> Forall2 same_but_key l (update_instance name g l).
Proof.
  intros Hg. unfold update_instance. induction l as [|x l IH]; cbn [map]; constructor; [|done].
  case_bool_decide; [apply Hg|]. by split_and!.
Qed.

Global Instance same_but_key_trans : Transitive same_but_key.
Proof. intros a b c (? & ? & ? & ? & ?) (? & ? & ? & ? & ?). split_and!; congruence. Qed.

Definition keys_of (hl : HostDescription * list ServiceInstance) : list ref :=
  option_list (host_Key hl.1) ++ concat (map inst_adds hl.2).

Record keys_inv (ns : list RR) (h0 : HostDescription) (l0 : list ServiceInstance) (done : list ref)
    (hl : HostDescription * list ServiceInstance) : Prop := {
  ki_host : host_Name hl.1 = host_Name h0 /\ host_Delete hl.1 = host_Delete h0 /\ host_Addresses hl.1 = host_Addresses h0;
  ki_hkey : forall i, host_Key hl.1 = Some i -> key_at ns (host_Name h0) i;
  ki_same : Forall2 same_but_key l0 hl.2;
  ki_ok : forall inst, inst ∈ hl.2 -> inst_ok ns inst;
  ki_names : NoDup (map inst_Name hl.2);
  ki_keys : keys_of hl ≡ₚ done ++ concat (map inst_adds l0) }.

Lemma key_at_owner ns name i : key_at ns name i -> owner_of ns i = name.
Proof. intros (k & Hk & _ & Hn). unfold owner_of. rewrite Hk. cbn. done. Qed.

Lemma assign_key_inv ns h0 l0 done hl k hl' :
  keys_inv ns h0 l0 done hl -> (exists name, key_at ns name k) -> assign_key ns hl k = Ok hl' ->
  keys_inv ns h0 l0 (done ++ [k]) hl'.
Proof.
  destruct hl as [host insts]. intros [Kh Khk Ks Ko Kn Kk] [name Hat]. pose proof (key_at_owner _ _ _ Hat) as Hown.
  unfold assign_key. cbn zeta. rewrite Hown. cbn [fst snd] in *. unfold keys_of in Kk. cbn [fst snd] in Kk.
  case_bool_decide as Hn.
  - destruct (host_Key host) eqn:Ehk; [done|]. intros [= <-]. cbn in Kk. split; cbn [fst snd]; try done.
    + intros i [= <-]. destruct Kh as [<- _]. by rewrite <- Hn.
    + unfold keys_of. cbn. rewrite Kk. rewrite <- app_assoc. apply Permutation_middle.
  - destruct (instance_named name insts) as [inst|] eqn:Hi; [|done]. destruct (inst_Key inst) eqn:Eik; [done|].
    intros [= <-]. set (g := fun inst => mkInst (inst_Name inst) (inst_Delete inst) (Some k) (inst_SRV inst) (inst_TXT inst)
                                      (inst_removalShaped inst)).
    assert (Hp : inst_adds (g inst) ≡ₚ [k] ++ inst_adds inst) by (unfold inst_adds; rewrite Eik; done).
    pose proof (update_instance_perm inst_adds g name insts inst _ Kn Hi Hp) as Hperm.
    split; cbn [fst snd]; try done.
    + etrans; [exact Ks|]. apply update_same. intros x. by split_and!.
    + intros x [[Hx _]|(y & Hy & Hny & ->)]%update_instance_elem; [auto|]. destruct (Ko y Hy) as [O1 O2 O3 O4].
      split; cbn; try done. intros i [= <-]. by rewrite Hny.
    + by rewrite update_instance_names.
    + unfold keys_of. cbn [fst snd]. rewrite Hperm. rewrite (Permutation_app_swap_app _ [k]), Kk. rewrite <- app_assoc. cbn [app]. apply Permutation_middle.
Qed.

Lemma assign_keys_spec ns h0 l0 ks hl :
  (forall k, k ∈ ks -> exists name, key_at ns name k) -> host_Key h0 = None ->
  (forall inst, inst ∈ l0 -> inst_ok ns inst) -> NoDup (map inst_Name l0) ->
  foldM (assign_key ns) (h0, l0) ks = Ok hl -> keys_inv ns h0 l0 ks hl.
Proof.
  intros Hks Hk0 Hok Hnd. revert hl. induction ks as [|k ks IH] using rev_ind; intros hl.
  - cbn. intros [= <-]. split; cbn; try done.
    + intros i Hi. congruence.
    + induction l0; constructor; [by split_and!|]. apply IHl0; [intros; apply Hok; by right|by apply NoDup_cons in Hnd as [_ ?]].
    + unfold keys_of. cbn. by rewrite Hk0.
  - rewrite foldM_app. intros (hl1 & H1 & H2)%bind_ok. cbn [foldM] in H2. apply bind_ok in H2 as (hl2 & H2 & [= <-]).
    eapply assign_key_inv; [|apply Hks, elem_of_app; right; by left|exact H2].
    apply IH; [|done]. intros k' Hk'. apply Hks, elem_of_app. by left.
Qed.

(** ** What a classified update is *)

Definition cu_adds (cu : ClassifiedUpdate) : list ref :=
  host_Addresses (cu_Host cu) ++ option_list (host_Key (cu_Host cu)) ++ concat (map inst_adds (cu_Instances cu))
  ++ map sd_RR (cu_Discovery cu).

(** The Host Description is one: a Delete All, one KEY add and address adds at one name. *)
Record host_ok (ns : list RR) (h : HostDescription) : Prop := {
  ho_del : delete_at ns (host_Name h) (host_Delete h);
  ho_key : exists i, host_Key h = Some i /\ key_at ns (host_Name h) i;
  ho_addr : forall i, i ∈ host_Addresses h -> address_at ns (host_Name h) i }.

(** The cross-references of a live instance and of a PTR add. *)
Definition live_ok (ns : list RR) (cu : ClassifiedUpdate) (inst : ServiceInstance) : Prop :=
  forall i, inst_SRV inst = Some i ->
    inst_TXT inst <> [] /\ Fold (srv_target ns i) = host_Name (cu_Host cu) /\
    exists d, d ∈ cu_Discovery cu /\ sd_IsAdd d = true /\ sd_Target d = inst_Name inst.

Definition resolved (cu : ClassifiedUpdate) (d : ServiceDiscovery) : Prop :=
  sd_IsAdd d = true -> exists inst, inst ∈ cu_Instances cu /\ inst_Name inst = sd_Target d /\ inst_SRV inst <> None.

Lemma check_targets_ok st d :
  check_targets st = Ok tt -> d ∈ st_discovery st -> sd_IsAdd d = true ->
  exists inst, inst ∈ st_order st /\ inst_Name inst = sd_Target d /\ inst_SRV inst <> None.
Proof.
  intros H Hd Ha. unfold check_targets in H. apply foldM_ok_each with (x := d) in H; [|by apply list_elem_of_filter].
  destruct (instance_named (sd_Target d) (st_order st)) as [inst|] eqn:Hi; [|done].
  apply instance_named_Some in Hi as [? ?]. exists inst. split_and!; [done..|]. by destruct inst as [? ? ? [?|] ? ?].
Qed.

Lemma check_instances_ok ns hn st inst i :
  check_instances ns hn st = Ok tt -> inst ∈ st_order st -> inst_SRV inst = Some i ->
  inst_TXT inst <> [] /\ Fold (srv_target ns i) = hn /\
  exists d, d ∈ st_discovery st /\ sd_IsAdd d = true /\ sd_Target d = inst_Name inst.
Proof.
  intros H Hin Hs. unfold check_instances in H. apply foldM_ok_each with (x := inst) in H; [|done]. rewrite Hs in H.
  destruct (length (inst_TXT inst) =? 0)%nat eqn:Hl; [done|]. apply Nat.eqb_neq in Hl.
  case_bool_decide as Ht; [|done]. cbn [negb] in H. destruct (existsb _ _) eqn:He; [|done].
  apply existsb_exists in He as (d & Hd & Hn%bool_decide_eq_true). apply list_elem_of_In, list_elem_of_filter in Hd as [? ?].
  split_and!; [|done|by exists d]. intros E. by rewrite E in Hl.
Qed.

(** What a successful reconciliation gives, gathered for the theorems. *)
Lemma Classify_parts msg cu :
  Classify msg = Ok cu ->
  let ns := Ns msg in
  exists st, scan_inv ns ns st /\ check_targets st = Ok tt /\ check_instances ns (host_Name (cu_Host cu)) st = Ok tt /\
    cu_Discovery cu = st_discovery st /\
    host_ok ns (cu_Host cu) /\
    (forall inst, inst ∈ cu_Instances cu -> inst_ok ns inst) /\ NoDup (map inst_Name (cu_Instances cu)) /\
    (forall name i, delete_at ns name i -> host_Name (cu_Host cu) = name \/ name ∈ map inst_Name (cu_Instances cu)) /\
    (exists rs, (forall r, r ∈ rs -> inst_SRV r = None) /\ Forall2 same_but_key (st_order st ++ rs) (cu_Instances cu)) /\
    cu_adds cu ≡ₚ add_positions ns.
Proof.
  cbn zeta. unfold Classify, classify_reconcile. intros (st0 & H0%scan_spec & H)%bind_ok. cbn zeta in H.
  set (st := match st_host st0 with None => _ | Some _ => st0 end) in H.
  assert (I : scan_inv (Ns msg) (Ns msg) st).
  { subst st. destruct (st_host st0) eqn:E; [done|]. by apply host_fallback_inv. }
  clearbody st. clear H0. destruct (st_host st) as [h|] eqn:Hh; [|done]. apply bind_ok in H as ([] & Hct & H).
  apply bind_ok in H as ([] & Hci & H). apply bind_ok in H as ([h' insts] & Hk & H). cbn [fst snd] in H.
  destruct (host_Key h') as [k|] eqn:Ek; [|done]. injection H as <-.
  destruct (add_removals_spec _ _ I) as (rs & E1 & Hrs & Hnd & Hdel & _ & E3 & E4). rewrite E1, E4 in Hk.
  pose proof (si_host _ _ _ I h Hh) as (Hk0 & Hhd & Haddr).
  apply assign_keys_spec in Hk as [[N1 [N2 N3]] K2 K3 K4 K5 K6]; cbn [fst snd] in *;
    [|intros; by eapply si_keys|done| |done].
  2:{ intros inst [Hin|Hin]%elem_of_app; [by apply I|by apply Hrs]. }
  assert (Hnames : map inst_Name insts = map inst_Name (st_order st ++ rs)).
  { clear -K3. induction K3 as [|a b l l' [E _] ? IH]; [done|]. cbn. by rewrite E, IH. }
  exists st. cbn [cu_Host cu_Instances cu_Discovery]. rewrite E3, N1. split_and!; try done.
  - split; rewrite ?N1, ?N2, ?N3; try done. exists k. split; [done|]. by apply K2.
  - intros name i [(h2 & E & <-)|?]%Hdel; [|by rewrite Hnames; right]. rewrite Hh in E. injection E as <-. by left.
  - exists rs. split; [|done]. intros r Hr. by apply Hrs.
  - unfold cu_adds. cbn [cu_Host cu_Instances cu_Discovery]. rewrite <- (si_adds _ _ _ I). unfold scan_adds. rewrite Hh. cbn [from_option].
    rewrite N3. apply Permutation_app_head. unfold keys_of in K6. cbn [fst snd] in K6. rewrite app_assoc, K6.
    assert (Hr : concat (map inst_adds (st_order st ++ rs)) = concat (map inst_adds (st_order st))).
    { rewrite map_app, concat_app. assert (E : concat (map inst_adds rs) = []); [|by rewrite E, app_nil_r].
      clear -Hrs. induction rs as [|r rs IH]; [done|]. cbn. destruct (Hrs r) as (_ & -> & _); [by left|].
      apply IH. intros x Hx. apply Hrs. by right. }
    rewrite Hr. rewrite <- app_assoc, (Permutation_app_comm (st_keyAdds st)). by rewrite <- app_assoc.
Qed.

(** ** The claims *)

(** Classification loses nothing and invents nothing: every record of the Update section
    that is not a Delete All RRsets belongs to exactly one instruction, as the record its
    instruction says it is (an address or the KEY of the host, the SRV, a TXT or the KEY of one
    service instance at its own name, or one PTR add or delete), and every Delete All RRsets is
    that of the host or of an instance. *)
Theorem classify_partition msg cu :
  Classify msg = Ok cu ->
  cu_adds cu ≡ₚ add_positions (Ns msg) /\
  host_ok (Ns msg) (cu_Host cu) /\
  (forall inst, inst ∈ cu_Instances cu -> inst_ok (Ns msg) inst) /\
  (forall d, d ∈ cu_Discovery cu -> ptr_at (Ns msg) d) /\
  (forall name i, delete_at (Ns msg) name i ->
     host_Name (cu_Host cu) = name \/ exists inst, inst ∈ cu_Instances cu /\ inst_Name inst = name).
Proof.
  intros (st & I & _ & _ & Ed & Hh & Hi & _ & Hdel & _ & Ha)%Classify_parts.
  split_and!; try done.
  - rewrite Ed. apply I.
  - intros name i [?|(x & -> & Hx)%list_elem_of_fmap]%Hdel; eauto.
Qed.

(** The cross-references of a classified update hold: instance names are distinct; an
    instance with an SRV has a TXT, its SRV points at the host and some PTR add lists it; every
    PTR add lists an instance with an SRV in the same update; and every subtype PTR add comes
    after a base-type PTR add with its target. *)
Theorem classify_cross_references msg cu :
  Classify msg = Ok cu ->
  NoDup (map inst_Name (cu_Instances cu)) /\
  (forall inst, inst ∈ cu_Instances cu -> live_ok (Ns msg) cu inst) /\
  (forall d, d ∈ cu_Discovery cu -> resolved cu d) /\
  subtypes_ok (cu_Discovery cu).
Proof.
  intros (st & I & Hct & Hci & Ed & _ & _ & Hnd & _ & (rs & Hrs & Hf) & _)%Classify_parts.
  split_and!; [done| | |rewrite Ed; apply I].
  - intros inst Hin i Hs. apply list_elem_of_lookup in Hin as [n Hn].
    destruct (Forall2_lookup_r _ _ _ _ _ Hf Hn) as (x & Hx & E1 & _ & E3 & E4 & _). rewrite <- E1, <- E4, Ed.
    rewrite Hs in E3. apply list_elem_of_lookup_2 in Hx. apply elem_of_app in Hx as [Hx|Hx].
    + eapply check_instances_ok; eauto.
    + rewrite (Hrs x Hx) in E3. done.
  - intros d Hd Ha. rewrite Ed in Hd. destruct (check_targets_ok st d Hct Hd Ha) as (x & Hx & Hn & Hs).
    assert (Hx' : x ∈ st_order st ++ rs) by (apply elem_of_app; by left). apply list_elem_of_lookup in Hx' as [n Hx'].
    destruct (Forall2_lookup_l _ _ _ _ _ Hf Hx') as (y & Hy & E1 & _ & E3 & _). exists y. rewrite <- E1, <- E3.
    split_and!; [by eapply list_elem_of_lookup_2|done|done].
Qed.

(** The demonstration: a printer on its host, listed under its type and a subtype, and the
    removal of an instance of the same host. *)
Module SrpDemo.
Definition key (name : string) : KEY := mkKEY (mkHeader name ClassINET 120) (mkKeyData 0 3 13 "cHJpbnRlcg==").
Definition rr (name : string) (cls ttl : Z) (d : RData) : RR := mkRR (mkHeader name cls ttl) d.
Definition printhost := "PrintHost.example.com.".
Definition office := "Office._ipp._tcp.example.com.".
Definition former := "Former._ipp._tcp.example.com.".
Definition ns : list RR :=
  [rr printhost ClassANY 0 RD_ANY; rr printhost ClassINET 120 (RD_A 3221226219); KEY_RR (key printhost);
   rr office ClassANY 0 RD_ANY; rr office ClassINET 120 (RD_SRV 0 0 631 printhost); rr office ClassINET 120 (RD_TXT ["txtvers=1"]);
   rr "_ipp._tcp.example.com." ClassINET 120 (RD_PTR office);
   rr "_color._sub._ipp._tcp.example.com." ClassINET 120 (RD_PTR office);
   rr "_ipp._tcp.example.com." ClassNONE 0 (RD_PTR former); rr former ClassANY 0 RD_ANY].
Definition lease (code : string) : RR := rr "" 0 0 (RD_EDNS0 (ERFC3597 2 code)).
Definition msg : Msg :=
  mkMsg (mkMsgHeader 7 OpcodeUpdate false false false false 0 1232) [mkQuest "example.com." ClassINET TypeSOA] [] ns []
        [lease "00000e1000093a80"] [].
Definition cu : ClassifiedUpdate :=
  mkCU (mkHost (Fold printhost) 0%nat (Some 2%nat) [1%nat])
       [mkInst (Fold office) 3%nat None (Some 4%nat) [5%nat] false; mkInst (Fold former) 9%nat None None [] true]
       [mkSD "_ipp._tcp.example.com." (Fold office) true 6%nat "";
        mkSD "_color._sub._ipp._tcp.example.com." (Fold office) true 7%nat "_ipp._tcp.example.com.";
        mkSD "_ipp._tcp.example.com." (Fold former) false 8%nat ""].
End SrpDemo.

Lemma classify_partition_witness :
  Classify SrpDemo.msg = Ok SrpDemo.cu /\ cu_adds SrpDemo.cu ≡ₚ [1; 2; 4; 5; 6; 7; 8]%nat.
Proof.
  assert (H : Classify SrpDemo.msg = Ok SrpDemo.cu) by (vm_compute; reflexivity).
  split; [exact H|]. exact (proj1 (classify_partition SrpDemo.msg SrpDemo.cu H)).
Defined.

Lemma classify_cross_references_witness :
  Fold (srv_target SrpDemo.ns 4%nat) = host_Name (cu_Host SrpDemo.cu).
Proof.
  destruct (classify_cross_references SrpDemo.msg SrpDemo.cu ltac:(vm_compute; reflexivity)) as (_ & H & _).
  destruct (H (mkInst (Fold SrpDemo.office) 3%nat None (Some 4%nat) [5%nat] false) ltac:(by left) 4%nat eq_refl)
    as (_ & E & _). exact E.
Defined.
