(* ===== verification/SrpValidate.v ===== *)
(** * SRP updates: validation and First-Come-First-Served

    pkg/srp/validate.go checks what classification leaves open (RFC 9665 S3.3.2, S4), and
    fcfs.go decides, name by name, whether the update's key may have the name (S3.3.3).  The
    records are read through the references of the classified update, in the heap [ns].
    The lease store is seen through [StoreView] and the authoritative server through an
    [AuthoritativeKeyQuery], as in the source. *)

From Stdlib Require Import Ascii String ZArith Lia.
From S2P Require Import Prelude DnsName DnsData LeaseOption UpdateCore DnsSd SrpClassify.

Local Open Scope Z_scope.

(** ** validate.go *)

(** The pointers of the classified update, followed. *)
Definition deref (ns : list RR) (is_ : list ref) : list RR := omap (fun i => ns !! i) is_.

Definition key_of (ns : list RR) (i : ref) : option KEY := ns !! i ≫= as_KEY.

Definition keysIdentical (a b : KEY) : bool :=
  (Algorithm (key_Data a) =? Algorithm (key_Data b)) && (Protocol (key_Data a) =? Protocol (key_Data b))
  && bool_decide (PublicKey (key_Data a) = PublicKey (key_Data b)).

Definition validateServiceNames (cu : ClassifiedUpdate) : result unit :=
  seqM (fun d =>
          if negb (sd_IsAdd d) then Ok tt
          else
            let base := if bool_decide (sd_BaseType d = "") then sd_Name d else sd_BaseType d in
            match ServiceTypeFromServiceName base with
            | None => Err "srp: Service Discovery add is not at a DNS-SD service type"
            | Some _ =>
                if negb (bool_decide ((CutFirstLabel (sd_Target d)).1.2 = base))
                then Err "srp: Service Discovery add targets no service instance of its type"
                else Ok tt
            end)
       (cu_Discovery cu).

Definition validateLeaseOption (msg : Msg) : result unit :=
  match FindOption msg with
  | None => Err "srp: no Update-Lease EDNS(0) option present"
  | Some erfc =>
      match Decode [ERFC3597 OPTION_CODE erfc] with
      | Err _ => Err "srp: invalid Update-Lease option"
      | Ok _ => Ok tt
      end
  end.

(** The records whose TTLs are compared. *)
Definition ttl_refs (cu : ClassifiedUpdate) : list ref :=
  host_Addresses (cu_Host cu) ++ option_list (host_Key (cu_Host cu))
  ++ concat (map (fun inst => option_list (inst_SRV inst) ++ inst_TXT inst ++ option_list (inst_Key inst)) (cu_Instances cu))
  ++ map sd_RR (filter (fun d => sd_IsAdd d = true) (cu_Discovery cu)).

Definition validateTTLConsistency (ns : list RR) (cu : ClassifiedUpdate) : result unit :=
  CheckConsistentTTLs (deref ns (ttl_refs cu)).

(** A classified update has the host's KEY, so the list of keys is never empty. *)
Definition validateKeys (ns : list RR) (cu : ClassifiedUpdate) : result unit :=
  match omap (key_of ns) (option_list (host_Key (cu_Host cu)) ++ omap inst_Key (cu_Instances cu)) with
  | [] => Ok tt
  | first :: rest =>
      seqM (fun k => if negb (keysIdentical first k) then Err "srp: all KEY RRs in an SRP update MUST be identical" else Ok tt) rest
  end.

Definition validatePostClassify (msg : Msg) (cu : ClassifiedUpdate) : result unit :=
  _ ← validateLeaseOption msg;
  _ ← validateTTLConsistency (Ns msg) cu;
  _ ← validateKeys (Ns msg) cu;
  validateServiceNames cu.

Definition ValidateClassified (msg : Msg) (cu : ClassifiedUpdate) : result unit :=
  if negb (length (Question msg) =? 1)%nat then Err "srp: expected exactly one Zone Section entry"
  else if negb (length (Answer msg) =? 0)%nat then Err "srp: update contains prerequisites"
  else validatePostClassify msg cu.

(** [Validate] of package srp. *)
Definition srp_Validate (msg : Msg) : result ClassifiedUpdate :=
  if negb (length (Question msg) =? 1)%nat then Err "srp: expected exactly one Zone Section entry"
  else if negb (length (Answer msg) =? 0)%nat then Err "srp: update contains prerequisites"
  else
    cu ← Classify msg;
    _ ← validatePostClassify msg cu;
    Ok cu.

(** ** fcfs.go *)

(** The narrow view of the lease store FCFS needs. *)
Class StoreView := { KeyAtName : string -> option KEY }.

Definition AuthoritativeKeyQuery := string -> string -> result (AuthoritativeKeyState * list KEY).

Inductive FCFSResult := FCFSProceed | FCFSConflict | FCFSForeignData.

Definition nameNotInUsePrerequisite (name : string) : RR := mkRR (mkHeader name ClassNONE 0) RD_ANY.

Definition keyRRsetDoesNotExistPrerequisite (name : string) : RR :=
  mkRR (mkHeader name ClassNONE 0) (RD_RFC3597 TypeKEY "").

Definition Evaluate {V : StoreView} (query : AuthoritativeKeyQuery) (zoneHint name : string) (updateKey : KEY)
    (refuseOnForeignData : bool) : result (FCFSResult * option RR) :=
  match KeyAtName name with
  | Some key => if keysIdentical key updateKey then Ok (FCFSProceed, None) else Ok (FCFSConflict, None)
  | None =>
      match query zoneHint name with
      | Err _ => Err "srp: FCFS authoritative query"
      | Ok (AuthNXDomain, _) =>
          if refuseOnForeignData then Ok (FCFSProceed, Some (nameNotInUsePrerequisite name))
          else Ok (FCFSProceed, Some (keyRRsetDoesNotExistPrerequisite name))
      | Ok (AuthNoKey, _) =>
          if refuseOnForeignData then Ok (FCFSForeignData, None)
          else Ok (FCFSProceed, Some (keyRRsetDoesNotExistPrerequisite name))
      | Ok (AuthKeyPresent, keys) =>
          if existsb (fun k => keysIdentical k updateKey) keys then Ok (FCFSProceed, None) else Ok (FCFSConflict, None)
      end
  end.

Definition Names (cu : ClassifiedUpdate) : list string := host_Name (cu_Host cu) :: map inst_Name (cu_Instances cu).

Definition keyAtName (key : KEY) (name : string) : KEY := key_set_Name name key.

(** [None]: the panic of a name the update does not have. *)
Definition KeyFor (ns : list RR) (cu : ClassifiedUpdate) (name : string) : option KEY :=
  if bool_decide (name = host_Name (cu_Host cu)) then host_Key (cu_Host cu) ≫= key_of ns
  else
    inst ← instance_named name (cu_Instances cu);
    match inst_Key inst with
    | Some k => key_of ns k
    | None =>
        hk ← host_Key (cu_Host cu) ≫= key_of ns;
        del ← ns !! inst_Delete inst;
        Some (keyAtName hk (Name (Hdr del)))
    end.

(** ** What validation gives *)

Lemma key_of_at ns name i : key_at ns name i -> exists k, key_of ns i = Some k /\ ns !! i = Some (KEY_RR k) /\ Fold (Name (key_Hdr k)) = name.
Proof. intros (k & Hk & _ & Hn). exists k. split_and!; [|done|done]. unfold key_of. rewrite Hk. by destruct k. Qed.

Lemma keysIdentical_refl k : keysIdentical k k = true.
Proof. unfold keysIdentical. by rewrite !Z.eqb_refl, bool_decide_true. Qed.

Lemma keysIdentical_spec a b :
  keysIdentical a b = true <->
  Algorithm (key_Data a) = Algorithm (key_Data b) /\ Protocol (key_Data a) = Protocol (key_Data b) /\
  PublicKey (key_Data a) = PublicKey (key_Data b).
Proof. unfold keysIdentical. rewrite !andb_true_iff, !Z.eqb_eq, bool_decide_eq_true. tauto. Qed.

Lemma keysIdentical_sym a b : keysIdentical a b = keysIdentical b a.
Proof. apply eq_true_iff_eq. rewrite !keysIdentical_spec. naive_solver. Qed.

Lemma Validate_Classified msg cu :
  srp_Validate msg = Ok cu <-> Classify msg = Ok cu /\ ValidateClassified msg cu = Ok tt.
Proof.
  unfold srp_Validate, ValidateClassified. destruct (negb (length (Question msg) =? 1)%nat); [naive_solver|].
  destruct (negb (length (Answer msg) =? 0)%nat); [naive_solver|]. split.
  - intros (cu' & H1 & H)%bind_ok. apply bind_ok in H as ([] & H2 & [= <-]). done.
  - intros [-> H]. cbn. rewrite H. done.
Qed.

(** The host's KEY of a classified update. *)
Lemma Classify_host_key msg cu :
  Classify msg = Ok cu ->
  exists k, host_Key (cu_Host cu) ≫= key_of (Ns msg) = Some k /\ Fold (Name (key_Hdr k)) = host_Name (cu_Host cu).
Proof.
  intros (st & _ & _ & _ & _ & [_ (i & -> & Hk) _] & _)%Classify_parts.
  apply key_of_at in Hk as (k & Hk & _ & Hn). exists k. by cbn.
Qed.

(** KeyFor has an answer at every name of the update, a KEY at that name. *)
Lemma KeyFor_total msg cu name :
  Classify msg = Ok cu -> name ∈ Names cu ->
  exists k, KeyFor (Ns msg) cu name = Some k /\ Fold (Name (key_Hdr k)) = name.
Proof.
  intros Hc Hn. destruct (Classify_host_key _ _ Hc) as (hk & Hhk & Hhn). unfold KeyFor. case_bool_decide as E; [subst; eauto|].
  apply elem_of_cons in Hn as [?|Hn]; [done|]. destruct (instance_named name (cu_Instances cu)) as [inst|] eqn:Hi;
    [|by apply instance_named_None in Hi].
  apply instance_named_Some in Hi as [Hin Hname]. apply Classify_parts in Hc as (_ & _ & _ & _ & _ & _ & Hok & _).
  destruct (Hok inst Hin) as [(rr & Hrr & _ & Hrn) _ _ Hkey]. cbn.
  destruct (inst_Key inst) as [i|] eqn:Ei.
  - destruct (key_of_at _ _ _ (Hkey i eq_refl)) as (k & Hk & _ & ?). exists k. split; [done|congruence].
  - rewrite Hhk. cbn. rewrite Hrr. cbn. exists (keyAtName hk (Name (Hdr rr))). split; [done|]. cbn. congruence.
Qed.

(** After validation every KEY of the update has the host's key material. *)
Lemma validateKeys_same ns cu hk i inst k :
  validateKeys ns cu = Ok tt -> host_Key (cu_Host cu) ≫= key_of ns = Some hk ->
  inst ∈ cu_Instances cu -> inst_Key inst = Some i -> key_of ns i = Some k -> keysIdentical hk k = true.
Proof.
  intros H Hh Hin Hi Hk. unfold validateKeys in H. destruct (host_Key (cu_Host cu)) as [h|]; [|done]. cbn in Hh.
  cbn [option_list app] in H. cbn [omap list_omap] in H. rewrite Hh in H.
  assert (Hkin : k ∈ omap (key_of ns) (omap inst_Key (cu_Instances cu))).
  { apply list_elem_of_omap. exists i. split; [|done]. apply list_elem_of_omap. eauto. }
  apply foldM_ok_each with (x := k) in H; [|done]. by destruct (keysIdentical hk k).
Qed.

Lemma KeyFor_material msg cu name hk k :
  srp_Validate msg = Ok cu -> host_Key (cu_Host cu) ≫= key_of (Ns msg) = Some hk ->
  KeyFor (Ns msg) cu name = Some k -> keysIdentical hk k = true.
Proof.
  intros [Hc Hv]%Validate_Classified Hh. unfold KeyFor. case_bool_decide as E.
  { rewrite Hh. intros [= <-]. apply keysIdentical_refl. }
  destruct (instance_named name (cu_Instances cu)) as [inst|] eqn:Hi; [|done].
  apply instance_named_Some in Hi as [Hin _]. cbn. destruct (inst_Key inst) as [i|] eqn:Ei.
  - unfold ValidateClassified in Hv. repeat case_match; try done. unfold validatePostClassify in Hv.
    apply bind_ok in Hv as (_ & _ & Hv). apply bind_ok in Hv as (_ & _ & Hv). apply bind_ok in Hv as ([] & Hv & _).
    intros Hk. by eapply validateKeys_same.
  - rewrite Hh. cbn. destruct (Ns msg !! inst_Delete inst); [|done]. intros [= <-]. exact (keysIdentical_refl hk).
Qed.

Lemma validateServiceNames_ok cu d :
  validateServiceNames cu = Ok tt -> d ∈ cu_Discovery cu -> sd_IsAdd d = true ->
  let base := if bool_decide (sd_BaseType d = "") then sd_Name d else sd_BaseType d in
  is_Some (ServiceTypeFromServiceName base) /\ (CutFirstLabel (sd_Target d)).1.2 = base.
Proof.
  intros H Hd Ha. cbn zeta. apply foldM_ok_each with (x := d) in H; [|done]. rewrite Ha in H. cbn [negb] in H. cbn zeta in H.
  destruct (ServiceTypeFromServiceName _); [|done]. split; [done|].
  match goal with H : context [negb (bool_decide ?P)] |- _ => destruct (bool_decide_reflect P) as [E|E] end; [exact E|done].
Qed.

Lemma validateLeaseOption_ok msg :
  validateLeaseOption msg = Ok tt ->
  exists lo, FindAndDecode msg = Ok lo /\ Validate lo = Ok tt.
Proof.
  unfold validateLeaseOption, FindAndDecode. destruct (FindOption msg) as [erfc|]; [|done]. cbn.
  unfold DecodeOption. destruct (decodeERFC erfc) as [lo|] eqn:E; [|done]. intros _. exists lo. split; [done|].
  by apply decodeERFC_ok in E as (_ & _ & ?).
Qed.

(** [C39] What a validated SRP update is: one zone, no prerequisites, and a decodable Update
    Lease, whose LEASE is at most its KEY-LEASE unless the KEY-LEASE is 0 or absent
    ([zero_key_lease_accepted]); any two of its adds in one RRset have one
    TTL; the host and every service instance are governed by a KEY at their own name with the
    host's key material; and every PTR add is at a DNS-SD service type, or a subtype of one, and
    names an instance of that type. *)
Theorem validated_update (msg : Msg) (cu : ClassifiedUpdate) :
  srp_Validate msg = Ok cu ->
  length (Question msg) = 1%nat /\ Answer msg = [] /\
  (exists lo, FindAndDecode msg = Ok lo /\ forall kl, KeyLease lo = Some kl -> kl <> 0 -> Lease lo <= kl \/ Lease lo = 0) /\
  (forall r1 r2, r1 ∈ deref (Ns msg) (ttl_refs cu) -> r2 ∈ deref (Ns msg) (ttl_refs cu) -> keyFor r1 = keyFor r2 ->
     TTL (Hdr r1) = TTL (Hdr r2)) /\
  (exists hk, KeyFor (Ns msg) cu (host_Name (cu_Host cu)) = Some hk /\
     forall name, name ∈ Names cu -> exists k, KeyFor (Ns msg) cu name = Some k /\ Fold (Name (key_Hdr k)) = name /\
       keysIdentical hk k = true) /\
  (forall d, d ∈ cu_Discovery cu -> sd_IsAdd d = true ->
     let base := if bool_decide (sd_BaseType d = "") then sd_Name d else sd_BaseType d in
     is_Some (ServiceTypeFromServiceName base) /\ (CutFirstLabel (sd_Target d)).1.2 = base).
Proof.
  intros Hv. pose proof Hv as [Hc H]%Validate_Classified. unfold ValidateClassified in H.
  destruct (length (Question msg) =? 1)%nat eqn:Hq; [|done]. destruct (length (Answer msg) =? 0)%nat eqn:Ha; [|done]. cbn [negb] in H.
  apply bind_ok in H as ([] & Hl & H). apply bind_ok in H as ([] & Ht & H). apply bind_ok in H as ([] & Hk & Hs).
  split_and!.
  - by apply Nat.eqb_eq.
  - apply Nat.eqb_eq in Ha. by destruct (Answer msg).
  - apply validateLeaseOption_ok in Hl as (lo & E & Hlo). exists lo. split; [done|]. intros kl Ekl Hnz. unfold Validate in Hlo.
    rewrite Ekl in Hlo. destruct (kl =? 0) eqn:E1, (Lease lo =? 0) eqn:E2, (kl <? Lease lo) eqn:E3; cbn in Hlo; try done; lia.
  - by apply CheckConsistentTTLs_iff.
  - destruct (Classify_host_key _ _ Hc) as (hk & Hhk & _). exists hk. split; [unfold KeyFor; by rewrite bool_decide_true|].
    intros name Hn. destruct (KeyFor_total _ _ _ Hc Hn) as (k & E & En). exists k. split_and!; [done|done|].
    by eapply KeyFor_material.
  - intros d Hd Hadd. by apply (validateServiceNames_ok cu d).
Qed.

Lemma validated_update_witness :
  srp_Validate SrpDemo.msg = Ok SrpDemo.cu /\
  exists k, KeyFor SrpDemo.ns SrpDemo.cu (Fold SrpDemo.office) = Some k /\ keysIdentical (SrpDemo.key SrpDemo.printhost) k = true.
Proof.
  assert (H : srp_Validate SrpDemo.msg = Ok SrpDemo.cu) by (vm_compute; reflexivity).
  split; [exact H|]. destruct (validated_update SrpDemo.msg SrpDemo.cu H) as (_ & _ & _ & _ & (hk & E & Hk) & _).
  destruct (Hk (Fold SrpDemo.office) ltac:(right; by left)) as (k & E1 & _ & E2). exists k. split; [exact E1|].
  vm_compute in E. injection E as <-. exact E2.
Defined.

(** ** First come, first served *)

(** RFC 2136 S3.2: when a prerequisite of the two forms holds of the records at a name. *)
Definition prereq_holds (at_name : string -> list RR) (p : RR) : Prop :=
  if RRToType p =? TypeANY then at_name (Name (Hdr p)) = []
  else forall rr, rr ∈ at_name (Name (Hdr p)) -> RRToType rr <> RRToType p.

(** The S3.3.3 table.  A name is granted either because a KEY with the update's key
    material is there (in the lease store, or, the store having none, on the authoritative
    server), or as a first claim, the store having no KEY there, with a prerequisite: when the
    server applies the UPDATE and the prerequisite holds, there is no KEY at the name, and
    nothing at all if data without a KEY is to be refused.  A conflict is reported exactly for
    KEYs of other key material, foreign data exactly for a name with data and no KEY when it is
    to be refused, and an error exactly when the store has no KEY and the query fails. *)
Theorem fcfs_table {V : StoreView} (query : AuthoritativeKeyQuery) (zoneHint name : string) (updateKey : KEY) (refuse : bool) :
  match Evaluate query zoneHint name updateKey refuse with
  | Ok (FCFSProceed, None) =>
      exists key, keysIdentical key updateKey = true /\
        (KeyAtName name = Some key \/
         KeyAtName name = None /\ exists keys, query zoneHint name = Ok (AuthKeyPresent, keys) /\ key ∈ keys)
  | Ok (FCFSProceed, Some p) =>
      KeyAtName name = None /\
      (forall at_name, prereq_holds at_name p ->
         forall rr, rr ∈ at_name name -> RRToType rr <> TypeKEY /\ refuse = false)
  | Ok (FCFSConflict, p) =>
      p = None /\
      ((exists key, KeyAtName name = Some key /\ keysIdentical key updateKey = false) \/
       (KeyAtName name = None /\ exists keys, query zoneHint name = Ok (AuthKeyPresent, keys) /\
          forall key, key ∈ keys -> keysIdentical key updateKey = false))
  | Ok (FCFSForeignData, p) =>
      p = None /\ refuse = true /\ KeyAtName name = None /\ exists keys, query zoneHint name = Ok (AuthNoKey, keys)
  | Err _ => KeyAtName name = None /\ exists e, query zoneHint name = Err e
  end.
Proof.
  unfold Evaluate. destruct (KeyAtName name) as [key|] eqn:Hk.
  { destruct (keysIdentical key updateKey) eqn:E; [eauto|]. split; [done|]. left. eauto. }
  destruct (query zoneHint name) as [[[] keys]|e] eqn:Hq; [| | |eauto].
  - destruct refuse; (split; [done|]); unfold prereq_holds; cbn; intros at_name H rr Hr.
    + rewrite H in Hr. by apply not_elem_of_nil in Hr.
    + split; [by apply H|done].
  - destruct refuse; [by eauto 6|]. split; [done|]. unfold prereq_holds; cbn; intros at_name H rr Hr. split; [by apply H|done].
  - destruct (existsb _ keys) eqn:E.
    + apply existsb_exists in E as (key & Hin%list_elem_of_In & Hid). exists key. split; [done|]. right. eauto.
    + split; [done|]. right. split; [done|]. exists keys. split; [done|]. intros key Hin.
      destruct (keysIdentical key updateKey) eqn:Hid; [|done]. rewrite <- E. symmetry. apply existsb_exists. exists key.
      split; [by apply list_elem_of_In|done].
Qed.

(** A LEASE of an hour with a KEY-LEASE of 0, which is less, is accepted. *)
Example zero_key_lease_accepted :
  let msg := mkMsg (MsgHdr SrpDemo.msg) (Question SrpDemo.msg) [] SrpDemo.ns [] [SrpDemo.lease "00000e1000000000"] [] in
  srp_Validate msg = Ok SrpDemo.cu /\ exists lo, FindAndDecode msg = Ok lo /\ Lease lo = 3600 /\ KeyLease lo = Some 0.
Proof. split; [vm_compute; reflexivity|]. eexists. split; [vm_compute; reflexivity|split; reflexivity]. Qed.
