(* ===== verification/SrpHandler.v ===== *)
(** * The SRP handler

    handlers/srp_handler.go: [Handle] for RFC 9665 updates, in the ten steps of the source, the
    local mutations behind a confirmed UPDATE, the service enumeration, and lease expiry through
    the shared engine of [Expiry].  The Update section is the heap [ns] the classified update
    points into; the rewrite of names and TTLs replaces its records in place. *)

From Stdlib Require Import Ascii String ZArith Lia.
From S2P Require Import Prelude DnsName DnsData NodeIdent LeaseStore LeaseTree LeaseInv LeaseSpec LeaseOption LeasePolicy.
From S2P Require Import NodeLocks UpdateCore HandlerBase Expiry UpdateHandler DnsSd SrpClassify SrpValidate.

Local Open Scope Z_scope.

Record SRPHandler := mkSRPHandler {
  s_upstreamZone : string;
  s_upstreamKey : option KEY;
  s_allowUDP : bool;
  s_refuseOnForeignData : bool;
  s_rewriteDefaultServiceARPA : bool;
  s_LeasePolicy : LeasePolicy;
  s_recordTTL : Z;
  s_advertiseRegistrationDomain : bool }.

(** The handler's mutable state: lease store, timers and UPDATEs handed over as for the other
    handler, and the enumeration state. *)
Record SRPWorld := mkSRPWorld {
  sw : World;
  sw_serviceTypes : gset string;
  sw_domainEnumPresent : gmap string bool }.

Definition set_sw (w : World) (x : SRPWorld) : SRPWorld := mkSRPWorld w (sw_serviceTypes x) (sw_domainEnumPresent x).

Definition s_upstream (h : SRPHandler) : upstreamTarget := mkTarget (s_upstreamKey h) (s_upstreamZone h).

(** ** default.service.arpa. *)

Definition defaultServiceARPA : string := "default.service.arpa.".

Definition zoneEnabled (h : SRPHandler) (zone : string) : bool :=
  let z := Normalize zone in
  bool_decide (z = Normalize (s_upstreamZone h))
  || s_rewriteDefaultServiceARPA h && bool_decide (z = Normalize defaultServiceARPA).

Definition rewriteZoneSuffix (name realZone : string) : string :=
  if (String.length name <? String.length defaultServiceARPA)%nat then name
  else
    let cut := (String.length name - String.length defaultServiceARPA)%nat in
    let tail := string_drop cut name in
    if negb (EqualFold tail defaultServiceARPA) then name
    else if (0 <? cut)%nat && negb (bool_decide (String.get (cut - 1) name = Some "."%char)) then name
    else string_take cut name +:+ realZone.

Definition rewrite_rr (realZone : string) (rr : RR) : RR :=
  let rr := set_Name (rewriteZoneSuffix (Name (Hdr rr)) realZone) rr in
  match RD rr with
  | RD_SRV p w port target => mkRR (Hdr rr) (RD_SRV p w port (rewriteZoneSuffix target realZone))
  | RD_PTR ptr => mkRR (Hdr rr) (RD_PTR (rewriteZoneSuffix ptr realZone))
  | _ => rr
  end.

Definition set_Ns (ns : list RR) (msg : Msg) : Msg :=
  mkMsg (MsgHdr msg) (Question msg) (Answer msg) ns (Extra msg) (Pseudo msg) (Data msg).

Definition rewriteDefaultServiceARPA (msg : Msg) (realZone : string) : Msg :=
  set_Ns (map (rewrite_rr realZone) (Ns msg)) msg.

(** ** The Update section in place *)

(** [rr.Header().TTL = ttl] through a pointer. *)
Definition set_ttl_at (ttl : Z) (ns : list RR) (i : ref) : list RR := alter (set_TTL ttl) i ns.

Definition applyRecordTTL (cu : ClassifiedUpdate) (ttl lease keyLease : Z) (ns : list RR) : list RR :=
  let ns := foldl (set_ttl_at (Z.min ttl keyLease)) ns (option_list (host_Key (cu_Host cu))) in
  let ns := foldl (set_ttl_at (Z.min ttl lease)) ns (host_Addresses (cu_Host cu)) in
  let ns := foldl (fun ns inst =>
                     let ns := foldl (set_ttl_at (Z.min ttl keyLease)) ns (option_list (inst_Key inst)) in
                     let ns := foldl (set_ttl_at (Z.min ttl lease)) ns (option_list (inst_SRV inst)) in
                     foldl (set_ttl_at (Z.min ttl lease)) ns (inst_TXT inst))
                  ns (cu_Instances cu) in
  foldl (fun ns d => if sd_IsAdd d then set_ttl_at ttl ns (sd_RR d) else ns) ns (cu_Discovery cu).

Section srp_handler.
Context {L : DnsLib} {SG : Sig0} {U : UpstreamCoordinator}.

(** [leaseStoreView]: the first live KEY at the name. *)
Definition leaseStoreView (now : Z) (st : Store) : StoreView :=
  {| KeyAtName name := match FindByName now name st with [] => None | rec :: _ => Some (KeyRR rec) end |}.

(** [parseLease] of the SRP handler. *)
Definition srp_parseLease (msg : Msg) : result (Z * Z) :=
  match FindOption msg with
  | None => Err "no Update-Lease EDNS option found"
  | Some erfc =>
      match DecodeOption erfc with
      | Err _ => Err "invalid lease option"
      | Ok lo =>
          match KeyLease lo with
          | None => Err "SRP requires the 8-byte Update-Lease variant (LEASE + KEY-LEASE)"
          | Some keyLease => Ok (Lease lo, keyLease)
          end
      end
  end.

Definition prerequisiteFailed (rcode : Z) (prereqs : list RR) : bool :=
  if rcode =? RcodeYXDomain then existsb (fun rr => RRToType rr =? TypeANY) prereqs
  else if rcode =? RcodeYXRrset then existsb (fun rr => RRToType rr =? TypeKEY) prereqs
  else false.

(** ** Records the registrar adds to the forwarded update *)

(** The outer option of the next functions is the panic of [KeyFor]. *)
Definition synthesizeOmittedInstanceKeys (ns : list RR) (cu : ClassifiedUpdate) : option (list RR) :=
  foldl (fun acc inst =>
           records ← acc;
           if negb (bool_decide (is_Some (inst_SRV inst))) || bool_decide (is_Some (inst_Key inst)) then Some records
           else k ← KeyFor ns cu (inst_Name inst); Some (records ++ [KEY_RR k])) (Some []) (cu_Instances cu).

(** The PTR adds of the update that list an instance. *)
Definition discovery_adds (cu : ClassifiedUpdate) (inst : ServiceInstance) : list ref :=
  map sd_RR (filter (fun d => sd_IsAdd d = true /\ sd_Target d = inst_Name inst) (cu_Discovery cu)).

(** The deletes of the PTRs a node holds and the update does not name for its instance. *)
Definition dropped_PTRs (st : Store) (ns : list RR) (cu : ClassifiedUpdate) (inst : ServiceInstance) (instNodeKey : string)
    : list RR :=
  match GetNonKEYRecordSet instNodeKey st with
  | None => []
  | Some set =>
      let named := map RecordKey (deref ns (discovery_adds cu inst)) in
      map (fun kv => AsDelete (n_RR kv.2))
          (filter (fun kv : string * NonKEYRecord => is_PTR (n_RR kv.2) = true /\ kv.1 ∉ named)
             (map_to_list (set_Records set)))
  end.

Definition ptrDeleteDiff (st : Store) (ns : list RR) (cu : ClassifiedUpdate) : option (list RR) :=
  foldl (fun acc inst =>
           diff ← acc;
           k ← KeyFor ns cu (inst_Name inst);
           Some (diff ++ dropped_PTRs st ns cu inst (NodeKey k))) (Some []) (cu_Instances cu).

(** ** The local mutations *)

Definition registerOrRenew (now : Z) (parentNodeKey : string) (keyRR : KEY) (keyLease : Z) (upstreamZone : string)
    (st : Store) : result Store :=
  let register := RegisterWithParent now parentNodeKey (Some keyRR) keyLease keyLease upstreamZone st in
  match Get (NodeKey keyRR) st with
  | Some existing => if negb (IsExpired now existing) then RenewLease now (Some keyRR) keyLease keyLease st else register
  | None => register
  end.

(** [note(op)]: the store after the operation (unchanged when it fails) and the first error. *)
Definition noted (op : Store -> result Store) (s : Store * option string) : Store * option string :=
  match op s.1 with
  | Ok st => (st, s.2)
  | Err e => (s.1, match s.2 with None => Some e | Some e0 => Some e0 end)
  end.

Definition instance_records (ns : list RR) (cu : ClassifiedUpdate) (inst : ServiceInstance) : list RR :=
  deref ns (option_list (inst_SRV inst) ++ inst_TXT inst ++ discovery_adds cu inst).

(** The body of the instance loop of [applyLocalMutations], at the instance's KEY. *)
Definition apply_instance (now lease keyLease : Z) (zone parent : string) (ns : list RR) (cu : ClassifiedUpdate)
    (inst : ServiceInstance) (key : KEY) (s : Store * option string) : Store * option string :=
  let s := noted (registerOrRenew now parent key keyLease zone) s in
  let s := (RemoveNonKEYRecords (NodeKey key) s.1, s.2) in
  match inst_SRV inst with
  | None => s
  | Some _ => noted (UpsertNonKEYRecords now (NodeKey key) (instance_records ns cu inst) lease zone) s
  end.

Definition apply_host (now lease keyLease : Z) (zone : string) (ns : list RR) (cu : ClassifiedUpdate) (key : KEY) (st : Store)
    : Store * option string * string :=
  let hostNodeKey := NodeKey key in
  let s := noted (registerOrRenew now "" key keyLease zone) (st, None) in
  let instanceParentKey := match s.2 with None => hostNodeKey | Some _ => "" end in
  let s := (RemoveNonKEYRecords hostNodeKey s.1, s.2) in
  let s := if (0 <? length (host_Addresses (cu_Host cu)))%nat
           then noted (UpsertNonKEYRecords now hostNodeKey (deref ns (host_Addresses (cu_Host cu))) lease zone) s else s in
  (s, instanceParentKey).

Definition applyLocalMutations (now lease keyLease : Z) (zone : string) (ns : list RR) (cu : ClassifiedUpdate) (st : Store)
    : option (Store * list string * option string) :=
  hostKey ← host_Key (cu_Host cu) ≫= key_of ns;
  let '(s, parent) := apply_host now lease keyLease zone ns cu hostKey st in
  acc ← foldl (fun acc inst =>
                 acc ← acc;
                 key ← KeyFor ns cu (inst_Name inst);
                 Some (apply_instance now lease keyLease zone parent ns cu inst key acc.1, acc.2 ++ [NodeKey key]))
              (Some (s, [NodeKey hostKey])) (cu_Instances cu);
  Some (acc.1.1, acc.2, acc.1.2).

(** ** Service enumeration *)

(** The first SRV of a record set, in the order the set is visited in. *)
Fixpoint first_SRV (recs : list (string * NonKEYRecord)) : option RR :=
  match recs with
  | [] => None
  | (_, rec) :: recs => if is_SRV (n_RR rec) then Some (n_RR rec) else first_SRV recs
  end.

Definition collectLiveServiceTypes (now : Z) (st : Store) : list string :=
  omap (fun rec =>
          if IsExpired now rec then None
          else
            set ← GetNonKEYRecordSet (NodeKey (KeyRR rec)) st;
            srv ← first_SRV (map_to_list (set_Records set));
            ServiceTypeFromInstanceName (Name (Hdr srv)))
       (ListAll st).

(** The types this process listed before and has no instance of: kept while the query finds
    one elsewhere or fails. *)
Definition survives (h : SRPHandler) (currentSet : gset string) (t : string) : bool :=
  if bool_decide (Fold t ∈ currentSet) then false
  else match up_QueryPTRExists (s_upstreamZone h) (BrowsingOwnerName t (s_upstreamZone h)) with
       | Err _ => true
       | Ok stillLive => stillLive
       end.

Definition wantedDomainEnum (h : SRPHandler) (anyLive : bool) : list (string * bool) :=
  [(BrowseDomainPrefix, anyLive); (DefaultBrowseDomainPrefix, anyLive); (LegacyBrowseDomainPrefix, anyLive);
   (RegistrationDomainPrefix, s_advertiseRegistrationDomain h);
   (DefaultRegistrationDomainPrefix, s_advertiseRegistrationDomain h)].

(** [reconcileServiceEnumeration]; [None] is the panic of [send] without a signing key. *)
Definition reconcileServiceEnumeration (h : SRPHandler) (now : Z) (x : SRPWorld) : option SRPWorld :=
  let current := collectLiveServiceTypes now (w_store (sw x)) in
  let currentSet : gset string := list_to_set (map Fold current) in
  let previous := elements (sw_serviceTypes x) in
  let survivors := filter (fun t => survives h currentSet t = true) previous in
  let previousForDiff := filter (fun t => survives h currentSet t = false) previous in
  let anyLive := (0 <? size currentSet)%nat || (0 <? length survivors)%nat in
  let wanted := wantedDomainEnum h anyLive in
  let domainEnumRecords :=
    concat (map (fun '(prefix, isPresent) =>
                   DiffSelfPointingDomainRecord prefix (s_upstreamZone h) (default false (sw_domainEnumPresent x !! prefix))
                     isPresent (s_recordTTL h)) wanted) in
  let newDomainEnumPresent := list_to_map wanted : gmap string bool in
  let records := DiffEnumerationRecords (s_upstreamZone h) previousForDiff current (s_recordTTL h) ++ domainEnumRecords in
  let newState : gset string := currentSet ∪ list_to_set (map Fold survivors) in
  if (length records =? 0)%nat then Some (mkSRPWorld (sw x) newState newDomainEnumPresent)
  else
    out ← send (s_upstream h) [] records;
    let w := mkWorld (w_store (sw x)) (w_timers (sw x)) (w_sent (sw x) ++ o_sent out) in
    match o_err out with
    | Some _ => Some (set_sw w x)
    | None => Some (mkSRPWorld w newState newDomainEnumPresent)
    end.

(** ** [Handle] *)

(** Steps 1 to 5, which read neither the store nor the network: an answer, or the message with
    its names rewritten and its classification.  [None] is the panic of [requireUpstream]. *)
Definition srp_prologue (h : SRPHandler) (udp : bool) (r : Msg) : option (HandlerResult + Msg * ClassifiedUpdate) :=
  match Classify r with
  | Err e => Some (inl (NewNotRelevantResult ("not an SRP update: " +:+ e)))
  | Ok cu =>
      match Question r with
      | [q] =>
          let zone := q_Name q in
          if negb (zoneEnabled h zone) then Some (inl (NewNotRelevantResult "zone not enabled for SRP on this handler"))
          else if negb (bool_decide (is_Some (s_upstreamKey h))) then None
          else
            Some
              match refuseDottedLabels r with
              | Some res => inl res
              | None =>
                  match ValidateClassified r cu with
                  | Err e => inl (error_result r RcodeRefused e)
                  | Ok _ =>
                      if negb (s_allowUDP h) && udp then inl (error_result r RcodeRefused "TCP required, got UDP")
                      else
                        match extractSig0 r with
                        | Err e => inl (error_result r RcodeRefused e)
                        | Ok sigRR =>
                            if negb (bool_decide (Normalize (SignerName sigRR) = Normalize (host_Name (cu_Host cu))))
                            then inl (error_result r RcodeRefused "SIG(0) signer does not match Host Description name")
                            else
                              match match host_Key (cu_Host cu) ≫= key_of (Ns r) with
                                    | Some k => VerifySignature r k
                                    | None => Err "no Host Description KEY"
                                    end with
                              | Err e => inl (error_result r RcodeRefused e)
                              | Ok _ =>
                                  if bool_decide (Normalize zone = Normalize defaultServiceARPA) then
                                    let r' := rewriteDefaultServiceARPA r (s_upstreamZone h) in
                                    match srp_Validate r' with
                                    | Err e => inl (error_result r RcodeServerFailure e)
                                    | Ok cu => inr (r', cu)
                                    end
                                  else inr (r, cu)
                              end
                        end
                  end
              end
      | _ => Some (inl (NewNotRelevantResult "not an SRP update: expected exactly one Zone Section entry"))
      end
  end.

(** The names locked for KEY nodes and their subtrees. *)
Definition lockNames (st : Store) (nodeKeys : list string) : list string :=
  concat (map (fun nodeKey =>
                 NodeKeyName nodeKey ::
                 map NodeKeyName (filter (fun child => is_Some (Get child st)) (default [] (ListSubtreeKeys nodeKey st))))
              nodeKeys).

(** The node keys of the host and of every instance. *)
Definition lockRoots (ns : list RR) (cu : ClassifiedUpdate) : option (list string) :=
  mapM (fun name => k ← KeyFor ns cu name; Some (NodeKey k)) (Names cu).

(** Step 6: FCFS at every name, collecting the prerequisites. *)
Fixpoint fcfs_names (h : SRPHandler) (V : StoreView) (r : Msg) (cu : ClassifiedUpdate) (names : list string) (prereqs : list RR)
    : option (HandlerResult + list RR) :=
  match names with
  | [] => Some (inr prereqs)
  | name :: names =>
      key ← KeyFor (Ns r) cu name;
      match Evaluate (V := V) up_QueryKeyAtName (s_upstreamZone h) name key (s_refuseOnForeignData h) with
      | Err e => Some (inl (error_result r RcodeServerFailure e))
      | Ok (FCFSConflict, _) => Some (inl (error_result r RcodeYXDomain "FCFS conflict"))
      | Ok (FCFSForeignData, _) => Some (inl (error_result r RcodeRefused "foreign data"))
      | Ok (FCFSProceed, prereq) => fcfs_names h V r cu names (prereqs ++ option_list prereq)
      end
  end.

(** Step 7's records: the update section, the dropped PTRs and the omitted KEYs. *)
Definition forwardRecords (st : Store) (ns : list RR) (cu : ClassifiedUpdate) : option (list RR) :=
  drops ← ptrDeleteDiff st ns cu;
  keys ← synthesizeOmittedInstanceKeys ns cu;
  Some (ns ++ drops ++ keys).

(** Steps 6 to 10, under the name locks; [now] until the UPDATE is sent, [now'] afterwards. *)
Definition srp_locked (h : SRPHandler) (now now' : Z) (r : Msg) (cu : ClassifiedUpdate) (x : SRPWorld)
    : option (SRPWorld * HandlerResult) :=
  let st := w_store (sw x) in
  fcfs ← fcfs_names h (leaseStoreView now st) r cu (Names cu) [];
  match fcfs with
  | inl res => Some (x, res)
  | inr prereqs =>
      match srp_parseLease r with
      | Err e => Some (x, error_result r RcodeServerFailure e)
      | Ok (lease, keyLease) =>
          let '(lease, keyLease) := clamp (s_LeasePolicy h) lease keyLease in
          let ns := applyRecordTTL cu (s_recordTTL h) lease keyLease (Ns r) in
          records ← forwardRecords st ns cu;
          out ← send (s_upstream h) prereqs records;
          let x := set_sw (mkWorld st (w_timers (sw x)) (w_sent (sw x) ++ o_sent out)) x in
          match o_err out with
          | Some e =>
              match o_resp out with
              | Some resp =>
                  if prerequisiteFailed (Rcode (MsgHdr resp)) prereqs
                  then Some (x, error_result r RcodeYXDomain "FCFS conflict detected atomically by upstream prerequisite")
                  else Some (x, error_result r RcodeServerFailure e)
              | None => Some (x, error_result r RcodeServerFailure e)
              end
          | None =>
              applied ← applyLocalMutations now' lease keyLease (s_upstreamZone h) ns cu st;
              let '(st', touched, _) := applied in
              let ts := foldl (fun ts nodeKey => schedule now' st' nodeKey ts) (w_timers (sw x)) touched in
              let x := set_sw (mkWorld st' ts (w_sent (sw x))) x in
              x ← reconcileServiceEnumeration h now' x;
              Some (x, NewProcessedResult (leaseResponse r lease keyLease))
          end
      end
  end.

(** [Handle] of the SRP handler; [None] is a panic.  [acquired] is whether the name locks were
    taken in time; [x] is the state once they were. *)
Definition SRP_Handle (h : SRPHandler) (udp acquired : bool) (now now' : Z) (r : Msg) (x : SRPWorld)
    : option (SRPWorld * HandlerResult) :=
  p ← srp_prologue h udp r;
  match p with
  | inl res => Some (x, res)
  | inr (r, cu) =>
      _ ← lockRoots (Ns r) cu;
      if negb acquired then Some (x, error_result r RcodeServerFailure "lease-store node lock contention")
      else srp_locked h now now' r cu x
  end.

(** ** Expiry *)

Definition srp_lockIDs (nodeKey : string) (st : Store) : list string := lockNames st [nodeKey].

(** [processExpiredNode]: one event with the data cascade, then the enumeration. *)
Definition processExpiredNode (h : SRPHandler) (now now' : Z) (nodeKey : string) (locks : NodeLocks) (x : SRPWorld)
    : result (NodeLocks * SRPWorld) :=
  r ← run (s_upstream h) true srp_lockIDs now now' nodeKey locks (sw x);
  let '(locks, w, removed) := r in
  let x := set_sw w x in
  if removed : bool then
    match reconcileServiceEnumeration h now' x with Some x => Ok (locks, x) | None => Err "panic: upstream coordinator or signing key missing" end
  else Ok (locks, x).

(** One tick of [startLeaseReconciliation]; [None] is a panic. *)
Definition srp_tick (h : SRPHandler) (now : Z) (x : SRPWorld) : option SRPWorld :=
  let w := sw x in
  reconcileServiceEnumeration h now (set_sw (mkWorld (w_store w) (reconcile now (w_store w) (w_timers w)) (w_sent w)) x).
End srp_handler.
