(* ===== verification/SrpEffects.v ===== *)
(** * What an SRP update changes

    The effect of the in-place changes of the Update section (TTLs, through the references of
    the classified update) and of the local mutations on the lease store, node by node. *)

From Stdlib Require Import Ascii String ZArith Lia.
From S2P Require Import Prelude DnsName DnsData NodeIdent LeaseStore LeaseTree LeaseInv LeaseSpec LeaseOption LeasePolicy.
From S2P Require Import NodeLocks UpdateCore HandlerBase Expiry UpdateHandler DnsSd SrpClassify SrpValidate SrpHandler.

Local Open Scope Z_scope.

(** ** The TTLs *)

(** The assignments [applyRecordTTL] makes, in order. *)
Definition ttl_assignments (cu : ClassifiedUpdate) (ttl lease keyLease : Z) : list (ref * Z) :=
  map (fun i => (i, Z.min ttl keyLease)) (option_list (host_Key (cu_Host cu)))
  ++ map (fun i => (i, Z.min ttl lease)) (host_Addresses (cu_Host cu))
  ++ concat (map (fun inst => map (fun i => (i, Z.min ttl keyLease)) (option_list (inst_Key inst))
                              ++ map (fun i => (i, Z.min ttl lease)) (option_list (inst_SRV inst) ++ inst_TXT inst))
                 (cu_Instances cu))
  ++ map (fun d => (sd_RR d, ttl)) (filter (fun d => sd_IsAdd d = true) (cu_Discovery cu)).

Definition assign_ttl (ns : list RR) (p : ref * Z) : list RR := set_ttl_at p.2 ns p.1.

Lemma foldl_const_ttl t is_ ns : foldl (set_ttl_at t) ns is_ = foldl assign_ttl ns (map (fun i => (i, t)) is_).
Proof. revert ns. induction is_ as [|i is_ IH]; intros ns; [done|]. cbn. apply IH. Qed.

Lemma applyRecordTTL_assignments cu ttl lease keyLease ns :
  applyRecordTTL cu ttl lease keyLease ns = foldl assign_ttl ns (ttl_assignments cu ttl lease keyLease).
Proof.
  unfold applyRecordTTL, ttl_assignments. cbn zeta. rewrite !foldl_app, !foldl_const_ttl.
  set (ns2 := foldl assign_ttl _ (map _ (host_Addresses _))). clearbody ns2.
  assert (Hi : forall insts ns,
    foldl (fun ns inst => foldl (set_ttl_at (Z.min ttl lease))
             (foldl (set_ttl_at (Z.min ttl lease)) (foldl (set_ttl_at (Z.min ttl keyLease)) ns (option_list (inst_Key inst)))
                (option_list (inst_SRV inst))) (inst_TXT inst)) ns insts =
    foldl assign_ttl ns (concat (map (fun inst => map (fun i => (i, Z.min ttl keyLease)) (option_list (inst_Key inst))
                              ++ map (fun i => (i, Z.min ttl lease)) (option_list (inst_SRV inst) ++ inst_TXT inst)) insts))).
  { clear. induction insts as [|inst insts IH]; intros ns; [done|]. cbn [foldl map concat]. rewrite IH.
    rewrite !foldl_app, !map_app, !foldl_app, !foldl_const_ttl. done. }
  rewrite Hi. set (ns3 := foldl assign_ttl ns2 _). clearbody ns3. clear. revert ns3.
  induction (cu_Discovery cu) as [|d ds IH]; intros ns; [done|]. cbn [foldl]. rewrite filter_cons.
  destruct (sd_IsAdd d) eqn:E.
  - rewrite decide_True by done. cbn [map foldl]. apply IH.
  - rewrite decide_False by done. apply IH.
Qed.

(** When every assignment gives a position the TTL [f] wants there, the order is immaterial. *)
Lemma foldl_assign_lookup (f : RR -> Z) ps ns i rr :
  (forall j t r, (j, t) ∈ ps -> ns !! j = Some r -> t = f r) ->
  ns !! i = Some rr ->
  foldl assign_ttl ns ps !! i = Some (if bool_decide (i ∈ map fst ps) then set_TTL (f rr) rr else rr).
Proof.
  intros Hf Hi. induction ps as [|[j t] ps IH] using rev_ind; [done|].
  rewrite foldl_app. cbn [foldl]. unfold assign_ttl at 1, set_ttl_at. cbn [fst snd].
  specialize (IH ltac:(intros j' t' r Hin; apply Hf, elem_of_app; by left)). rewrite map_app. cbn [map fst].
  destruct (decide (i = j)) as [->|Hne].
  - rewrite list_lookup_alter, IH. cbn [fmap option_fmap option_map].
    assert (Hlast : j ∈ map fst ps ++ [j]) by (apply elem_of_app; right; by apply list_elem_of_singleton).
    rewrite (bool_decide_true (j ∈ _ ++ [j])) by done.
    assert (t = f rr) as -> by (apply (Hf j); [|done]; apply elem_of_app; right; by apply list_elem_of_singleton).
    rewrite decide_True by done. by match goal with |- context [bool_decide ?P] => destruct (bool_decide P) end; destruct rr.
  - rewrite list_lookup_alter_ne by done. rewrite IH, (bool_decide_ext (i ∈ map fst ps) (i ∈ map fst ps ++ [j])); [done|].
    rewrite elem_of_app, list_elem_of_singleton. tauto.
Qed.

Lemma foldl_assign_length ps ns : length (foldl assign_ttl ns ps) = length ns.
Proof. revert ns. induction ps as [|p ps IH]; intros ns; [done|]. cbn. rewrite IH. apply length_alter. Qed.

(** The TTL an add of a type is written with. *)
Definition add_ttl (ttl lease keyLease : Z) (rr : RR) : Z :=
  match RD rr with
  | RD_KEY _ => Z.min ttl keyLease
  | RD_PTR _ => ttl
  | _ => Z.min ttl lease
  end.

(** The adds of an update: class IN, and no Delete All RRsets. *)
Definition is_add (rr : RR) : bool := (Class (Hdr rr) =? ClassINET) && negb (is_ANY rr).

Lemma ttl_assignments_type msg cu ttl lease keyLease j t r :
  Classify msg = Ok cu -> (j, t) ∈ ttl_assignments cu ttl lease keyLease -> Ns msg !! j = Some r ->
  t = add_ttl ttl lease keyLease r /\ is_add r = true.
Proof.
  intros Hc Hin Hr. apply Classify_parts in Hc as (st & I & _ & _ & Ed & [_ (k & Ek & Hk) Ha] & Hi & _).
  assert (Hkey : forall name i, key_at (Ns msg) name i -> j = i -> Z.min ttl keyLease = add_ttl ttl lease keyLease r /\ is_add r = true).
  { intros name i (kk & H1 & H2 & _) ->. rewrite Hr in H1. injection H1 as ->. split; [done|]. unfold is_add. cbn. by rewrite H2. }
  unfold ttl_assignments in Hin. rewrite !elem_of_app in Hin. destruct Hin as [Hin|[Hin|[Hin|Hin]]].
  - rewrite Ek in Hin. apply list_elem_of_singleton in Hin as [= -> ->]. by eapply Hkey.
  - apply list_elem_of_fmap in Hin as (i & [= -> ->] & Hin). destruct (Ha i Hin) as (r' & H1 & Ht & Hcl & _).
    rewrite Hr in H1. injection H1 as <-. unfold add_ttl, is_add, RRToType, is_ANY in *. rewrite Hcl.
    destruct (RD r); cbn in Ht; try done; by destruct Ht.
  - apply list_elem_of_In, in_concat in Hin as (l & (inst & <- & Hinst)%in_map_iff & Hin). apply list_elem_of_In in Hinst, Hin.
    destruct (Hi inst Hinst) as [_ Hs Ht Hkk]. apply elem_of_app in Hin as [Hin|Hin];
      apply list_elem_of_fmap in Hin as (i & [= -> ->] & Hin).
    + destruct (inst_Key inst) as [i'|] eqn:E; [|by apply not_elem_of_nil in Hin]. apply list_elem_of_singleton in Hin as ->.
      by eapply Hkey; [apply Hkk|].
    + apply elem_of_app in Hin as [Hin|Hin].
      * destruct (inst_SRV inst) as [i'|] eqn:E; [|by apply not_elem_of_nil in Hin]. apply list_elem_of_singleton in Hin as ->.
        destruct (Hs i' eq_refl) as (hdr & p & w & port & tg & H1 & Hcl & _). rewrite Hr in H1. injection H1 as ->.
        unfold is_add. cbn. by rewrite Hcl.
      * destruct (Ht i Hin) as (hdr & txt & H1 & Hcl & _). rewrite Hr in H1. injection H1 as ->. unfold is_add. cbn. by rewrite Hcl.
  - apply list_elem_of_fmap in Hin as (d & [= -> ->] & Hin). apply list_elem_of_filter in Hin as [Hadd Hin]. rewrite Ed in Hin.
    apply I in Hin as (hdr & ptr & H1 & _ & _ & Hcl & _). rewrite Hadd in Hcl. rewrite Hr in H1. injection H1 as ->.
    unfold is_add. cbn. by rewrite Hcl.
Qed.

Lemma add_positions_elem ns i : i ∈ add_positions ns <-> exists rr, ns !! i = Some rr /\ is_ANY rr = false.
Proof.
  unfold add_positions. rewrite list_elem_of_omap. split.
  - intros ([j rr] & Hin & H). apply list_elem_of_lookup in Hin as [n Hn]. rewrite list_lookup_imap in Hn.
    destruct (ns !! n) as [r|] eqn:E; [|done]. cbn in Hn. injection Hn as <- <-. cbn in H. destruct (is_ANY r) eqn:Ea; [done|].
    injection H as <-. eauto.
  - intros (rr & Hi & Ha). exists (i, rr). cbn. rewrite Ha. split; [|done]. apply list_elem_of_lookup. exists i.
    by rewrite list_lookup_imap, Hi.
Qed.

Lemma ttl_assignments_cover msg cu ttl lease keyLease i rr :
  Classify msg = Ok cu -> Ns msg !! i = Some rr -> is_add rr = true -> i ∈ map fst (ttl_assignments cu ttl lease keyLease).
Proof.
  intros Hc Hi Ha. apply Classify_parts in Hc as (st & I & _ & _ & Ed & _ & _ & _ & _ & _ & Hp).
  unfold is_add in Ha. apply andb_true_iff in Ha as [Hcl%Z.eqb_eq Hany%negb_true_iff].
  assert (Hin : i ∈ cu_adds cu) by (rewrite Hp; apply add_positions_elem; eauto).
  unfold cu_adds in Hin. unfold ttl_assignments. rewrite !map_app, !elem_of_app. rewrite !elem_of_app in Hin.
  destruct Hin as [Hin|[Hin|[Hin|Hin]]].
  - right; left. rewrite map_map. cbn. by rewrite map_id.
  - left. rewrite map_map. cbn. by rewrite map_id.
  - right; right; left. apply list_elem_of_In, in_concat in Hin as (l & (inst & <- & Hinst)%in_map_iff & Hin).
    apply list_elem_of_fmap. apply list_elem_of_In in Hin. unfold inst_adds in Hin. apply elem_of_app in Hin.
    exists (i, if bool_decide (i ∈ option_list (inst_Key inst)) then Z.min ttl keyLease else Z.min ttl lease). split; [done|].
    apply list_elem_of_In, in_concat. eexists. split; [apply in_map_iff; exists inst; split; [reflexivity|exact Hinst]|].
    apply list_elem_of_In, elem_of_app. case_bool_decide as E; [left|right; destruct Hin as [Hin|Hin]; [done|]];
      apply list_elem_of_fmap; eauto.
  - right; right; right. apply list_elem_of_fmap in Hin as (d & -> & Hd). rewrite map_map. cbn.
    apply list_elem_of_fmap. exists d. split; [done|]. apply list_elem_of_filter. split; [|done].
    rewrite Ed in Hd. apply I in Hd as (hdr & ptr & H1 & _ & _ & Hc & _).
    pose proof (eq_trans (eq_sym Hi) H1) as E1. injection E1 as ->.
    cbn in Hcl. rewrite Hcl in Hc. by destruct (sd_IsAdd d).
Qed.

(** [applyRecordTTL] sets the TTL of every add by its type, and nothing else. *)
Lemma applyRecordTTL_lookup msg cu ttl lease keyLease i rr :
  Classify msg = Ok cu -> Ns msg !! i = Some rr ->
  applyRecordTTL cu ttl lease keyLease (Ns msg) !! i =
    Some (if is_add rr then set_TTL (add_ttl ttl lease keyLease rr) rr else rr).
Proof.
  intros Hc Hi. rewrite applyRecordTTL_assignments, (foldl_assign_lookup (add_ttl ttl lease keyLease) _ _ i rr); [|  |done].
  2:{ intros j t r Hin Hr. by eapply ttl_assignments_type. }
  case_bool_decide as Hin.
  - apply list_elem_of_fmap in Hin as ([j t] & -> & Hin). cbn in Hi |- *.
    destruct (ttl_assignments_type _ _ _ _ _ _ _ _ Hc Hin Hi) as [_ ->]. done.
  - destruct (is_add rr) eqn:Ha; [|done]. exfalso. apply Hin. by eapply ttl_assignments_cover.
Qed.

Lemma applyRecordTTL_length cu ttl lease keyLease ns : length (applyRecordTTL cu ttl lease keyLease ns) = length ns.
Proof. rewrite applyRecordTTL_assignments. apply foldl_assign_length. Qed.

(** ** The records, but for their TTLs *)

Definition but_ttl (a b : RR) : Prop := exists t, b = set_TTL t a.

Lemma but_ttl_refl a : but_ttl a a.
Proof. exists (TTL (Hdr a)). by destruct a as [[] ?]. Qed.

Lemma applyRecordTTL_but_ttl msg cu ttl lease keyLease :
  Classify msg = Ok cu -> Forall2 but_ttl (Ns msg) (applyRecordTTL cu ttl lease keyLease (Ns msg)).
Proof.
  intros Hc. apply Forall2_same_length_lookup. split; [by rewrite applyRecordTTL_length|].
  intros i x y Hx Hy. rewrite (applyRecordTTL_lookup msg cu _ _ _ i x Hc Hx) in Hy. injection Hy as <-.
  destruct (is_add x); [by eexists|apply but_ttl_refl].
Qed.

Section keys.
Context {L : DnsLib}.

Lemma NodeKey_set_TTL t k : NodeKey (key_set_TTL t k) = NodeKey k.
Proof. done. Qed.

Lemma RecordKey_set_TTL t rr : RecordKey (set_TTL t rr) = RecordKey rr.
Proof. apply RecordKey_ident. by destruct rr. Qed.

Lemma key_of_but_ttl ns ns' i k :
  Forall2 but_ttl ns ns' -> key_of ns i = Some k -> exists t, key_of ns' i = Some (key_set_TTL t k).
Proof.
  intros Hf. unfold key_of. destruct (ns !! i) as [rr|] eqn:E; [|done]. cbn. intros Hk.
  destruct (Forall2_lookup_l _ _ _ _ _ Hf E) as (rr' & -> & t & ->). exists t. cbn. unfold as_KEY in *.
  destruct rr as [hdr d]. cbn in *. destruct d; try done. injection Hk as <-. done.
Qed.

Lemma KeyFor_but_ttl ns ns' cu name k :
  Forall2 but_ttl ns ns' -> KeyFor ns cu name = Some k -> exists t, KeyFor ns' cu name = Some (key_set_TTL t k).
Proof.
  intros Hf. unfold KeyFor. case_bool_decide as E.
  - destruct (host_Key (cu_Host cu)) as [i|]; [|done]. cbn. by apply key_of_but_ttl.
  - destruct (instance_named name (cu_Instances cu)) as [inst|]; [|done]. cbn.
    destruct (inst_Key inst) as [i|]; [by apply key_of_but_ttl|].
    destruct (host_Key (cu_Host cu)) as [i|]; [|done]. cbn. destruct (key_of ns i) as [hk|] eqn:Eh; [|done]. cbn.
    destruct (key_of_but_ttl _ _ _ _ Hf Eh) as [t ->]. cbn. destruct (ns !! inst_Delete inst) as [del|] eqn:Ed; [|done]. cbn.
    destruct (Forall2_lookup_l _ _ _ _ _ Hf Ed) as (del' & -> & t' & ->). cbn. intros [= <-]. exists t. done.
Qed.

Lemma rr_wf_but_ttl ns ns' :
  Forall2 but_ttl ns ns' -> Forall (fun rr => rr_wf rr = true) ns -> Forall (fun rr => rr_wf rr = true) ns'.
Proof. induction 1 as [|a b ns ns' [t ->] _ IH]; intros H; [constructor|]. apply Forall_cons in H as [? ?]. constructor; auto. Qed.
End keys.

Lemma deref_wf ns is_ : Forall (fun rr => rr_wf rr = true) ns -> Forall (fun rr => rr_wf rr = true) (deref ns is_).
Proof.
  intros H. apply Forall_forall. intros rr (i & _ & Hi)%list_elem_of_omap. by eapply (Forall_lookup_1 _ _ _ _ H).
Qed.

(** ** One node of the store *)

Section nodes.
Context {L : DnsLib} {LL : DnsLibLaws L}.

(** What both the host and an instance go through: register or renew, wipe, reinsert. *)
Definition apply_node (now lease keyLease : Z) (zone parent : string) (key : KEY) (records : option (list RR))
    (s : Store * option string) : Store * option string :=
  let s := noted (registerOrRenew now parent key keyLease zone) s in
  let s := (RemoveNonKEYRecords (NodeKey key) s.1, s.2) in
  match records with
  | None => s
  | Some rs => noted (UpsertNonKEYRecords now (NodeKey key) rs lease zone) s
  end.

Definition host_records (ns : list RR) (cu : ClassifiedUpdate) : option (list RR) :=
  if (0 <? length (host_Addresses (cu_Host cu)))%nat then Some (deref ns (host_Addresses (cu_Host cu))) else None.

Definition live_records (ns : list RR) (cu : ClassifiedUpdate) (inst : ServiceInstance) : option (list RR) :=
  match inst_SRV inst with None => None | Some _ => Some (instance_records ns cu inst) end.

Lemma apply_host_node now lease keyLease zone ns cu key st :
  (apply_host now lease keyLease zone ns cu key st).1 = apply_node now lease keyLease zone "" key (host_records ns cu) (st, None).
Proof. unfold apply_host, apply_node, host_records. cbn zeta. cbn [fst]. by destruct (0 <? length _)%nat. Qed.

Lemma apply_instance_node now lease keyLease zone parent ns cu inst key s :
  apply_instance now lease keyLease zone parent ns cu inst key s =
  apply_node now lease keyLease zone parent key (live_records ns cu inst) s.
Proof. unfold apply_instance, apply_node, live_records. by destruct (inst_SRV inst). Qed.

(** The records of a node are those of a list, with their lease. *)
Definition records_within (now lease : Z) (st : Store) (node : string) (rrs : list RR) : Prop :=
  forall id r, nonKeyRecords st !! id = Some r -> n_Parent r = node ->
    n_RR r ∈ rrs /\ id = RecordKey (n_RR r) /\ n_ExpiresAt r = now + lease * second.

Definition records_all (st : Store) (node : string) (rrs : list RR) : Prop :=
  forall rr, rr ∈ rrs -> exists r, nonKeyRecords st !! RecordKey rr = Some r /\ n_Parent r = node.

(** The KEY node after [registerOrRenew]: renewed in place while live, else registered. *)
Definition node_lease (now : Z) (parent : string) (key : KEY) (keyLease : Z) (st : Store) (r' : KEYRecord) : Prop :=
  KeyRR r' = key /\ k_ExpiresAt r' = now + keyLease * second /\
  k_Parent r' = match lookup_live now (NodeKey key) st with Some r => k_Parent r | None => eff_parent parent key end.

Lemma registerOrRenew_ok now parent key keyLease zone st st' :
  registerOrRenew now parent key keyLease zone st = Ok st' ->
  (WF st -> WF st') /\ nonKeyRecords st' = nonKeyRecords st /\
  (forall id, id <> NodeKey key -> leases st' !! id = leases st !! id) /\
  exists r', leases st' !! NodeKey key = Some r' /\ node_lease now parent key keyLease st r'.
Proof.
  unfold registerOrRenew, Get, node_lease, lookup_live. cbn zeta. rewrite Normalize_NodeKey.
  assert (Hreg : RegisterWithParent now parent (Some key) keyLease keyLease zone st = Ok st' ->
    (WF st -> WF st') /\ nonKeyRecords st' = nonKeyRecords st /\
    (forall id, id <> NodeKey key -> leases st' !! id = leases st !! id) /\
    exists r', leases st' !! NodeKey key = Some r' /\ KeyRR r' = key /\ k_ExpiresAt r' = now + keyLease * second /\
      k_Parent r' = eff_parent parent key).
  { intros H. split; [intros W; by eapply RegisterWithParent_WF|].
    apply RegisterWithParent_ok in H as (k & [= <-] & _ & _ & Hl & Hn & _). rewrite Hl. split_and!; [done| |].
    - intros id Hid. by rewrite lookup_insert_ne.
    - rewrite lookup_insert_eq. by eexists. }
  destruct (leases st !! NodeKey key) as [r|] eqn:Er; [|done]. cbn [mbind option_bind]. destruct (IsExpired now r); cbn [negb]; [done|].
  intros H. split; [intros W; by eapply RenewLease_WF|].
  apply RenewLease_ok in H as (k & r0 & [= <-] & Hr0 & Hl & Hn & _). rewrite Er in Hr0. injection Hr0 as <-. rewrite Hl.
  split_and!; [done| |].
  - intros id Hid. by rewrite lookup_insert_ne.
  - rewrite lookup_insert_eq. eexists. split; [reflexivity|]. by split_and!.
Qed.

(** What a node's step leaves: a well-formed store, the other nodes and their records as they
    were, at most the step's records under the node, and all of them if there was no error. *)
Record node_effect (now lease keyLease : Z) (parent : string) (key : KEY) (rrs : list RR) (s s' : Store * option string) : Prop := {
  ne_WF : WF s'.1;
  ne_leases : forall id, id <> NodeKey key -> leases s'.1 !! id = leases s.1 !! id;
  ne_other : forall id r, n_Parent r <> NodeKey key -> nonKeyRecords s'.1 !! id = Some r <-> nonKeyRecords s.1 !! id = Some r;
  ne_key : leases s'.1 !! NodeKey key = leases s.1 !! NodeKey key \/
    exists r', leases s'.1 !! NodeKey key = Some r' /\ KeyRR r' = key;
  ne_within : records_within now lease s'.1 (NodeKey key) rrs;
  ne_err : s'.2 = None -> s.2 = None /\ records_all s'.1 (NodeKey key) rrs /\
    exists r', leases s'.1 !! NodeKey key = Some r' /\ node_lease now parent key keyLease s.1 r' }.

Lemma remove_step now lease node st :
  WF st -> Normalize node = node ->
  let st' := RemoveNonKEYRecords node st in
  WF st' /\ leases st' = leases st /\
  (forall id r, n_Parent r <> node -> nonKeyRecords st' !! id = Some r <-> nonKeyRecords st !! id = Some r) /\
  records_within now lease st' node [] /\ (forall id r, nonKeyRecords st' !! id = Some r -> n_Parent r <> node).
Proof.
  intros W Hn. cbn zeta. destruct (RemoveNonKEYRecords_spec node st W) as (W' & Hl & _ & Hnk). rewrite Hn in Hnk.
  assert (Hlk : forall id r, nonKeyRecords (RemoveNonKEYRecords node st) !! id = Some r <->
    nonKeyRecords st !! id = Some r /\ n_Parent r <> node).
  { intros id r. rewrite Hnk, map_lookup_filter_Some. done. }
  split_and!; [done|done| | |].
  - intros id r Hp. rewrite Hlk. tauto.
  - intros id r [_ ?]%Hlk. done.
  - intros id r [_ ?]%Hlk. done.
Qed.

Lemma apply_node_effect now lease keyLease zone parent key records s :
  WF s.1 -> Forall (fun rr => rr_wf rr = true) (default [] records) ->
  node_effect now lease keyLease parent key (default [] records) s (apply_node now lease keyLease zone parent key records s).
Proof.
  destruct s as [st e]. intros W Hwf. unfold apply_node. cbn zeta.
  set (s1 := noted (registerOrRenew now parent key keyLease zone) (st, e)).
  assert (H1 : WF s1.1 /\ nonKeyRecords s1.1 = nonKeyRecords st /\ (forall id, id <> NodeKey key -> leases s1.1 !! id = leases st !! id) /\
    (leases s1.1 !! NodeKey key = leases st !! NodeKey key \/ exists r', leases s1.1 !! NodeKey key = Some r' /\ KeyRR r' = key) /\
    (s1.2 = None -> e = None /\ exists r', leases s1.1 !! NodeKey key = Some r' /\ node_lease now parent key keyLease st r')).
  { unfold s1, noted. cbn [fst snd] in *. destruct (registerOrRenew _ _ _ _ _ _) as [st1|] eqn:E; cbn [fst snd].
    - apply registerOrRenew_ok in E as (HW & Hn & Hl & r' & Hr' & Hlease). split_and!; eauto. right. exists r'. by destruct Hlease.
    - split_and!; [done|done|done|by left|]. by destruct e. }
  clearbody s1. destruct s1 as [st1 e1]. destruct H1 as (W1 & Hn1 & Hl1 & Hk1 & He1). cbn [fst snd] in *.
  destruct (remove_step now lease (NodeKey key) st1 W1 (Normalize_NodeKey key)) as (W2 & Hl2 & Ho2 & Hw2 & Hnone).
  set (st2 := RemoveNonKEYRecords (NodeKey key) st1) in *. clearbody st2.
  destruct records as [rs|]; cbn [default id] in *.
  - unfold noted. cbn [fst snd]. destruct (UpsertNonKEYRecords _ _ _ _ _ _) as [st3|] eqn:E3; cycle 1.
    { split; cbn [fst snd]; try done.
      - intros id Hid. rewrite Hl2. auto.
      - intros id r Hp. rewrite Ho2, Hn1 by done. done.
      - by rewrite Hl2.
      - intros id r Hr Hp. by destruct (Hnone id r Hr).
      - by destruct e1. }
    apply UpsertNonKEYRecords_ok in E3 as (W3 & _ & Hl3 & _ & Hn3 & Hown); [|done|done|by rewrite !Normalize_NodeKey].
    rewrite Normalize_NodeKey in Hn3, Hown.
    assert (Hlk : forall id, let m' := nonKeyRecords st3 in
      (forall rr, rr ∈ rs -> RecordKey rr = id ->
         exists rr', rr' ∈ rs /\ RecordKey rr' = id /\ m' !! id = Some (upserted now (NodeKey key) lease (Normalize zone) rr')) /\
      ((forall rr, rr ∈ rs -> RecordKey rr <> id) -> m' !! id = nonKeyRecords st2 !! id)).
    { intros id. cbn zeta. rewrite Hn3. apply upsert_map_lookup. }
    assert (Hcase : forall id, (exists rr', rr' ∈ rs /\ RecordKey rr' = id /\
        nonKeyRecords st3 !! id = Some (upserted now (NodeKey key) lease (Normalize zone) rr')) \/
      ((forall rr, rr ∈ rs -> RecordKey rr <> id) /\ nonKeyRecords st3 !! id = nonKeyRecords st2 !! id)).
    { intros id. destruct (Hlk id) as [Hi Ho]. destruct (decide (id ∈ map RecordKey rs)) as [Hin|Hin].
      - apply list_elem_of_fmap in Hin as (rr & -> & Hrr). left. by eapply Hi.
      - right. assert (forall rr, rr ∈ rs -> RecordKey rr <> id); [|auto]. intros rr Hrr <-. apply Hin, list_elem_of_fmap. eauto. }
    split; cbn [fst snd].
    + done.
    + intros id Hid. rewrite Hl3, Hl2. auto.
    + intros id r Hp. rewrite <- Hn1, <- (Ho2 id r Hp). destruct (Hcase id) as [(rr' & Hin & <- & ->)|[_ ->]]; [|done].
      split; [by intros [= <-]|]. intros Hr. destruct (Hown rr' r Hin Hr). by destruct Hp.
    + by rewrite Hl3, Hl2.
    + intros id r Hr Hp. destruct (Hcase id) as [(rr' & Hin & Hid & E)|[_ E]]; rewrite E in Hr; [|by destruct (Hnone id r Hr)].
      injection Hr as <-. cbn. done.
    + intros ->. destruct (He1 eq_refl) as (-> & r' & Hr' & Hlease). split_and!; [done| |].
      * intros rr Hin. destruct (proj1 (Hlk (RecordKey rr)) rr Hin eq_refl) as (rr' & _ & _ & E). by eexists.
      * exists r'. split; [by rewrite Hl3, Hl2|done].
  - split; cbn [fst snd]; try done.
    + intros id Hid. rewrite Hl2. auto.
    + intros id r Hp. rewrite Ho2, Hn1 by done. done.
    + by rewrite Hl2.
    + intros ->. destruct (He1 eq_refl) as (-> & r' & Hr' & Hlease). split_and!; [done| |].
      * intros rr Hin. by apply not_elem_of_nil in Hin.
      * exists r'. split; [by rewrite Hl2|done].
Qed.

(** ** All the nodes of an update *)

Definition node := (KEY * option (list RR))%type.

Definition apply_nodes (now lease keyLease : Z) (zone parent : string) (nodes : list node) (s : Store * option string)
    : Store * option string :=
  foldl (fun s (n : node) => apply_node now lease keyLease zone parent n.1 n.2 s) s nodes.

Definition node_ids (nodes : list node) : list string := map (fun n : node => NodeKey n.1) nodes.

Definition nodes_wf (nodes : list node) : Prop :=
  forall n, n ∈ nodes -> Forall (fun rr => rr_wf rr = true) (default [] n.2).

(** Only the update's nodes and their records change. *)
Definition frame (ids : list string) (st st' : Store) : Prop :=
  (forall id, id ∉ ids -> leases st' !! id = leases st !! id) /\
  (forall id r, n_Parent r ∉ ids -> nonKeyRecords st' !! id = Some r <-> nonKeyRecords st !! id = Some r).

Lemma frame_trans ids st1 st2 st3 : frame ids st1 st2 -> frame ids st2 st3 -> frame ids st1 st3.
Proof.
  intros [A1 A2] [B1 B2]. split; [intros id Hid; rewrite B1, A1; done|]. intros id r Hr. rewrite B2, A2; done.
Qed.

Lemma frame_mono ids ids' st st' : (forall x, x ∈ ids -> x ∈ ids') -> frame ids st st' -> frame ids' st st'.
Proof. intros H [A B]. split; [intros id Hid; apply A; auto|intros id r Hr; apply B; auto]. Qed.

Lemma node_effect_frame now lease keyLease parent key rrs s s' :
  node_effect now lease keyLease parent key rrs s s' -> frame [NodeKey key] s.1 s'.1.
Proof.
  intros [_ A B _ _ _]. split.
  - intros id Hid. apply A. intros ->. apply Hid. by apply list_elem_of_singleton.
  - intros id r Hr. apply B. intros E. apply Hr. by apply list_elem_of_singleton.
Qed.

Lemma nodes_wf_inv n nodes : nodes_wf (n :: nodes) -> Forall (fun rr => rr_wf rr = true) (default [] n.2) /\ nodes_wf nodes.
Proof. intros H. split; [apply H; by left|]. intros m Hm. apply H. by right. Qed.

Lemma apply_nodes_frame now lease keyLease zone parent nodes s :
  WF s.1 -> nodes_wf nodes ->
  let s' := apply_nodes now lease keyLease zone parent nodes s in
  WF s'.1 /\ frame (node_ids nodes) s.1 s'.1.
Proof.
  cbn zeta. revert s. induction nodes as [|n nodes IH]; intros s W Hwf; [by split|].
  apply nodes_wf_inv in Hwf as [Hn Hwf]. 
  change (apply_nodes now lease keyLease zone parent (n :: nodes) s) with
    (apply_nodes now lease keyLease zone parent nodes (apply_node now lease keyLease zone parent n.1 n.2 s)).
  pose proof (apply_node_effect now lease keyLease zone parent n.1 n.2 s W Hn) as E.
  destruct (IH _ (ne_WF _ _ _ _ _ _ _ _ E) Hwf) as [W' F]. split; [done|]. eapply frame_trans.
  - apply node_effect_frame in E. eapply frame_mono; [|exact E]. intros x ->%list_elem_of_singleton. by left.
  - eapply frame_mono; [|exact F]. intros x Hx. by right.
Qed.

(** With distinct nodes, every node ends up with its own records. *)
Record nodes_exact (now lease keyLease : Z) (parent : string) (nodes : list node) (s s' : Store * option string) : Prop := {
  nx_within : forall n, n ∈ nodes -> records_within now lease s'.1 (NodeKey n.1) (default [] n.2);
  nx_err : s'.2 = None -> s.2 = None /\ forall n, n ∈ nodes ->
    records_all s'.1 (NodeKey n.1) (default [] n.2) /\
    exists r', leases s'.1 !! NodeKey n.1 = Some r' /\ node_lease now parent n.1 keyLease s.1 r' }.

Lemma apply_nodes_exact now lease keyLease zone parent nodes s :
  WF s.1 -> nodes_wf nodes -> NoDup (node_ids nodes) ->
  nodes_exact now lease keyLease parent nodes s (apply_nodes now lease keyLease zone parent nodes s).
Proof.
  revert s. induction nodes as [|n nodes IH]; intros s W Hwf Hnd.
  { split; [intros n Hn; by apply not_elem_of_nil in Hn|]. intros He. split; [done|]. intros n Hn. by apply not_elem_of_nil in Hn. }
  apply nodes_wf_inv in Hwf as [Hn Hwf]. apply NoDup_cons in Hnd as [Hfresh Hnd].
  change (apply_nodes now lease keyLease zone parent (n :: nodes) s) with
    (apply_nodes now lease keyLease zone parent nodes (apply_node now lease keyLease zone parent n.1 n.2 s)).
  pose proof (apply_node_effect now lease keyLease zone parent n.1 n.2 s W Hn) as E.
  set (s1 := apply_node _ _ _ _ _ _ _ s) in *. destruct E as [W1 El Eo _ Ew Ee].
  destruct (apply_nodes_frame now lease keyLease zone parent nodes s1 W1 Hwf) as [_ [Fl Fo]].
  destruct (IH s1 W1 Hwf Hnd) as [Xw Xe]. set (s2 := apply_nodes _ _ _ _ _ nodes s1) in *. clearbody s1 s2.
  assert (Hids : forall m, m ∈ nodes -> NodeKey m.1 <> NodeKey n.1).
  { intros m Hm Em. apply Hfresh. rewrite <- Em. apply list_elem_of_fmap. eauto. }
  split.
  - intros m [->|Hm]%elem_of_cons; [|auto]. intros id r Hr Hp. apply (Ew id r); [|done]. apply (Fo id r); [by rewrite Hp|done].
  - intros H2. destruct (Xe H2) as [H1 HX]. destruct (Ee H1) as (H0 & Ha & r' & Hr' & Hl). split; [done|].
    intros m [->|Hm]%elem_of_cons.
    + split; [|exists r'; split; [by rewrite Fl|done]]. intros rr Hin. destruct (Ha rr Hin) as (r & Hr & Hp).
      exists r. split; [|done]. apply (Fo (RecordKey rr) r); [by rewrite Hp|done].
    + destruct (HX m Hm) as (Hall & rm & Hrm & Hlm). split; [done|]. exists rm. split; [done|].
      revert Hlm. unfold node_lease, lookup_live. by rewrite El by auto.
Qed.

(** Where the KEYs and records of the result come from. *)
Definition sources (nodes : list node) (st st' : Store) : Prop :=
  (forall id r, leases st' !! id = Some r -> leases st !! id = Some r \/ exists n, n ∈ nodes /\ KeyRR r = n.1) /\
  (forall id r, nonKeyRecords st' !! id = Some r -> nonKeyRecords st !! id = Some r \/ exists n, n ∈ nodes /\ n_RR r ∈ default [] n.2) /\
  (forall id, is_Some (leases st !! id) -> is_Some (leases st' !! id)).

Lemma node_effect_sources now lease keyLease parent key records s s' :
  node_effect now lease keyLease parent key (default [] records) s s' -> sources [(key, records)] s.1 s'.1.
Proof.
  intros [_ El Eo Ek Ew _]. split_and!.
  - intros id r. destruct (decide (id = NodeKey key)) as [->|Hid]; [|rewrite El by done; by left].
    destruct Ek as [->|(r' & -> & <-)]; [by left|]. intros [= <-]. right. eexists. split; [by left|done].
  - intros id r Hr. destruct (decide (n_Parent r = NodeKey key)) as [Hp|Hp]; [|left; by apply Eo].
    right. eexists. split; [by left|]. by apply (Ew id r).
  - intros id. destruct (decide (id = NodeKey key)) as [->|Hid]; [|by rewrite El].
    destruct Ek as [->|(r' & -> & _)]; done.
Qed.

Lemma sources_trans ns1 ns2 st1 st2 st3 : sources ns1 st1 st2 -> sources ns2 st2 st3 -> sources (ns1 ++ ns2) st1 st3.
Proof.
  intros (A1 & A2 & A3) (B1 & B2 & B3). split_and!; [| |auto].
  - intros id r [[?|(n & ? & ?)]%A1|(n & ? & ?)]%B1; [by left|right; exists n; rewrite elem_of_app; auto..].
  - intros id r [[?|(n & ? & ?)]%A2|(n & ? & ?)]%B2; [by left|right; exists n; rewrite elem_of_app; auto..].
Qed.

Lemma apply_nodes_sources now lease keyLease zone parent nodes s :
  WF s.1 -> nodes_wf nodes -> sources nodes s.1 (apply_nodes now lease keyLease zone parent nodes s).1.
Proof.
  revert s. induction nodes as [|[key records] nodes IH]; intros s W Hwf; [by split_and!; auto|].
  apply nodes_wf_inv in Hwf as [Hn Hwf].
  pose proof (apply_node_effect now lease keyLease zone parent key records s W Hn) as E.
  apply (sources_trans [(key, records)] nodes _ (apply_node now lease keyLease zone parent key records s).1).
  - by eapply node_effect_sources.
  - apply IH; [|done]. by eapply ne_WF.
Qed.

(** ** When nothing fails *)

(** No record an update brings is held by another node, neither in the store nor in the update,
    and no node is at the root. *)
Record placeable (nodes : list node) (st : Store) : Prop := {
  pl_names : forall n, n ∈ nodes -> Normalize (Name (key_Hdr n.1)) <> "";
  pl_own : forall n rr r, n ∈ nodes -> rr ∈ default [] n.2 -> nonKeyRecords st !! RecordKey rr = Some r -> n_Parent r = NodeKey n.1;
  pl_apart : forall n n' rr rr', n ∈ nodes -> n' ∈ nodes -> rr ∈ default [] n.2 -> rr' ∈ default [] n'.2 ->
    RecordKey rr = RecordKey rr' -> NodeKey n.1 = NodeKey n'.1 }.

Lemma node_key_no_record st k : WF st -> nonKeyRecords st !! NodeKey k = None.
Proof.
  intros W. destruct (nonKeyRecords st !! NodeKey k) as [r|] eqn:E; [|done]. pose proof E as (Hk & _ & _ & Hwf & _)%(wf_nonKey _ _ W).
  rewrite NodeKey_SIG in Hk. symmetry in Hk. by apply RecordKey_not_node in Hk.
Qed.

Lemma registerOrRenew_succeeds now parent key keyLease zone st :
  WF st -> Normalize (Name (key_Hdr key)) <> "" -> (parent = "" \/ exists k, parent = NodeKey k) ->
  exists st', registerOrRenew now parent key keyLease zone st = Ok st'.
Proof.
  intros W Hne Hpar. unfold registerOrRenew, Get. cbn zeta. rewrite Normalize_NodeKey.
  assert (Hreg : exists st', RegisterWithParent now parent (Some key) keyLease keyLease zone st = Ok st').
  { unfold RegisterWithParent. rewrite bool_decide_false by done. cbn zeta. rewrite (bool_decide_false (is_Some _)), andb_false_r; [eauto|].
    intros [r Hr]. destruct Hpar as [->|[k ->]].
    - change (Normalize "") with "" in Hr. case_bool_decide; apply (wf_nonKey _ _ W) in Hr as (Hk & _ & _ & Hwf & _);
        symmetry in Hk; exact (RecordKey_ne _ Hk).
    - rewrite Normalize_NodeKey in Hr. revert Hr. case_bool_decide; [|by rewrite node_key_no_record]. intros Hr.
      apply (wf_nonKey _ _ W) in Hr as (Hk & _). symmetry in Hk. exact (RecordKey_ne _ Hk). }
  destruct (leases st !! NodeKey key) as [r|] eqn:Er; [|done]. destruct (IsExpired now r); cbn [negb]; [done|].
  unfold RenewLease. rewrite Er. eauto.
Qed.

Lemma apply_node_succeeds now lease keyLease zone parent key records s :
  WF s.1 -> s.2 = None -> Normalize (Name (key_Hdr key)) <> "" -> (parent = "" \/ exists k, parent = NodeKey k) ->
  (forall rr r, rr ∈ default [] records -> nonKeyRecords s.1 !! RecordKey rr = Some r -> n_Parent r = NodeKey key) ->
  (apply_node now lease keyLease zone parent key records s).2 = None.
Proof.
  destruct s as [st e]. cbn [fst snd]. intros W -> Hne Hpar Hown. unfold apply_node. cbn zeta.
  destruct (registerOrRenew_succeeds now parent key keyLease zone st W Hne Hpar) as [st1 E]. 
  assert (En : noted (registerOrRenew now parent key keyLease zone) (st, None) = (st1, None)) by (unfold noted; cbn; by rewrite E). rewrite En.
  apply registerOrRenew_ok in E as (W1 & Hn1 & _). specialize (W1 W). cbn [fst snd].
  destruct records as [rs|]; [|done]. unfold noted. cbn [fst snd default] in *.
  destruct (remove_step now lease (NodeKey key) st1 W1 (Normalize_NodeKey key)) as (_ & _ & Ho2 & _ & Hnone).
  unfold UpsertNonKEYRecords. cbn zeta. rewrite Normalize_NodeKey, bool_decide_false by (by apply NodeKey_ne).
  rewrite (proj2 (upsert_check_ok (NodeKey key) (RemoveNonKEYRecords (NodeKey key) st1) rs (map (fun rr => (RecordKey rr, rr)) rs))); [done|].
  split; [done|]. intros rr r Hin Hr. exfalso. pose proof (Hnone _ _ Hr) as Hp. apply Hp, (Hown rr); [done|]. rewrite <- Hn1. by apply Ho2.
Qed.

Lemma placeable_step now lease keyLease parent n nodes s s' :
  node_effect now lease keyLease parent n.1 (default [] n.2) s s' -> placeable (n :: nodes) s.1 -> placeable nodes s'.1.
Proof.
  intros E [P1 P2 P3]. split.
  - intros m Hm. apply P1. by right.
  - intros m rr r Hm Hin Hr. destruct (decide (n_Parent r = NodeKey n.1)) as [Hp|Hp].
    + rewrite Hp. destruct (ne_within _ _ _ _ _ _ _ _ E _ r Hr Hp) as (Hrr & Hid & _). apply (P3 n m (n_RR r) rr); [by left|by right|done..].
    + apply (P2 m rr); [by right|done|]. by apply (ne_other _ _ _ _ _ _ _ _ E).
  - intros m m' rr rr' Hm Hm'. apply P3; by right.
Qed.

Lemma apply_nodes_succeed now lease keyLease zone parent nodes s :
  WF s.1 -> nodes_wf nodes -> s.2 = None -> (parent = "" \/ exists k, parent = NodeKey k) -> placeable nodes s.1 ->
  (apply_nodes now lease keyLease zone parent nodes s).2 = None.
Proof.
  revert s. induction nodes as [|n nodes IH]; intros s W Hwf Hs Hpar P; [done|]. apply nodes_wf_inv in Hwf as [Hn Hwf].
  pose proof (apply_node_effect now lease keyLease zone parent n.1 n.2 s W Hn) as E.
  apply (IH (apply_node now lease keyLease zone parent n.1 n.2 s)); [apply E|done| |done|by eapply placeable_step].
  apply apply_node_succeeds; [done|done|apply (pl_names _ _ P); by left|done|]. intros rr r. apply (pl_own _ _ P). by left.
Qed.
End nodes.
