(* ===== verification/SrpTheorems.v ===== *)
(** * The SRP handler: theorems

    What a request of the SRP handler may do: nothing before its signature and its names are
    checked, nothing to the lease store before the UPDATE is confirmed, and then exactly the
    update's own nodes; and that the service enumeration only drops what is gone. *)

From Stdlib Require Import Ascii String ZArith Lia.
From S2P Require Import Prelude DnsName DnsData NodeIdent LeaseStore LeaseTree LeaseInv LeaseSpec LeaseOption LeasePolicy.
From S2P Require Import NodeLocks UpdateCore HandlerBase Expiry UpdateHandler DnsSd SrpClassify SrpValidate SrpHandler SrpEffects.

Local Open Scope Z_scope.

(** ** The names rewritten *)

Lemma rewriteZoneSuffix_cases name zone :
  rewriteZoneSuffix name zone = name \/ exists p, rewriteZoneSuffix name zone = p +:+ zone.
Proof.
  unfold rewriteZoneSuffix. cbn zeta. repeat match goal with |- context [if ?b then _ else _] => destruct b end; eauto.
Qed.

Lemma fqdn_app p z : fqdn z = true -> fqdn (p +:+ z) = true.
Proof. unfold fqdn. rewrite !HasSuffix_spec. intros [q ->]. exists (p +:+ q). by rewrite string_app_assoc. Qed.

Lemma rewriteZoneSuffix_fqdn name zone : fqdn zone = true -> fqdn name = true -> fqdn (rewriteZoneSuffix name zone) = true.
Proof. intros Hz Hn. destruct (rewriteZoneSuffix_cases name zone) as [->|[p ->]]; [done|by apply fqdn_app]. Qed.

Lemma rewrite_rr_wf zone rr : fqdn zone = true -> rr_wf rr = true -> rr_wf (rewrite_rr zone rr) = true.
Proof.
  intros Hz. unfold rr_wf. rewrite !andb_true_iff. intros [[Hf Hc] Ht]. destruct rr as [hdr d].
  split_and!; destruct d; try done; cbn in *; by apply rewriteZoneSuffix_fqdn.
Qed.

Lemma rewrite_wf zone r :
  fqdn zone = true -> Forall (fun rr => rr_wf rr = true) (Ns r) ->
  Forall (fun rr => rr_wf rr = true) (Ns (rewriteDefaultServiceARPA r zone)).
Proof. intros Hz H. cbn. apply Forall_map. eapply Forall_impl; [exact H|]. intros rr. by apply rewrite_rr_wf. Qed.

Section srp.
Context {L : DnsLib} {SG : Sig0} {U : UpstreamCoordinator}.

(** ** What the prologue checks *)

(** An authenticated update [r'], [cu] of the request [r]. *)
Record srp_authenticated (h : SRPHandler) (udp : bool) (r r' : Msg) (cu : ClassifiedUpdate) : Prop := {
  sa_zone : exists q, Question r = [q] /\ zoneEnabled h (q_Name q) = true /\
    ((r' = r /\ Normalize (q_Name q) <> Normalize defaultServiceARPA) \/
     (r' = rewriteDefaultServiceARPA r (s_upstreamZone h) /\ Normalize (q_Name q) = Normalize defaultServiceARPA));
  sa_transport : s_allowUDP h = true \/ udp = false;
  sa_labels : refuseDottedLabels r = None;
  sa_signed : exists cu0 sig hk, srp_Validate r = Ok cu0 /\ extractSig0 r = Ok sig /\
    Normalize (SignerName sig) = Normalize (host_Name (cu_Host cu0)) /\
    host_Key (cu_Host cu0) ≫= key_of (Ns r) = Some hk /\ VerifySignature r hk = Ok tt /\ (r' = r -> cu = cu0);
  sa_valid : srp_Validate r' = Ok cu }.

Lemma srp_prologue_authenticated h udp r r' cu :
  srp_prologue h udp r = Some (inr (r', cu)) -> srp_authenticated h udp r r' cu.
Proof.
  unfold srp_prologue. destruct (Classify r) as [cu0|] eqn:Hc; [|done]. destruct (Question r) as [|q [|? ?]] eqn:Hq; [done| |done].
  cbn zeta. destruct (zoneEnabled h (q_Name q)) eqn:Hz; [|done]. cbn [negb]. destruct (bool_decide (is_Some _)); [|done]. cbn [negb].
  destruct (refuseDottedLabels r) eqn:Hd; [done|]. destruct (ValidateClassified r cu0) as [[]|] eqn:Hv; [|done].
  destruct (negb (s_allowUDP h) && udp) eqn:Ht; [done|]. destruct (extractSig0 r) as [sig|] eqn:Hs; [|done].
  case_bool_decide as Hn; [|done]. cbn [negb]. destruct (host_Key (cu_Host cu0) ≫= key_of (Ns r)) as [hk|] eqn:Hk; [|done].
  destruct (VerifySignature r hk) as [[]|] eqn:Hsig; [|done].
  assert (Hv0 : srp_Validate r = Ok cu0) by (by apply Validate_Classified).
  assert (Htr : s_allowUDP h = true \/ udp = false) by (destruct (s_allowUDP h), udp; auto).
  case_bool_decide as Ha.
  - destruct (srp_Validate (rewriteDefaultServiceARPA r (s_upstreamZone h))) as [cu1|] eqn:Hv1; [|done]. intros [= <- <-].
    split; try done; [exists q; auto|]. exists cu0, sig, hk. split_and!; try done. intros E. rewrite E in Hv1. congruence.
  - intros [= <- <-]. split; try done; [exists q; auto|]. exists cu0, sig, hk. by split_and!.
Qed.

Lemma srp_prologue_total h udp r : is_Some (s_upstreamKey h) -> is_Some (srp_prologue h udp r).
Proof.
  intros Hk. unfold srp_prologue. destruct (Classify r); [|done]. destruct (Question r) as [|q [|? ?]]; [done| |done].
  cbn zeta. destruct (zoneEnabled _ _); [|done]. rewrite bool_decide_true by done. done.
Qed.

Lemma srp_prologue_refusal h udp r res : srp_prologue h udp r = Some (inl res) -> Status res <> StatusProcessed.
Proof.
  unfold srp_prologue, refuseDottedLabels, error_result, NewErrorResult, NewNotRelevantResult. cbn zeta.
  repeat case_match; intros; simplify_eq; cbn; try done.
Qed.

(** ** First come, first served *)

Lemma fcfs_names_inr h V r cu names pre prereqs :
  fcfs_names h V r cu names pre = Some (inr prereqs) ->
  (forall p, p ∈ pre -> p ∈ prereqs) /\
  forall name, name ∈ names -> exists k p, KeyFor (Ns r) cu name = Some k /\
    Evaluate (V := V) up_QueryKeyAtName (s_upstreamZone h) name k (s_refuseOnForeignData h) = Ok (FCFSProceed, p) /\
    forall q, p = Some q -> q ∈ prereqs.
Proof.
  revert pre. induction names as [|name names IH]; intros pre; cbn [fcfs_names].
  { intros [= <-]. split; [done|]. intros n Hn. by apply not_elem_of_nil in Hn. }
  destruct (KeyFor (Ns r) cu name) as [k|] eqn:Hk; [|done]. cbn [mbind option_bind].
  destruct (Evaluate _ _ _ _ _) as [[[] p]|] eqn:He; try done. intros [Hpre Hn]%IH. split.
  - intros q Hq. apply Hpre, elem_of_app. by left.
  - intros n [->|Hin]%elem_of_cons; [|auto]. exists k, p. split_and!; [done..|]. intros q ->.
    apply Hpre, elem_of_app. right. by left.
Qed.

Lemma fcfs_names_inl h V r cu names pre res :
  fcfs_names h V r cu names pre = Some (inl res) -> Status res <> StatusProcessed.
Proof.
  revert pre. induction names as [|name names IH]; intros pre; cbn [fcfs_names]; [done|].
  destruct (KeyFor (Ns r) cu name) as [k|]; [|done]. cbn [mbind option_bind].
  destruct (Evaluate _ _ _ _ _) as [[[] p]|]; [apply IH|by intros [= <-]..].
Qed.

Lemma fcfs_names_total h V r cu names pre :
  (forall name, name ∈ names -> is_Some (KeyFor (Ns r) cu name)) -> is_Some (fcfs_names h V r cu names pre).
Proof.
  revert pre. induction names as [|name names IH]; intros pre Hk; cbn [fcfs_names]; [done|].
  destruct (Hk name) as [k ->]; [by left|]. cbn [mbind option_bind].
  destruct (Evaluate _ _ _ _ _) as [[[] p]|]; try done. apply IH. intros n Hn. apply Hk. by right.
Qed.

(** ** Nothing panics: every name of a classified update has its KEY *)

Definition total_keys (ns : list RR) (cu : ClassifiedUpdate) : Prop :=
  forall name, name ∈ Names cu -> is_Some (KeyFor ns cu name).

Lemma Classify_total_keys r cu : Classify r = Ok cu -> total_keys (Ns r) cu.
Proof. intros Hc name Hn. destruct (KeyFor_total r cu name Hc Hn) as (k & -> & _). done. Qed.

Lemma total_keys_but_ttl ns ns' cu : Forall2 but_ttl ns ns' -> total_keys ns cu -> total_keys ns' cu.
Proof. intros Hf Ht name [k Hk]%Ht. destruct (KeyFor_but_ttl _ _ _ _ _ Hf Hk) as [t ->]. done. Qed.

Lemma instance_name_in cu inst : inst ∈ cu_Instances cu -> inst_Name inst ∈ Names cu.
Proof. intros H. right. apply list_elem_of_fmap. eauto. Qed.

(** A loop that appends to a list and may panic. *)
Lemma foldl_grow {A B} (step : option (list B) -> A -> option (list B)) (P : A -> list B -> Prop) (l : list A) acc :
  (forall x acc, x ∈ l -> exists new, step (Some acc) x = Some (acc ++ new) /\ P x new) ->
  exists res, foldl step (Some acc) l = Some (acc ++ res) /\
    (forall x, x ∈ l -> exists new, P x new /\ forall y, y ∈ new -> y ∈ res).
Proof.
  revert acc. induction l as [|x l IH]; intros acc Hs; cbn [foldl].
  { exists []. rewrite app_nil_r. split; [done|]. intros x Hx. by apply not_elem_of_nil in Hx. }
  destruct (Hs x acc) as (new & -> & HP); [by left|]. destruct (IH (acc ++ new)) as (res & -> & Hr).
  { intros y a Hy. apply Hs. by right. }
  exists (new ++ res). rewrite app_assoc. split; [done|]. intros y [->|Hy]%elem_of_cons.
  - exists new. split; [done|]. intros z Hz. apply elem_of_app. by left.
  - destruct (Hr y Hy) as (n' & ? & Hn'). exists n'. split; [done|]. intros z Hz. apply elem_of_app. right. auto.
Qed.

Lemma synthesize_spec ns cu :
  total_keys ns cu -> exists recs, synthesizeOmittedInstanceKeys ns cu = Some recs /\
    forall inst, inst ∈ cu_Instances cu -> inst_SRV inst <> None -> inst_Key inst = None ->
      exists k, KeyFor ns cu (inst_Name inst) = Some k /\ KEY_RR k ∈ recs.
Proof.
  intros Ht. unfold synthesizeOmittedInstanceKeys.
  edestruct (foldl_grow (fun acc inst => records ← acc;
           if negb (bool_decide (is_Some (inst_SRV inst))) || bool_decide (is_Some (inst_Key inst)) then Some records
           else k ← KeyFor ns cu (inst_Name inst); Some (records ++ [KEY_RR k]))
    (fun inst new => inst_SRV inst <> None -> inst_Key inst = None ->
       exists k, KeyFor ns cu (inst_Name inst) = Some k /\ KEY_RR k ∈ new) (cu_Instances cu) []) as (recs & -> & Hr).
  - intros inst acc Hin. cbn [mbind option_bind]. destruct (Ht (inst_Name inst)) as [k Hk]; [by apply instance_name_in|].
    rewrite Hk. cbn [mbind option_bind]. destruct (_ || _) eqn:E.
    + exists []. rewrite app_nil_r. split; [done|]. intros H1 H2. exfalso. apply orb_true_iff in E as [E|E].
      * apply negb_true_iff, bool_decide_eq_false in E. by apply E, not_eq_None_Some.
      * apply bool_decide_eq_true in E as [? E]. congruence.
    + exists [KEY_RR k]. split; [done|]. intros _ _. exists k. split; [done|]. by left.
  - exists recs. split; [done|]. intros inst Hin H1 H2. destruct (Hr inst Hin) as (new & HP & Hsub).
    destruct (HP H1 H2) as (k & ? & ?). eauto.
Qed.

Section wf_store.
Context {LL : DnsLibLaws L}.

(** The PTRs an instance's node holds and the update does not name are deleted. *)
Lemma dropped_PTRs_spec st ns cu inst k id r :
  WF st -> nonKeyRecords st !! id = Some r -> n_Parent r = NodeKey k -> is_PTR (n_RR r) = true ->
  AsDelete (n_RR r) ∈ dropped_PTRs st ns cu inst (NodeKey k) \/ exists rr, rr ∈ ns /\ RecordKey rr = id.
Proof.
  intros W Hr Hp Hptr. pose proof (GetNonKEYRecordSet_spec (NodeKey k) st W) as Hset. rewrite Normalize_NodeKey in Hset.
  unfold dropped_PTRs. destruct (GetNonKEYRecordSet (NodeKey k) st) as [set|]; [|by destruct (Hset id r Hr)].
  destruct Hset as [Hrec _]. destruct (decide (id ∈ map RecordKey (deref ns (discovery_adds cu inst)))) as [Hin|Hin].
  - right. apply list_elem_of_fmap in Hin as (rr & -> & (i & _ & Hi)%list_elem_of_omap). exists rr. split; [|done].
    by eapply list_elem_of_lookup_2.
  - left. apply list_elem_of_fmap. exists (id, r). split; [done|]. apply list_elem_of_filter. split; [done|].
    apply elem_of_map_to_list. rewrite Hrec. by apply map_lookup_filter_Some.
Qed.

Lemma ptrDeleteDiff_spec st ns cu :
  WF st -> total_keys ns cu ->
  exists recs, ptrDeleteDiff st ns cu = Some recs /\
    forall inst k, inst ∈ cu_Instances cu -> KeyFor ns cu (inst_Name inst) = Some k ->
      forall id r, nonKeyRecords st !! id = Some r -> n_Parent r = NodeKey k -> is_PTR (n_RR r) = true ->
        AsDelete (n_RR r) ∈ recs \/ exists rr, rr ∈ ns /\ RecordKey rr = id.
Proof.
  intros W Ht. unfold ptrDeleteDiff.
  edestruct (foldl_grow (fun acc inst => diff ← acc; k ← KeyFor ns cu (inst_Name inst);
           Some (diff ++ dropped_PTRs st ns cu inst (NodeKey k)))
    (fun inst new => forall k, KeyFor ns cu (inst_Name inst) = Some k -> new = dropped_PTRs st ns cu inst (NodeKey k))
    (cu_Instances cu) []) as (recs & -> & Hr).
  - intros inst acc Hin. cbn [mbind option_bind]. destruct (Ht (inst_Name inst)) as [k Hk]; [by apply instance_name_in|].
    rewrite Hk. cbn [mbind option_bind]. eexists. split; [done|]. intros k' [= <-]. done.
  - exists recs. split; [done|]. intros inst k Hin Hk id r Hid Hp Hptr. destruct (Hr inst Hin) as (new & HP & Hsub).
    rewrite (HP k Hk) in Hsub. destruct (dropped_PTRs_spec st ns cu inst k id r W Hid Hp Hptr); eauto.
Qed.

(** ** The local mutations *)

Definition inst_nodes (ns : list RR) (cu : ClassifiedUpdate) (ks : list KEY) : list node :=
  zip ks (map (live_records ns cu) (cu_Instances cu)).

Lemma apply_instances_fold now lease keyLease zone parent ns cu insts ks s touched :
  mapM (fun inst => KeyFor ns cu (inst_Name inst)) insts = Some ks ->
  foldl (fun acc inst =>
           acc ← acc;
           key ← KeyFor ns cu (inst_Name inst);
           Some (apply_instance now lease keyLease zone parent ns cu inst key acc.1, acc.2 ++ [NodeKey key]))
        (Some (s, touched)) insts =
  Some (apply_nodes now lease keyLease zone parent (zip ks (map (live_records ns cu) insts)) s, touched ++ map NodeKey ks).
Proof.
  revert ks s touched. induction insts as [|inst insts IH]; intros ks s touched.
  { cbn. intros [= <-]. cbn. by rewrite app_nil_r. }
  cbn [mapM]. destruct (KeyFor ns cu (inst_Name inst)) as [k|] eqn:Hk; [|done]. cbn [mbind option_bind].
  destruct (mapM _ insts) as [ks'|] eqn:Hks; [|done]. intros [= <-]. cbn [foldl]. cbn [mbind option_bind]. rewrite Hk.
  cbn [mbind option_bind fst snd]. rewrite (IH ks' _ _ eq_refl), apply_instance_node. cbn [map]. by rewrite <- app_assoc.
Qed.

Lemma total_keys_mapM ns cu : total_keys ns cu -> is_Some (mapM (fun inst => KeyFor ns cu (inst_Name inst)) (cu_Instances cu)).
Proof.
  intros Ht. apply mapM_is_Some. apply Forall_forall. intros inst Hin. by apply Ht, instance_name_in.
Qed.

Lemma KeyFor_host ns cu : KeyFor ns cu (host_Name (cu_Host cu)) = host_Key (cu_Host cu) ≫= key_of ns.
Proof. unfold KeyFor. by rewrite bool_decide_true. Qed.

Lemma mapM_map_opt {A B C} (f : A -> option B) (g : B -> C) (l : list A) :
  mapM (fun x => y ← f x; Some (g y)) l = (ys ← mapM f l; Some (map g ys)).
Proof.
  induction l as [|x l IH]; [done|]. cbn [mapM]. rewrite IH. destruct (f x); [|done]. cbn. by destruct (mapM f l).
Qed.

Lemma mapM_fmap_opt {Elt Mid Res} (inner : Elt -> Mid) (outer : Mid -> option Res) xs : mapM outer (map inner xs) = mapM (fun x => outer (inner x)) xs.
Proof. induction xs as [|y ys IH]; [done|]. cbn [map mapM]. by rewrite IH. Qed.

Lemma lockRoots_keys ns cu hk ks :
  KeyFor ns cu (host_Name (cu_Host cu)) = Some hk -> mapM (fun inst => KeyFor ns cu (inst_Name inst)) (cu_Instances cu) = Some ks ->
  lockRoots ns cu = Some (NodeKey hk :: map NodeKey ks).
Proof.
  intros Hh Hk. unfold lockRoots, Names. cbn [mapM]. rewrite Hh. cbn [mbind option_bind].
  rewrite mapM_map_opt, mapM_fmap_opt, Hk. done.
Qed.

Lemma applyLocalMutations_nodes now lease keyLease zone ns cu st :
  total_keys ns cu ->
  exists hk ks parent, KeyFor ns cu (host_Name (cu_Host cu)) = Some hk /\
    mapM (fun inst => KeyFor ns cu (inst_Name inst)) (cu_Instances cu) = Some ks /\
    let s0 := apply_node now lease keyLease zone "" hk (host_records ns cu) (st, None) in
    let s := apply_nodes now lease keyLease zone parent (inst_nodes ns cu ks) s0 in
    applyLocalMutations now lease keyLease zone ns cu st = Some (s.1, NodeKey hk :: map NodeKey ks, s.2) /\
    (s0.2 = None -> parent = NodeKey hk).
Proof.
  intros Ht. destruct (Ht (host_Name (cu_Host cu))) as [hk Hh]; [by left|]. destruct (total_keys_mapM _ _ Ht) as [ks Hks].
  exists hk, ks, (apply_host now lease keyLease zone ns cu hk st).2. split_and!; [done..|]. cbn zeta. split.
  - unfold applyLocalMutations. rewrite <- KeyFor_host, Hh. cbn [mbind option_bind].
    destruct (apply_host now lease keyLease zone ns cu hk st) as [s0 parent] eqn:E.
    rewrite (apply_instances_fold now lease keyLease zone parent ns cu (cu_Instances cu) ks s0 _ Hks).
    cbn [mbind option_bind fst snd]. pose proof (apply_host_node now lease keyLease zone ns cu hk st) as E0.
    rewrite E in E0. cbn [fst] in E0. by rewrite <- E0.
  - unfold apply_host, apply_node. cbn zeta. cbn [fst snd].
    destruct (noted (registerOrRenew now "" hk keyLease zone) (st, None)) as [s1 [e|]] eqn:E; cbn [fst snd]; [|done].
    unfold noted. cbn [fst snd]. repeat case_match; done.
Qed.

Lemma inst_nodes_elem ns cu ks inst k :
  mapM (fun inst => KeyFor ns cu (inst_Name inst)) (cu_Instances cu) = Some ks ->
  inst ∈ cu_Instances cu -> KeyFor ns cu (inst_Name inst) = Some k -> (k, live_records ns cu inst) ∈ inst_nodes ns cu ks.
Proof.
  unfold inst_nodes. generalize (cu_Instances cu). intros insts. revert ks. induction insts as [|i insts IH]; intros ks.
  { intros _ Hi. by apply not_elem_of_nil in Hi. }
  cbn [mapM]. destruct (KeyFor ns cu (inst_Name i)) as [k'|] eqn:Hk'; [|done]. cbn [mbind option_bind].
  destruct (mapM _ insts) as [ks'|] eqn:Hks; [|done]. intros [= <-] [->|Hin]%elem_of_cons Hk.
  - rewrite Hk' in Hk. injection Hk as <-. by left.
  - right. by apply (IH ks').
Qed.

Lemma inst_nodes_ids ns cu ks :
  mapM (fun inst => KeyFor ns cu (inst_Name inst)) (cu_Instances cu) = Some ks -> node_ids (inst_nodes ns cu ks) = map NodeKey ks.
Proof.
  intros H%length_mapM. unfold node_ids, inst_nodes.
  assert (E : map fst (zip ks (map (live_records ns cu) (cu_Instances cu))) = ks).
  { apply fst_zip. rewrite length_map. lia. }
  rewrite <- E at 2. by rewrite map_map.
Qed.

Lemma inst_nodes_wf ns cu ks : Forall (fun rr => rr_wf rr = true) ns -> nodes_wf (inst_nodes ns cu ks).
Proof.
  intros Hwf [k rs] Hin. cbn [snd]. apply elem_of_zip_r in Hin. apply list_elem_of_fmap in Hin as (inst & -> & _).
  unfold live_records. destruct (inst_SRV inst); [|constructor]. by apply deref_wf.
Qed.

(** The update's records can be stored: [placeable] of its host and instances. *)
Definition update_placeable (ns : list RR) (cu : ClassifiedUpdate) (st : Store) : Prop :=
  exists hk ks, KeyFor ns cu (host_Name (cu_Host cu)) = Some hk /\
    mapM (fun inst => KeyFor ns cu (inst_Name inst)) (cu_Instances cu) = Some ks /\
    placeable ((hk, host_records ns cu) :: inst_nodes ns cu ks) st.

(** What [applyLocalMutations] leaves: the update's nodes alone change, and with distinct nodes
    each holds at most the records the update gives it, and all of them if nothing failed, as
    nothing does if the records can be stored. *)
Record local_state (now lease keyLease : Z) (ns : list RR) (cu : ClassifiedUpdate) (st st' : Store) (touched : list string)
    (err : option string) : Prop := {
  ls_WF : WF st';
  ls_roots : lockRoots ns cu = Some touched;
  ls_frame : frame touched st st';
  ls_sources : exists hk ks, KeyFor ns cu (host_Name (cu_Host cu)) = Some hk /\
    mapM (fun inst => KeyFor ns cu (inst_Name inst)) (cu_Instances cu) = Some ks /\
    sources ((hk, host_records ns cu) :: inst_nodes ns cu ks) st st';
  ls_host : NoDup touched -> forall hk, KeyFor ns cu (host_Name (cu_Host cu)) = Some hk ->
    records_within now lease st' (NodeKey hk) (deref ns (host_Addresses (cu_Host cu))) /\
    (err = None -> records_all st' (NodeKey hk) (deref ns (host_Addresses (cu_Host cu))) /\
       exists r', leases st' !! NodeKey hk = Some r' /\ node_lease now "" hk keyLease st r');
  ls_inst : NoDup touched -> forall inst k hk, inst ∈ cu_Instances cu -> KeyFor ns cu (inst_Name inst) = Some k ->
    KeyFor ns cu (host_Name (cu_Host cu)) = Some hk ->
    let records := default [] (live_records ns cu inst) in
    records_within now lease st' (NodeKey k) records /\
    (err = None -> records_all st' (NodeKey k) records /\
       exists r', leases st' !! NodeKey k = Some r' /\ node_lease now (NodeKey hk) k keyLease st r');
  ls_clean : update_placeable ns cu st -> err = None }.

Lemma default_host_records ns cu : default [] (host_records ns cu) = deref ns (host_Addresses (cu_Host cu)).
Proof. unfold host_records. by destruct (host_Addresses (cu_Host cu)). Qed.

Lemma applyLocalMutations_spec now lease keyLease zone ns cu st :
  WF st -> total_keys ns cu -> Forall (fun rr => rr_wf rr = true) ns ->
  exists st' touched err, applyLocalMutations now lease keyLease zone ns cu st = Some (st', touched, err) /\
    local_state now lease keyLease ns cu st st' touched err.
Proof.
  intros W Ht Hwf. destruct (applyLocalMutations_nodes now lease keyLease zone ns cu st Ht) as (hk & ks & parent & Hh & Hks & E & Hpar).
  cbn zeta in E, Hpar. set (s0 := apply_node _ _ _ _ _ _ _ (st, None)) in *. set (s := apply_nodes _ _ _ _ _ _ s0) in *.
  exists s.1, (NodeKey hk :: map NodeKey ks), s.2. split; [done|].
  assert (E0 : node_effect now lease keyLease "" hk (deref ns (host_Addresses (cu_Host cu))) (st, None) s0).
  { rewrite <- default_host_records. apply apply_node_effect; [done|]. rewrite default_host_records. by apply deref_wf. }
  pose proof (inst_nodes_wf ns cu ks Hwf) as Hnwf. pose proof (inst_nodes_ids ns cu ks Hks) as Hids.
  destruct (apply_nodes_frame now lease keyLease zone parent (inst_nodes ns cu ks) s0 (ne_WF _ _ _ _ _ _ _ _ E0) Hnwf) as [W' F'].
  fold s in W', F'. rewrite Hids in F'.
  split; [done|by apply lockRoots_keys| | | | |].
  - eapply frame_trans; [eapply frame_mono; [|apply (node_effect_frame _ _ _ _ _ _ _ _ E0)]|eapply frame_mono; [|exact F']].
    + intros x ->%list_elem_of_singleton. by left.
    + intros x Hx. by right.
  - exists hk, ks. split_and!; [done..|]. apply (sources_trans [(hk, host_records ns cu)] _ st s0.1 s.1).
    + rewrite <- default_host_records in E0. exact (node_effect_sources _ _ _ _ _ _ _ _ E0).
    + by apply apply_nodes_sources; [apply (ne_WF _ _ _ _ _ _ _ _ E0)|].
  - intros [Hfresh Hnd]%NoDup_cons hk' Hh'. rewrite Hh in Hh'. injection Hh' as <-. destruct F' as [Fl Fo]. split.
    + intros id r Hr Hp. apply (ne_within _ _ _ _ _ _ _ _ E0 id r); [|done]. apply (Fo id r); [by rewrite Hp|done].
    + intros Herr. rewrite <- Hids in Hnd.
      destruct (nx_err _ _ _ _ _ _ _ (apply_nodes_exact now lease keyLease zone parent _ s0 (ne_WF _ _ _ _ _ _ _ _ E0) Hnwf Hnd) Herr) as [Herr0 _].
      destruct (ne_err _ _ _ _ _ _ _ _ E0 Herr0) as (_ & Hall & r' & Hr' & Hl). split.
      * intros rr Hin. destruct (Hall rr Hin) as (r & Hr & Hp). exists r. split; [|done]. apply (Fo (RecordKey rr) r); [by rewrite Hp|done].
      * exists r'. split; [by rewrite Fl|done].
  - intros [Hfresh Hnd]%NoDup_cons inst k hk' Hin Hk Hh'. rewrite Hh in Hh'. injection Hh' as <-. cbn zeta.
    pose proof (inst_nodes_elem ns cu ks inst k Hks Hin Hk) as Hn.
    assert (Hne : NodeKey k <> NodeKey hk).
    { intros Ek. apply Hfresh. rewrite <- Ek, <- Hids. apply list_elem_of_fmap. by exists (k, live_records ns cu inst). }
    rewrite <- Hids in Hnd.
    destruct (apply_nodes_exact now lease keyLease zone parent _ s0 (ne_WF _ _ _ _ _ _ _ _ E0) Hnwf Hnd) as [Xw Xe]. split.
    + exact (Xw _ Hn).
    + intros Herr. destruct (Xe Herr) as [Herr0 HX]. destruct (HX _ Hn) as (Hall & r' & Hr' & Hl). split; [done|]. exists r'.
      split; [done|]. cbn [fst] in Hl. rewrite (Hpar Herr0) in Hl. revert Hl. unfold node_lease, lookup_live.
      by rewrite (ne_leases _ _ _ _ _ _ _ _ E0) by done.
  - intros (hk' & ks' & Hh' & Hks' & HP). rewrite Hh in Hh'. rewrite Hks in Hks'. injection Hh' as <-. injection Hks' as <-.
    assert (Hs0 : s0.2 = None).
    { apply apply_node_succeeds; [done|done|apply (pl_names _ _ HP (hk, host_records ns cu)); by left|by left|].
      intros rr r. apply (pl_own _ _ HP (hk, host_records ns cu)). by left. }
    apply apply_nodes_succeed; [apply E0|done|done|right; exists hk; by apply Hpar|].
    rewrite <- default_host_records in E0. by eapply (placeable_step _ _ _ _ (hk, host_records ns cu)).
Qed.
End wf_store.

(** ** One request under its locks *)

(** What a request that gets past FCFS and the upstream computes. *)
Record srp_run := mkRun {
  ru_prereqs : list RR; ru_lease : Z; ru_keyLease : Z; ru_ns : list RR; ru_records : list RR; ru_zone : string;
  ru_store : Store; ru_touched : list string; ru_err : option string; ru_timers : expiryTimers }.

Record srp_applied (h : SRPHandler) (now now' : Z) (r : Msg) (cu : ClassifiedUpdate) (x x' : SRPWorld) (res : HandlerResult)
    (ru : srp_run) : Prop := {
  ap_fcfs : fcfs_names h (leaseStoreView now (w_store (sw x))) r cu (Names cu) [] = Some (inr (ru_prereqs ru));
  ap_lease : exists l kl, srp_parseLease r = Ok (l, kl) /\ clamp (s_LeasePolicy h) l kl = (ru_lease ru, ru_keyLease ru);
  ap_ns : ru_ns ru = applyRecordTTL cu (s_recordTTL h) (ru_lease ru) (ru_keyLease ru) (Ns r);
  ap_records : forwardRecords (w_store (sw x)) (ru_ns ru) cu = Some (ru_records ru);
  ap_mutations : applyLocalMutations now' (ru_lease ru) (ru_keyLease ru) (s_upstreamZone h) (ru_ns ru) cu (w_store (sw x)) =
    Some (ru_store ru, ru_touched ru, ru_err ru);
  ap_world : reconcileServiceEnumeration h now'
    (set_sw (mkWorld (ru_store ru) (ru_timers ru)
               (w_sent (sw x) ++ [mkSent (ru_zone ru) (ru_prereqs ru) (ru_records ru) true])) x) = Some x';
  ap_res : res = NewProcessedResult (leaseResponse r (ru_lease ru) (ru_keyLease ru)) }.

(** A request that changes nothing but may have sent an UPDATE that was not confirmed. *)
Definition srp_idle (x x' : SRPWorld) (res : HandlerResult) : Prop :=
  w_store (sw x') = w_store (sw x) /\ w_timers (sw x') = w_timers (sw x) /\
  sw_serviceTypes x' = sw_serviceTypes x /\ sw_domainEnumPresent x' = sw_domainEnumPresent x /\
  Status res <> StatusProcessed /\
  exists extra, w_sent (sw x') = w_sent (sw x) ++ extra /\ Forall (fun s => sent_ok s = false) extra.

Lemma srp_idle_refl x res : Status res <> StatusProcessed -> srp_idle x x res.
Proof. intros H. split_and!; try done. exists []. by rewrite app_nil_r. Qed.

Lemma srp_locked_cases h now now' r cu x x' res :
  srp_locked h now now' r cu x = Some (x', res) ->
  srp_idle x x' res \/ exists ru, srp_applied h now now' r cu x x' res ru.
Proof.
  unfold srp_locked. cbn zeta. destruct (fcfs_names _ _ _ _ _ _) as [[res0|prereqs]|] eqn:Hf; cbn [mbind option_bind]; [| |done].
  { intros [= <- <-]. left. apply srp_idle_refl. by eapply fcfs_names_inl. }
  destruct (srp_parseLease r) as [[l kl]|e] eqn:Hl; [|intros [= <- <-]; left; by apply srp_idle_refl].
  destruct (clamp (s_LeasePolicy h) l kl) as [lease keyLease] eqn:Hc.
  set (ns := applyRecordTTL _ _ _ _ _). destruct (forwardRecords _ ns cu) as [records|] eqn:Hr; cbn [mbind option_bind]; [|done].
  destruct (send (s_upstream h) prereqs records) as [out|] eqn:Es; cbn [mbind option_bind]; [|done]. apply send_Some in Es as [_ ->].
  destruct (o_err (send_update (s_upstream h) prereqs records)) as [e|] eqn:He.
  - intros H. left. assert (Hx : x' = set_sw (mkWorld (w_store (sw x)) (w_timers (sw x)) (w_sent (sw x) ++ o_sent (send_update (s_upstream h) prereqs records))) x
      /\ Status res <> StatusProcessed).
    { revert H. repeat case_match; intros [= <- <-]; done. }
    destruct Hx as [-> Hs]. split_and!; try done. eexists. split; [reflexivity|]. apply Forall_forall. by eapply send_err.
  - destruct (send_ok _ _ _ He) as [zone Hsent]. rewrite Hsent. cbn [set_sw sw w_timers w_sent].
    destruct (applyLocalMutations _ _ _ _ _ _ _) as [[[st' touched] err]|] eqn:Ha; cbn [mbind option_bind]; [|done].
    destruct (reconcileServiceEnumeration _ _ _) as [x1|] eqn:Hx; cbn [mbind option_bind]; [|done]. intros [= <- <-]. right.
    exists (mkRun prereqs lease keyLease ns records zone st' touched err
              (foldl (fun ts nodeKey => schedule now' st' nodeKey ts) (w_timers (sw x)) touched)).
    split; cbn; try done. eauto.
Qed.

Lemma reconcile_total h now x : is_Some (s_upstreamKey h) -> is_Some (reconcileServiceEnumeration h now x).
Proof.
  intros Hk. unfold reconcileServiceEnumeration. cbn zeta. case_match; [done|]. rewrite send_ready by done. cbn [mbind option_bind]. by case_match.
Qed.

Lemma reconcile_frame h now x x' :
  reconcileServiceEnumeration h now x = Some x' ->
  w_store (sw x') = w_store (sw x) /\ w_timers (sw x') = w_timers (sw x) /\
  exists extra, w_sent (sw x') = w_sent (sw x) ++ extra /\ (length extra <= 1)%nat.
Proof.
  unfold reconcileServiceEnumeration. cbn zeta. case_match.
  { intros [= <-]. split_and!; try done. exists []. rewrite app_nil_r. split; [done|cbn; lia]. }
  destruct (send _ _ _) as [out|] eqn:Es; cbn [mbind option_bind]; [|done].
  assert (Hlen : (length (o_sent out) <= 1)%nat).
  { apply send_Some in Es as [_ ->]. unfold send_update. repeat case_match; cbn; lia. }
  destruct (o_err out); intros [= <-]; (split_and!; [done..|]; by exists (o_sent out)).
Qed.

Section claims.
Context {LL : DnsLibLaws L}.

Lemma forwardRecords_spec st ns cu :
  WF st -> total_keys ns cu ->
  exists drops keys, forwardRecords st ns cu = Some (ns ++ drops ++ keys) /\
    ptrDeleteDiff st ns cu = Some drops /\ synthesizeOmittedInstanceKeys ns cu = Some keys.
Proof.
  intros W Ht. destruct (ptrDeleteDiff_spec st ns cu W Ht) as (drops & Hd & _).
  destruct (synthesize_spec ns cu Ht) as (keys & Hk & _). exists drops, keys. unfold forwardRecords. by rewrite Hd, Hk.
Qed.

Lemma srp_locked_total h now now' r cu x :
  Classify r = Ok cu -> WF (w_store (sw x)) -> Forall (fun rr => rr_wf rr = true) (Ns r) -> is_Some (s_upstreamKey h) ->
  is_Some (srp_locked h now now' r cu x).
Proof.
  intros Hc W Hwf Hkey. pose proof (Classify_total_keys _ _ Hc) as Ht. unfold srp_locked. cbn zeta.
  destruct (fcfs_names_total h (leaseStoreView now (w_store (sw x))) r cu (Names cu) [] Ht) as [f ->]. cbn [mbind option_bind].
  destruct f as [res|prereqs]; [done|]. destruct (srp_parseLease r) as [[l kl]|]; [|done].
  destruct (clamp _ l kl) as [lease keyLease].
  pose proof (applyRecordTTL_but_ttl r cu (s_recordTTL h) lease keyLease Hc) as Hb.
  set (ns := applyRecordTTL _ _ _ _ _) in *. pose proof (total_keys_but_ttl _ _ _ Hb Ht) as Ht'.
  destruct (forwardRecords_spec (w_store (sw x)) ns cu W Ht') as (drops & keys & -> & _). cbn [mbind option_bind].
  rewrite send_ready by done. cbn [mbind option_bind]. destruct (o_err _); [repeat case_match; done|].
  destruct (applyLocalMutations_spec now' lease keyLease (s_upstreamZone h) ns cu (w_store (sw x)) W Ht' (rr_wf_but_ttl _ _ Hb Hwf))
    as (st' & touched & err & -> & _). cbn [mbind option_bind].
  match goal with |- context [reconcileServiceEnumeration h now' ?y] => destruct (reconcile_total h now' y Hkey) as [x1 ->] end. done.
Qed.

(** The message the steps after the prologue work on is as well formed as the request. *)
Lemma srp_authenticated_wf h udp r r' cu :
  srp_authenticated h udp r r' cu -> fqdn (s_upstreamZone h) = true -> Forall (fun rr => rr_wf rr = true) (Ns r) ->
  Classify r' = Ok cu /\ Forall (fun rr => rr_wf rr = true) (Ns r').
Proof.
  intros [(q & _ & _ & Hr) _ _ _ [Hv _]%Validate_Classified] Hz Hwf. split; [done|].
  destruct Hr as [[-> _]|[-> _]]; [done|]. by apply rewrite_wf.
Qed.

Lemma SRP_Handle_cases h udp acquired now now' r x x' res :
  SRP_Handle h udp acquired now now' r x = Some (x', res) ->
  srp_idle x x' res /\ w_sent (sw x') = w_sent (sw x) \/
  acquired = true /\ exists r' cu, srp_prologue h udp r = Some (inr (r', cu)) /\
    (srp_idle x x' res \/ exists ru, srp_applied h now now' r' cu x x' res ru).
Proof.
  unfold SRP_Handle. destruct (srp_prologue h udp r) as [[res0|[r' cu]]|] eqn:Hp; cbn [mbind option_bind]; [| |done].
  { intros [= <- <-]. left. split; [|done]. apply srp_idle_refl. by eapply srp_prologue_refusal. }
  destruct (lockRoots _ _); cbn [mbind option_bind]; [|done]. destruct acquired; cbn [negb].
  - intros H%srp_locked_cases. right. split; [done|]. eauto.
  - intros [= <- <-]. left. split; [|done]. by apply srp_idle_refl.
Qed.

(** ** The UPDATE covers the local change *)

Record srp_covered (cu : ClassifiedUpdate) (ns recs : list RR) (st st' : Store) : Prop := {
  cv_keys : forall id r', leases st' !! id = Some r' -> leases st !! id = Some r' \/ KEY_RR (KeyRR r') ∈ recs \/
    exists inst del, inst ∈ cu_Instances cu /\ inst_SRV inst = None /\ inst_Key inst = None /\
      KeyFor ns cu (inst_Name inst) = Some (KeyRR r') /\ del ∈ recs /\ is_ANY del = true /\ Fold (Name (Hdr del)) = Fold (Name (key_Hdr (KeyRR r')));
  cv_kept : forall id, is_Some (leases st !! id) -> is_Some (leases st' !! id);
  cv_adds : forall id r', nonKeyRecords st' !! id = Some r' -> nonKeyRecords st !! id = Some r' \/ n_RR r' ∈ recs;
  cv_lost : forall id r, nonKeyRecords st !! id = Some r -> nonKeyRecords st' !! id = Some r \/
    exists del k, del ∈ recs /\ is_ANY del = true /\ n_Parent r = NodeKey k /\ Fold (Name (Hdr del)) = Fold (Name (key_Hdr k));
  cv_ptrs : forall id r hk, nonKeyRecords st !! id = Some r -> is_PTR (n_RR r) = true ->
    KeyFor ns cu (host_Name (cu_Host cu)) = Some hk -> n_Parent r <> NodeKey hk ->
    nonKeyRecords st' !! id = Some r \/ AsDelete (n_RR r) ∈ recs \/ exists rr, rr ∈ recs /\ RecordKey rr = id }.

Lemma key_of_in ns i k : key_of ns i = Some k -> KEY_RR k ∈ ns.
Proof.
  unfold key_of, as_KEY. destruct (ns !! i) as [[hdr d]|] eqn:E; [|done]. cbn. destruct d; try done. intros [= <-].
  by eapply list_elem_of_lookup_2.
Qed.

Lemma KeyFor_in ns cu keys name k :
  synthesizeOmittedInstanceKeys ns cu = Some keys -> total_keys ns cu -> KeyFor ns cu name = Some k ->
  KEY_RR k ∈ ns \/ KEY_RR k ∈ keys \/
  exists inst, inst ∈ cu_Instances cu /\ inst_SRV inst = None /\ inst_Key inst = None /\ KeyFor ns cu (inst_Name inst) = Some k.
Proof.
  intros Hs Ht Hk. destruct (synthesize_spec ns cu Ht) as (keys' & E & Hsyn). rewrite Hs in E. injection E as <-.
  pose proof Hk as Hk0. unfold KeyFor in Hk. case_bool_decide as En.
  { left. destruct (host_Key (cu_Host cu)) as [i|]; [|done]. by eapply key_of_in. }
  destruct (instance_named name (cu_Instances cu)) as [inst|] eqn:Hi; [|done]. apply instance_named_Some in Hi as [Hin <-].
  cbn [mbind option_bind] in Hk. destruct (inst_Key inst) as [i|] eqn:Ek; [left; by eapply key_of_in|].
  destruct (inst_SRV inst) as [s|] eqn:Es.
  - right; left. destruct (Hsyn inst Hin) as (k' & Hk' & ?); [congruence|done|]. congruence.
  - right; right. exists inst. by split_and!.
Qed.

Lemma inst_nodes_inv ns cu ks n :
  mapM (fun inst => KeyFor ns cu (inst_Name inst)) (cu_Instances cu) = Some ks -> n ∈ inst_nodes ns cu ks ->
  exists inst, inst ∈ cu_Instances cu /\ KeyFor ns cu (inst_Name inst) = Some n.1 /\ n.2 = live_records ns cu inst.
Proof.
  unfold inst_nodes. generalize (cu_Instances cu). intros insts. revert ks. induction insts as [|i insts IH]; intros ks.
  { cbn. intros [= <-] Hn. by apply not_elem_of_nil in Hn. }
  cbn [mapM]. destruct (KeyFor ns cu (inst_Name i)) as [k'|] eqn:Hk'; [|done]. cbn [mbind option_bind].
  destruct (mapM _ insts) as [ks'|] eqn:Hks; [|done]. intros [= <-]. cbn [map zip zip_with]. intros [->|Hin]%elem_of_cons.
  - exists i. split_and!; [by left|done..].
  - destruct (IH ks' eq_refl Hin) as (inst & ? & ?). exists inst. split; [by right|done].
Qed.

Lemma node_records_in ns cu inst rr : rr ∈ default [] (live_records ns cu inst) -> rr ∈ ns.
Proof.
  unfold live_records, instance_records. destruct (inst_SRV inst); cbn [default id]; [|intros H; by apply not_elem_of_nil in H].
  intros (i & _ & Hi)%list_elem_of_omap. by eapply list_elem_of_lookup_2.
Qed.

(** Every name of an update has a Delete All RRsets. *)
Lemma name_deleted r cu ns name k :
  Classify r = Ok cu -> Forall2 but_ttl (Ns r) ns -> name ∈ Names cu -> KeyFor ns cu name = Some k ->
  exists del, del ∈ ns /\ is_ANY del = true /\ Fold (Name (Hdr del)) = Fold (Name (key_Hdr k)).
Proof.
  intros Hc Hb Hname Hk. destruct (KeyFor_total r cu name Hc Hname) as (k0 & Hk0 & Hf).
  destruct (KeyFor_but_ttl _ _ _ _ _ Hb Hk0) as [t Hk']. rewrite Hk' in Hk. injection Hk as <-.
  assert (Hdel : exists i, delete_at (Ns r) name i).
  { apply Classify_parts in Hc as (_ & _ & _ & _ & _ & [Hd _ _] & Hi & _). apply elem_of_cons in Hname as [->|Hin]; [eauto|].
    apply list_elem_of_fmap in Hin as (inst & -> & Hin). destruct (Hi inst Hin). eauto. }
  destruct Hdel as (i & del & Hi & Ha & Hn').
  destruct (Forall2_lookup_l _ _ _ _ _ Hb Hi) as (del' & Hdel' & t' & ->).
  exists (set_TTL t' del). split_and!; [|done|].
  - by eapply list_elem_of_lookup_2.
  - cbn. congruence.
Qed.

(** Every touched node has a Delete All RRsets at its name. *)
Lemma touched_deleted r cu ns touched id :
  Classify r = Ok cu -> Forall2 but_ttl (Ns r) ns -> lockRoots ns cu = Some touched -> id ∈ touched ->
  exists name k del, name ∈ Names cu /\ KeyFor ns cu name = Some k /\ id = NodeKey k /\ del ∈ ns /\ is_ANY del = true /\
    Fold (Name (Hdr del)) = Fold (Name (key_Hdr k)).
Proof.
  intros Hc Hb Hr Hid. unfold lockRoots in Hr. apply mapM_Some_1 in Hr.
  apply list_elem_of_lookup in Hid as [n Hn]. destruct (Forall2_lookup_r _ _ _ _ _ Hr Hn) as (name & Hname & Hk).
  apply list_elem_of_lookup_2 in Hname. destruct (KeyFor ns cu name) as [k|] eqn:Ek; [|done]. injection Hk as <-.
  destruct (name_deleted r cu ns name k Hc Hb Hname Ek) as (del & ? & ? & ?). by exists name, k, del.
Qed.

Lemma local_covered r cu ns now lease keyLease st st' touched err recs :
  Classify r = Ok cu -> Forall2 but_ttl (Ns r) ns -> WF st ->
  local_state now lease keyLease ns cu st st' touched err -> forwardRecords st ns cu = Some recs -> srp_covered cu ns recs st st'.
Proof.
  intros Hc Hb W [_ Hroots [_ Fo] (hk & ks & Hh & Hks & S1 & S2 & S3) _ _ _] Hf.
  pose proof (total_keys_but_ttl _ _ _ Hb (Classify_total_keys _ _ Hc)) as Ht.
  destruct (forwardRecords_spec st ns cu W Ht) as (drops & keys & E & Hd & Hk). rewrite Hf in E. injection E as ->.
  assert (Hns : forall rr, rr ∈ ns -> rr ∈ ns ++ drops ++ keys) by (intros; apply elem_of_app; by left).
  split.
  - intros id r' [?|(n & Hn & En)]%S1; [by left|right].
    assert (Hkf : exists name, KeyFor ns cu name = Some (KeyRR r')).
    { rewrite En. apply elem_of_cons in Hn as [->|Hn]; [eauto|]. apply (inst_nodes_inv ns cu ks n Hks) in Hn as (i & _ & ? & _). eauto. }
    destruct Hkf as [name Hkf]. destruct (KeyFor_in ns cu keys name _ Hk Ht Hkf) as [?|[?|(inst & Hin & ? & ? & Hki)]]; [left; auto| |right].
    { left. rewrite !elem_of_app. auto. }
    destruct (name_deleted r cu ns _ _ Hc Hb (instance_name_in _ _ Hin) Hki) as (del & ? & ? & ?). exists inst, del. split_and!; auto.
  - exact S3.
  - intros id r' [?|(n & Hn & En)]%S2; [by left|right]. apply Hns. apply elem_of_cons in Hn as [->|Hn].
    + cbn [snd] in En. rewrite default_host_records in En. apply list_elem_of_omap in En as (i & _ & Hi). by eapply list_elem_of_lookup_2.
    + apply (inst_nodes_inv ns cu ks n Hks) in Hn as (i & _ & _ & Ei). rewrite Ei in En. by eapply node_records_in.
  - intros id r0 Hr0. destruct (decide (n_Parent r0 ∈ touched)) as [Hin|Hin]; [right|left; by apply Fo].
    destruct (touched_deleted _ _ _ _ _ Hc Hb Hroots Hin) as (name & k & del & _ & _ & ? & ? & ? & ?). exists del, k. auto.
  - intros id r0 hk' Hr0 Hptr Hh' Hne. destruct (decide (n_Parent r0 ∈ touched)) as [Hin|Hin]; [right|left; by apply Fo].
    destruct (touched_deleted _ _ _ _ _ Hc Hb Hroots Hin) as (name & k & _ & Hn & Hkf & Hid & _).
    apply elem_of_cons in Hn as [->|Hn]; [congruence|]. apply list_elem_of_fmap in Hn as (inst & -> & Hinst).
    destruct (ptrDeleteDiff_spec st ns cu W Ht) as (drops' & Hd' & Hspec). rewrite Hd in Hd'. injection Hd' as <-.
    destruct (Hspec inst k Hinst Hkf id r0 Hr0 Hid Hptr) as [?|(rr & ? & ?)]; [left; rewrite !elem_of_app; auto|right; eauto].
Qed.

Lemma applied_local h now now' r cu x x' res ru :
  srp_applied h now now' r cu x x' res ru -> Classify r = Ok cu -> WF (w_store (sw x)) ->
  Forall (fun rr => rr_wf rr = true) (Ns r) ->
  Forall2 but_ttl (Ns r) (ru_ns ru) /\ w_store (sw x') = ru_store ru /\
  local_state now' (ru_lease ru) (ru_keyLease ru) (ru_ns ru) cu (w_store (sw x)) (ru_store ru) (ru_touched ru) (ru_err ru).
Proof.
  intros [_ _ Hns _ Hm Hx _] Hc W Hwf. pose proof (applyRecordTTL_but_ttl r cu (s_recordTTL h) (ru_lease ru) (ru_keyLease ru) Hc) as Hb.
  rewrite <- Hns in Hb. split_and!; [done| |].
  - by destruct (reconcile_frame _ _ _ _ Hx) as (-> & _).
  - pose proof (total_keys_but_ttl _ _ _ Hb (Classify_total_keys _ _ Hc)) as Ht.
    destruct (applyLocalMutations_spec now' (ru_lease ru) (ru_keyLease ru) (s_upstreamZone h) (ru_ns ru) cu (w_store (sw x)) W Ht
                (rr_wf_but_ttl _ _ Hb Hwf)) as (st' & touched & err & E & Hls).
    rewrite Hm in E. injection E as <- <- <-. done.
Qed.

(** The UPDATE of a request, behind which the enumeration may have sent another one. *)
Lemma applied_sent h now now' r cu x x' res ru :
  srp_applied h now now' r cu x x' res ru ->
  exists extra, w_sent (sw x') = w_sent (sw x) ++ mkSent (ru_zone ru) (ru_prereqs ru) (ru_records ru) true :: extra /\
    (length extra <= 1)%nat.
Proof.
  intros [_ _ _ _ _ Hx _]. destruct (reconcile_frame _ _ _ _ Hx) as (_ & _ & extra & -> & ?).
  exists extra. cbn. by rewrite <- app_assoc.
Qed.

Lemma SRP_Handle_total h udp acquired now now' r x :
  WF (w_store (sw x)) -> Forall (fun rr => rr_wf rr = true) (Ns r) -> fqdn (s_upstreamZone h) = true -> is_Some (s_upstreamKey h) ->
  is_Some (SRP_Handle h udp acquired now now' r x).
Proof.
  intros W Hwf Hz Hk. unfold SRP_Handle. destruct (srp_prologue_total h udp r Hk) as [p Hp]. rewrite Hp. cbn [mbind option_bind].
  destruct p as [res|[r' cu]]; [done|]. apply srp_prologue_authenticated in Hp.
  destruct (srp_authenticated_wf _ _ _ _ _ Hp Hz Hwf) as [Hc Hwf']. pose proof (Classify_total_keys _ _ Hc) as Ht.
  destruct (Ht (host_Name (cu_Host cu))) as [hk Hhk]; [by left|]. destruct (total_keys_mapM _ _ Ht) as [ks Hks].
  rewrite (lockRoots_keys _ _ _ _ Hhk Hks). cbn [mbind option_bind]. destruct acquired; [|done]. cbn [negb].
  destruct (srp_locked_total h now now' r' cu x Hc W Hwf' Hk) as [? E]. by rewrite E.
Qed.

Lemma SRP_Handle_WF h udp acquired now now' r x x' res :
  WF (w_store (sw x)) -> Forall (fun rr => rr_wf rr = true) (Ns r) -> fqdn (s_upstreamZone h) = true ->
  SRP_Handle h udp acquired now now' r x = Some (x', res) -> WF (w_store (sw x')).
Proof.
  intros W Hwf Hz HH.
  apply SRP_Handle_cases in HH as [[(-> & _) _]|(_ & r' & cu & Hp%srp_prologue_authenticated & [(-> & _)|[ru Ha]])]; [done..|].
  destruct (srp_authenticated_wf _ _ _ _ _ Hp Hz Hwf) as [Hc Hwf'].
  destruct (applied_local _ _ _ _ _ _ _ _ _ Ha Hc W Hwf') as (_ & -> & Hls). apply Hls.
Qed.

(** The leases granted to a request. *)
Definition granted (h : SRPHandler) (r : Msg) (lease keyLease : Z) : Prop :=
  exists l k, srp_parseLease r = Ok (l, k) /\ clamp (s_LeasePolicy h) l k = (lease, keyLease).

(** What one SRP request leaves. *)
Lemma SRP_Handle_post (h : SRPHandler) (udp acquired : bool) (now now' : Z) (r : Msg) (x : SRPWorld) :
  WF (w_store (sw x)) -> Forall (fun rr => rr_wf rr = true) (Ns r) -> fqdn (s_upstreamZone h) = true -> is_Some (s_upstreamKey h) ->
  exists x' res, SRP_Handle h udp acquired now now' r x = Some (x', res) /\ WF (w_store (sw x')) /\
    (srp_idle x x' res \/
     exists r' cu lease keyLease, srp_prologue h udp r = Some (inr (r', cu)) /\ granted h r' lease keyLease /\ Status res = StatusProcessed /\
       exists zone prereqs recs extra, w_sent (sw x') = w_sent (sw x) ++ mkSent zone prereqs recs true :: extra /\ (length extra <= 1)%nat /\
       srp_covered cu (applyRecordTTL cu (s_recordTTL h) lease keyLease (Ns r')) recs (w_store (sw x)) (w_store (sw x'))).
Proof.
  intros W Hwf Hz Hk. destruct (SRP_Handle_total h udp acquired now now' r x W Hwf Hz Hk) as [[x' res] HH].
  exists x', res. split; [done|].
  apply SRP_Handle_cases in HH as [[Hi _]|(_ & r' & cu & Hp & [Hi|[ru Ha]])].
  - split; [|by left]. destruct Hi as (-> & _). done.
  - split; [|by left]. destruct Hi as (-> & _). done.
  - destruct (srp_authenticated_wf _ _ _ _ _ (srp_prologue_authenticated _ _ _ _ _ Hp) Hz Hwf) as [Hc Hwf'].
    destruct (applied_local _ _ _ _ _ _ _ _ _ Ha Hc W Hwf') as (Hb & E & Hls). rewrite E.
    split; [apply Hls|]. right. destruct (applied_sent _ _ _ _ _ _ _ _ _ Ha) as (extra & Hs & Hlen).
    exists r', cu, (ru_lease ru), (ru_keyLease ru). split_and!; [done|apply (ap_lease _ _ _ _ _ _ _ _ _ Ha)|by rewrite (ap_res _ _ _ _ _ _ _ _ _ Ha)|].
    exists (ru_zone ru), (ru_prereqs ru), (ru_records ru), extra. split_and!; [done..|]. rewrite <- (ap_ns _ _ _ _ _ _ _ _ _ Ha).
    eapply local_covered; eauto. apply (ap_records _ _ _ _ _ _ _ _ _ Ha).
Qed.

(** [C7] The SRP handler never panics and never runs ahead of the upstream: from a well-formed
    store it always returns, the store stays well formed, and either nothing local changed and
    no UPDATE was confirmed, or the reply is NOERROR and one UPDATE was confirmed before the
    change.  With the host, the instances and the TTLs of the request, that UPDATE adds every
    record that is new or changed in the store, and every KEY that is, but that of a removed
    instance, at whose name it deletes everything; it deletes everything at the name of every
    node that lost a record; and a PTR, which is at another name than the node that holds it, it
    deletes or adds by itself, unless its node is the host's own.  No KEY is lost. *)
Theorem srp_confirmed_before_applied (h : SRPHandler) (udp acquired : bool) (now now' : Z) (r : Msg) (x : SRPWorld) :
  WF (w_store (sw x)) -> Forall (fun rr => rr_wf rr = true) (Ns r) -> fqdn (s_upstreamZone h) = true -> is_Some (s_upstreamKey h) ->
  exists x' res, SRP_Handle h udp acquired now now' r x = Some (x', res) /\ WF (w_store (sw x')) /\
    (srp_idle x x' res \/
     exists r' cu lease keyLease, srp_prologue h udp r = Some (inr (r', cu)) /\ granted h r' lease keyLease /\ Status res = StatusProcessed /\
       exists zone prereqs recs extra, w_sent (sw x') = w_sent (sw x) ++ mkSent zone prereqs recs true :: extra /\ (length extra <= 1)%nat /\
       srp_covered cu (applyRecordTTL cu (s_recordTTL h) lease keyLease (Ns r')) recs (w_store (sw x)) (w_store (sw x'))).
Proof. apply SRP_Handle_post. Qed.

(** [C8] No one can change anything through the SRP handler without the host's signature: a
    request either leaves the state as it was, sends nothing and gets no NOERROR, or the locks
    were taken and the request is a valid update for an enabled zone over an allowed transport,
    free of labels with dots, whose signer is the Host Description's name and whose SIG(0)
    verifies with the Host Description's KEY before any name is rewritten. *)
Theorem srp_unauthenticated_changes_nothing (h : SRPHandler) (udp acquired : bool) (now now' : Z) (r : Msg) (x x' : SRPWorld)
    (res : HandlerResult) :
  SRP_Handle h udp acquired now now' r x = Some (x', res) ->
  (srp_idle x x' res /\ w_sent (sw x') = w_sent (sw x)) \/
  (acquired = true /\ exists r' cu, srp_prologue h udp r = Some (inr (r', cu)) /\ srp_authenticated h udp r r' cu).
Proof.
  intros [?|(? & r' & cu & Hp & _)]%SRP_Handle_cases; [by left|right]. split; [done|]. exists r', cu. split; [done|].
  by apply srp_prologue_authenticated.
Qed.

(** What FCFS grants a name for. *)
Lemma Evaluate_proceed {V : StoreView} query zone name k refuse p :
  Evaluate query zone name k refuse = Ok (FCFSProceed, p) ->
  match p with
  | None => exists key, keysIdentical key k = true /\
      (KeyAtName name = Some key \/ KeyAtName name = None /\ exists keys, query zone name = Ok (AuthKeyPresent, keys) /\ key ∈ keys)
  | Some q => KeyAtName name = None /\ q ∈ [nameNotInUsePrerequisite name; keyRRsetDoesNotExistPrerequisite name]
  end.
Proof.
  unfold Evaluate. destruct (KeyAtName name) as [key|] eqn:Hk.
  { destruct (keysIdentical key k) eqn:E; [|done]. intros [= <-]. eauto. }
  destruct (query zone name) as [[[] keys]|]; [destruct refuse; intros [= <-]; set_solver| | |done].
  - destruct refuse; [done|]. intros [= <-]. set_solver.
  - destruct (existsb _ keys) eqn:E; [|done]. intros [= <-]. apply existsb_exists in E as (key & Hin%list_elem_of_In & Hid). eauto 8.
Qed.

(** [C9] First come, first served, end to end: when a request changes the local state, for the
    host and every service instance of the update either the lease store or, if it has none, the
    authoritative server held a KEY of the host's key material at the name, or the store held
    none and the confirmed UPDATE carried a prerequisite under which the server applies it only
    if there is no KEY at the name. *)
Theorem srp_first_come_first_served (h : SRPHandler) (udp acquired : bool) (now now' : Z) (r : Msg) (x x' : SRPWorld)
    (res : HandlerResult) (name : string) :
  SRP_Handle h udp acquired now now' r x = Some (x', res) -> Status res = StatusProcessed ->
  exists r' cu hk zone prereqs recs extra, srp_prologue h udp r = Some (inr (r', cu)) /\
    KeyFor (Ns r') cu (host_Name (cu_Host cu)) = Some hk /\
    w_sent (sw x') = w_sent (sw x) ++ mkSent zone prereqs recs true :: extra /\
    (name ∈ Names cu ->
     (exists key, keysIdentical hk key = true /\
        (KeyAtName (StoreView := leaseStoreView now (w_store (sw x))) name = Some key \/
         exists keys, up_QueryKeyAtName (s_upstreamZone h) name = Ok (AuthKeyPresent, keys) /\ key ∈ keys)) \/
     (KeyAtName (StoreView := leaseStoreView now (w_store (sw x))) name = None /\
      exists p, p ∈ prereqs /\ forall at_name, prereq_holds at_name p -> forall rr, rr ∈ at_name name -> RRToType rr <> TypeKEY)).
Proof.
  intros HH Hs. apply SRP_Handle_cases in HH as [[(_ & _ & _ & _ & Hn & _) _]|(_ & r' & cu & Hp & [(_ & _ & _ & _ & Hn & _)|[ru Ha]])];
    [done|done|]. destruct (applied_sent _ _ _ _ _ _ _ _ _ Ha) as (extra & Hsent & _).
  pose proof (sa_valid _ _ _ _ _ (srp_prologue_authenticated _ _ _ _ _ Hp)) as Hv. pose proof Hv as [Hc _]%Validate_Classified.
  destruct (Classify_host_key _ _ Hc) as (hk & Hhk & _).
  exists r', cu, hk, (ru_zone ru), (ru_prereqs ru), (ru_records ru), extra. split_and!; [done|by rewrite KeyFor_host|done|].
  intros Hin. destruct (fcfs_names_inr _ _ _ _ _ _ _ (ap_fcfs _ _ _ _ _ _ _ _ _ Ha)) as [_ Hf].
  destruct (Hf name Hin) as (k & p & Hk & He & Hq). apply Evaluate_proceed in He.
  pose proof (KeyFor_material _ _ _ _ _ Hv Hhk Hk) as Hid. destruct p as [q|].
  - right. destruct He as [Hnone Hqin]. split; [done|]. exists q. split; [auto|]. intros at_name Hh rr Hrr.
    apply elem_of_cons in Hqin as [->|Hqin]; [|apply list_elem_of_singleton in Hqin as ->].
    + unfold prereq_holds in Hh. cbn in Hh. rewrite Hh in Hrr. by apply not_elem_of_nil in Hrr.
    + by apply Hh.
  - left. destruct He as (key & Hkk & Hwhere). exists key. split.
    + apply keysIdentical_spec in Hid as (? & ? & ?), Hkk as (? & ? & ?). apply keysIdentical_spec. split_and!; congruence.
    + destruct Hwhere as [?|[_ ?]]; auto.
Qed.

(** [C10] The local state after a successful update is the update: the host's node and the nodes
    of its service instances, whose names are among those locked, are all that changed; when
    these nodes are distinct, each holds no records but those the update adds at it, with the
    granted LEASE, and, if [applyLocalMutations] reported no error, all of them, with its KEY
    leased for the granted KEY-LEASE in place, or new, below the host; a removed instance keeps
    its KEY and holds nothing.  There is no error if the records of the update are in the store
    only under their own nodes, no two of its nodes bring the same record, and none is at the root. *)
Theorem srp_update_state (h : SRPHandler) (udp acquired : bool) (now now' : Z) (r : Msg) (x x' : SRPWorld) (res : HandlerResult) :
  SRP_Handle h udp acquired now now' r x = Some (x', res) -> Status res = StatusProcessed ->
  WF (w_store (sw x)) -> Forall (fun rr => rr_wf rr = true) (Ns r) -> fqdn (s_upstreamZone h) = true ->
  exists r' cu lease keyLease touched err, srp_prologue h udp r = Some (inr (r', cu)) /\ granted h r' lease keyLease /\
    res = NewProcessedResult (leaseResponse r' lease keyLease) /\
    lockRoots (Ns r') cu = Some touched /\
    (forall id, id ∈ touched -> NodeKeyName id ∈ lockNames (w_store (sw x)) touched) /\
    let ns := applyRecordTTL cu (s_recordTTL h) lease keyLease (Ns r') in
    applyLocalMutations now' lease keyLease (s_upstreamZone h) ns cu (w_store (sw x)) = Some (w_store (sw x'), touched, err) /\
    (update_placeable ns cu (w_store (sw x)) -> err = None) /\
    local_state now' lease keyLease ns cu (w_store (sw x)) (w_store (sw x')) touched err.
Proof.
  intros HH Hs W Hwf Hz. apply SRP_Handle_cases in HH as [[(_ & _ & _ & _ & Hn & _) _]|(_ & r' & cu & Hp & [(_ & _ & _ & _ & Hn & _)|[ru Ha]])];
    [done|done|]. pose proof (srp_prologue_authenticated _ _ _ _ _ Hp) as Hau.
  destruct (srp_authenticated_wf _ _ _ _ _ Hau Hz Hwf) as [Hc Hwf'].
  destruct (applied_local _ _ _ _ _ _ _ _ _ Ha Hc W Hwf') as (Hb & E & Hls).
  exists r', cu, (ru_lease ru), (ru_keyLease ru), (ru_touched ru), (ru_err ru). rewrite <- (ap_ns _ _ _ _ _ _ _ _ _ Ha), E.
  cbn zeta. split_and!; [done|apply (ap_lease _ _ _ _ _ _ _ _ _ Ha)|apply (ap_res _ _ _ _ _ _ _ _ _ Ha)| | |apply (ap_mutations _ _ _ _ _ _ _ _ _ Ha)|apply Hls|done].
  - rewrite <- (ls_roots _ _ _ _ _ _ _ _ _ Hls). unfold lockRoots. apply mapM_ext. intros name.
    destruct (KeyFor (Ns r') cu name) as [k|] eqn:Ek.
    + destruct (KeyFor_but_ttl _ _ _ _ _ Hb Ek) as [t ->]. done.
    + destruct (KeyFor (ru_ns ru) cu name) as [k|] eqn:Ek'; [|done].
      assert (Hb' : Forall2 but_ttl (ru_ns ru) (Ns r')).
      { clear -Hb. induction Hb as [|a b l l' [t ->] _ IH]; constructor; [|done]. exists (TTL (Hdr a)). by destruct a as [[] ?]. }
      destruct (KeyFor_but_ttl _ _ _ _ _ Hb' Ek') as [t Et]. congruence.
  - intros id Hid. unfold lockNames. apply list_elem_of_In, in_concat. eexists.
    split; [apply in_map_iff; exists id; split; [reflexivity|by apply list_elem_of_In]|by left].
Qed.
End claims.

(** ** Service enumeration *)

(** The types a process tracks are folded names. *)
Definition tracked_ok (types : gset string) : Prop := forall t, t ∈ types -> Fold t = t /\ t <> "".

Definition live_types (now : Z) (st : Store) : gset string := list_to_set (map Fold (collectLiveServiceTypes now st)).

(** A service type is listed in the enumeration record of a zone. *)
Definition listed (zone : string) (targets : gset string) (t : string) : Prop := BrowsingOwnerName t zone ∈ targets.

Lemma live_types_ok now st : tracked_ok (live_types now st).
Proof.
  intros t Ht. unfold live_types in Ht. apply elem_of_list_to_set, list_elem_of_fmap in Ht as (u & -> & Hu). split; [apply Fold_idem|].
  apply list_elem_of_omap in Hu as (rec & _ & H). destruct (IsExpired now rec); [done|].
  apply bind_Some in H as (set & _ & H). apply bind_Some in H as (srv & _ & H). revert H.
  unfold ServiceTypeFromInstanceName, ServiceTypeFromServiceName. destruct (CutFirstLabel _) as [[? svc] []]; [|done]. cbn [negb].
  destruct (Labels (Fold svc)) as [|l0 [|l1 [|? ?]]]; try done. destruct l0 as [|c l0]; [done|]. destruct (_ || _); [done|].
  intros [= <-]. change (String c l0 +:+ "." +:+ l1) with (String c (l0 +:+ "." +:+ l1)). by rewrite Fold_cons.
Qed.

Lemma dedupedSet_live now st : dedupedSet (collectLiveServiceTypes now st) = live_types now st.
Proof.
  apply set_eq. intros t. unfold dedupedSet. rewrite elem_of_list_to_set, list_elem_of_filter. fold (live_types now st). split.
  - intros [_ H]. unfold live_types. by apply elem_of_list_to_set.
  - intros H. split; [by apply live_types_ok in H as [_ ?]|]. unfold live_types in H. by apply elem_of_list_to_set in H.
Qed.

Lemma dedupedSet_tracked (P : string -> bool) (types : gset string) t b :
  tracked_ok types -> t ∈ dedupedSet (filter (fun t => P t = b) (elements types)) <-> t ∈ types /\ P t = b.
Proof.
  intros Hok. unfold dedupedSet. rewrite elem_of_list_to_set, list_elem_of_filter, list_elem_of_fmap. split.
  - intros [_ (u & -> & [Hp Hu%elem_of_elements]%list_elem_of_filter)]. destruct (Hok u Hu) as [-> _]. done.
  - intros [Ht Hp]. destruct (Hok t Ht) as [Hf Hne]. split; [done|]. exists t. split; [done|]. apply list_elem_of_filter.
    split; [done|]. by apply elem_of_elements.
Qed.

(** The domain-enumeration records are at other names. *)
Lemma apply_ptrs_elsewhere owner rrs targets : (forall rr, rr ∈ rrs -> Name (Hdr rr) <> owner) -> apply_ptrs owner targets rrs = targets.
Proof.
  revert targets. induction rrs as [|rr rrs IH]; intros targets H; [done|]. cbn [apply_ptrs foldl].
  unfold apply_ptr at 2. rewrite bool_decide_false by (apply H; by left). apply IH. intros r Hr. apply H. by right.
Qed.

Lemma domain_records_elsewhere h x any rr zone :
  rr ∈ concat (map (fun '(prefix, isPresent) =>
                   DiffSelfPointingDomainRecord prefix zone (default false (sw_domainEnumPresent x !! prefix))
                     isPresent (s_recordTTL h)) (wantedDomainEnum h any)) -> Name (Hdr rr) <> EnumerationOwnerName zone.
Proof.
  intros (l & ([prefix p] & <- & Hin)%in_map_iff & Hrr)%list_elem_of_In%in_concat. apply list_elem_of_In in Hin, Hrr.
  assert (Hn : Name (Hdr rr) = DomainEnumerationOwnerName prefix zone).
  { revert Hrr. unfold DiffSelfPointingDomainRecord. destruct (Bool.eqb _ _); [intros H; by apply not_elem_of_nil in H|].
    destruct p; intros ->%list_elem_of_singleton; done. }
  rewrite Hn. unfold wantedDomainEnum in Hin. set_unfold in Hin. destruct_or!; simplify_eq; done.
Qed.

(** What a reconciliation's records do to the enumeration: the differences between the types that
    did not survive and the live ones, followed by records at other names. *)
Lemma enumeration_targets h now x targets dom :
  let zone := s_upstreamZone h in
  let live := live_types now (w_store (sw x)) in
  let prev := filter (fun t => survives h live t = false) (elements (sw_serviceTypes x)) in
  let surv := filter (fun t => survives h live t = true) (elements (sw_serviceTypes x)) in
  let newState := live ∪ list_to_set (map Fold surv) in
  let targets' := apply_ptrs (EnumerationOwnerName zone) targets
    (DiffEnumerationRecords zone prev (collectLiveServiceTypes now (w_store (sw x))) (s_recordTTL h) ++ dom) in
  tracked_ok (sw_serviceTypes x) -> (forall t, t ∈ sw_serviceTypes x -> listed zone targets t) ->
  (forall rr, rr ∈ dom -> Name (Hdr rr) <> EnumerationOwnerName zone) ->
  (forall t, t ∈ live -> listed zone targets' t) /\
  (forall t, listed zone targets t -> listed zone targets' t \/
     (t ∈ sw_serviceTypes x /\ (t ∉ live) /\ up_QueryPTRExists zone (BrowsingOwnerName t zone) = Ok false)) /\
  (forall t, listed zone targets' t -> listed zone targets t \/ t ∈ live) /\
  tracked_ok newState /\ (forall t, t ∈ newState -> listed zone targets' t) /\
  (forall t, t ∈ newState <-> t ∈ live \/ (t ∈ sw_serviceTypes x /\ up_QueryPTRExists zone (BrowsingOwnerName t zone) <> Ok false)).
Proof.
  cbn zeta. intros Hok Hlist Hdom. set (live := live_types now (w_store (sw x))). set (cur := collectLiveServiceTypes now (w_store (sw x))).
  set (surv := filter (fun t => survives h live t = true) _). set (prev := filter (fun t => survives h live t = false) _).
  set (recs := DiffEnumerationRecords _ prev cur _ ++ dom). set (newState := live ∪ _).
  assert (Hprev : forall t, t ∈ dedupedSet prev <-> t ∈ sw_serviceTypes x /\ survives h live t = false)
    by (intros t; by apply dedupedSet_tracked).
  assert (Happ : forall t, listed (s_upstreamZone h) (apply_ptrs (EnumerationOwnerName (s_upstreamZone h)) targets recs) t <->
    (t ∈ live /\ t ∉ dedupedSet prev) \/ (listed (s_upstreamZone h) targets t /\ (t ∈ dedupedSet prev -> t ∈ live))).
  { intros t. unfold recs, apply_ptrs. rewrite foldl_app. fold (apply_ptrs (EnumerationOwnerName (s_upstreamZone h)) targets
      (DiffEnumerationRecords (s_upstreamZone h) prev cur (s_recordTTL h))).
    match goal with |- listed _ (foldl _ ?T _) _ <-> _ => change (foldl _ T dom) with (apply_ptrs (EnumerationOwnerName (s_upstreamZone h)) T dom) end.
    rewrite (apply_ptrs_elsewhere _ dom _ Hdom). unfold live. rewrite <- dedupedSet_live. by apply DiffEnumerationRecords_exact. }
  assert (Hsurv : forall t, t ∈ newState <-> t ∈ live \/ (t ∈ sw_serviceTypes x /\ survives h live t = true)).
  { intros t. unfold newState. rewrite elem_of_union, elem_of_list_to_set, list_elem_of_fmap. split.
    - intros [?|(u & -> & [Hs Hu%elem_of_elements]%list_elem_of_filter)]; [by left|right]. destruct (Hok u Hu) as [-> _]. done.
    - intros [?|[Ht Hs]]; [by left|right]. destruct (Hok t Ht) as [Hf _]. exists t. split; [done|]. apply list_elem_of_filter.
      split; [done|]. by apply elem_of_elements. }
  clearbody recs newState.
  split_and!.
  - intros t Ht. apply Happ. destruct (decide (t ∈ dedupedSet prev)) as [Hp|Hp]; [right|by left].
    split; [|done]. apply Hlist. by apply Hprev in Hp as [? _].
  - intros t Ht. rewrite Happ. destruct (decide (t ∈ dedupedSet prev)) as [Hp|Hp]; [|left; by right].
    destruct (decide (t ∈ live)) as [Hl|Hl]; [left; by right|right]. apply Hprev in Hp as [Htr Hs]. split_and!; [done..|].
    revert Hs. unfold survives. destruct (Hok t Htr) as [-> _]. rewrite bool_decide_false by done.
    destruct (up_QueryPTRExists _ _) as [[]|]; done.
  - intros t [[? _]|[? _]]%Happ; auto.
  - intros t [Ht|[Ht _]]%Hsurv; [by apply (live_types_ok now (w_store (sw x)))|by apply Hok].
  - intros t [Ht|[Ht Hs]]%Hsurv; apply Happ.
    + destruct (decide (t ∈ dedupedSet prev)) as [Hp|Hp]; [right|by left]. split; [|done]. apply Hlist. by apply Hprev in Hp as [? _].
    + right. split; [by apply Hlist|]. intros [_ Hp]%Hprev. congruence.
  - intros t. rewrite Hsurv. destruct (decide (t ∈ live)) as [Hl|Hl]; [tauto|].
    assert (Hs : t ∈ sw_serviceTypes x -> survives h live t = true <-> up_QueryPTRExists (s_upstreamZone h) (BrowsingOwnerName t (s_upstreamZone h)) <> Ok false).
    { intros Ht. unfold survives. destruct (Hok t Ht) as [-> _]. rewrite bool_decide_false by done.
      destruct (up_QueryPTRExists _ _) as [[]|]; split; congruence. }
    naive_solver.
Qed.

(** [C24] Reconciling the service enumeration is safe for a zone shared with others.  If the zone
    lists the types this process tracks, the records that are sent, unless there are none to send,
    are such that once they are applied every type with a live instance in the lease store is
    listed; a type that was listed stays listed unless this process tracked it, has no live
    instance of it, and the server was asked and answered that nobody has; and nothing else is
    added.  When the UPDATE is confirmed, or there is nothing to send, the types tracked from then
    on are the live ones and those of the tracked ones that the server did not deny, and the zone
    lists them all.  When it is not, they stay as they were.  The lease store is never touched. *)
Theorem enumeration_reconciled (h : SRPHandler) (now : Z) (x : SRPWorld) (targets : gset string) :
  let zone := s_upstreamZone h in
  let live := live_types now (w_store (sw x)) in
  is_Some (s_upstreamKey h) -> tracked_ok (sw_serviceTypes x) -> (forall t, t ∈ sw_serviceTypes x -> listed zone targets t) ->
  exists x' recs, reconcileServiceEnumeration h now x = Some x' /\
  w_store (sw x') = w_store (sw x) /\ w_timers (sw x') = w_timers (sw x) /\
  (let targets' := apply_ptrs (EnumerationOwnerName zone) targets recs in
   (forall t, t ∈ live -> listed zone targets' t) /\
   (forall t, listed zone targets t -> listed zone targets' t \/
      (t ∈ sw_serviceTypes x /\ (t ∉ live) /\ up_QueryPTRExists zone (BrowsingOwnerName t zone) = Ok false)) /\
   (forall t, listed zone targets' t -> listed zone targets t \/ t ∈ live) /\
   if bool_decide (recs = []) || bool_decide (o_err (send_update (s_upstream h) [] recs) = None) then
     (exists z, w_sent (sw x') = w_sent (sw x) ++ if bool_decide (recs = []) then [] else [mkSent z [] recs true]) /\
     tracked_ok (sw_serviceTypes x') /\ (forall t, t ∈ sw_serviceTypes x' -> listed zone targets' t) /\
     (forall t, t ∈ sw_serviceTypes x' <-> t ∈ live \/ (t ∈ sw_serviceTypes x /\ up_QueryPTRExists zone (BrowsingOwnerName t zone) <> Ok false))
   else
     sw_serviceTypes x' = sw_serviceTypes x /\ sw_domainEnumPresent x' = sw_domainEnumPresent x /\
     w_sent (sw x') = w_sent (sw x) ++ o_sent (send_update (s_upstream h) [] recs) /\
     Forall (fun s => sent_ok s = false) (o_sent (send_update (s_upstream h) [] recs))).
Proof.
  cbn zeta. intros Hkey Hok Hlist. destruct (reconcile_total h now x Hkey) as [x' Hx]. exists x'.
  destruct (reconcile_frame h now x x' Hx) as (Hst & Hti & _). revert Hx.
  unfold reconcileServiceEnumeration. cbn zeta. fold (live_types now (w_store (sw x))). set (dom := concat _).
  pose proof (enumeration_targets h now x targets dom Hok Hlist ltac:(intros rr Hrr; by eapply domain_records_elsewhere)) as Hgood.
  cbn zeta in Hgood. destruct Hgood as (G1 & G2 & G3 & G4 & G5 & G6). set (recs := DiffEnumerationRecords _ _ _ _ ++ dom) in *. intros Hx.
  exists recs. split; [exact Hx|]. split_and!; [done..|]. destruct (length recs =? 0)%nat eqn:Hlen.
  { apply Nat.eqb_eq in Hlen. rewrite (bool_decide_true (recs = [])) by (by destruct recs). cbn [orb]. injection Hx as <-. cbn.
    split; [exists ""; by rewrite app_nil_r|]. done. }
  rewrite (bool_decide_false (recs = [])) by (by intros ->). cbn [orb]. rewrite send_ready in Hx by done. cbn [mbind option_bind] in Hx.
  destruct (o_err (send_update (s_upstream h) [] recs)) as [e|] eqn:He; injection Hx as <-.
  - rewrite bool_decide_false by done. split_and!; [done..|]. apply Forall_forall. by eapply send_err.
  - rewrite bool_decide_true by done. split; [|done]. destruct (send_ok _ _ _ He) as [z E]. exists z. cbn. by rewrite E.
Qed.
End srp.

(** ** The TTLs *)

(** The types an SRP update is made of. *)
Definition srp_type (rr : RR) : bool :=
  match RD rr with
  | RD_ANY | RD_KEY _ | RD_A _ | RD_AAAA _ | RD_SRV _ _ _ _ | RD_TXT _ | RD_PTR _ => true
  | _ => false
  end.

Lemma classify_rr_type st p st' : classify_rr st p = Ok st' -> srp_type p.2 = true.
Proof. destruct p as [i rr]. unfold classify_rr, srp_type. cbn [snd]. by destruct (RD rr). Qed.

Lemma foldM_each {A B} (f : A -> B -> result A) l a a' x : foldM f a l = Ok a' -> x ∈ l -> exists b b', f b x = Ok b'.
Proof.
  revert a. induction l as [|y l IH]; intros a; [intros _ H; by apply not_elem_of_nil in H|]. cbn [foldM].
  intros (b & Hb & H)%bind_ok [->|Hx]%elem_of_cons; eauto.
Qed.

Lemma Classify_types msg cu i rr : Classify msg = Ok cu -> Ns msg !! i = Some rr -> srp_type rr = true.
Proof.
  unfold Classify, scan. intros (st & (dels & _ & H)%bind_ok & _)%bind_ok Hi.
  destruct (foldM_each _ _ _ _ (i, rr) H) as (b & b' & E); [|by apply classify_rr_type in E].
  apply list_elem_of_lookup. exists i. by rewrite list_lookup_imap, Hi.
Qed.

(** Every add of an update is forwarded and stored with the registrar's TTL: the configured
    TTL on the PTRs, cut to the granted KEY-LEASE on the KEYs and to the granted LEASE on the
    other records; names, classes and data stay as they were, as do the deletes; so any two adds
    of one RRset have one TTL, whatever the requester put there. *)
Theorem srp_record_ttls (msg : Msg) (cu : ClassifiedUpdate) (ttl lease keyLease : Z) :
  Classify msg = Ok cu ->
  let ns := applyRecordTTL cu ttl lease keyLease (Ns msg) in
  (forall i, ns !! i = (fun rr => if is_add rr then set_TTL (add_ttl ttl lease keyLease rr) rr else rr) <$> (Ns msg !! i)) /\
  (forall r1 r2, r1 ∈ ns -> r2 ∈ ns -> is_add r1 = true -> is_add r2 = true -> keyFor r1 = keyFor r2 -> TTL (Hdr r1) = TTL (Hdr r2)).
Proof.
  intros Hc. cbn zeta.
  assert (H1 : forall i, applyRecordTTL cu ttl lease keyLease (Ns msg) !! i =
    (fun rr => if is_add rr then set_TTL (add_ttl ttl lease keyLease rr) rr else rr) <$> (Ns msg !! i)).
  { intros i. destruct (Ns msg !! i) as [rr|] eqn:Hi; cbn.
    - by apply applyRecordTTL_lookup.
    - apply lookup_ge_None. rewrite applyRecordTTL_length. by apply lookup_ge_None. }
  split; [exact H1|].
  assert (Hel : forall r, r ∈ applyRecordTTL cu ttl lease keyLease (Ns msg) -> is_add r = true ->
    TTL (Hdr r) = add_ttl ttl lease keyLease r /\ srp_type r = true).
  { intros r [i Hi]%list_elem_of_lookup Ha. rewrite H1 in Hi. destruct (Ns msg !! i) as [rr|] eqn:Hr; [|done]. cbn in Hi.
    injection Hi as <-. apply (Classify_types _ _ _ _ Hc) in Hr. destruct (is_add rr) eqn:E; [|congruence]. by destruct rr. }
  intros r1 r2 Hr1 Hr2 Ha1 Ha2 Hk. destruct (Hel r1 Hr1 Ha1) as [-> T1]. destruct (Hel r2 Hr2 Ha2) as [-> T2].
  unfold keyFor in Hk. injection Hk as _ _ Ht. unfold add_ttl, srp_type, RRToType in *.
  destruct (RD r1); try done; destruct (RD r2); done.
Qed.

(** ** Evaluation *)

Module SrpRun.
Definition upstream : UpstreamCoordinator := {|
  up_ResolveAuthoritativeZone zone := Ok zone;
  up_SendUpdate zone m := Ok (Some (DemoUp.noerror m));
  up_QueryRRs zone name t := Ok [];
  up_QueryKeyAtName zone name := Ok (AuthNXDomain, []);
  up_QueryPTRExists zone name := Ok false |}.

Definition handler : SRPHandler :=
  mkSRPHandler "example.com." (Some (mkKEY (mkHeader "example.com." 1 0) (mkKeyData 512 3 15 "proxy"))) false true true
    (mkLeasePolicy 0 0 0 0) 300 false.

Definition sig : RR := mkRR (mkHeader "." 255 0) (RD_SIG (mkSigData 13 0 0 200 100 1 SrpDemo.printhost "c2ln")).

(** The printer's request, signed. *)
Definition request : Msg :=
  mkMsg (MsgHdr SrpDemo.msg) (Question SrpDemo.msg) [] SrpDemo.ns [] (Pseudo SrpDemo.msg ++ [sig]) [].

Definition fresh : SRPWorld := mkSRPWorld (mkWorld NewInMemoryManager newExpiryTimers []) ∅ ∅.

Definition run (r : Msg) (x : SRPWorld) : option (SRPWorld * HandlerResult) :=
  SRP_Handle (L := Demo.lib) (SG := DemoUp.sig0) (U := upstream) handler false true 5 6 r x.

Definition after (r : Msg) (x : SRPWorld) : SRPWorld * HandlerResult := default (x, NewNotRelevantResult "") (run r x).

Lemma request_wf : Forall (fun rr => rr_wf rr = true) (Ns request).
Proof. repeat constructor. Qed.
End SrpRun.

Lemma srp_confirmed_before_applied_witness :
  exists x' res, SrpRun.run SrpRun.request SrpRun.fresh = Some (x', res) /\ WF (L := Demo.lib) (w_store (sw x')).
Proof.
  destruct (srp_confirmed_before_applied (LL := Demo.laws) (SG := DemoUp.sig0) (U := SrpRun.upstream)
              SrpRun.handler false true 5 6 SrpRun.request SrpRun.fresh WF_new SrpRun.request_wf eq_refl ltac:(by eexists))
    as (x' & res & H & W & _).
  exists x', res. split; [exact H|exact W].
Defined.

Lemma srp_unauthenticated_changes_nothing_witness :
  Status (SrpRun.after SrpRun.request SrpRun.fresh).2 = StatusProcessed /\
  exists r' cu, srp_authenticated (SG := DemoUp.sig0) SrpRun.handler false SrpRun.request r' cu.
Proof.
  split; [vm_compute; reflexivity|].
  destruct (srp_unauthenticated_changes_nothing (L := Demo.lib) (SG := DemoUp.sig0) (U := SrpRun.upstream)
              SrpRun.handler false true 5 6 SrpRun.request SrpRun.fresh (SrpRun.after SrpRun.request SrpRun.fresh).1
              (SrpRun.after SrpRun.request SrpRun.fresh).2 ltac:(vm_compute; reflexivity)) as [[(_ & _ & _ & _ & H & _) _]|(_ & r' & cu & _ & H)].
  - vm_compute in H. by destruct H.
  - exists r', cu. exact H.
Defined.

Lemma srp_first_come_first_served_witness :
  exists zone prereqs recs extra, w_sent (sw (SrpRun.after SrpRun.request SrpRun.fresh).1) = mkSent zone prereqs recs true :: extra.
Proof.
  destruct (srp_first_come_first_served (LL := Demo.laws) (SG := DemoUp.sig0) (U := SrpRun.upstream)
              SrpRun.handler false true 5 6 SrpRun.request SrpRun.fresh (SrpRun.after SrpRun.request SrpRun.fresh).1
              (SrpRun.after SrpRun.request SrpRun.fresh).2 (Fold SrpDemo.printhost) ltac:(vm_compute; reflexivity) ltac:(vm_compute; reflexivity))
    as (r' & cu & hk & zone & prereqs & recs & extra & _ & _ & H & _).
  exists zone, prereqs, recs, extra. exact H.
Defined.

Lemma srp_update_state_witness :
  WF (L := Demo.lib) (w_store (sw (SrpRun.after SrpRun.request SrpRun.fresh).1)) /\
  size (leases (w_store (sw (SrpRun.after SrpRun.request SrpRun.fresh).1))) = 3%nat.
Proof.
  split; [|vm_compute; reflexivity].
  destruct (srp_update_state (LL := Demo.laws) (SG := DemoUp.sig0) (U := SrpRun.upstream)
              SrpRun.handler false true 5 6 SrpRun.request SrpRun.fresh (SrpRun.after SrpRun.request SrpRun.fresh).1
              (SrpRun.after SrpRun.request SrpRun.fresh).2 ltac:(vm_compute; reflexivity) ltac:(vm_compute; reflexivity) WF_new
              SrpRun.request_wf eq_refl) as (r' & cu & lease & keyLease & touched & err & _ & _ & _ & _ & _ & _ & _ & H).
  exact (ls_WF _ _ _ _ _ _ _ _ _ H).
Defined.

(** The store of the printer's registration, with nothing tracked yet. *)
Definition ex_srp_world : SRPWorld := mkSRPWorld (sw (SrpRun.after SrpRun.request SrpRun.fresh).1) ∅ ∅.

Definition ex_reconciled : option SRPWorld :=
  reconcileServiceEnumeration (L := Demo.lib) (SG := DemoUp.sig0) (U := SrpRun.upstream) SrpRun.handler 7 ex_srp_world.

Lemma enumeration_reconciled_witness :
  exists x', ex_reconciled = Some x' /\ sw_serviceTypes x' = {["_ipp._tcp"]} /\ w_store (sw x') = w_store (sw ex_srp_world).
Proof.
  destruct (enumeration_reconciled (L := Demo.lib) (SG := DemoUp.sig0) (U := SrpRun.upstream) SrpRun.handler 7 ex_srp_world ∅
              ltac:(vm_compute; eauto) ltac:(intros t H; by apply not_elem_of_empty in H) ltac:(intros t H; by apply not_elem_of_empty in H))
    as (x' & recs & Hx & Hs & _).
  exists x'. split; [exact Hx|]. split; [|exact Hs]. vm_compute in Hx. injection Hx as <-. vm_compute. reflexivity.
Defined.

Lemma srp_record_ttls_witness :
  applyRecordTTL SrpDemo.cu 300 60 90 SrpDemo.ns !! 2%nat = Some (KEY_RR (key_set_TTL 90 (SrpDemo.key SrpDemo.printhost))).
Proof.
  exact (proj1 (srp_record_ttls SrpDemo.msg SrpDemo.cu 300 60 90 ltac:(vm_compute; reflexivity)) 2%nat).
Defined.

(** ** An instance with a TXT record only *)

(** A signed update of the printer's host and of an instance with a TXT and no SRV, which
    classification lets through as if it were a removal. *)
Definition txt_only_request : Msg :=
  mkMsg (MsgHdr SrpDemo.msg) (Question SrpDemo.msg) []
    [SrpDemo.rr SrpDemo.printhost ClassANY 0 RD_ANY; SrpDemo.rr SrpDemo.printhost ClassINET 120 (RD_A 3221226219);
     KEY_RR (SrpDemo.key SrpDemo.printhost);
     SrpDemo.rr SrpDemo.office ClassANY 0 RD_ANY; SrpDemo.rr SrpDemo.office ClassINET 120 (RD_TXT ["txtvers=1"])]
    [] (Pseudo SrpRun.request) [].

(** The TXT of an instance without an SRV is published and never leased: the update is
    accepted, the confirmed UPDATE adds the TXT, and no record of the lease store is a TXT, so
    no expiry will ever delete it. *)
Theorem txt_only_published_unleased :
  let x' := (SrpRun.after txt_only_request SrpRun.fresh).1 in
  Status (SrpRun.after txt_only_request SrpRun.fresh).2 = StatusProcessed /\
  existsb (fun s => sent_ok s && existsb (fun rr => bool_decide (RRToType rr = TypeTXT)) (sent_records s)) (w_sent (sw x')) = true /\
  forallb (fun kv => negb (bool_decide (RRToType (n_RR kv.2) = TypeTXT))) (map_to_list (nonKeyRecords (w_store (sw x')))) = true.
Proof. vm_compute. split_and!; reflexivity. Qed.

(** The 4-byte Update Lease passes validation and is only then found to lack a KEY-LEASE, so a
    request of a client is answered SERVFAIL as an internal error. *)
Definition four_byte_request : Msg :=
  mkMsg (MsgHdr SrpDemo.msg) (Question SrpDemo.msg) [] SrpDemo.ns [] [SrpDemo.lease "00000e10"; SrpRun.sig] [].

Theorem four_byte_lease_servfail :
  srp_Validate four_byte_request = Ok SrpDemo.cu /\
  (fun m => Rcode (MsgHdr m)) <$> Message (SrpRun.after four_byte_request SrpRun.fresh).2 = Some RcodeServerFailure.
Proof. split; vm_compute; reflexivity. Qed.
