(* ===== verification/GoQuote.v ===== *)
(** * Go string quoting

    What pkg/lease uses of the standard library to carry a node key, which is any bytes,
    through a JSON string, which is UTF-8: [utf8.DecodeRuneInString], [utf8.AppendRune],
    [strconv.Quote], [strconv.UnquoteChar] and [strconv.Unquote] of a double-quoted string,
    and [quoteNodeKey] and [unquoteNodeKey] of state.go over them.  The table of printable
    runes is a parameter that agrees with ASCII below 128; the round trip holds for any. *)

From Stdlib Require Import Ascii String ZArith Lia.
From S2P Require Import Prelude.

Local Open Scope Z_scope.

(** ** Bytes *)

Definition byte_of (c : ascii) : Z := Z.of_N (N_of_ascii c).
Definition chr (z : Z) : ascii := ascii_of_N (Z.to_N z).

Lemma byte_range c : 0 <= byte_of c < 256.
Proof. unfold byte_of. pose proof (N_ascii_bounded c). lia. Qed.

Lemma chr_byte c : chr (byte_of c) = c.
Proof. unfold chr, byte_of. by rewrite N2Z.id, ascii_N_embedding. Qed.

Lemma byte_chr z : 0 <= z < 256 -> byte_of (chr z) = z.
Proof. intros H. unfold chr, byte_of. rewrite N_ascii_embedding by lia. lia. Qed.

(** ** UTF-8 *)

Definition RuneError : Z := 65533.
Definition in_range (lo hi : Z) (c : ascii) : bool := (lo <=? byte_of c) && (byte_of c <=? hi).
Definition is_cont (c : ascii) : bool := in_range 128 191 c.
Definition low6 (c : ascii) : Z := byte_of c - 128.

(** [utf8.DecodeRuneInString]: the rune and its width, [RuneError] of width 1 on a bad byte. *)
Definition DecodeRuneInString (s : string) : Z * nat :=
  match s with
  | EmptyString => (RuneError, 0%nat)
  | String c0 rest =>
      let b0 := byte_of c0 in
      if b0 <? 128 then (b0, 1%nat)
      else if in_range 194 223 c0 then
        match rest with
        | String c1 _ => if is_cont c1 then ((b0 - 192) * 64 + low6 c1, 2%nat) else (RuneError, 1%nat)
        | _ => (RuneError, 1%nat)
        end
      else if in_range 224 239 c0 then
        match rest with
        | String c1 (String c2 _) =>
            if in_range (if b0 =? 224 then 160 else 128) (if b0 =? 237 then 159 else 191) c1 && is_cont c2
            then ((b0 - 224) * 4096 + low6 c1 * 64 + low6 c2, 3%nat) else (RuneError, 1%nat)
        | _ => (RuneError, 1%nat)
        end
      else if in_range 240 244 c0 then
        match rest with
        | String c1 (String c2 (String c3 _)) =>
            if in_range (if b0 =? 240 then 144 else 128) (if b0 =? 244 then 143 else 191) c1 && is_cont c2 && is_cont c3
            then ((b0 - 240) * 262144 + low6 c1 * 4096 + low6 c2 * 64 + low6 c3, 4%nat) else (RuneError, 1%nat)
        | _ => (RuneError, 1%nat)
        end
      else (RuneError, 1%nat)
  end.

Definition ValidRune (r : Z) : bool :=
  ((0 <=? r) && (r <? 55296)) || ((57343 <? r) && (r <=? 1114111)).

Definition AppendRune (r : Z) : string :=
  let r := if ValidRune r then r else RuneError in
  if r <? 128 then String (chr r) ""
  else if r <? 2048 then String (chr (192 + r / 64)) (String (chr (128 + r mod 64)) "")
  else if r <? 65536
  then String (chr (224 + r / 4096)) (String (chr (128 + r / 64 mod 64)) (String (chr (128 + r mod 64)) ""))
  else String (chr (240 + r / 262144)) (String (chr (128 + r / 4096 mod 64))
         (String (chr (128 + r / 64 mod 64)) (String (chr (128 + r mod 64)) ""))).

(** A bad byte at the head of [s]. *)
Definition bad_head (s : string) : bool :=
  let '(r, w) := DecodeRuneInString s in (r =? RuneError) && (w =? 1)%nat.

(** [utf8.ValidString]; the counter skips the bytes of a rune already decoded. *)
Fixpoint valid_from (skip : nat) (s : string) : bool :=
  match s with
  | EmptyString => true
  | String _ s' =>
      match skip with
      | S n => valid_from n s'
      | O => negb (bad_head s) && valid_from (pred (DecodeRuneInString s).2) s'
      end
  end.

Definition ValidString (s : string) : bool := valid_from 0 s.

(** ** Quoting *)

Class Unicode := { IsPrint : Z -> bool }.

(** Below 128 the printable runes are space to tilde (strconv.IsPrint). *)
Class UnicodeLaws (T : Unicode) : Prop := {
  IsPrint_ascii : forall r, 0 <= r < 128 -> IsPrint r = (32 <=? r) && (r <=? 126) }.

Definition quote_char : ascii := "034".
Definition backslash : ascii := "092".

Definition lowerhex (d : Z) : ascii := if d <? 10 then chr (48 + d) else chr (87 + d).

(** [n] hex digits of [v], most significant first. *)
Fixpoint hex_digits (n : nat) (v : Z) : string :=
  match n with
  | O => ""
  | S n => String (lowerhex (v / 16 ^ Z.of_nat n mod 16)) (hex_digits n v)
  end.

(** The one-letter escapes. *)
Definition letter_escape (r : Z) : option ascii :=
  if r =? 7 then Some "a"%char else if r =? 8 then Some "b"%char else if r =? 12 then Some "f"%char
  else if r =? 10 then Some "n"%char else if r =? 13 then Some "r"%char else if r =? 9 then Some "t"%char
  else if r =? 11 then Some "v"%char else None.

Section quote.
Context {T : Unicode}.

Definition appendEscapedRune (r : Z) : string :=
  if (r =? byte_of quote_char) || (r =? byte_of backslash) then String backslash (String (chr r) "")
  else if IsPrint r then AppendRune r
  else match letter_escape r with
  | Some c => String backslash (String c "")
  | None =>
      if (r <? 32) || (r =? 127) then String backslash (String "x" (hex_digits 2 r))
      else
        let r := if ValidRune r then r else RuneError in
        if r <? 65536 then String backslash (String "u" (hex_digits 4 r))
        else String backslash (String "U" (hex_digits 8 r))
  end.

(** What [appendQuotedWith] writes for the rune at the head of [s]. *)
Definition quote_head (s : string) : string :=
  match s with
  | EmptyString => ""
  | String c _ =>
      if bad_head s then String backslash (String "x" (hex_digits 2 (byte_of c)))
      else appendEscapedRune (DecodeRuneInString s).1
  end.

Fixpoint quote_from (skip : nat) (s : string) : string :=
  match s with
  | EmptyString => ""
  | String _ s' =>
      match skip with
      | S n => quote_from n s'
      | O => quote_head s +:+ quote_from (pred (DecodeRuneInString s).2) s'
      end
  end.

(** [strconv.Quote]. *)
Definition Quote (s : string) : string := String quote_char (quote_from 0 s +:+ String quote_char "").
End quote.

(** ** Unquoting *)

Definition unhex (c : ascii) : option Z :=
  if in_range 48 57 c then Some (byte_of c - 48)
  else if in_range 97 102 c then Some (byte_of c - 87)
  else if in_range 65 70 c then Some (byte_of c - 55)
  else None.

(** [n] hex digits at the head of [s], and the rest. *)
Fixpoint unhex_n (n : nat) (v : Z) (s : string) : option (Z * string) :=
  match n with
  | O => Some (v, s)
  | S n =>
      match s with
      | EmptyString => None
      | String c s => x ← unhex c; unhex_n n (v * 16 + x) s
      end
  end.

Definition unletter (c : ascii) : option Z :=
  if bool_decide (c = "a"%char) then Some 7 else if bool_decide (c = "b"%char) then Some 8
  else if bool_decide (c = "f"%char) then Some 12 else if bool_decide (c = "n"%char) then Some 10
  else if bool_decide (c = "r"%char) then Some 13 else if bool_decide (c = "t"%char) then Some 9
  else if bool_decide (c = "v"%char) then Some 11 else None.

(** [strconv.UnquoteChar] with the double quote: the value, whether it is multibyte, the rest. *)
Definition UnquoteChar (s : string) : option (Z * bool * string) :=
  match s with
  | EmptyString => None
  | String c rest =>
      if bool_decide (c = quote_char) then None
      else if 128 <=? byte_of c then
        let '(r, size) := DecodeRuneInString s in Some (r, true, string_drop size s)
      else if negb (bool_decide (c = backslash)) then Some (byte_of c, false, rest)
      else
        match rest with
        | EmptyString => None
        | String c s =>
            match unletter c with
            | Some v => Some (v, false, s)
            | None =>
                if bool_decide (c = "x"%char) then '(v, s) ← unhex_n 2 0 s; Some (v, false, s)
                else if bool_decide (c = "u"%char) then
                  '(v, s) ← unhex_n 4 0 s; if ValidRune v then Some (v, true, s) else None
                else if bool_decide (c = "U"%char) then
                  '(v, s) ← unhex_n 8 0 s; if ValidRune v then Some (v, true, s) else None
                else if in_range 48 55 c then
                  match s with
                  | String c1 (String c2 s) =>
                      if in_range 48 55 c1 && in_range 48 55 c2 then
                        let v := (byte_of c - 48) * 64 + (byte_of c1 - 48) * 8 + (byte_of c2 - 48) in
                        if 255 <? v then None else Some (v, false, s)
                      else None
                  | _ => None
                  end
                else if bool_decide (c = backslash) || bool_decide (c = quote_char) then Some (byte_of c, false, s)
                else None
            end
        end
  end.

(** The loop of [unquote] after the opening quote, up to the closing one; the fuel is the
    number of bytes.  (The source's shortcut for text without escapes gives the same.) *)
Fixpoint unquote_loop (fuel : nat) (s : string) : option (string * string) :=
  match fuel with
  | O => None
  | S fuel =>
      match s with
      | EmptyString => None
      | String c rest =>
          if bool_decide (c = quote_char) then Some ("", rest)
          else if byte_of c =? 10 then None
          else
            '(r, multibyte, rem) ← UnquoteChar s;
            '(out, tail) ← unquote_loop fuel rem;
            Some ((if (r <? 128) || negb multibyte then String (chr r) "" else AppendRune r) +:+ out, tail)
      end
  end.

(** [strconv.Unquote] of a string that starts with a double quote. *)
Definition Unquote (s : string) : result string :=
  match s with
  | String c s' =>
      if bool_decide (c = quote_char) then
        match unquote_loop (String.length s') s' with
        | Some (out, EmptyString) => Ok out
        | _ => Err "invalid syntax"
        end
      else Err "invalid syntax"
  | EmptyString => Err "invalid syntax"
  end.

(** ** pkg/lease/state.go *)

Section node_key.
Context {T : Unicode}.

(** [q[1 : len(q)-1]]. *)
Definition quoteNodeKey (key : string) : string :=
  let q := Quote key in string_take (String.length q - 2) (string_drop 1 q).

Definition unquoteNodeKey (s : string) : result string :=
  Unquote (String quote_char "" +:+ s +:+ String quote_char "").
End node_key.

(** ** What decoding finds *)

(** [p] is the encoding of [r], and is decoded as such whatever follows it. *)
Record encodes (p : string) (r : Z) : Prop := {
  enc_valid : ValidRune r = true;
  enc_append : AppendRune r = p;
  enc_decode : forall t, DecodeRuneInString (p +:+ t) = (r, String.length p);
  enc_head : exists c p', p = String c p' /\ (byte_of c < 128 <-> r < 128) }.

Ltac byte_facts :=
  repeat match goal with
  | c : ascii |- _ => lazymatch goal with
                      | _ : 0 <= byte_of c < 256 |- _ => fail
                      | _ => pose proof (byte_range c)
                      end
  end.

Ltac utf8_hyps :=
  unfold is_cont, in_range, low6 in *;
  repeat match goal with
  | H : _ && _ = true |- _ => apply andb_true_iff in H as [? ?]
  | H : (_ <=? _) = true |- _ => apply Z.leb_le in H
  | H : (_ <? _) = true |- _ => apply Z.ltb_lt in H
  | H : (_ <? _) = false |- _ => apply Z.ltb_ge in H
  | H : (_ =? _) = true |- _ => apply Z.eqb_eq in H
  | H : (_ =? _) = false |- _ => apply Z.eqb_neq in H
  end.

Lemma chr_eq z c : z = byte_of c -> chr z = c.
Proof. intros ->. apply chr_byte. Qed.

Lemma ValidRune_spec r : ValidRune r = true <-> 0 <= r < 55296 \/ 57343 < r <= 1114111.
Proof. unfold ValidRune. rewrite orb_true_iff, !andb_true_iff, !Z.leb_le, !Z.ltb_lt. lia. Qed.

(** The arithmetic of one encoding: the ranges decide the case and give the bytes back. *)
Ltac append_bytes :=
  match goal with |- AppendRune ?r = _ =>
    unfold AppendRune;
    replace (ValidRune r) with true by (symmetry; apply ValidRune_spec; lia);
    cbv zeta;
    repeat match goal with |- context[r <? ?b] => destruct (Z.ltb_spec r b); try (exfalso; lia) end;
    repeat f_equal; apply chr_eq; Z.to_euclidean_division_equations; lia
  end.

(** Decoding the bytes just matched, whatever follows. *)
Ltac decode_again :=
  intros t; sapp; unfold DecodeRuneInString; cbv zeta; unfold is_cont, in_range in *;
  repeat match goal with H : ?b = _ |- context[if ?b then _ else _] => rewrite H end; reflexivity.

Lemma encodes_1 c : (byte_of c <? 128) = true -> encodes (String c "") (byte_of c).
Proof.
  intros H. byte_facts. split; [| |decode_again|].
  - utf8_hyps. apply ValidRune_spec. lia.
  - utf8_hyps. append_bytes.
  - exists c, "". utf8_hyps. split; [done|lia].
Qed.

Lemma encodes_2 c0 c1 :
  (byte_of c0 <? 128) = false -> in_range 194 223 c0 = true -> is_cont c1 = true ->
  encodes (String c0 (String c1 "")) ((byte_of c0 - 192) * 64 + low6 c1).
Proof.
  intros H H0 H1. byte_facts. split; [| |decode_again|].
  - utf8_hyps. apply ValidRune_spec. lia.
  - utf8_hyps. append_bytes.
  - eexists _, _. utf8_hyps. split; [done|lia].
Qed.

Lemma encodes_3 c0 c1 c2 :
  (byte_of c0 <? 128) = false -> in_range 194 223 c0 = false -> in_range 224 239 c0 = true ->
  in_range (if byte_of c0 =? 224 then 160 else 128) (if byte_of c0 =? 237 then 159 else 191) c1 && is_cont c2 = true ->
  encodes (String c0 (String c1 (String c2 ""))) ((byte_of c0 - 224) * 4096 + low6 c1 * 64 + low6 c2).
Proof.
  intros H Hn H0 H1. byte_facts. split; [| |decode_again|].
  all: clear Hn; destruct (byte_of c0 =? 224) eqn:E1; destruct (byte_of c0 =? 237) eqn:E2; utf8_hyps.
  all: first [apply ValidRune_spec; lia | append_bytes | eexists _, _; split; [done|lia]].
Qed.

Lemma encodes_4 c0 c1 c2 c3 :
  (byte_of c0 <? 128) = false -> in_range 194 223 c0 = false -> in_range 224 239 c0 = false -> in_range 240 244 c0 = true ->
  in_range (if byte_of c0 =? 240 then 144 else 128) (if byte_of c0 =? 244 then 143 else 191) c1 && is_cont c2 && is_cont c3
  = true ->
  encodes (String c0 (String c1 (String c2 (String c3 ""))))
    ((byte_of c0 - 240) * 262144 + low6 c1 * 4096 + low6 c2 * 64 + low6 c3).
Proof.
  intros H Hn Hn' H0 H1. byte_facts. split; [| |decode_again|].
  all: clear Hn Hn'; destruct (byte_of c0 =? 240) eqn:E1; destruct (byte_of c0 =? 244) eqn:E2; utf8_hyps.
  all: first [apply ValidRune_spec; lia | append_bytes | eexists _, _; split; [done|lia]].
Qed.

Lemma decode_spec s :
  s <> "" ->
  (bad_head s = true /\ (DecodeRuneInString s).2 = 1%nat) \/
  (bad_head s = false /\
   exists p t, s = p +:+ t /\ encodes p (DecodeRuneInString s).1 /\ (DecodeRuneInString s).2 = String.length p).
Proof.
  intros Hs. unfold bad_head. destruct (DecodeRuneInString s) as [r w] eqn:E. cbn [fst snd].
  destruct s as [|c0 s]; [done|]. unfold DecodeRuneInString in E. cbv zeta in E.
  destruct (byte_of c0 <? 128) eqn:H0.
  { simplify_eq. right. split.
    - apply andb_false_iff. left. utf8_hyps. apply Z.eqb_neq. unfold RuneError. lia.
    - exists (String c0 ""), s. by eauto using encodes_1. }
  destruct (in_range 194 223 c0) eqn:H1.
  { destruct s as [|c1 s]; [by simplify_eq; left|]. destruct (is_cont c1) eqn:C1; simplify_eq; [right|by left].
    split; [apply andb_false_r|]. exists (String c0 (String c1 "")), s. by eauto using encodes_2. }
  destruct (in_range 224 239 c0) eqn:H2.
  { destruct s as [|c1 [|c2 s]]; try (by simplify_eq; left).
    destruct (_ && is_cont c2) eqn:C1 in E; simplify_eq; [right|by left].
    split; [apply andb_false_r|]. exists (String c0 (String c1 (String c2 ""))), s. by eauto using encodes_3. }
  destruct (in_range 240 244 c0) eqn:H3; [|by simplify_eq; left].
  destruct s as [|c1 [|c2 [|c3 s]]]; try (by simplify_eq; left).
  destruct (_ && is_cont c3) eqn:C1 in E; simplify_eq; [right|by left].
  split; [apply andb_false_r|]. exists (String c0 (String c1 (String c2 (String c3 "")))), s. by eauto using encodes_4.
Qed.

(** ** Hex digits *)

Lemma unhex_lowerhex d : 0 <= d < 16 -> unhex (lowerhex d) = Some d.
Proof.
  intros H. assert (Hd : In d [0;1;2;3;4;5;6;7;8;9;10;11;12;13;14;15]) by (simpl; lia).
  simpl in Hd. repeat (destruct Hd as [<-|Hd]; [reflexivity|]). done.
Qed.

Lemma unhex_n_digits n v acc t :
  unhex_n n acc (hex_digits n v +:+ t) = Some (acc * 16 ^ Z.of_nat n + v mod 16 ^ Z.of_nat n, t).
Proof.
  revert acc. induction n as [|n IH]; intros acc.
  - cbn [hex_digits unhex_n]. rewrite string_app_nil_l. change (16 ^ Z.of_nat 0) with 1.
    rewrite Z.mod_1_r. do 2 f_equal. lia.
  - cbn [hex_digits unhex_n]. rewrite string_app_cons.
    rewrite unhex_lowerhex by (apply Z.mod_pos_bound; done). cbn [mbind option_bind].
    rewrite IH. do 2 f_equal. rewrite Nat2Z.inj_succ, Z.pow_succ_r by lia.
    rewrite (Z.mul_comm 16), Z.rem_mul_r by lia. lia.
Qed.

Lemma unhex_n_small n v t : 0 <= v < 16 ^ Z.of_nat n -> unhex_n n 0 (hex_digits n v +:+ t) = Some (v, t).
Proof. intros H. rewrite unhex_n_digits, Z.mod_small by done. done. Qed.

(** ** One rune *)

Section roundtrip.
Context {T : Unicode} {TL : UnicodeLaws T}.

Lemma encodes_small p r : encodes p r -> r < 128 -> p = String (chr r) "" /\ 0 <= r.
Proof.
  intros [Hv Ha _ _] Hr. apply ValidRune_spec in Hv as Hv'. split; [|lia].
  rewrite <- Ha. unfold AppendRune. rewrite Hv. cbv zeta. by rewrite (proj2 (Z.ltb_lt r 128)).
Qed.

(** What one rune's escape reads back as. *)
Definition reads_back (h p : string) : Prop :=
  h <> "" /\
  forall fuel rest, unquote_loop (S fuel) (h +:+ rest) = '(out, tail) ← unquote_loop fuel rest; Some (p +:+ out, tail).

Lemma reads_x v rest : 0 <= v < 256 ->
  UnquoteChar (String backslash (String "x" (hex_digits 2 v +:+ rest))) = Some (v, false, rest).
Proof. intros H. cbn -[unhex_n hex_digits]. rewrite unhex_n_small by done. reflexivity. Qed.

Lemma reads_u v rest : 0 <= v < 65536 -> ValidRune v = true ->
  UnquoteChar (String backslash (String "u" (hex_digits 4 v +:+ rest))) = Some (v, true, rest).
Proof. intros H Hv. cbn -[unhex_n hex_digits]. rewrite unhex_n_small by done. cbn. by rewrite Hv. Qed.

Lemma reads_U v rest : 0 <= v < 4294967296 -> ValidRune v = true ->
  UnquoteChar (String backslash (String "U" (hex_digits 8 v +:+ rest))) = Some (v, true, rest).
Proof. intros H Hv. cbn -[unhex_n hex_digits]. rewrite unhex_n_small by done. cbn. by rewrite Hv. Qed.

Lemma escape_reads_back c h' v (multi : bool) p :
  (forall rest, UnquoteChar (String backslash (String c (h' +:+ rest))) = Some (v, multi, rest)) ->
  (if (v <? 128) || negb multi then String (chr v) "" else AppendRune v) = p ->
  reads_back (String backslash (String c h')) p.
Proof.
  intros HU Hp. split; [done|]. intros fuel rest. rewrite !string_app_cons. cbn [unquote_loop].
  change (bool_decide (backslash = quote_char)) with false. change (byte_of backslash =? 10) with false.
  cbv iota. rewrite HU. cbn [mbind option_bind]. by rewrite Hp.
Qed.

Lemma letter_reads_back r c : letter_escape r = Some c -> reads_back (String backslash (String c "")) (String (chr r) "").
Proof.
  unfold letter_escape. intros H.
  repeat match type of H with (if ?b then _ else _) = _ => destruct b eqn:?; utf8_hyps; [subst r; injection H as <-|] end;
    try done; eapply (escape_reads_back _ "" _ false); intros; reflexivity.
Qed.

Lemma printed_reads_back p r :
  encodes p r -> IsPrint r = true -> r <> byte_of quote_char -> r <> byte_of backslash -> reads_back p p.
Proof.
  intros He Hp Hq Hb. destruct (enc_head _ _ He) as (c & p' & -> & Hc). split; [done|]. intros fuel rest.
  destruct (Z.lt_ge_cases r 128) as [Hr|Hr].
  - destruct (encodes_small _ _ He Hr) as [[= -> ->] Hr0]. rewrite IsPrint_ascii in Hp by lia. utf8_hyps.
    rewrite !string_app_cons, string_app_nil_l. cbn [unquote_loop UnquoteChar].
    rewrite (bool_decide_eq_false_2 (chr r = quote_char)) by (intros E; apply Hq; rewrite <- E; rewrite byte_chr; lia).
    rewrite byte_chr by lia. rewrite (proj2 (Z.eqb_neq r 10)) by lia. rewrite (proj2 (Z.leb_gt 128 r)) by lia.
    rewrite (bool_decide_eq_false_2 (chr r = backslash)) by (intros E; apply Hb; rewrite <- E; rewrite byte_chr; lia).
    cbn [negb mbind option_bind]. by rewrite orb_true_r.
  - pose proof (enc_decode _ _ He rest) as Hd. rewrite string_app_cons in *. cbn [unquote_loop].
    assert (Hc' : 128 <= byte_of c) by lia.
    rewrite (bool_decide_eq_false_2 (c = quote_char)) by (intros ->; done).
    rewrite (proj2 (Z.eqb_neq (byte_of c) 10)) by lia. unfold UnquoteChar.
    rewrite (bool_decide_eq_false_2 (c = quote_char)) by (intros ->; done).
    rewrite (proj2 (Z.leb_le 128 (byte_of c))) by lia. rewrite Hd.
    rewrite <- string_app_cons, string_drop_app. cbn [mbind option_bind].
    rewrite (proj2 (Z.ltb_ge r 128)) by lia. cbn [negb orb]. by rewrite (enc_append _ _ He).
Qed.

Lemma escaped_reads_back p r : encodes p r -> reads_back (appendEscapedRune r) p.
Proof.
  intros He. pose proof (enc_valid _ _ He) as Hv. apply ValidRune_spec in Hv as Hr. unfold appendEscapedRune.
  destruct (_ || _) eqn:Hq.
  { apply orb_true_iff in Hq. rewrite !Z.eqb_eq in Hq.
    assert (Hr' : r < 128) by (destruct Hq as [->| ->]; done).
    destruct (encodes_small _ _ He Hr') as [-> _].
    destruct Hq as [-> | ->]; eapply (escape_reads_back _ "" _ false); intros; reflexivity. }
  apply orb_false_iff in Hq as [Hq Hb]. utf8_hyps.
  destruct (IsPrint r) eqn:HP; [rewrite (enc_append _ _ He); by eapply printed_reads_back|].
  destruct (letter_escape r) as [c|] eqn:HL.
  { assert (Hr' : r < 128) by (unfold letter_escape in HL; repeat case_match; utf8_hyps; simplify_eq; lia).
    destruct (encodes_small _ _ He Hr') as [-> _]. by apply letter_reads_back. }
  destruct ((r <? 32) || (r =? 127)) eqn:Hx.
  { apply orb_true_iff in Hx. rewrite Z.ltb_lt, Z.eqb_eq in Hx.
    destruct (encodes_small _ _ He) as [-> _]; [lia|].
    eapply (escape_reads_back _ _ _ false); [intros; apply reads_x; lia|]. by rewrite orb_true_r. }
  apply orb_false_iff in Hx as [Hx Hx']. utf8_hyps.
  assert (Hr' : 128 <= r). { destruct (Z.lt_ge_cases r 128); [|done]. rewrite IsPrint_ascii in HP by lia.
    apply andb_false_iff in HP. rewrite !Z.leb_gt in HP. lia. }
  rewrite Hv. cbv zeta. destruct (r <? 65536) eqn:H4; utf8_hyps.
  - eapply (escape_reads_back _ _ _ true); [intros; apply reads_u; [lia|done]|].
    rewrite (proj2 (Z.ltb_ge r 128)) by lia. by apply enc_append.
  - eapply (escape_reads_back _ _ _ true); [intros; apply reads_U; [lia|done]|].
    rewrite (proj2 (Z.ltb_ge r 128)) by lia. by apply enc_append.
Qed.

Lemma head_reads_back s : s <> "" -> exists p t,
  s = p +:+ t /\ p <> "" /\ (DecodeRuneInString s).2 = String.length p /\ reads_back (quote_head s) p.
Proof.
  intros Hs. destruct (decode_spec s Hs) as [[Hb Hw]|(Hb & p & t & -> & He & Hw)].
  - destruct s as [|c s]; [done|]. exists (String c ""), s. split; [done|]. split; [done|]. split; [done|].
    unfold quote_head. rewrite Hb. pose proof (byte_range c).
    eapply (escape_reads_back _ _ _ false); [intros; by apply reads_x|]. by rewrite orb_true_r, chr_byte.
  - exists p, t. destruct (enc_head _ _ He) as (c & p' & Hp & _). split; [done|]. split; [by subst|]. split; [done|].
    unfold quote_head. rewrite Hb. subst p. rewrite string_app_cons in *. by apply escaped_reads_back.
Qed.

Lemma quote_from_skip p t : quote_from (String.length p) (p +:+ t) = quote_from 0 t.
Proof. induction p as [|c p IH]; [done|]. by rewrite string_app_cons. Qed.

Lemma quote_from_cons s p t :
  s = p +:+ t -> p <> "" -> (DecodeRuneInString s).2 = String.length p ->
  quote_from 0 s = quote_head s +:+ quote_from 0 t.
Proof.
  intros -> Hp Hw. destruct p as [|c p]; [done|]. rewrite string_app_cons in *. cbn [quote_from].
  rewrite Hw. cbn [String.length pred]. by rewrite quote_from_skip.
Qed.

Lemma unquote_quote_from s fuel :
  (String.length (quote_from 0 s) < fuel)%nat ->
  unquote_loop fuel (quote_from 0 s +:+ String quote_char "") = Some (s, "").
Proof.
  remember (String.length s) as n eqn:Hn. revert s fuel Hn.
  induction (lt_wf n) as [n _ IH]. intros s fuel -> Hf.
  destruct (decide (s = "")) as [->|Hs]; [by destruct fuel; [lia|]|].
  destruct (head_reads_back s Hs) as (p & t & Hst & Hp & Hw & Hh & Hr).
  rewrite (quote_from_cons s p t) in * by done. rewrite string_length_app in Hf.
  assert (0 < String.length (quote_head s))%nat by (destruct (quote_head s); [done|simpl; lia]).
  destruct fuel as [|fuel]; [lia|]. rewrite string_app_assoc, Hr. rewrite (IH (String.length t)); [|subst|done|lia].
  - cbn [mbind option_bind]. by subst.
  - rewrite string_length_app. destruct p; [done|simpl; lia].
Qed.

Lemma quoteNodeKey_eq key : quoteNodeKey key = quote_from 0 key.
Proof.
  unfold quoteNodeKey, Quote. cbv zeta. cbn [string_drop String.length]. rewrite string_length_app. cbn [String.length].
  replace (S (String.length (quote_from 0 key) + 1) - 2)%nat with (String.length (quote_from 0 key)) by lia.
  apply string_take_app.
Qed.

Lemma unquote_quoteNodeKey key : unquoteNodeKey (quoteNodeKey key) = Ok key.
Proof.
  unfold unquoteNodeKey, Unquote. rewrite quoteNodeKey_eq, string_app_cons, string_app_nil_l.
  rewrite bool_decide_eq_true_2 by done. rewrite unquote_quote_from; [done|].
  rewrite string_length_app. simpl. lia.
Qed.

(** ** The quoted text is UTF-8 *)

Definition is_ascii (c : ascii) : bool := byte_of c <? 128.

Lemma valid_from_skip p t : valid_from (String.length p) (p +:+ t) = valid_from 0 t.
Proof. induction p as [|c p IH]; [done|]. by rewrite string_app_cons. Qed.

Lemma valid_ascii_app h t : string_forallb is_ascii h = true -> valid_from 0 (h +:+ t) = valid_from 0 t.
Proof.
  induction h as [|c h IH]; [done|]. rewrite string_forallb_cons, andb_true_iff, string_app_cons. intros [Hc Hh].
  cbn [valid_from]. unfold bad_head, DecodeRuneInString, is_ascii in *. rewrite Hc. cbn [fst snd pred].
  rewrite IH by done. utf8_hyps. rewrite (proj2 (Z.eqb_neq (byte_of c) RuneError)); [done|unfold RuneError; lia].
Qed.

Lemma valid_encodes_app p r t : encodes p r -> valid_from 0 (p +:+ t) = valid_from 0 t.
Proof.
  intros He. pose proof (enc_decode _ _ He t) as Hd. destruct (enc_head _ _ He) as (c & p' & -> & Hc).
  rewrite string_app_cons in *. cbn [valid_from]. unfold bad_head. rewrite Hd. cbn [fst snd String.length pred].
  rewrite valid_from_skip. destruct p' as [|c' p']; [|by rewrite andb_false_r].
  destruct (Z.lt_ge_cases r 128) as [Hr|Hr].
  - rewrite (proj2 (Z.eqb_neq r RuneError)); [done|unfold RuneError; lia].
  - pose proof (enc_append _ _ He) as Ha. unfold AppendRune in Ha. rewrite (enc_valid _ _ He) in Ha. cbv zeta in Ha.
    rewrite (proj2 (Z.ltb_ge r 128)) in Ha by lia. repeat case_match; simplify_eq.
Qed.

Lemma hex_digits_ascii n v : string_forallb is_ascii (hex_digits n v) = true.
Proof.
  induction n as [|n IH]; [done|]. cbn [hex_digits]. rewrite string_forallb_cons, IH, andb_true_r.
  unfold lowerhex, is_ascii. pose proof (Z.mod_pos_bound (v / 16 ^ Z.of_nat n) 16 ltac:(lia)).
  case_match; utf8_hyps; rewrite byte_chr by lia; apply Z.ltb_lt; lia.
Qed.

Lemma escaped_valid p r t : encodes p r -> valid_from 0 (appendEscapedRune r +:+ t) = valid_from 0 t.
Proof.
  intros He. unfold appendEscapedRune.
  destruct (_ || _) eqn:Hq.
  { apply valid_ascii_app. apply orb_true_iff in Hq. rewrite !Z.eqb_eq in Hq. destruct Hq as [->| ->]; done. }
  destruct (IsPrint r); [rewrite (enc_append _ _ He); by eapply valid_encodes_app|].
  destruct (letter_escape r) as [c|] eqn:HL.
  { apply valid_ascii_app. unfold letter_escape in HL. by repeat case_match; simplify_eq. }
  apply valid_ascii_app. repeat case_match; rewrite !string_forallb_cons, hex_digits_ascii; done.
Qed.

Lemma quoteNodeKey_valid key : ValidString (quoteNodeKey key) = true.
Proof.
  rewrite quoteNodeKey_eq. unfold ValidString. remember (String.length key) as n eqn:Hn. revert key Hn.
  induction (lt_wf n) as [n _ IH]. intros s ->.
  destruct (decide (s = "")) as [->|Hs]; [done|].
  destruct (head_reads_back s Hs) as (p & t & Hst & Hp & Hw & _).
  rewrite (quote_from_cons s p t) by done.
  assert (IHt : valid_from 0 (quote_from 0 t) = true).
  { apply (IH (String.length t)); [|done]. subst. rewrite string_length_app. destruct p; [done|simpl; lia]. }
  rewrite <- IHt. destruct s as [|c s]; [done|]. unfold quote_head. destruct (bad_head _) eqn:Hb.
  - apply valid_ascii_app. by rewrite !string_forallb_cons, hex_digits_ascii.
  - destruct (decode_spec (String c s)) as [[? _]|(_ & p' & t' & _ & He & _)]; [done|congruence|].
    by eapply escaped_valid.
Qed.
End roundtrip.

(** ** A concrete table, for evaluation: ASCII and everything from U+00A1 up but the
    surrogates. *)
Definition demo_unicode : Unicode := {| IsPrint r := ((32 <=? r) && (r <=? 126)) || ((161 <=? r) && ValidRune r) |}.

Lemma demo_unicode_laws : UnicodeLaws demo_unicode.
Proof.
  split. intros r Hr. cbn. rewrite (proj2 (Z.leb_gt 161 r)) by lia. by rewrite orb_false_r.
Qed.

Example quote_example :
  quoteNodeKey (T := demo_unicode) (String "a" (String "034" (String "200" (String "195" (String "164" (String "010" ""))))))
  = String "a" (String "092" (String "034" ("\xc8" +:+ String "195" (String "164" "\n")))).
Proof. vm_compute. reflexivity. Qed.
