(* ===== verification/AtomicFile.v ===== *)
(** * Replacing a file atomically

    pkg/lease/state.go, [writeFileAtomic] and [syncDir]: the new content goes to a temporary
    file in the same directory, is synced, renamed over the path, and the directory is synced.

    The file system is what that code relies on of an operating system: directory entries and
    file contents as a reader sees them now, and as the disk holds them.  Content that was not
    synced may be anything after a crash, and a directory change that was not synced may or may
    not be there.  Every system call may fail, as an argument says, and a crash may come
    between any two of them.  The same argument says whether the system is Windows, which has
    no directory sync. *)

From Stdlib Require Import Ascii String ZArith Lia.
From S2P Require Import Prelude.

(** ** The file system *)

Record inode := mkInode { i_data : string; i_synced : bool }.

Record FS := mkFS {
  fs_dir : gmap string nat;   (* the entries a reader sees *)
  fs_disk : gmap string nat;  (* the entries the last directory sync left on disk *)
  fs_inodes : gmap nat inode }.

Definition read (fs : FS) (p : string) : option string :=
  i ← fs_dir fs !! p; n ← fs_inodes fs !! i; Some (i_data n).

(** What a path may hold after a crash. *)
Definition entry_holds (fs : FS) (e : option nat) (c : option string) : Prop :=
  match e with
  | None => c = None
  | Some i => match fs_inodes fs !! i with
              | Some n => if i_synced n then c = Some (i_data n) else is_Some c
              | None => False
              end
  end.

Definition may_hold (fs : FS) (p : string) (c : option string) : Prop :=
  entry_holds fs (fs_dir fs !! p) c \/ entry_holds fs (fs_disk fs !! p) c.

(** [fs'] is what is found after a crash in [fs]. *)
Definition crashed (fs fs' : FS) : Prop := forall p, may_hold fs p (read fs' p).

(** The path holds [c], now and after any crash. *)
Definition durable (fs : FS) (p : string) (c : option string) : Prop :=
  read fs p = c /\ forall c', may_hold fs p c' -> c' = c.

(** What a later start finds: whatever a crash leaves, but on Windows, where a rename may not
    survive a power loss, what was there. *)
Definition found_again (windows : bool) (fs fs' : FS) : Prop :=
  if windows then forall p, read fs' p = read fs p else crashed fs fs'.

(** Entries point at files. *)
Definition fs_wf (fs : FS) : Prop :=
  forall p i, fs_dir fs !! p = Some i \/ fs_disk fs !! p = Some i -> is_Some (fs_inodes fs !! i).

(** ** System calls *)

Definition fs_create (tmp : string) (i : nat) (fs : FS) : FS :=
  mkFS (<[tmp := i]> (fs_dir fs)) (fs_disk fs) (<[i := mkInode "" false]> (fs_inodes fs)).

Definition fs_write (i : nat) (data : string) (fs : FS) : FS :=
  mkFS (fs_dir fs) (fs_disk fs) (<[i := mkInode data false]> (fs_inodes fs)).

Definition fs_sync (i : nat) (fs : FS) : FS :=
  mkFS (fs_dir fs) (fs_disk fs) (alter (fun n => mkInode (i_data n) true) i (fs_inodes fs)).

Definition fs_rename (tmp path : string) (i : nat) (fs : FS) : FS :=
  mkFS (<[path := i]> (delete tmp (fs_dir fs))) (fs_disk fs) (fs_inodes fs).

Definition fs_remove (tmp : string) (fs : FS) : FS := mkFS (delete tmp (fs_dir fs)) (fs_disk fs) (fs_inodes fs).

Definition fs_syncdir (fs : FS) : FS := mkFS (fs_dir fs) (fs_dir fs) (fs_inodes fs).

(** The system, and which calls fail; a failing write leaves the given number of bytes. *)
Record Faults := mkFaults {
  on_windows : bool;
  create_fails : bool;
  write_fails : option nat;
  sync_fails : bool;
  close_fails : bool;
  rename_fails : bool;
  opendir_fails : bool;
  syncdir_fails : bool;
  closedir_fails : bool;
  remove_fails : bool }.

Definition no_faults_on (windows : bool) : Faults := mkFaults windows false None false false false false false false false.
Definition no_faults : Faults := no_faults_on false.

(** ** [writeFileAtomic] *)

(** The name [os.CreateTemp] makes from the pattern, with its random part. *)
Definition tmp_name (path rand : string) : string := path +:+ "." +:+ rand +:+ ".tmp".

(** On Windows it returns at once; elsewhere the errors of the sync and of the close are joined. *)
Definition syncDir (F : Faults) (fs : FS) : FS * result unit :=
  if on_windows F then (fs, Ok tt)
  else if opendir_fails F then (fs, Err "open dir")
  else (if syncdir_fails F then fs else fs_syncdir fs, if syncdir_fails F || closedir_fails F then Err "sync dir" else Ok tt).

(** The deferred removal of the temporary file after a failure; that it is not there any
    more is not an error. *)
Definition clean_up (F : Faults) (tmp : string) (fs : FS) : FS :=
  if remove_fails F then fs else fs_remove tmp fs.

(** The states after each system call, in order, and the result. *)
Definition writeFileAtomic (F : Faults) (rand path data : string) (fs : FS) : list FS * result unit :=
  let tmp := tmp_name path rand in
  let i := fresh (dom (fs_inodes fs)) in
  if create_fails F || bool_decide (is_Some (fs_dir fs !! tmp)) then ([fs], Err "create temp")
  else
    let fs1 := fs_create tmp i fs in
    match write_fails F with
    | Some n =>
        let fs2 := fs_write i (string_take n data) fs1 in
        ([fs; fs1; fs2; clean_up F tmp fs2], Err "write")
    | None =>
        let fs2 := fs_write i data fs1 in
        if sync_fails F then ([fs; fs1; fs2; clean_up F tmp fs2], Err "sync")
        else
          let fs3 := fs_sync i fs2 in
          if close_fails F then ([fs; fs1; fs2; fs3; clean_up F tmp fs3], Err "close")
          else if rename_fails F then ([fs; fs1; fs2; fs3; clean_up F tmp fs3], Err "rename")
          else
            let fs4 := fs_rename tmp path i fs3 in
            match syncDir F fs4 with
            | (fs5, Ok _) => ([fs; fs1; fs2; fs3; fs4; fs5], Ok tt)
            | (fs5, Err e) => ([fs; fs1; fs2; fs3; fs4; fs5; clean_up F tmp fs5], Err e)
            end
    end.

(** The file system it leaves. *)
Definition final (fs : FS) (trace : list FS) : FS := default fs (last trace).

(** ** Entries keep pointing at files *)

Lemma fs_wf_step (fs fs' : FS) :
  (forall j, is_Some (fs_inodes fs !! j) -> is_Some (fs_inodes fs' !! j)) ->
  (forall p j, fs_dir fs' !! p = Some j -> fs_dir fs !! p = Some j \/ is_Some (fs_inodes fs' !! j)) ->
  (forall p j, fs_disk fs' !! p = Some j -> fs_dir fs !! p = Some j \/ fs_disk fs !! p = Some j) -> fs_wf fs -> fs_wf fs'.
Proof. intros Hi Hd Hk Hw p j [H|H]; [destruct (Hd p j H) as [?|?]; [|done]|destruct (Hk p j H)]; apply Hi, (Hw p); auto. Qed.

Lemma create_wf tmp i fs : fs_wf fs -> fs_wf (fs_create tmp i fs).
Proof.
  apply fs_wf_step; cbn; [intros j Hj; apply lookup_insert_is_Some; destruct (decide (i = j)); auto| |auto].
  intros p j [[_ <-]|[_ ?]]%lookup_insert_Some; [right; rewrite lookup_insert_eq; by eexists|by left].
Qed.

Lemma write_wf i data fs : fs_wf fs -> fs_wf (fs_write i data fs).
Proof. apply fs_wf_step; cbn; [intros j Hj; apply lookup_insert_is_Some; destruct (decide (i = j)); auto|auto|auto]. Qed.

Lemma sync_wf i fs : fs_wf fs -> fs_wf (fs_sync i fs).
Proof. apply fs_wf_step; cbn; [intros j Hj; by apply lookup_alter_is_Some|auto|auto]. Qed.

Lemma rename_wf tmp path i fs : is_Some (fs_inodes fs !! i) -> fs_wf fs -> fs_wf (fs_rename tmp path i fs).
Proof.
  intros Hi. apply fs_wf_step; cbn; [auto| |auto]. intros p j [[_ <-]|[_ H]]%lookup_insert_Some; [by right|]. apply lookup_delete_Some in H as [_ H]. by left.
Qed.

Lemma clean_up_wf F tmp fs : fs_wf fs -> fs_wf (clean_up F tmp fs).
Proof. unfold clean_up. case_match; [done|]. apply fs_wf_step; cbn; [auto| |auto]. intros p j [_ ?]%lookup_delete_Some. by left. Qed.

Lemma syncdir_wf fs : fs_wf fs -> fs_wf (fs_syncdir fs).
Proof. apply fs_wf_step; cbn; auto. Qed.

Lemma writeFileAtomic_wf F rand path data fs trace res :
  fs_wf fs -> writeFileAtomic F rand path data fs = (trace, res) -> Forall fs_wf trace.
Proof.
  intros H0. unfold writeFileAtomic. set (tmp := tmp_name path rand). set (i := fresh _). cbn zeta.
  pose proof (create_wf tmp i fs H0) as H1. assert (H2 : forall d, fs_wf (fs_write i d (fs_create tmp i fs))) by (intros d; by apply write_wf).
  pose proof (sync_wf i _ (H2 data)) as H3. assert (H4 : fs_wf (fs_rename tmp path i (fs_sync i (fs_write i data (fs_create tmp i fs))))).
  { apply rename_wf; [|done]. cbn. apply lookup_alter_is_Some. rewrite lookup_insert_eq. by eexists. }
  pose proof (syncdir_wf _ H4) as H5. unfold syncDir.
  destruct (_ || bool_decide _); [|destruct (write_fails F); [|destruct (sync_fails F); [|destruct (close_fails F); [|destruct (rename_fails F);
    [|destruct (on_windows F); [|destruct (opendir_fails F); [|destruct (syncdir_fails F), (closedir_fails F)]]]]]]]; cbn [orb];
    intros [= <- <-]; repeat constructor; auto using clean_up_wf.
Qed.

Lemma final_wf fs trace : fs_wf fs -> Forall fs_wf trace -> fs_wf (final fs trace).
Proof.
  intros H HF. unfold final. destruct (last trace) as [x|] eqn:E; [|done]. cbn. rewrite Forall_forall in HF. by apply HF, last_Some_elem_of.
Qed.

(** ** Atomicity *)

Lemma tmp_name_ne path rand : tmp_name path rand <> path.
Proof.
  unfold tmp_name. intros H. apply (f_equal String.length) in H. rewrite !string_length_app in H. simpl in H. lia.
Qed.

(** A state in which the path still holds what it held: its entries are those of [fs], and
    the files of [fs] are untouched. *)
Definition keeps (fs fs' : FS) (tmp : string) : Prop :=
  (forall p, p <> tmp -> fs_dir fs' !! p = fs_dir fs !! p) /\ fs_disk fs' = fs_disk fs /\
  (forall i, is_Some (fs_inodes fs !! i) -> fs_inodes fs' !! i = fs_inodes fs !! i).

Lemma keeps_holds fs fs' tmp p c :
  fs_wf fs -> keeps fs fs' tmp -> p <> tmp -> (may_hold fs' p c <-> may_hold fs p c) /\ read fs' p = read fs p.
Proof.
  intros W (Hd & Hk & Hi) Hp. unfold may_hold, read. rewrite Hd, Hk by done.
  assert (He : forall e, (forall i, e = Some i -> is_Some (fs_inodes fs !! i)) ->
    entry_holds fs' e c <-> entry_holds fs e c).
  { intros [i|] H; [|done]. simpl. by rewrite Hi by auto. }
  split.
  - rewrite !He; [done|intros i Hi'; apply (W p); auto|intros i Hi'; apply (W p); auto].
  - destruct (fs_dir fs !! p) as [i|] eqn:E; [|done]. simpl. rewrite Hi; [done|]. apply (W p). by left.
Qed.

Lemma keeps_refl fs tmp : keeps fs fs tmp.
Proof. done. Qed.

Lemma keeps_create fs tmp : keeps fs (fs_create tmp (fresh (dom (fs_inodes fs))) fs) tmp.
Proof.
  split_and!; cbn; [intros p Hp; by rewrite lookup_insert_ne|done|].
  intros i Hi. rewrite lookup_insert_ne; [done|]. intros <-. by apply (is_fresh (dom (fs_inodes fs))), elem_of_dom.
Qed.

Lemma keeps_write fs fs' tmp data : keeps fs fs' tmp -> keeps fs (fs_write (fresh (dom (fs_inodes fs))) data fs') tmp.
Proof.
  intros (Hd & Hk & Hi). split_and!; cbn; [done|done|].
  intros i Hi'. rewrite lookup_insert_ne; [auto|]. intros <-. by apply (is_fresh (dom (fs_inodes fs))), elem_of_dom.
Qed.

Lemma keeps_sync fs fs' tmp : keeps fs fs' tmp -> keeps fs (fs_sync (fresh (dom (fs_inodes fs))) fs') tmp.
Proof.
  intros (Hd & Hk & Hi). split_and!; cbn; [done|done|].
  intros i Hi'. rewrite lookup_alter_ne; [auto|]. intros <-. by apply (is_fresh (dom (fs_inodes fs))), elem_of_dom.
Qed.

Lemma keeps_clean_up F fs fs' tmp : keeps fs fs' tmp -> keeps fs (clean_up F tmp fs') tmp.
Proof.
  intros (Hd & Hk & Hi). unfold clean_up. destruct (remove_fails F); [by split_and!|]. split_and!; cbn; [|done|done].
  intros p Hp. rewrite lookup_delete_ne by done. auto.
Qed.

Create HintDb fs.
#[export] Hint Resolve keeps_refl keeps_create keeps_write keeps_sync keeps_clean_up : fs.

(** A state in which the path's entry is the new, synced file; the disk's entries are the old
    ones or the new ones. *)
Record replaced (fs fs' : FS) (tmp path data : string) : Prop := {
  rp_path : exists i, fs_dir fs' !! path = Some i /\ fs_inodes fs' !! i = Some (mkInode data true);
  rp_dir : forall p, p <> tmp -> p <> path -> fs_dir fs' !! p = fs_dir fs !! p;
  rp_disk : fs_disk fs' = fs_disk fs \/ forall p, p <> tmp -> fs_disk fs' !! p = fs_dir fs' !! p;
  rp_inodes : forall i, is_Some (fs_inodes fs !! i) -> fs_inodes fs' !! i = fs_inodes fs !! i }.

Lemma replaced_rename fs fs' tmp path data :
  tmp <> path -> keeps fs fs' tmp -> fs_inodes fs' !! fresh (dom (fs_inodes fs)) = Some (mkInode data true) ->
  replaced fs (fs_rename tmp path (fresh (dom (fs_inodes fs))) fs') tmp path data.
Proof.
  intros Ht (Hd & Hk & Hi) Hn. split; cbn; [|intros p Hp Hp'|by left|done].
  - eexists. rewrite lookup_insert_eq. done.
  - rewrite lookup_insert_ne, lookup_delete_ne by done. auto.
Qed.

Lemma replaced_syncdir fs fs' tmp path data :
  replaced fs fs' tmp path data -> replaced fs (fs_syncdir fs') tmp path data.
Proof. intros [Hp Hd Hk Hi]. split; cbn; auto. Qed.

Lemma replaced_clean_up F fs fs' tmp path data :
  tmp <> path -> replaced fs fs' tmp path data -> replaced fs (clean_up F tmp fs') tmp path data.
Proof.
  intros Ht [(i & Hp & Hn) Hd Hk Hi]. unfold clean_up. destruct (remove_fails F); [by split; eauto|].
  split; cbn; [|intros p ? ?; rewrite lookup_delete_ne by done; auto| |done].
  - exists i. by rewrite lookup_delete_ne by done.
  - destruct Hk as [|Hk]; [by left|right]. intros p ?. rewrite lookup_delete_ne by done. auto.
Qed.
#[export] Hint Resolve replaced_rename replaced_syncdir replaced_clean_up : fs.

Lemma entry_holds_kept fs fs' p c :
  fs_wf fs -> (forall i, is_Some (fs_inodes fs !! i) -> fs_inodes fs' !! i = fs_inodes fs !! i) ->
  (entry_holds fs' (fs_dir fs !! p) c -> entry_holds fs (fs_dir fs !! p) c) /\
  (entry_holds fs' (fs_disk fs !! p) c -> entry_holds fs (fs_disk fs !! p) c).
Proof.
  intros W Hi. split.
  - destruct (fs_dir fs !! p) as [i|] eqn:E; [|done]. simpl. rewrite Hi; [done|]. apply (W p). auto.
  - destruct (fs_disk fs !! p) as [i|] eqn:E; [|done]. simpl. rewrite Hi; [done|]. apply (W p). auto.
Qed.

(** After the rename the path holds the new data, and on disk the new data or the old. *)
Lemma replaced_path fs fs' tmp path data c :
  fs_wf fs -> tmp <> path -> replaced fs fs' tmp path data ->
  read fs' path = Some data /\ (may_hold fs' path c -> c = Some data \/ may_hold fs path c).
Proof.
  intros W Ht [(i & Hp & Hn) Hd Hk Hi]. unfold read, may_hold. rewrite Hp. cbn. rewrite Hn. split; [done|].
  cbn. intros [->|H]; [by left|]. destruct Hk as [Hk|Hk].
  - rewrite Hk in H. right. right. by apply (entry_holds_kept fs fs').
  - rewrite Hk, Hp in H by done. cbn in H. rewrite Hn in H. by left.
Qed.

Lemma replaced_others fs fs' tmp path data p c :
  fs_wf fs -> replaced fs fs' tmp path data -> p <> tmp -> p <> path ->
  read fs' p = read fs p /\ (may_hold fs' p c -> may_hold fs p c).
Proof.
  intros W [(i & Hp & Hn) Hd Hk Hi] Ht Hne. destruct (entry_holds_kept fs fs' p c W Hi) as [H1 H2]. split.
  - unfold read. rewrite Hd by done. destruct (fs_dir fs !! p) as [j|] eqn:E; [|done]. cbn. rewrite Hi; [done|].
    apply (W p). auto.
  - unfold may_hold. rewrite Hd by done. destruct Hk as [Hk|Hk].
    + rewrite Hk. naive_solver.
    + rewrite Hk, Hd by done. naive_solver.
Qed.

(** Every state of a run, the last one included, is one of the two kinds. *)
Lemma write_states F rand path data fs trace res :
  writeFileAtomic F rand path data fs = (trace, res) ->
  let tmp := tmp_name path rand in
  Forall (fun fs' => keeps fs fs' tmp \/ replaced fs fs' tmp path data) trace /\
  (res = Ok tt -> exists fs', last trace = Some fs' /\ replaced fs fs' tmp path data /\ (on_windows F = false -> fs_disk fs' = fs_dir fs')) /\
  (res <> Ok tt -> remove_fails F = false -> fs_dir fs !! tmp = None -> fs_dir (final fs trace) !! tmp = None).
Proof.
  intros E tmp. subst tmp. set (tmp := tmp_name path rand). pose proof (tmp_name_ne path rand) as Ht. fold tmp in Ht.
  unfold writeFileAtomic in E. fold tmp in E. set (i := fresh (dom (fs_inodes fs))) in *.
  assert (Hs : fs_inodes (fs_sync i (fs_write i data (fs_create tmp i fs))) !! i = Some (mkInode data true)).
  { cbn. by rewrite lookup_alter_eq, lookup_insert_eq. }
  assert (Hr : replaced fs (fs_rename tmp path i (fs_sync i (fs_write i data (fs_create tmp i fs)))) tmp path data)
    by (apply replaced_rename; [done|unfold i; auto with fs|done]).
  assert (Hrt : fs_dir (fs_rename tmp path i (fs_sync i (fs_write i data (fs_create tmp i fs)))) !! tmp = None)
    by (cbn; rewrite lookup_insert_ne by done; apply lookup_delete_eq).
  assert (Hc : forall fs', remove_fails F = false -> fs_dir (clean_up F tmp fs') !! tmp = None)
    by (intros fs' HF; unfold clean_up; rewrite HF; apply lookup_delete_eq).
  assert (K1 : keeps fs (fs_create tmp i fs) tmp) by apply keeps_create.
  assert (K2 : forall d, keeps fs (fs_write i d (fs_create tmp i fs)) tmp) by (intros d; by apply keeps_write).
  assert (K3 : keeps fs (fs_sync i (fs_write i data (fs_create tmp i fs))) tmp) by by apply keeps_sync.
  unfold syncDir in E. destruct (on_windows F) eqn:HW, (opendir_fails F), (syncdir_fails F), (closedir_fails F); cbn [orb] in E;
    repeat case_match; simplify_eq; (split; [rewrite ?Forall_cons, ?Forall_nil; split_and?; auto with fs|split; [try done|try done]]);
    try (intros _ HF HN; unfold final; cbn [last from_option id]; by auto).
  all: intros _; eexists; split; [reflexivity|]; split; [by auto with fs|done].
Qed.

Lemma write_read F rand path data fs trace :
  fs_wf fs -> writeFileAtomic F rand path data fs = (trace, Ok tt) -> read (final fs trace) path = Some data.
Proof.
  intros W E. destruct (write_states _ _ _ _ _ _ _ E) as (_ & Hok & _). destruct (Hok eq_refl) as (fs' & Hl & Hr & _).
  unfold final. rewrite Hl. by destruct (replaced_path _ _ _ _ _ None W (tmp_name_ne path rand) Hr) as [Hrd _].
Qed.

Lemma write_durable F rand path data fs trace : on_windows F = false ->
  fs_wf fs -> writeFileAtomic F rand path data fs = (trace, Ok tt) -> durable (final fs trace) path (Some data).
Proof.
  intros HW W E. destruct (write_states _ _ _ _ _ _ _ E) as (_ & Hok & _).
  destruct (Hok eq_refl) as (fs' & Hl & Hr & Hd). specialize (Hd HW). unfold final. rewrite Hl. cbn [from_option id].
  destruct (replaced_path _ _ _ _ _ None W (tmp_name_ne path rand) Hr) as [Hrd _]. split; [done|]. intros c' Hm.
  destruct (rp_path _ _ _ _ _ Hr) as (i & Hi & Hn). unfold may_hold in Hm. rewrite Hd, Hi in Hm. cbn in Hm.
  rewrite Hn in Hm. cbn in Hm. by destruct Hm.
Qed.

(** A later start finds what was written. *)
Lemma write_found F rand path data fs trace fs' :
  fs_wf fs -> writeFileAtomic F rand path data fs = (trace, Ok tt) -> found_again (on_windows F) (final fs trace) fs' -> read fs' path = Some data.
Proof.
  intros W E. unfold found_again. destruct (on_windows F) eqn:HW.
  - intros ->. by eapply write_read.
  - intros Hc. by apply (write_durable _ _ _ _ _ _ HW W E).
Qed.

Lemma write_old_or_new F rand path data fs trace res old fs' c :
  fs_wf fs -> durable fs path old -> writeFileAtomic F rand path data fs = (trace, res) -> fs' ∈ trace ->
  (read fs' path = old \/ read fs' path = Some data) /\ (may_hold fs' path c -> c = old \/ c = Some data).
Proof.
  intros W [Hread Hmay] E Hin. destruct (write_states _ _ _ _ _ _ _ E) as (HT & _). rewrite Forall_forall in HT.
  destruct (HT _ Hin) as [Hk|Hr].
  - destruct (keeps_holds _ _ _ path c W Hk) as [Hm ->]; [apply not_eq_sym, tmp_name_ne|]. rewrite Hm. eauto.
  - destruct (replaced_path _ _ _ _ _ c W (tmp_name_ne path rand) Hr) as [-> Hm]. split; [by right|].
    intros [->|]%Hm; eauto.
Qed.

Section atomic.
Variables (fs : FS) (path : string) (old : option string).
Hypothesis Hwf : fs_wf fs.
Hypothesis Hold : durable fs path old.

(** [C25] A snapshot file is replaced atomically.  Whatever call of writeFileAtomic fails and
    wherever the machine crashes, the path holds its previous content or all of the new data,
    never part of it, and no other file changes; when the call reports success the path holds
    the new data, and but on Windows it does so for good; when the call reports an error its
    temporary file is gone (unless its removal failed too).  With no failing call it succeeds,
    on Windows and elsewhere. *)
Theorem write_file_atomic (F : Faults) (rand data : string) (trace : list FS) (res : result unit) :
  writeFileAtomic F rand path data fs = (trace, res) ->
  (forall fs' c, fs' ∈ trace ->
     (read fs' path = old \/ read fs' path = Some data) /\ (may_hold fs' path c -> c = old \/ c = Some data)) /\
  (forall fs' p c, fs' ∈ trace -> p <> path -> p <> tmp_name path rand ->
     read fs' p = read fs p /\ (may_hold fs' p c -> may_hold fs p c)) /\
  (res = Ok tt -> read (final fs trace) path = Some data /\ (on_windows F = false -> durable (final fs trace) path (Some data))) /\
  (res <> Ok tt -> remove_fails F = false -> fs_dir fs !! tmp_name path rand = None ->
     fs_dir (final fs trace) !! tmp_name path rand = None) /\
  (forall windows, F = no_faults_on windows -> fs_dir fs !! tmp_name path rand = None -> res = Ok tt).
Proof.
  intros E. destruct (write_states _ _ _ _ _ _ _ E) as (HT & _ & Herr). rewrite Forall_forall in HT. split_and!.
  - intros fs' c Hin. by eapply write_old_or_new.
  - intros fs' p c [Hk|Hr]%HT Hp Hp'.
    + destruct (keeps_holds _ _ _ p c Hwf Hk Hp') as [Hm ->]. by rewrite Hm.
    + by eapply replaced_others.
  - intros ->. split; [by eapply write_read|]. intros HW. by eapply write_durable.
  - done.
  - intros windows -> Hnew. unfold writeFileAtomic in E. rewrite Hnew in E. destruct windows; cbn in E; by simplify_eq.
Qed.
End atomic.

(** ** An example: a save over an old file whose rename fails *)

Definition ex_fs : FS :=
  mkFS {["leases.json" := 0%nat]} {["leases.json" := 0%nat]} {[0%nat := mkInode "old" true]}.

Lemma ex_fs_wf : fs_wf ex_fs.
Proof. intros p i [H|H]; cbn in H; apply lookup_singleton_Some in H as [<- <-]; by eexists. Qed.

Lemma ex_fs_durable : durable ex_fs "leases.json" (Some "old").
Proof. split; [done|]. intros c [H|H]; vm_compute in H; exact H. Qed.

Definition ex_rename_fails : Faults := mkFaults false false None false false true false false false false.

Lemma write_file_atomic_witness :
  let '(trace, res) := writeFileAtomic ex_rename_fails "42" "leases.json" "new" ex_fs in
  res = Err "rename" /\
  (forall fs' c, fs' ∈ trace -> may_hold fs' "leases.json" c -> c = Some "old" \/ c = Some "new") /\
  fs_dir (final ex_fs trace) !! "leases.json.42.tmp" = None.
Proof.
  destruct (writeFileAtomic _ _ _ _ _) as [trace res] eqn:E.
  destruct (write_file_atomic ex_fs "leases.json" (Some "old") ex_fs_wf ex_fs_durable ex_rename_fails "42" "new" trace res E)
    as (H1 & _ & _ & H2 & _).
  assert (Hres : res = Err "rename") by (vm_compute in E; congruence).
  split; [done|]. split; [intros fs' c Hin; apply H1; done|]. apply H2; [by rewrite Hres|reflexivity|reflexivity].
Defined.

(** On Windows a save that reported success may be undone by a power loss. *)
Example windows_save_may_be_lost :
  let '(trace, res) := writeFileAtomic (no_faults_on true) "42" "leases.json" "new" ex_fs in
  res = Ok tt /\ read (final ex_fs trace) "leases.json" = Some "new" /\ may_hold (final ex_fs trace) "leases.json" (Some "old").
Proof. vm_compute. split_and!; [reflexivity|reflexivity|right; reflexivity]. Qed.
