(* ===== verification/LeaseSnapshot.v ===== *)
(** * Lease snapshots and the file store

    pkg/lease/state.go, the snapshot half of [InMemoryLeaseStore] ([ExportSnapshot],
    [ImportSnapshot], [SaveSnapshot], [LoadSnapshot] and their helpers), and
    pkg/lease/file_store.go, the store that keeps its tree in a file.

    The dns library's message codec and Go's reflective JSON codec are parameters with their
    documented round trips; the SHA-256 of the file is a parameter without any law but that
    its text is not empty, since the loader compares whole files.  The theorems show that a
    store that was saved is the store that is loaded, that the loader takes a file only when
    it is byte for byte what the store writes, and that a stopped store is found again after
    a crash. *)

From Stdlib Require Import Ascii String ZArith Lia.
From S2P Require Import Prelude DnsName DnsData NodeIdent LeaseStore LeaseTree LeaseInv LeaseSpec GoQuote AtomicFile.

Local Open Scope Z_scope.

(** ** Snapshots *)

Definition leaseSnapshotVersion : Z := 4.

(** The type [NodeKind] is a string; a snapshot may hold any. *)
Definition NodeKind_string (k : NodeKind) : string :=
  match k with NodeKindKEY => "key" | NodeKindNonKEY => "non-key" end.

Record NodeSnapshot := mkNodeSnapshot {
  ns_NodeKind : string;
  ns_NodeID : string;
  ns_ParentKeyName : string;
  ns_RRType : Z;
  ns_UpstreamZone : string;
  ns_LeaseDuration : Z;
  ns_RegisteredAt : Z;
  ns_ExpiresAt : Z;
  ns_KeyLeaseDuration : Z;
  ns_RRWire : list Z;
  ns_RRDisplay : string }.

Record LeaseTreeSnapshot := mkSnapshot {
  sn_Version : Z;
  sn_GeneratedAt : Z;
  sn_Nodes : list NodeSnapshot }.

(** [time.Time{}], January 1 of year 1, in the nanoseconds since 1970 this model counts in. *)
Definition zero_time : Z := - 62135596800 * second.

(** ** Wire form of one record *)

(** [Msg.Pack] (the wire form it leaves in [Data]) and [Msg.Unpack]. *)
Class WireCodec := {
  Pack : Msg -> result (list Z);
  Unpack : list Z -> result Msg }.

(** [new(dns.Msg)] with one Answer RR. *)
Definition one_answer (rr : RR) : Msg :=
  mkMsg (mkMsgHeader 0 0 false false false false 0 0) [] [rr] [] [] [] [].

(** A record the library can write and read back: as the decoder produces it, with a fully
    qualified owner, and not the OPT pseudo-record. *)
Definition wire_rr (rr : RR) : bool := rr_wf rr && fqdn (Name (Hdr rr)) && negb (RRToType rr =? TypeOPT).

(** Reading back what was written of such a record gives the record. *)
Class WireCodecLaws (C : WireCodec) : Prop := {
  unpack_pack : forall rr data, wire_rr rr = true -> Pack (one_answer rr) = Ok data ->
    exists m, Unpack data = Ok m /\ Question m = [] /\ Answer m = [rr] /\ Ns m = [] /\ Extra m = [] }.

Section wire.
Context {C : WireCodec}.

Definition rrToWire (rr : RR) : result (list Z) := Pack (one_answer rr).

Definition rrFromWire (data : list Z) : result RR :=
  m ← Unpack data;
  if negb (length (Question m) =? 0)%nat || negb (length (Answer m) =? 1)%nat || negb (length (Ns m) =? 0)%nat
     || negb (length (Extra m) =? 0)%nat
  then Err "want one answer RR and nothing else"
  else match Answer m with rr :: _ => Ok rr | [] => Err "want one answer RR and nothing else" end.

Lemma rrFromWire_rrToWire `{!WireCodecLaws C} rr data :
  wire_rr rr = true -> rrToWire rr = Ok data -> rrFromWire data = Ok rr.
Proof.
  intros Hw Hp. destruct (unpack_pack rr data Hw Hp) as (m & Hu & Hq & Ha & Hn & He).
  unfold rrFromWire. rewrite Hu. cbn. by rewrite Hq, Ha, Hn, He.
Qed.
End wire.

(** ** Export and import *)

Section snapshot.
Context {L : DnsLib} {C : WireCodec} {T : Unicode}.

Definition export_key (id : string) (rec : KEYRecord) : result NodeSnapshot :=
  wire ← rrToWire (KEY_RR (KeyRR rec));
  let b := k_base rec in
  Ok (mkNodeSnapshot (NodeKind_string NodeKindKEY) (quoteNodeKey id) (quoteNodeKey (b_ParentKeyName b)) (b_RRType b)
        (k_UpstreamZone rec) (b_LeaseDuration b) (b_RegisteredAt b) (b_ExpiresAt b) (KeyLeaseDuration rec) wire
        (RR_String (KEY_RR (KeyRR rec)))).

Definition export_nonKey (rec : NonKEYRecord) : result NodeSnapshot :=
  wire ← rrToWire (n_RR rec);
  let b := n_base rec in
  Ok (mkNodeSnapshot (NodeKind_string NodeKindNonKEY) "" (quoteNodeKey (b_ParentKeyName b)) (b_RRType b)
        (n_UpstreamZone rec) (b_LeaseDuration b) (b_RegisteredAt b) (b_ExpiresAt b) 0 wire (RR_String (n_RR rec))).

(** The ids of a node map, sorted. *)
Definition sorted_ids {A} (m : gmap string A) : list string := merge_sort String.le (map fst (map_to_list m)).

Definition ExportSnapshot (now : Z) (st : Store) : result LeaseTreeSnapshot :=
  nodes ← foldM (fun nodes id =>
                   match leases st !! id with
                   | None => Ok nodes
                   | Some rec => n ← export_key id rec; Ok (nodes ++ [n])
                   end) [] (sorted_ids (leases st));
  nodes ← foldM (fun nodes id =>
                   match nonKeyRecords st !! id with
                   | None => Ok nodes
                   | Some rec => n ← export_nonKey rec; Ok (nodes ++ [n])
                   end) nodes (sorted_ids (nonKeyRecords st));
  Ok (mkSnapshot leaseSnapshotVersion now nodes).

(** The two branches of the import loop: the node's identity and its record. *)
Definition import_key (now : Z) (node : NodeSnapshot) : result (string * KEYRecord) :=
  rr ← rrFromWire (ns_RRWire node);
  match as_KEY rr with
  | None => Err "snapshot key node holds another RR, not a KEY"
  | Some keyRR =>
      if bool_decide (PublicKey (key_Data keyRR) = "") then Err "snapshot key node has no public key"
      else
        let nodeID := NodeKey keyRR in
        storedID ← unquoteNodeKey (ns_NodeID node);
        if negb (bool_decide (storedID = nodeID)) then Err "snapshot key node has another node_id than its key's"
        else
          parent ← unquoteNodeKey (ns_ParentKeyName node);
          let rrType := if ns_RRType node =? 0
                        then if RRToType (KEY_RR keyRR) =? 0 then TypeKEY else RRToType (KEY_RR keyRR)
                        else ns_RRType node in
          let registeredAt := if ns_RegisteredAt node =? zero_time then now else ns_RegisteredAt node in
          Ok (nodeID,
              mkKEYRecord (mkBase NodeKindKEY rrType (ns_ExpiresAt node) (ns_LeaseDuration node) registeredAt parent)
                (Normalize (Name (key_Hdr keyRR))) keyRR (ns_KeyLeaseDuration node) (Normalize (ns_UpstreamZone node)))
  end.

Definition import_nonKey (node : NodeSnapshot) : result (string * NonKEYRecord) :=
  rr ← rrFromWire (ns_RRWire node);
  let nodeID := RecordKey rr in
  parent ← unquoteNodeKey (ns_ParentKeyName node);
  if bool_decide (parent = "") then Err "snapshot non-key node has empty parent"
  else
    let rrType := if ns_RRType node =? 0 then RRToType rr else ns_RRType node in
    Ok (nodeID,
        mkNonKEYRecord (mkBase NodeKindNonKEY rrType (ns_ExpiresAt node) (ns_LeaseDuration node) (ns_RegisteredAt node) parent)
          nodeID rr (Normalize (ns_UpstreamZone node))).

Definition node_maps : Type := gmap string KEYRecord * gmap string NonKEYRecord.

Definition import_node (now : Z) (maps : node_maps) (node : NodeSnapshot) : result node_maps :=
  let '(newLeases, newNonKey) := maps in
  if bool_decide (ns_NodeKind node = NodeKind_string NodeKindKEY) then
    e ← import_key now node; Ok (<[e.1 := e.2]> newLeases, newNonKey)
  else if bool_decide (ns_NodeKind node = NodeKind_string NodeKindNonKEY) then
    e ← import_nonKey node; Ok (newLeases, <[e.1 := e.2]> newNonKey)
  else Err "snapshot node has unknown node_kind".

(** The indices of two node maps, rebuilt in the order the maps are visited in. *)
Definition add_child (ch : gmap string (gset string)) (parent c : string) : gmap string (gset string) :=
  <[parent := {[c]} ∪ default ∅ (ch !! parent)]> ch.

Definition index_lease (acc : gmap string (list string) * gmap string (gset string)) (e : string * KEYRecord) :
    gmap string (list string) * gmap string (gset string) :=
  let '(ni, ch) := acc in
  let ni := <[KeyName e.2 := default [] (ni !! KeyName e.2) ++ [e.1]]> ni in
  if bool_decide (k_Parent e.2 = "") then (ni, ch) else (ni, add_child ch (k_Parent e.2) e.1).

Definition rebuild_indices (maps : node_maps) : gmap string (list string) * gmap string (gset string) :=
  let '(ni, ch) := foldl index_lease (∅, ∅) (map_to_list maps.1) in
  (ni, foldl (fun ch e => add_child ch (n_Parent e.2) e.1) ch (map_to_list maps.2)).

Definition ImportSnapshot (now : Z) (snapshot : option LeaseTreeSnapshot) (st : Store) : result Store :=
  match snapshot with
  | None => Err "snapshot is nil"
  | Some snapshot =>
      if negb (sn_Version snapshot =? leaseSnapshotVersion) then Err "unsupported snapshot version"
      else
        maps ← foldM (import_node now) (∅, ∅) (sn_Nodes snapshot);
        let '(ni, ch) := rebuild_indices maps in
        Ok (mkStore maps.1 maps.2 ni ch (persistenceHook st) (hookLog st))
  end.
End snapshot.

(** ** The file *)

(** encoding/json on the two types the file is made of, and the hex SHA-256 of a text. *)
Class SnapshotJson := {
  MarshalIndent : LeaseTreeSnapshot -> result string;
  UnmarshalFile : string -> result (string * string);   (* sha256 and the raw snapshot *)
  UnmarshalSnapshot : string -> result LeaseTreeSnapshot;
  sha256_hex : string -> string }.

Definition nl : string := String "010" "".
Definition dq : string := String "034" "".

Definition file_head (sha : string) : string :=
  "{" +:+ nl +:+ "  " +:+ dq +:+ "sha256" +:+ dq +:+ ": " +:+ dq +:+ sha +:+ dq +:+ "," +:+ nl +:+
  "  " +:+ dq +:+ "snapshot" +:+ dq +:+ ": ".

Definition snapshotFileBytes `{J : SnapshotJson} (body : string) : string :=
  file_head (sha256_hex body) +:+ body +:+ nl +:+ "}" +:+ nl.

(** The strings of a node that JSON must carry unchanged: UTF-8 text. *)
Definition utf8_node (n : NodeSnapshot) : Prop :=
  ValidString (ns_NodeKind n) = true /\ ValidString (ns_NodeID n) = true /\
  ValidString (ns_ParentKeyName n) = true /\ ValidString (ns_UpstreamZone n) = true.

Definition set_display (d : string) (n : NodeSnapshot) : NodeSnapshot :=
  mkNodeSnapshot (ns_NodeKind n) (ns_NodeID n) (ns_ParentKeyName n) (ns_RRType n) (ns_UpstreamZone n)
    (ns_LeaseDuration n) (ns_RegisteredAt n) (ns_ExpiresAt n) (ns_KeyLeaseDuration n) (ns_RRWire n) d.

(** A snapshot read back from JSON, in which bytes of [rr_display] that are not UTF-8 were
    replaced. *)
Definition same_but_display (s s' : LeaseTreeSnapshot) : Prop :=
  sn_Version s' = sn_Version s /\ sn_GeneratedAt s' = sn_GeneratedAt s /\
  Forall2 (fun n n' => n' = set_display (ns_RRDisplay n') n) (sn_Nodes s) (sn_Nodes s').

(** What encoding/json documents: Unmarshal of what Marshal wrote gives the value back, with
    text that is not UTF-8 replaced; a RawMessage is the text of the value; a digest's hex
    form is not empty. *)
Class SnapshotJsonLaws (J : SnapshotJson) : Prop := {
  unmarshal_snapshot : forall s body, MarshalIndent s = Ok body -> Forall utf8_node (sn_Nodes s) ->
    exists s', UnmarshalSnapshot body = Ok s' /\ same_but_display s s';
  unmarshal_file : forall s body, MarshalIndent s = Ok body ->
    body <> "" /\ UnmarshalFile (snapshotFileBytes body) = Ok (sha256_hex body, body);
  sha256_text : forall b, sha256_hex b <> "" }.

Section file.
Context {L : DnsLib} {C : WireCodec} {T : Unicode} {J : SnapshotJson}.

(** [SaveSnapshot]: the states of the file system on the way, and the result. *)
Definition SaveSnapshot (F : Faults) (rand path : string) (now : Z) (st : Store) (fs : FS) : list FS * result unit :=
  match ExportSnapshot now st with
  | Err e => ([fs], Err e)
  | Ok snapshot =>
      match MarshalIndent snapshot with
      | Err e => ([fs], Err ("marshal snapshot: " +:+ e))
      | Ok body => writeFileAtomic F rand path (snapshotFileBytes body) fs
      end
  end.

(** [LoadSnapshot] of a file's content. *)
Definition load_content (now : Z) (data : string) (st : Store) : result Store :=
  file ← UnmarshalFile data;
  let '(sha, raw) := file in
  if (String.length raw =? 0)%nat || bool_decide (sha = "") then Err "snapshot file has no sha256/snapshot pair"
  else if negb (bool_decide (data = snapshotFileBytes raw)) then Err "snapshot file is not as the proxy wrote it"
  else
    snapshot ← UnmarshalSnapshot raw;
    ImportSnapshot now (Some snapshot) st.

Definition LoadSnapshot (fs : FS) (path : string) (now : Z) (st : Store) : result Store :=
  match read fs path with
  | None => Err "read snapshot"
  | Some data => load_content now data st
  end.

(** ** file_store.go *)

Definition CheckSaveInterval (d : Z) : result unit :=
  if d <=? 0 then Err "save_interval must be positive" else Ok tt.

(** [stat_fails]: os.Stat fails with another error than that there is no file. *)
Definition ReadSnapshotFile (stat_fails : bool) (fs : FS) (path : string) (now : Z) : result (Store * bool) :=
  if stat_fails then Err "cannot stat"
  else match read fs path with
  | None => Ok (NewInMemoryManager, false)
  | Some _ =>
      match LoadSnapshot fs path now NewInMemoryManager with
      | Ok st => Ok (st, true)
      | Err e => Err ("existing snapshot is corrupt or unreadable: " +:+ e)
      end
  end.

(** The store with its file and the errors given to [onSaveError]; [fl_stopped] is [stopOnce]
    done and the goroutine gone. *)
Record FileLeaseStore := mkFileStore {
  fl_store : Store;
  fl_path : string;
  fl_saveInterval : Z;
  fl_stopped : bool;
  fl_errors : list string }.

(** [mkdir_fails]: the directory is not there and cannot be created. *)
Definition NewFileLeaseStore (mkdir_fails stat_fails : bool) (F : Faults) (rand path : string) (saveInterval now : Z) (fs : FS)
    : list FS * result FileLeaseStore :=
  if bool_decide (path = "") then ([fs], Err "file lease store: path is empty")
  else match CheckSaveInterval saveInterval with
  | Err e => ([fs], Err e)
  | Ok _ =>
      if mkdir_fails then ([fs], Err "file lease store: cannot create directory")
      else match ReadSnapshotFile stat_fails fs path now with
      | Err e => ([fs], Err e)
      | Ok (inner, _) =>
          match SaveSnapshot F rand path now inner fs with
          | (trace, Err e) => (trace, Err "file lease store: cannot write snapshot")
          | (trace, Ok _) => (trace, Ok (mkFileStore inner path saveInterval false []))
          end
      end
  end.

(** [save], whose failure goes to [onSaveError]. *)
Definition save_reporting (F : Faults) (rand msg : string) (now : Z) (fl : FileLeaseStore) (fs : FS) : list FS * FileLeaseStore :=
  match SaveSnapshot F rand (fl_path fl) now (fl_store fl) fs with
  | (trace, Ok _) => (trace, fl)
  | (trace, Err e) =>
      (trace, mkFileStore (fl_store fl) (fl_path fl) (fl_saveInterval fl) (fl_stopped fl) (fl_errors fl ++ [msg]))
  end.

(** One tick of [runPeriodicSave]; none comes once the goroutine has exited. *)
Definition periodic_save (F : Faults) (rand : string) (now : Z) (fl : FileLeaseStore) (fs : FS) : list FS * FileLeaseStore :=
  if fl_stopped fl then ([fs], fl) else save_reporting F rand "periodic snapshot save failed" now fl fs.

Definition Stop (F : Faults) (rand : string) (now : Z) (fl : FileLeaseStore) (fs : FS) : list FS * FileLeaseStore :=
  if fl_stopped fl then ([fs], fl)
  else
    let '(trace, fl) := save_reporting F rand "final snapshot save failed" now fl fs in
    (trace, mkFileStore (fl_store fl) (fl_path fl) (fl_saveInterval fl) true (fl_errors fl)).
End file.

(** ** The rebuilt indices *)

Section indices.

Lemma add_child_edge ch q x p c : edge (add_child ch q x) p c <-> edge ch p c \/ (p = q /\ c = x).
Proof.
  unfold add_child. rewrite edge_insert, elem_of_union, elem_of_singleton. unfold edge.
  destruct (decide (p = q)) as [->|]; naive_solver.
Qed.

Lemma add_child_nonempty ch q x : nonempty_sets ch -> nonempty_sets (add_child ch q x).
Proof. unfold add_child. intros Hn p ks [[_ <-]|[_ H]]%lookup_insert_Some; [set_solver|eauto]. Qed.

Lemma index_records_spec (l : list (string * NonKEYRecord)) ch :
  nonempty_sets ch ->
  let ch' := foldl (fun ch e => add_child ch (n_Parent e.2) e.1) ch l in
  nonempty_sets ch' /\
  forall p c, edge ch' p c <-> edge ch p c \/ exists r, (c, r) ∈ l /\ n_Parent r = p.
Proof.
  revert ch. induction l as [|[id r] l IH]; intros ch Hn; cbn [foldl].
  - split; [done|]. set_solver.
  - destruct (IH (add_child ch (n_Parent r) id)) as [Hn' He]; [by apply add_child_nonempty|]. split; [done|].
    intros p c. rewrite He, add_child_edge. cbn [fst snd]. setoid_rewrite elem_of_cons. naive_solver.
Qed.

Definition names_of (l : list (string * KEYRecord)) (n : string) : list string :=
  map fst (filter (fun e => KeyName e.2 = n) l).

Lemma index_leases_spec (l : list (string * KEYRecord)) ni ch :
  nonempty_sets ch -> (forall n ks, ni !! n = Some ks -> ks <> []) ->
  let '(ni', ch') := foldl index_lease (ni, ch) l in
  nonempty_sets ch' /\ (forall n ks, ni' !! n = Some ks -> ks <> []) /\
  (forall n, default [] (ni' !! n) = default [] (ni !! n) ++ names_of l n) /\
  forall p c, edge ch' p c <-> edge ch p c \/ p <> "" /\ exists r, (c, r) ∈ l /\ k_Parent r = p.
Proof.
  revert ni ch. induction l as [|[id r] l IH]; intros ni ch Hn Hne.
  - cbn. split_and!; [done|done|intros; by rewrite app_nil_r|set_solver].
  - cbn [foldl]. unfold index_lease at 2. cbn [fst snd].
    set (ni1 := <[KeyName r := default [] (ni !! KeyName r) ++ [id]]> ni).
    assert (Hne1 : forall n ks, ni1 !! n = Some ks -> ks <> []).
    { intros n ks; unfold ni1; intros [[_ <-]|[_ H]]%lookup_insert_Some; [by destruct (default [] (ni !! KeyName r))|eauto]. }
    assert (Hnames : forall n, default [] (ni1 !! n) ++ names_of l n = default [] (ni !! n) ++ names_of ((id, r) :: l) n).
    { intros n. unfold names_of, ni1. rewrite filter_cons. cbn [snd]. destruct (decide (KeyName r = n)) as [<-|Hr].
      - rewrite lookup_insert_eq. cbn. by rewrite <- app_assoc.
      - by rewrite lookup_insert_ne. }
    case_bool_decide as Hp.
    + specialize (IH ni1 ch Hn Hne1). destruct (foldl index_lease (ni1, ch) l) as [ni' ch'].
      destruct IH as (? & ? & Hd & He). split_and!; [done|done|intros n; by rewrite Hd, Hnames|].
      intros p c. rewrite He. setoid_rewrite elem_of_cons. naive_solver.
    + specialize (IH ni1 (add_child ch (k_Parent r) id) (add_child_nonempty _ _ _ Hn) Hne1).
      destruct (foldl index_lease (ni1, add_child ch (k_Parent r) id) l) as [ni' ch'].
      destruct IH as (? & ? & Hd & He). split_and!; [done|done|intros n; by rewrite Hd, Hnames|].
      intros p c. rewrite He, add_child_edge. setoid_rewrite elem_of_cons. naive_solver.
Qed.

Context {L : DnsLib}.

(** Any two node maps of well-formed nodes get the indices of a well-formed store. *)
Lemma rebuilt_WF (maps : node_maps) hook log :
  (forall k r, maps.1 !! k = Some r -> lease_ok k r) -> (forall k r, maps.2 !! k = Some r -> nonKey_ok k r) ->
  let '(ni, ch) := rebuild_indices maps in WF (mkStore maps.1 maps.2 ni ch hook log).
Proof.
  intros Hl Hn. unfold rebuild_indices.
  pose proof (index_leases_spec (map_to_list maps.1) ∅ ∅) as H1.
  destruct (foldl index_lease (∅, ∅) (map_to_list maps.1)) as [ni ch].
  destruct H1 as (Hne & Hnn & Hd & He); [intros p ks; by rewrite lookup_empty|intros n ks; by rewrite lookup_empty|].
  destruct (index_records_spec (map_to_list maps.2) ch Hne) as [Hne' He'].
  split; cbn [leases nonKeyRecords nameIdx children]; try done.
  - intros p c. rewrite He', He. unfold has_parent; cbn [leases nonKeyRecords].
    setoid_rewrite elem_of_map_to_list. unfold edge. rewrite lookup_empty. cbn.
    assert (forall r, maps.2 !! c = Some r -> n_Parent r <> "") by (intros r Hr; by apply Hn in Hr as (_ & _ & ? & _)).
    set_solver.
  - intros n k. rewrite Hd, lookup_empty. cbn. unfold names_of. rewrite list_elem_of_fmap.
    setoid_rewrite list_elem_of_filter. split.
    + intros ([k' r] & -> & Hk & Hin). apply elem_of_map_to_list in Hin. eauto.
    + intros (r & Hr & Hk). exists (k, r). by rewrite elem_of_map_to_list.
  - intros n. rewrite Hd, lookup_empty. cbn. unfold names_of.
    apply (sublist_NoDup _ (map fst (map_to_list maps.1))); [exact (NoDup_fst_map_to_list maps.1)|].
    apply (fmap_sublist fst), sublist_filter.
Qed.
End indices.

(** ** Stores with the same nodes *)

(** The same nodes and edges, and the same KEYs at every name, in any order. *)
Record same_store (st st' : Store) : Prop := {
  ss_abs : abs st' = abs st;
  ss_children : children st' = children st;
  ss_names : forall n, default [] (nameIdx st' !! n) ≡ₚ default [] (nameIdx st !! n) }.

Global Instance same_store_equiv : Equivalence same_store.
Proof.
  split.
  - by intros st.
  - intros st st' [Ha Hc Hn]. split; [done|done|]. intros n. by rewrite Hn.
  - intros s1 s2 s3 [Ha Hc Hn] [Ha' Hc' Hn']. split; [congruence|congruence|]. intros n. by rewrite Hn', Hn.
Qed.

Lemma nonempty_sets_eq ch ch' :
  nonempty_sets ch -> nonempty_sets ch' -> (forall p c, edge ch p c <-> edge ch' p c) -> ch = ch'.
Proof.
  intros Hn Hn' He. apply map_eq. intros p.
  assert (Hd : default ∅ (ch !! p) = default ∅ (ch' !! p)) by (apply set_eq; intros c; apply He).
  destruct (ch !! p) as [ks|] eqn:E, (ch' !! p) as [ks'|] eqn:E'; cbn in Hd; subst; try done.
  - by destruct (Hn _ _ E).
  - by destruct (Hn' _ _ E').
Qed.

(** The nodes of a well-formed store determine the rest. *)
Lemma WF_same_store {L : DnsLib} st st' : WF st -> WF st' -> abs st' = abs st -> same_store st st'.
Proof.
  intros W W' [= Hl Hk].
  assert (Hp : forall c p, has_parent st' c p <-> has_parent st c p) by (intros; unfold has_parent; by rewrite Hl, Hk).
  split; [by unfold abs; f_equal| |].
  - apply nonempty_sets_eq; [apply W'|apply W|]. intros p c. rewrite (wf_edges _ _ W'), (wf_edges _ _ W), Hp. done.
  - intros n. apply NoDup_Permutation; [apply W'|apply W|]. intros k. by rewrite (wf_names _ _ W'), (wf_names _ _ W), Hl.
Qed.

(** ** Round trip of a node *)

Section roundtrip.
Context {L : DnsLib} {C : WireCodec} {T : Unicode} {CL : WireCodecLaws C} {TL : UnicodeLaws T}.

(** What a stored node needs to be written and read back. *)
Definition storable_key (r : KEYRecord) : Prop :=
  wire_rr (KEY_RR (KeyRR r)) = true /\ PublicKey (key_Data (KeyRR r)) <> "" /\
  b_RegisteredAt (k_base r) <> zero_time /\ Normalize (k_UpstreamZone r) = k_UpstreamZone r.

#[global] Instance storable_key_dec r : Decision (storable_key r) := _.

Definition storable_record (r : NonKEYRecord) : Prop :=
  wire_rr (n_RR r) = true /\ Normalize (n_UpstreamZone r) = n_UpstreamZone r.

#[global] Instance storable_record_dec r : Decision (storable_record r) := _.

Definition storable (st : Store) : Prop :=
  (forall k r, leases st !! k = Some r -> storable_key r) /\
  (forall k r, nonKeyRecords st !! k = Some r -> storable_record r).

Lemma import_export_key now id r n d :
  lease_ok id r -> storable_key r -> export_key id r = Ok n -> import_key now (set_display d n) = Ok (id, r).
Proof.
  intros (Hid & Hname & _ & _ & Hkind & Htype) (Hw & Hpk & Hreg & Hz) He. unfold export_key in He.
  apply bind_ok in He as (wire & Hp & [= <-]).
  unfold import_key, set_display. cbn -[unquoteNodeKey quoteNodeKey zero_time].
  rewrite (rrFromWire_rrToWire _ _ Hw Hp). cbn -[unquoteNodeKey quoteNodeKey zero_time].
  rewrite (bool_decide_eq_false_2 _ Hpk), !unquote_quoteNodeKey. cbn -[unquoteNodeKey quoteNodeKey zero_time].
  destruct r as [[kind ty ex le re pa] name [hdr key] kl zone]. cbn -[zero_time] in *. subst kind ty.
  rewrite bool_decide_eq_true_2 by done. cbn -[zero_time]. rewrite (proj2 (Z.eqb_neq re zero_time)) by done.
  by rewrite Hz, Hname, Hid.
Qed.

Lemma import_export_nonKey id r n d :
  nonKey_ok id r -> storable_record r -> export_nonKey r = Ok n -> import_nonKey (set_display d n) = Ok (id, r).
Proof.
  intros (Hid & Hkey & Hpa & _ & Hkind & Htype & _) (Hw & Hz) He. unfold export_nonKey in He.
  apply bind_ok in He as (wire & Hp & [= <-]).
  unfold import_nonKey, set_display. cbn -[unquoteNodeKey quoteNodeKey].
  rewrite (rrFromWire_rrToWire _ _ Hw Hp). cbn -[unquoteNodeKey quoteNodeKey].
  rewrite !unquote_quoteNodeKey. cbn -[unquoteNodeKey quoteNodeKey].
  destruct r as [[kind ty ex le re pa] key rr zone]. cbn in *. unfold n_Parent in Hpa. cbn in Hpa. subst kind ty key id.
  rewrite (bool_decide_eq_false_2 _ Hpa), Hz. by destruct (RRToType rr =? 0).
Qed.

(** *** Whole maps *)

Lemma elem_of_sorted_ids {A} (m : gmap string A) k : k ∈ sorted_ids m <-> is_Some (m !! k).
Proof.
  unfold sorted_ids. rewrite merge_sort_Permutation, list_elem_of_fmap. split.
  - intros ([k' r] & -> & H%elem_of_map_to_list). by eexists.
  - intros [r Hr]. exists (k, r). by rewrite elem_of_map_to_list.
Qed.

(** Copying the listed entries of a map. *)
Definition copy_ids {A} (m : gmap string A) (m0 : gmap string A) (ids : list string) : gmap string A :=
  foldl (fun m' id => match m !! id with Some r => <[id := r]> m' | None => m' end) m0 ids.

Lemma copy_ids_lookup {A} (m m0 : gmap string A) ids k :
  copy_ids m m0 ids !! k = if bool_decide (k ∈ ids /\ is_Some (m !! k)) then m !! k else m0 !! k.
Proof.
  revert m0. induction ids as [|id ids IH]; intros m0; cbn [copy_ids foldl].
  - rewrite bool_decide_eq_false_2; [done|]. set_solver.
  - fold (copy_ids m (match m !! id with Some r => <[id := r]> m0 | None => m0 end) ids). rewrite IH.
    rewrite (bool_decide_ext (k ∈ id :: ids /\ is_Some (m !! k)) (k = id /\ is_Some (m !! k) \/ k ∈ ids /\ is_Some (m !! k)))
      by (rewrite elem_of_cons; naive_solver).
    destruct (decide (k ∈ ids /\ is_Some (m !! k))) as [H|H].
    { rewrite !bool_decide_eq_true_2 by auto. done. }
    rewrite bool_decide_eq_false_2 by done. destruct (decide (k = id)) as [->|Hk].
    + destruct (m !! id) as [r|] eqn:E; [rewrite bool_decide_eq_true_2 by naive_solver; apply lookup_insert_eq|].
      rewrite bool_decide_eq_false_2; [done|]. intros [[_ [? ?]]|?]; naive_solver.
    + rewrite bool_decide_eq_false_2 by naive_solver. destruct (m !! id); [by rewrite lookup_insert_ne|done].
Qed.

Lemma copy_ids_all {A} (m : gmap string A) : copy_ids m ∅ (sorted_ids m) = m.
Proof.
  apply map_eq. intros k. rewrite copy_ids_lookup. case_bool_decide as H; [done|]. rewrite elem_of_sorted_ids in H.
  rewrite lookup_empty. destruct (m !! k) eqn:E; [|done]. by destruct H.
Qed.

(** The nodes of one export loop, id by id. *)
Lemma export_loop {A} (m : gmap string A) (f : string -> A -> result NodeSnapshot) ids acc out :
  Forall (fun id => is_Some (m !! id)) ids ->
  foldM (fun nodes id => match m !! id with
                         | None => Ok nodes
                         | Some rec => n ← f id rec; Ok (nodes ++ [n])
                         end) acc ids = Ok out ->
  exists ns, out = acc ++ ns /\ Forall2 (fun id n => exists rec, m !! id = Some rec /\ f id rec = Ok n) ids ns.
Proof.
  intros Hids. revert acc. induction Hids as [|id ids [r Hr] _ IH]; intros acc E; cbn [foldM] in E.
  - simplify_eq. exists []. by rewrite app_nil_r.
  - rewrite Hr in E. apply bind_ok in E as (acc' & (n & Hn & [= <-])%bind_ok & E).
    destruct (IH _ E) as (ns & -> & HF). exists (n :: ns). rewrite <- app_assoc. eauto.
Qed.

Lemma import_node_key now n id r lm nm :
  ns_NodeKind n = NodeKind_string NodeKindKEY -> import_key now n = Ok (id, r) ->
  import_node now (lm, nm) n = Ok (<[id := r]> lm, nm).
Proof. intros Hk Hi. unfold import_node. rewrite bool_decide_eq_true_2 by done. by rewrite Hi. Qed.

Lemma import_node_record now n id r lm nm :
  ns_NodeKind n = NodeKind_string NodeKindNonKEY -> import_nonKey n = Ok (id, r) ->
  import_node now (lm, nm) n = Ok (lm, <[id := r]> nm).
Proof.
  intros Hk Hi. unfold import_node. rewrite bool_decide_eq_false_2 by (by rewrite Hk).
  rewrite bool_decide_eq_true_2 by done. by rewrite Hi.
Qed.

(** The import loop over nodes that each give back their id and record. *)
Lemma import_loop_keys now (m : gmap string KEYRecord) ids ns lm nm :
  Forall2 (fun id n => ns_NodeKind n = NodeKind_string NodeKindKEY /\
                       exists r, m !! id = Some r /\ import_key now n = Ok (id, r)) ids ns ->
  foldM (import_node now) (lm, nm) ns = Ok (copy_ids m lm ids, nm).
Proof.
  intros HF. revert lm. induction HF as [|id n ids ns (Hk & r & Hr & Hi) _ IH]; intros lm; [done|].
  cbn [foldM]. rewrite (import_node_key _ _ _ _ _ _ Hk Hi). cbn [mbind result_bind].
  rewrite IH. unfold copy_ids. cbn [foldl]. by rewrite Hr.
Qed.

Lemma import_loop_records now (m : gmap string NonKEYRecord) ids ns lm nm :
  Forall2 (fun id n => ns_NodeKind n = NodeKind_string NodeKindNonKEY /\
                       exists r, m !! id = Some r /\ import_nonKey n = Ok (id, r)) ids ns ->
  foldM (import_node now) (lm, nm) ns = Ok (lm, copy_ids m nm ids).
Proof.
  intros HF. revert nm. induction HF as [|id n ids ns (Hk & r & Hr & Hi) _ IH]; intros nm; [done|].
  cbn [foldM]. rewrite (import_node_record _ _ _ _ _ _ Hk Hi). cbn [mbind result_bind].
  rewrite IH. unfold copy_ids. cbn [foldl]. by rewrite Hr.
Qed.

Lemma Forall_sorted_ids {A} (m : gmap string A) : Forall (fun id => is_Some (m !! id)) (sorted_ids m).
Proof. apply Forall_forall. intros id. apply elem_of_sorted_ids. Qed.

(** What [ExportSnapshot] returns. *)
Lemma ExportSnapshot_ok now st s :
  ExportSnapshot now st = Ok s ->
  exists ks rs, s = mkSnapshot leaseSnapshotVersion now (ks ++ rs) /\
    Forall2 (fun id n => exists r, leases st !! id = Some r /\ export_key id r = Ok n) (sorted_ids (leases st)) ks /\
    Forall2 (fun id n => exists r, nonKeyRecords st !! id = Some r /\ export_nonKey r = Ok n)
      (sorted_ids (nonKeyRecords st)) rs.
Proof.
  intros E. unfold ExportSnapshot in E. apply bind_ok in E as (o1 & E1 & (o2 & E2 & [= <-])%bind_ok).
  apply (export_loop _ export_key) in E1 as (ks & -> & H1); [|apply Forall_sorted_ids].
  apply (export_loop _ (fun _ => export_nonKey)) in E2 as (rs & -> & H2); [|apply Forall_sorted_ids].
  exists ks, rs. done.
Qed.

Definition displays (n n' : NodeSnapshot) : Prop := n' = set_display (ns_RRDisplay n') n.

Lemma Forall2_compose {A} (P : A -> NodeSnapshot -> Prop) (Q : A -> NodeSnapshot -> Prop) ids ns ns' :
  (forall id n n', P id n -> displays n n' -> Q id n') -> Forall2 P ids ns -> Forall2 displays ns ns' -> Forall2 Q ids ns'.
Proof.
  intros HPQ HP. revert ns'. induction HP; intros ns' HD; inversion HD; subst; constructor; eauto.
Qed.

(** Importing what was exported, its display texts aside, gives the store back. *)
Lemma import_export now now' st st0 s s' :
  WF st -> storable st -> ExportSnapshot now st = Ok s -> same_but_display s s' ->
  exists st', ImportSnapshot now' (Some s') st0 = Ok st' /\ same_store st st' /\ WF st' /\
    persistenceHook st' = persistenceHook st0 /\ hookLog st' = hookLog st0.
Proof.
  intros W [Hsk Hsr] (ks & rs & -> & HK & HR)%ExportSnapshot_ok (Hv & _ & HD). cbn in Hv, HD.
  unfold ImportSnapshot. rewrite Hv, Z.eqb_refl. cbn [negb].
  apply Forall2_app_inv_l in HD as (ks' & rs' & HDk & HDr & ->). rewrite foldM_app.
  rewrite (import_loop_keys now' (leases st) (sorted_ids (leases st))).
  2:{ eapply Forall2_compose; [|exact HK|exact HDk]. intros id n n' (r & Hr & He) ->.
      split; [by apply bind_ok in He as (? & _ & [= <-])|]. exists r. split; [done|].
      eapply import_export_key; eauto. by apply W. }
  cbn [mbind result_bind]. rewrite copy_ids_all.
  rewrite (import_loop_records now' (nonKeyRecords st) (sorted_ids (nonKeyRecords st))).
  2:{ eapply Forall2_compose; [|exact HR|exact HDr]. intros id n n' (r & Hr & He) ->.
      split; [by apply bind_ok in He as (? & _ & [= <-])|]. exists r. split; [done|].
      eapply import_export_nonKey; eauto. by apply W. }
  cbn [mbind result_bind]. rewrite copy_ids_all.
  pose proof (rebuilt_WF (leases st, nonKeyRecords st) (persistenceHook st0) (hookLog st0)) as HW.
  destruct (rebuild_indices _) as [ni ch]. cbn [fst snd] in *. eexists. split; [reflexivity|].
  assert (W' := HW (wf_leases _ _ W) (wf_nonKey _ _ W)). split; [by apply WF_same_store|]. done.
Qed.
End roundtrip.

(** ** Saving and loading *)

Section persistence.
Context {L : DnsLib} {C : WireCodec} {T : Unicode} {J : SnapshotJson}.
Context {CL : WireCodecLaws C} {TL : UnicodeLaws T} {JL : SnapshotJsonLaws J}.

(** The zone names, which come from the configuration, are UTF-8 text. *)
Definition utf8_zones (st : Store) : Prop :=
  (forall k r, leases st !! k = Some r -> ValidString (k_UpstreamZone r) = true) /\
  (forall k r, nonKeyRecords st !! k = Some r -> ValidString (n_UpstreamZone r) = true).

Lemma export_utf8 now st s : utf8_zones st -> ExportSnapshot now st = Ok s -> Forall utf8_node (sn_Nodes s).
Proof.
  intros [Hk Hr] (ks & rs & -> & HK & HR)%ExportSnapshot_ok. apply Forall_app. split.
  - eapply (Forall2_Forall_r _ _ _ _ HK), Forall_forall. intros id _ n (r & Hl & He).
    apply bind_ok in He as (w & _ & [= <-]). unfold utf8_node; cbn -[ValidString quoteNodeKey].
    rewrite !quoteNodeKey_valid. by erewrite Hk.
  - eapply (Forall2_Forall_r _ _ _ _ HR), Forall_forall. intros id _ n (r & Hl & He).
    apply bind_ok in He as (w & _ & [= <-]). unfold utf8_node; cbn -[ValidString quoteNodeKey].
    rewrite !quoteNodeKey_valid. by erewrite Hr.
Qed.

Definition recoverable (st : Store) : Prop := WF st /\ storable st /\ utf8_zones st.

(** What [load_content] accepts. *)
Lemma load_content_ok now data st st' :
  load_content now data st = Ok st' ->
  exists sha raw snapshot, UnmarshalFile data = Ok (sha, raw) /\ data = snapshotFileBytes raw /\
    UnmarshalSnapshot raw = Ok snapshot /\ ImportSnapshot now (Some snapshot) st = Ok st'.
Proof.
  unfold load_content. intros ([sha raw] & Hf & E)%bind_ok. destruct (_ || _); [done|].
  case_bool_decide as Hd; [|done]. cbn [negb] in E. apply bind_ok in E as (s & Hs & Hi). eauto 8.
Qed.

(** The file of a store loads as that store. *)
Lemma load_saved now now' st st0 s body :
  recoverable st -> ExportSnapshot now st = Ok s -> MarshalIndent s = Ok body ->
  exists st', load_content now' (snapshotFileBytes body) st0 = Ok st' /\ same_store st st' /\ WF st'.
Proof.
  intros (W & Hs & Hz) He Hm. destruct (unmarshal_file s body Hm) as [Hne Hf].
  destruct (unmarshal_snapshot s body Hm (export_utf8 _ _ _ Hz He)) as (s' & Hu & Hd).
  destruct (import_export now now' st st0 s s' W Hs He Hd) as (st' & Hi & Hss & W' & _).
  exists st'. split; [|done]. unfold load_content. rewrite Hf. cbn [mbind result_bind].
  destruct (String.length body) eqn:El; [by destruct body|]. cbn [Nat.eqb orb].
  rewrite (bool_decide_eq_false_2 _ (sha256_text body)), bool_decide_eq_true_2 by done. cbn [negb].
  by rewrite Hu.
Qed.

(** A save, at any of its states. *)
Lemma save_states F rand path now st fs trace res :
  SaveSnapshot F rand path now st fs = (trace, res) ->
  (trace = [fs] /\ res <> Ok tt) \/
  exists s body, ExportSnapshot now st = Ok s /\ MarshalIndent s = Ok body /\
    writeFileAtomic F rand path (snapshotFileBytes body) fs = (trace, res).
Proof.
  unfold SaveSnapshot. destruct (ExportSnapshot now st) as [s|e] eqn:He; [|intros [= <- <-]; by left].
  destruct (MarshalIndent s) as [body|e] eqn:Hm; [|intros [= <- <-]; by left]. eauto 7.
Qed.

Lemma load_of_read fs path now data st : read fs path = Some data -> LoadSnapshot fs path now st = load_content now data st.
Proof. intros H. unfold LoadSnapshot. by rewrite H. Qed.

(** A saved file, as a later start finds it. *)
Lemma saved_recovered F rand path now now' st fs trace fs' st0 :
  recoverable st -> fs_wf fs -> SaveSnapshot F rand path now st fs = (trace, Ok tt) -> found_again (on_windows F) (final fs trace) fs' ->
  exists data st', read fs' path = Some data /\ load_content now' data st0 = Ok st' /\ same_store st st' /\ WF st'.
Proof.
  intros R W E Hc. destruct (save_states _ _ _ _ _ _ _ _ E) as [[_ ?]|(s & body & He & Hm & Hw)]; [done|].
  destruct (load_saved now now' st st0 s body R He Hm) as (st' & ?).
  exists (snapshotFileBytes body), st'. split; [|done]. by eapply write_found.
Qed.

Section save.
Variables (fs : FS) (path : string) (old : option string) (st : Store).
Hypothesis Hfs : fs_wf fs.
Hypothesis Hold : durable fs path old.
Hypothesis Hst : recoverable st.

(** [C14] A lease store survives a crash at any moment of a save, if it is well formed, its
    records are storable and its zones are UTF-8 ([recoverable]), and the previous file was
    on disk.  After a crash in whatever state SaveSnapshot had reached, whichever of its system
    calls failed, the file is the previous one unchanged or loads as a well-formed store with
    exactly the leases, records, edges and names of the store that was saved; and once
    SaveSnapshot has reported success it is the latter, after any crash, or on Windows, which
    has no directory sync, if there was no power loss. *)
Theorem saved_store_recovered (F : Faults) (rand : string) (now now' : Z) (trace : list FS) (res : result unit)
    (fs1 fs' : FS) (st0 : Store) :
  SaveSnapshot F rand path now st fs = (trace, res) ->
  let recovered := exists st', LoadSnapshot fs' path now' st0 = Ok st' /\ same_store st st' /\ WF st' in
  (fs1 ∈ trace -> crashed fs1 fs' -> read fs' path = old \/ recovered) /\
  (res = Ok tt -> found_again (on_windows F) (final fs trace) fs' -> recovered).
Proof.
  intros E recovered. split.
  - intros Hin Hc. destruct (save_states _ _ _ _ _ _ _ _ E) as [[-> _]|(s & body & He & Hm & Hw)].
    + apply list_elem_of_singleton in Hin as ->. left. by apply Hold, Hc.
    + destruct (write_old_or_new _ _ _ _ _ _ _ _ _ (read fs' path) Hfs Hold Hw Hin) as [_ Hon].
      destruct (Hon (Hc path)) as [|Hr]; [by left|right].
      destruct (load_saved now now' st st0 s body Hst He Hm) as (st' & ? & ?). exists st'. by rewrite (load_of_read _ _ _ _ _ Hr).
  - intros -> Hc. destruct (saved_recovered _ _ _ _ now' _ _ _ fs' st0 Hst Hfs E Hc) as (d & st' & Hr & Hl & ?).
    exists st'. by rewrite (load_of_read _ _ _ _ _ Hr).
Qed.
End save.

(** [C26] The loader takes only files framed as the store frames them.  A content loads only
    when it is byte for byte the frame SaveSnapshot writes around the snapshot text it holds,
    with that text's digest in it, and that text parses and imports: an edit of the text without
    a new digest is refused, and so is any edit of the frame; text that is not as MarshalIndent
    writes it, but has its own digest, is not.  A path gives a new, empty store only when there is
    no file there: a file that does not load is an error. *)
Theorem only_framed_files_load (now : Z) (fs : FS) (path : string) (st : Store) (stat_fails : bool) :
  (forall data st', load_content now data st = Ok st' ->
     exists raw snapshot, data = file_head (sha256_hex raw) +:+ raw +:+ nl +:+ "}" +:+ nl /\
       UnmarshalSnapshot raw = Ok snapshot /\ ImportSnapshot now (Some snapshot) st = Ok st') /\
  (forall data sha raw, UnmarshalFile data = Ok (sha, raw) -> data <> snapshotFileBytes raw ->
     is_ok (load_content now data st) = false) /\
  match ReadSnapshotFile stat_fails fs path now with
  | Ok (st', false) => read fs path = None /\ st' = NewInMemoryManager
  | Ok (st', true) => exists data, read fs path = Some data /\ load_content now data NewInMemoryManager = Ok st'
  | Err _ => stat_fails = true \/ exists data, read fs path = Some data /\
               is_ok (load_content now data NewInMemoryManager) = false
  end.
Proof.
  split_and!.
  - intros data st' (sha & raw & s & _ & Hd & Hu & Hi)%load_content_ok. by exists raw, s.
  - intros data sha raw Hf Hd. destruct (load_content now data st) as [st'|] eqn:E; [|done].
    apply load_content_ok in E as (sha' & raw' & s & Hf' & Hd' & _). rewrite Hf in Hf'. injection Hf' as <- <-. done.
  - unfold ReadSnapshotFile, LoadSnapshot. destruct stat_fails; [by left|].
    destruct (read fs path) as [data|] eqn:Hr; [|done].
    destruct (load_content now data NewInMemoryManager) as [st'|e] eqn:E; [by eauto|]. right. exists data. by rewrite E.
Qed.

(** Stopping a file store loses nothing.  The first Stop ends the periodic saves and
    writes the tree once more; later Stops and ticks do nothing.  Unless it reported an
    error, a store opened on the same path afterwards, even after a crash (on Windows without
    a power loss), has exactly the tree of the stopped one, and opening it succeeds if its own write does. *)
Theorem stopped_store_reopens (F : Faults) (rand : string) (now : Z) (fl fl' : FileLeaseStore) (fs : FS) (trace : list FS) :
  fs_wf fs -> recoverable (fl_store fl) -> fl_stopped fl = false -> fl_path fl <> "" ->
  Stop F rand now fl fs = (trace, fl') ->
  fl_store fl' = fl_store fl /\
  (forall F2 rand2 now2 fs2, Stop F2 rand2 now2 fl' fs2 = ([fs2], fl') /\ periodic_save F2 rand2 now2 fl' fs2 = ([fs2], fl')) /\
  (fl_errors fl' = fl_errors fl ++ ["final snapshot save failed"] \/
   fl_errors fl' = fl_errors fl /\
   forall fs' F2 rand2 now2 interval,
     found_again (on_windows F) (final fs trace) fs' -> 0 < interval ->
     match NewFileLeaseStore false false F2 rand2 (fl_path fl) interval now2 fs' with
     | (_, Ok fl2) => same_store (fl_store fl) (fl_store fl2) /\ WF (fl_store fl2) /\ fl_stopped fl2 = false
     | (_, Err e) => e = "file lease store: cannot write snapshot"
     end).
Proof.
  intros W R Hs Hp E. unfold Stop in E. rewrite Hs in E. unfold save_reporting in E.
  destruct (SaveSnapshot F rand (fl_path fl) now (fl_store fl) fs) as [tr [[]|e]] eqn:ES; simplify_eq; cbn;
    (split; [done|]; split; [by intros; split|]); [right|by left].
  split; [done|]. intros fs' F2 rand2 now2 interval Hc Hi.
  destruct (saved_recovered _ _ _ _ now2 _ _ _ fs' NewInMemoryManager R W ES Hc) as (d & st' & Hr & Hl & Hss & W').
  unfold NewFileLeaseStore. rewrite (bool_decide_eq_false_2 _ Hp). unfold CheckSaveInterval.
  rewrite (proj2 (Z.leb_gt interval 0)) by done. unfold ReadSnapshotFile. rewrite Hr.
  rewrite (load_of_read _ _ _ _ _ Hr), Hl. by destruct (SaveSnapshot F2 rand2 (fl_path fl) now2 st' fs') as [? [?|?]].
Qed.
End persistence.

(** ** Concrete codecs, for evaluation

    A record as one number, a snapshot as the binary digits of one, by stdpp's encoding of
    tuples and strings. *)
Module DemoCodec.
Definition rdata_code : Type := Z + (Z * Z * Z * string) + (Z * Z * Z * string) + list string + string.
Definition rr_code : Type := string * Z * Z * rdata_code.

Definition rr_to (rr : RR) : option rr_code :=
  let h := (Name (Hdr rr), Class (Hdr rr), TTL (Hdr rr)) in
  match RD rr with
  | RD_A a => Some (h, inl (inl (inl (inl a))))
  | RD_KEY k => Some (h, inl (inl (inl (inr (Flags k, Protocol k, Algorithm k, PublicKey k)))))
  | RD_SRV p w q t => Some (h, inl (inl (inr (p, w, q, t))))
  | RD_TXT l => Some (h, inl (inr l))
  | RD_PTR n => Some (h, inr n)
  | _ => None
  end.

Definition rr_from (c : rr_code) : RR :=
  let '(n, cl, ttl, d) := c in
  mkRR (mkHeader n cl ttl)
    match d with
    | inl (inl (inl (inl a))) => RD_A a
    | inl (inl (inl (inr (f, p, a, k)))) => RD_KEY (mkKeyData f p a k)
    | inl (inl (inr (p, w, q, t))) => RD_SRV p w q t
    | inl (inr l) => RD_TXT l
    | inr n => RD_PTR n
    end.

Lemma rr_from_to rr c : rr_to rr = Some c -> rr_from c = rr.
Proof. destruct rr as [[n cl ttl] d]. destruct d; intros [= <-]; try done. by destruct k. Qed.

Definition wire : WireCodec := {|
  Pack m := match Answer m with
            | [rr] => match rr_to rr with Some c => Ok [Z.pos (encode c)] | None => Err "not supported" end
            | _ => Err "not supported"
            end;
  Unpack data := match data with
                 | [Z.pos p] => match decode p with Some c => Ok (one_answer (rr_from c)) | None => Err "malformed" end
                 | _ => Err "malformed"
                 end |}.

Lemma wire_laws : WireCodecLaws wire.
Proof.
  split. intros rr data _. cbn. destruct (rr_to rr) as [c|] eqn:E; [|done]. intros [= <-].
  rewrite decode_encode, (rr_from_to _ _ E). by eexists.
Qed.

Fixpoint bits (p : positive) : string :=
  match p with xH => "e" | xO p => String "0" (bits p) | xI p => String "1" (bits p) end.

Fixpoint unbits (s : string) : option positive :=
  match s with
  | EmptyString => None
  | String c s => if bool_decide (c = "e"%char) then match s with EmptyString => Some xH | _ => None end
                  else p ← unbits s; Some (if bool_decide (c = "0"%char) then xO p else xI p)
  end.

Lemma unbits_bits p : unbits (bits p) = Some p.
Proof. induction p as [p IH|p IH|]; [cbn; by rewrite IH..|done]. Qed.

Definition node_code : Type := string * string * string * Z * string * Z * Z * Z * Z * list Z * string.
Definition node_to (n : NodeSnapshot) : node_code :=
  (ns_NodeKind n, ns_NodeID n, ns_ParentKeyName n, ns_RRType n, ns_UpstreamZone n, ns_LeaseDuration n,
   ns_RegisteredAt n, ns_ExpiresAt n, ns_KeyLeaseDuration n, ns_RRWire n, ns_RRDisplay n).
Definition node_from (c : node_code) : NodeSnapshot :=
  let '(a, b, c, d, e, f, g, h, i, j, k) := c in mkNodeSnapshot a b c d e f g h i j k.

Definition digest : string := "00".

Definition json : SnapshotJson := {|
  MarshalIndent s := Ok (bits (encode (sn_Version s, sn_GeneratedAt s, map node_to (sn_Nodes s))));
  UnmarshalFile data :=
    let n := String.length (file_head digest) in
    if bool_decide (string_take n data = file_head digest)
    then Ok (digest, string_take (String.length data - n - 3) (string_drop n data)) else Err "malformed";
  UnmarshalSnapshot body :=
    match p ← unbits body; decode (A := Z * Z * list node_code) p with
    | Some (v, g, nodes) => Ok (mkSnapshot v g (map node_from nodes))
    | None => Err "malformed"
    end;
  sha256_hex _ := digest |}.

Lemma node_from_to nodes : map node_from (map node_to nodes) = nodes.
Proof. rewrite map_map. rewrite <- (map_id nodes) at 2. apply map_ext. by intros []. Qed.

Lemma set_display_same nodes : Forall2 (fun n n' => n' = set_display (ns_RRDisplay n') n) nodes nodes.
Proof. induction nodes as [|[] nodes IH]; by constructor. Qed.

Lemma json_laws : SnapshotJsonLaws json.
Proof.
  split; [| |done].
  - intros [v g nodes] body [= <-] _. cbn [json UnmarshalSnapshot sn_Version sn_GeneratedAt sn_Nodes].
    rewrite unbits_bits. cbn [mbind option_bind]. rewrite decode_encode, node_from_to. eexists. split; [done|].
    split_and!; [done|done|apply set_display_same].
  - intros s body [= <-]. set (b := bits _). split; [by unfold b; destruct (encode _)|].
    unfold snapshotFileBytes. cbn [json UnmarshalFile sha256_hex]. cbv zeta.
    rewrite string_take_app, string_drop_app, bool_decide_eq_true_2 by done. do 2 f_equal.
    rewrite !string_length_app. replace (_ - _ - 3)%nat with (String.length b) by (cbn [String.length nl]; lia).
    apply string_take_app.
Qed.
End DemoCodec.

(** ** Examples *)

Definition ex_fl : FileLeaseStore := mkFileStore ex_store "leases.json" (60 * second) false [].

Lemma ex_recoverable : recoverable (L := Demo.lib) ex_store.
Proof.
  split; [apply ex_store_WF|]. split; split; intros k r Hr; apply elem_of_map_to_list in Hr.
  all: assert (Hall : forall {A} (P : string * A -> Prop) `{!forall x, Decision (P x)} l x,
    x ∈ l -> bool_decide (Forall P l) = true -> P x)
    by (intros A P HP l x Hx Hb; apply bool_decide_eq_true_1 in Hb; rewrite Forall_forall in Hb; by apply Hb).
  - apply (Hall _ (fun e => storable_key e.2) _ _ _ Hr). vm_compute. reflexivity.
  - apply (Hall _ (fun e => storable_record e.2) _ _ _ Hr). vm_compute. reflexivity.
  - apply (Hall _ (fun e => ValidString (k_UpstreamZone e.2) = true) _ _ _ Hr). vm_compute. reflexivity.
  - apply (Hall _ (fun e => ValidString (n_UpstreamZone e.2) = true) _ _ _ Hr). vm_compute. reflexivity.
Qed.

Definition ex_trace : list FS * result unit :=
  SaveSnapshot (L := Demo.lib) (C := DemoCodec.wire) (T := demo_unicode) (J := DemoCodec.json)
    no_faults "42" "leases.json" second ex_store ex_fs.

Lemma ex_trace_ok : ex_trace.2 = Ok tt.
Proof. vm_compute. reflexivity. Qed.

Lemma saved_store_recovered_witness :
  (forall fs1 fs', fs1 ∈ ex_trace.1 -> crashed fs1 fs' ->
     read fs' "leases.json" = Some "old" \/
     exists st', LoadSnapshot (L := Demo.lib) (C := DemoCodec.wire) (J := DemoCodec.json) fs' "leases.json" 0
                   NewInMemoryManager = Ok st' /\ same_store ex_store st') /\
  (forall fs', crashed (final ex_fs ex_trace.1) fs' ->
     exists st', LoadSnapshot (L := Demo.lib) (C := DemoCodec.wire) (J := DemoCodec.json) fs' "leases.json" 0
                   NewInMemoryManager = Ok st' /\ same_store ex_store st').
Proof.
  assert (E : ex_trace = (ex_trace.1, Ok tt)) by (rewrite <- ex_trace_ok; by destruct ex_trace).
  pose proof (fun fs1 fs' => saved_store_recovered (CL := DemoCodec.wire_laws) (TL := demo_unicode_laws) (JL := DemoCodec.json_laws)
    ex_fs "leases.json" (Some "old") ex_store ex_fs_wf ex_fs_durable ex_recoverable no_faults "42" second 0 ex_trace.1 (Ok tt)
    fs1 fs' NewInMemoryManager E) as H.
  split.
  - intros fs1 fs' Hin Hc. destruct (H fs1 fs') as [H1 _]. destruct (H1 Hin Hc) as [|(st' & ? & ? & _)]; eauto.
  - intros fs' Hc. destruct (H ex_fs fs') as [_ H1]. destruct (H1 eq_refl Hc) as (st' & ? & ? & _); eauto.
Defined.

Definition ex_stop : list FS * FileLeaseStore :=
  Stop (L := Demo.lib) (C := DemoCodec.wire) (T := demo_unicode) (J := DemoCodec.json) no_faults "42" second ex_fl ex_fs.

Lemma ex_stop_errors : fl_errors ex_stop.2 = [].
Proof. vm_compute. reflexivity. Qed.

Lemma stopped_store_reopens_witness :
  fl_store ex_stop.2 = ex_store /\
  forall fs', crashed (final ex_fs ex_stop.1) fs' ->
    match NewFileLeaseStore (L := Demo.lib) (C := DemoCodec.wire) (T := demo_unicode) (J := DemoCodec.json)
            false false no_faults "43" "leases.json" second 0 fs' with
    | (_, Ok fl2) => same_store ex_store (fl_store fl2) /\ WF (L := Demo.lib) (fl_store fl2) /\ fl_stopped fl2 = false
    | (_, Err e) => e = "file lease store: cannot write snapshot"
    end.
Proof.
  assert (E : ex_stop = (ex_stop.1, ex_stop.2)) by by destruct ex_stop.
  destruct (stopped_store_reopens (CL := DemoCodec.wire_laws) (TL := demo_unicode_laws) (JL := DemoCodec.json_laws)
    no_faults "42" second ex_fl ex_stop.2 ex_fs ex_stop.1 ex_fs_wf ex_recoverable eq_refl ltac:(done) E) as (H1 & _ & [H2|[_ H2]]).
  - exfalso. rewrite ex_stop_errors in H2. discriminate H2.
  - split; [done|]. intros fs' Hc. by apply (H2 fs' no_faults "43" 0 second).
Defined.
