(* ===== verification/Inflight.v ===== *)
(** * The limit on UPDATEs in flight

    pkg/updatecore/inflight.go: at most [max] UPDATEs of the process are in flight to one
    authoritative server, [max] being the server's quota of concurrent signature checks.  A
    slot is one element of a buffered Go channel, one channel per server, made on first use.

    Goroutines interleave, so the limiter is a step relation: a goroutine looks up its
    server's channel under the mutex, then waits to put an element in (or gives up when its
    context ends), and takes an element out again when it releases.  Channels are objects
    with an identity: a goroutine keeps the channel it looked up. *)

From Stdlib Require Import Ascii String Lia.
From S2P Require Import Prelude.

Record chan := mkChan { c_cap : nat; c_len : nat; c_server : string }.

(** Where a goroutine is: waiting for a slot of a channel, or with the right to send to a
    server, holding a slot unless there was no limit. *)
Inductive goroutine :=
| Waiting (server : string) (c : nat)
| InFlight (server : string) (slot : option nat).

Global Instance goroutine_eq_dec : EqDecision goroutine. Proof. solve_decision. Defined.

(** [inflightLimiter], the heap of channels, and the goroutines inside [acquire] or between
    [acquire] and [release]. *)
Record inflightLimiter := mkLimiter {
  l_max : nat; (* 0: no limit *)
  l_slots : gmap string nat;
  l_chans : gmap nat chan;
  l_procs : gmap nat goroutine }.

Definition DefaultMaxInflightUpdates : nat := 1.

Definition newInflightLimiter (max : nat) : inflightLimiter := mkLimiter max ∅ ∅ ∅.

Definition set_procs (ps : gmap nat goroutine) (l : inflightLimiter) : inflightLimiter :=
  mkLimiter (l_max l) (l_slots l) (l_chans l) ps.

Definition set_chan (c : nat) (ch : chan) (l : inflightLimiter) : inflightLimiter :=
  mkLimiter (l_max l) (l_slots l) (<[c := ch]> (l_chans l)) (l_procs l).

(** [SetMaxInflightUpdates]; the argument is a Go int. *)
Definition SetMaxInflightUpdates (max : Z) (l : inflightLimiter) : result inflightLimiter :=
  if (max <? 0)%Z then Err "updatecore: max in-flight UPDATEs must be 0 (no limit) or more"
  else Ok (mkLimiter (Z.to_nat max) ∅ (l_chans l) (l_procs l)).

(** [acquire] up to the wait: what goroutine [g] does under the mutex. *)
Definition acquire (g : nat) (server : string) (l : inflightLimiter) : inflightLimiter :=
  if (l_max l =? 0)%nat then set_procs (<[g := InFlight server None]> (l_procs l)) l
  else
    match l_slots l !! server with
    | Some c => set_procs (<[g := Waiting server c]> (l_procs l)) l
    | None =>
        let c := fresh (dom (l_chans l)) in
        mkLimiter (l_max l) (<[server := c]> (l_slots l)) (<[c := mkChan (l_max l) 0 server]> (l_chans l))
          (<[g := Waiting server c]> (l_procs l))
    end.

(** [slots <- struct{}{}], possible while the buffer is not full. *)
Definition take_slot (g : nat) (l : inflightLimiter) : option inflightLimiter :=
  match l_procs l !! g with
  | Some (Waiting server c) =>
      ch ← l_chans l !! c;
      if (c_len ch <? c_cap ch)%nat
      then Some (set_procs (<[g := InFlight server (Some c)]> (l_procs l))
                   (set_chan c (mkChan (c_cap ch) (S (c_len ch)) (c_server ch)) l))
      else None
  | _ => None
  end.

(** The context of a waiting goroutine ends. *)
Definition abandon (g : nat) (l : inflightLimiter) : option inflightLimiter :=
  match l_procs l !! g with
  | Some (Waiting _ _) => Some (set_procs (delete g (l_procs l)) l)
  | _ => None
  end.

(** The function [acquire] returned. *)
Definition release (g : nat) (l : inflightLimiter) : option inflightLimiter :=
  match l_procs l !! g with
  | Some (InFlight _ None) => Some (set_procs (delete g (l_procs l)) l)
  | Some (InFlight _ (Some c)) =>
      ch ← l_chans l !! c;
      match c_len ch with
      | O => None
      | S n => Some (set_procs (delete g (l_procs l)) (set_chan c (mkChan (c_cap ch) n (c_server ch)) l))
      end
  | _ => None
  end.

Inductive inflight_step : inflightLimiter -> inflightLimiter -> Prop :=
| step_acquire g server l : l_procs l !! g = None -> inflight_step l (acquire g server l)
| step_take g l l' : take_slot g l = Some l' -> inflight_step l l'
| step_give_up g l l' : abandon g l = Some l' -> inflight_step l l'
| step_release g l l' : release g l = Some l' -> inflight_step l l'.

(** ** The invariant *)

Definition holds (c : nat) (p : nat * goroutine) : Prop := exists s, p.2 = InFlight s (Some c).
Global Instance holds_dec c p : Decision (holds c p).
Proof.
  destruct p as [g [s c'|s [c'|]]]; [right; by intros [? ?]| |right; by intros [? ?]].
  destruct (decide (c' = c)) as [->|Hc]; [left; by exists s|right]. intros [s' E]. cbn in E. congruence.
Defined.

(** The goroutines that hold a slot of [c]. *)
Definition holders (c : nat) (l : inflightLimiter) : gmap nat goroutine := filter (holds c) (l_procs l).

Definition sends_to (server : string) (p : nat * goroutine) : Prop := exists slot, p.2 = InFlight server slot.
Global Instance sends_to_dec s p : Decision (sends_to s p).
Proof.
  destruct p as [g [s' c'|s' slot]]; [right; by intros [? ?]|].
  destruct (decide (s' = s)) as [->|Hc]; [left; by exists slot|right]. intros [s'' E]. cbn in E. congruence.
Defined.

(** The UPDATEs in flight to a server. *)
Definition in_flight (server : string) (l : inflightLimiter) : nat := size (filter (sends_to server) (l_procs l)).

Record limiter_ok (max : nat) (l : inflightLimiter) : Prop := {
  lo_max : l_max l = max;
  lo_slots : forall s c, l_slots l !! s = Some c -> exists ch, l_chans l !! c = Some ch /\ c_server ch = s;
  lo_chans : forall c ch, l_chans l !! c = Some ch ->
               c_cap ch = max /\ c_len ch <= max /\ c_len ch = size (holders c l) /\ l_slots l !! c_server ch = Some c;
  lo_procs : forall g p, l_procs l !! g = Some p ->
               match p with
               | Waiting s c | InFlight s (Some c) => l_slots l !! s = Some c
               | InFlight s None => False
               end }.

Section limiter.
Context (max : nat) (Hmax : 0 < max).

Lemma limiter_ok_new : limiter_ok max (newInflightLimiter max).
Proof. split; cbn; [done|intros *; by rewrite lookup_empty..]. Qed.

(** A goroutine that neither held a slot of [c] nor gets one. *)
Lemma holders_put c g p l :
  ~ holds c (g, p) -> l_procs l !! g = None \/ (exists p', l_procs l !! g = Some p' /\ ~ holds c (g, p')) ->
  filter (holds c) (<[g := p]> (l_procs l)) = holders c l.
Proof.
  intros Hp Hg. rewrite map_filter_insert_False by done. unfold holders. rewrite map_filter_delete. apply delete_id.
  apply map_lookup_filter_None. destruct Hg as [?|(p' & E & ?)]; [by left|right]. intros x. rewrite E. by intros [= <-].
Qed.

Lemma holders_drop c g l :
  (exists p', l_procs l !! g = Some p' /\ ~ holds c (g, p')) -> filter (holds c) (delete g (l_procs l)) = holders c l.
Proof.
  intros (p' & E & Hp). unfold holders. rewrite map_filter_delete. apply delete_id.
  apply map_lookup_filter_None. right. intros x. rewrite E. by intros [= <-].
Qed.

Lemma holds_waiting c g s c' : ~ holds c (g, Waiting s c').
Proof. by intros [? ?]. Qed.

Lemma acquire_ok g server l : limiter_ok max l -> l_procs l !! g = None -> limiter_ok max (acquire g server l).
Proof.
  intros I Hg. unfold acquire. rewrite (lo_max _ _ I). destruct (Nat.eqb_spec max 0) as [|_]; [lia|].
  destruct (l_slots l !! server) as [c|] eqn:Hs.
  - destruct I as [I1 I2 I3 I4]. split; cbn; [done|done| |].
    + intros c' ch Hc. unfold holders. cbn. rewrite holders_put by (auto using holds_waiting). auto.
    + intros g' p [[<- <-]|[_ H]]%lookup_insert_Some; [done|by eapply I4].
  - destruct I as [I1 I2 I3 I4]. set (c := fresh (dom (l_chans l))).
    assert (Hc : l_chans l !! c = None) by (apply not_elem_of_dom, is_fresh).
    split; cbn; [done| | |].
    + intros s' c' [[<- <-]|[_ H]]%lookup_insert_Some; [rewrite lookup_insert_eq; eauto|].
      destruct (I2 _ _ H) as (ch & E & ?). exists ch. rewrite lookup_insert_ne by congruence. done.
    + intros c' ch [[<- <-]|[Hne H]]%lookup_insert_Some; cbn.
      * rewrite lookup_insert_eq. split_and!; [done|lia| |done]. unfold holders. cbn.
        rewrite holders_put by (auto using holds_waiting). symmetry. apply map_size_empty_iff.
        apply map_empty_filter. intros g' p E [s E']. cbn in E'. subst p. apply I4 in E.
        destruct (I2 _ _ E) as (ch' & ? & _). congruence.
      * destruct (I3 _ _ H) as (? & ? & ? & Hsl). unfold holders. cbn.
        rewrite holders_put by (auto using holds_waiting). rewrite lookup_insert_ne by congruence. done.
    + intros g' p [[<- <-]|[_ H]]%lookup_insert_Some; [by rewrite lookup_insert_eq|].
      apply I4 in H. destruct p as [s c'|s [c'|]]; [| |done]; rewrite lookup_insert_ne; congruence.
Qed.

(** The slot moves with its goroutine. *)
Lemma take_slot_ok g l l' : limiter_ok max l -> take_slot g l = Some l' -> limiter_ok max l'.
Proof.
  intros I. unfold take_slot. destruct (l_procs l !! g) as [[server c|]|] eqn:Hg; [|done..].
  destruct (l_chans l !! c) as [ch|] eqn:Hc; [|done]. cbn [mbind option_bind].
  destruct (c_len ch <? c_cap ch) eqn:Hlt; [|done]. apply Nat.ltb_lt in Hlt. intros [= <-].
  destruct I as [I1 I2 I3 I4]. pose proof (I4 _ _ Hg) as Hs. destruct (I3 _ _ Hc) as (Hcap & Hlen & Hh & Hsl).
  split; cbn; [done| | |].
  - intros s c' H. destruct (I2 _ _ H) as (ch' & E & Hse). destruct (decide (c = c')) as [<-|Hne].
    + rewrite lookup_insert_eq. eexists. split; [done|]. cbn. congruence.
    + rewrite lookup_insert_ne by done. eauto.
  - intros c' ch' [[<- <-]|[Hne H]]%lookup_insert_Some; cbn.
    + split_and!; [done|lia| |done]. unfold holders. cbn. rewrite map_filter_insert_True by (by exists server).
      rewrite map_size_insert_None; [by rewrite Hh|]. apply map_lookup_filter_None. right. intros x. rewrite Hg.
      intros [= <-]. apply holds_waiting.
    + unfold holders. cbn. rewrite holders_put; [by apply I3| |right; eauto using holds_waiting].
      intros [s E]. cbn in E. congruence.
  - intros g' p [[<- <-]|[_ H]]%lookup_insert_Some; [done|by eapply I4].
Qed.

Lemma give_up_ok g l l' : limiter_ok max l -> abandon g l = Some l' -> limiter_ok max l'.
Proof.
  intros I. unfold abandon. destruct (l_procs l !! g) as [[server c|]|] eqn:Hg; [|done..]. intros [= <-].
  destruct I as [I1 I2 I3 I4]. split; cbn; [done|done| |].
  - intros c' ch H. unfold holders. cbn. rewrite holders_drop by (eauto using holds_waiting). auto.
  - intros g' p [_ H]%lookup_delete_Some. by eapply I4.
Qed.

Lemma release_ok g l l' : limiter_ok max l -> release g l = Some l' -> limiter_ok max l'.
Proof.
  intros I. unfold release. destruct (l_procs l !! g) as [[|server [c|]]|] eqn:Hg; [done| |by apply I in Hg|done].
  destruct (l_chans l !! c) as [ch|] eqn:Hc; [|done]. cbn [mbind option_bind].
  destruct (c_len ch) as [|n] eqn:Hlen; [done|]. intros [= <-].
  destruct I as [I1 I2 I3 I4]. destruct (I3 _ _ Hc) as (Hcap & Hle & Hh & Hsl).
  split; cbn; [done| | |].
  - intros s c' H. destruct (I2 _ _ H) as (ch' & E & Hse). destruct (decide (c = c')) as [<-|Hne].
    + rewrite lookup_insert_eq. eexists. split; [done|]. cbn. congruence.
    + rewrite lookup_insert_ne by done. eauto.
  - intros c' ch' [[<- <-]|[Hne H]]%lookup_insert_Some; cbn.
    + split_and!; [done|lia| |done]. unfold holders. cbn. rewrite map_filter_delete.
      rewrite map_size_delete_Some; [fold (holders c l); lia|]. exists (InFlight server (Some c)).
      apply map_lookup_filter_Some. split; [done|]. by exists server.
    + unfold holders. cbn. rewrite holders_drop; [by apply I3|]. exists (InFlight server (Some c)). split; [done|].
      intros [s E]. cbn in E. congruence.
  - intros g' p [_ H]%lookup_delete_Some. by eapply I4.
Qed.

Lemma step_ok l l' : limiter_ok max l -> inflight_step l l' -> limiter_ok max l'.
Proof. intros I H. inversion H; subst; eauto using acquire_ok, take_slot_ok, give_up_ok, release_ok. Qed.

Lemma steps_ok l l' : limiter_ok max l -> rtc inflight_step l l' -> limiter_ok max l'.
Proof. intros I H. induction H; eauto using step_ok. Qed.

(** The UPDATEs in flight to a server are the holders of its channel's slots. *)
Lemma in_flight_holders server l c :
  limiter_ok max l -> l_slots l !! server = Some c -> in_flight server l = size (holders c l).
Proof.
  intros I Hs. unfold in_flight, holders. f_equal. apply map_filter_strong_ext. intros g p. cbn. split.
  - intros [[slot E] Hg]. cbn in E. subst p. split; [|done]. apply I in Hg as Hslot.
    destruct slot as [c'|]; [|done]. exists server. cbn. congruence.
  - intros [[s E] Hg]. cbn in E. subst p. split; [|done]. apply I in Hg as Hslot.
    destruct (lo_slots _ _ I _ _ Hslot) as (ch & Hc & <-). destruct (lo_slots _ _ I _ _ Hs) as (ch' & Hc' & <-).
    exists (Some c). cbn. congruence.
Qed.

Lemma in_flight_none server l : limiter_ok max l -> l_slots l !! server = None -> in_flight server l = 0.
Proof.
  intros I Hs. unfold in_flight. apply map_size_empty_iff, map_empty_filter. intros g p Hg [slot E]. cbn in E. subst p.
  apply I in Hg. destruct slot; congruence.
Qed.
End limiter.

(** [C38] The limit on UPDATEs in flight holds and no slot is lost.  In every state the
    goroutines of the process can reach after SetMaxInflightUpdates was called with a positive
    limit, whatever the interleaving of their acquires, timeouts and releases, at most that
    many UPDATEs are in flight to each server; a goroutine waiting to send to a server with
    fewer in flight can go ahead; and every UPDATE in flight can release its slot. *)
Theorem inflight_limit (max : Z) (l0 l : inflightLimiter) (server : string) :
  (0 < max)%Z -> SetMaxInflightUpdates max (newInflightLimiter DefaultMaxInflightUpdates) = Ok l0 ->
  rtc inflight_step l0 l ->
  (Z.of_nat (in_flight server l) <= max)%Z /\
  (forall g c, l_procs l !! g = Some (Waiting server c) -> (Z.of_nat (in_flight server l) < max)%Z ->
     is_Some (take_slot g l)) /\
  (forall g slot, l_procs l !! g = Some (InFlight server slot) -> is_Some (release g l)).
Proof.
  intros Hmax E Hr. unfold SetMaxInflightUpdates in E. destruct (Z.ltb_spec max 0); [lia|]. injection E as <-.
  assert (I : limiter_ok (Z.to_nat max) l).
  { eapply steps_ok; [lia|apply (limiter_ok_new (Z.to_nat max))|exact Hr]. }
  split_and!.
  - destruct (l_slots l !! server) as [c|] eqn:Hs; [|rewrite (in_flight_none _ _ _ I Hs); lia].
    rewrite (in_flight_holders _ _ _ _ I Hs). destruct (lo_slots _ _ I _ _ Hs) as (ch & Hc & _).
    destruct (lo_chans _ _ I _ _ Hc) as (_ & Hle & <- & _). lia.
  - intros g c Hg Hlt. apply (lo_procs _ _ I) in Hg as Hs. rewrite (in_flight_holders _ _ _ _ I Hs) in Hlt.
    destruct (lo_slots _ _ I _ _ Hs) as (ch & Hc & _). destruct (lo_chans _ _ I _ _ Hc) as (Hcap & _ & Hh & _).
    unfold take_slot. rewrite Hg, Hc. cbn [mbind option_bind]. rewrite Hcap, Hh. rewrite (proj2 (Nat.ltb_lt _ _)) by lia. by eexists.
  - intros g slot Hg. apply (lo_procs _ _ I) in Hg as Hs. destruct slot as [c|]; [|done].
    destruct (lo_slots _ _ I _ _ Hs) as (ch & Hc & _). destruct (lo_chans _ _ I _ _ Hc) as (_ & _ & Hh & _).
    unfold release. rewrite Hg, Hc. cbn. destruct (c_len ch); [|by eexists]. exfalso. symmetry in Hh.
    apply map_size_empty_iff, map_empty_filter in Hh. apply (Hh g _ Hg). by exists server.
Qed.

(** One sender under the default quota, a second one waiting. *)
Definition ex_limiter : inflightLimiter :=
  let l := acquire 2 "192.0.2.1:53" (acquire 1 "192.0.2.1:53" (newInflightLimiter 1)) in default l (take_slot 1 l).

Lemma inflight_limit_witness :
  in_flight "192.0.2.1:53" ex_limiter = 1 /\ (Z.of_nat (in_flight "192.0.2.1:53" ex_limiter) <= 1)%Z /\
  take_slot 2 ex_limiter = None /\ is_Some (release 1 ex_limiter).
Proof.
  assert (H0 : SetMaxInflightUpdates 1 (newInflightLimiter DefaultMaxInflightUpdates) = Ok (newInflightLimiter 1)) by reflexivity.
  assert (Hr : rtc inflight_step (newInflightLimiter 1) ex_limiter).
  { eapply rtc_l; [apply (step_acquire 1 "192.0.2.1:53"); reflexivity|].
    eapply rtc_l; [apply (step_acquire 2 "192.0.2.1:53"); vm_compute; reflexivity|].
    eapply rtc_l; [|apply rtc_refl]. apply (step_take 1). vm_compute. reflexivity. }
  destruct (inflight_limit 1 (newInflightLimiter 1) ex_limiter "192.0.2.1:53" eq_refl H0 Hr) as (H1 & _ & H3).
  split; [vm_compute; reflexivity|]. split; [exact H1|]. split; [vm_compute; reflexivity|].
  apply (H3 1 (Some 0)). vm_compute. reflexivity.
Defined.
