(* ===== verification/Router.v ===== *)
(** * The router

    server/router.go: a request goes to the modules configured for its opcode, in order, until
    one takes it; when all decline it is forwarded as it is; and a dump query is answered from
    the lease stores.  The router is generic in the state [St] its handlers work on.  What it
    relies on of a handler, and what it gives its clients, is the interface [Module]; the RFC
    9664 update handler and the SRP handler are shown to be such modules, each on its own lease
    store, and the proxy's dispatch of UPDATEs follows. *)

From Stdlib Require Import Ascii String ZArith Lia.
From S2P Require Import Prelude DnsName DnsData NodeIdent LeaseStore LeaseTree LeaseInv LeaseSpec LeaseOption LeasePolicy UpdateCore.
From S2P Require Import HandlerBase Expiry UpdateHandler UpdateFootprint UpdateTheorems.
From S2P Require Import DnsSd SrpClassify SrpValidate SrpHandler SrpEffects SrpTheorems.

Local Open Scope Z_scope.

(** ** State *)

(** A handler as the router sees it.  [None] is a panic, and a [None] result a nil one; the
    dump functions are the optional interfaces the router asks for. *)
Record Handler (St : Type) := mkHandler {
  hd_Handle : Msg -> St -> option (St * option HandlerResult);
  hd_DumpLeasesLevel : option (string -> St -> string);
  hd_DumpLeases : option (St -> string) }.
Arguments mkHandler {St} _ _ _.
Arguments hd_Handle {St} _ _ _.
Arguments hd_DumpLeasesLevel {St} _.
Arguments hd_DumpLeases {St} _.

Record Router (St : Type) := mkRouter {
  r_opcodeMap : gmap Z (list string);
  r_handlers : gmap string (Handler St);
  r_resolver : option (Msg -> result Msg);
  r_requestTimeout : Z }.
Arguments mkRouter {St} _ _ _ _.
Arguments r_opcodeMap {St} _.
Arguments r_handlers {St} _.
Arguments r_resolver {St} _.
Arguments r_requestTimeout {St} _.

Section router.
Context {St : Type}.

Definition NewRouter (opcodeMap : gmap Z (list string)) (resolver : option (Msg -> result Msg)) (requestTimeout : Z)
    : result (Router St) :=
  if requestTimeout <=? 0 then Err "request timeout must be positive"
  else Ok (mkRouter opcodeMap ∅ resolver requestTimeout).

Definition RegisterHandler (name : string) (h : Handler St) (r : Router St) : Router St :=
  mkRouter (r_opcodeMap r) (<[name := h]> (r_handlers r)) (r_resolver r) (r_requestTimeout r).

(** ** Forwarding *)

(** A SERVFAIL made from nothing but the request's id. *)
Definition servfail (rMsg : Msg) : Msg :=
  mkMsg (mkMsgHeader (ID (MsgHdr rMsg)) 0 true false false false RcodeServerFailure 0) [] [] [] [] [] [].

Definition forwardMessage (r : Router St) (msg : Msg) : result Msg :=
  match r_resolver r with
  | None => Err "no resolver configured"
  | Some query => query msg
  end.

Definition forwardToUpstream (r : Router St) (rMsg : Msg) : Msg :=
  match forwardMessage r rMsg with Ok resp => resp | Err _ => servfail rMsg end.

(** ** Dump queries *)

Definition dumpQueryName : string := "__dump.sig0lease.internal.".
Definition dumpQueryDebugName : string := "__dump.sig0lease.internal.debug.".

Definition isDumpQuery (m : Msg) : bool :=
  match Question m with
  | [] => false
  | q :: _ => if negb (q_Type q =? TypeTXT) then false
              else EqualFold (q_Name q) dumpQueryName || EqualFold (q_Name q) dumpQueryDebugName
  end.

Definition dumpLevelFromQuery (m : Msg) : string :=
  match Question m with
  | [] => "info"
  | q :: _ => if EqualFold (q_Name q) dumpQueryDebugName then "debug" else "info"
  end.

Definition maxTxtLen : nat := 240.

(** The chunking loop; the fuel is the length of the text. *)
Fixpoint dump_chunks (fuel : nat) (s : string) : list string :=
  match fuel with
  | O => []
  | S fuel => match s with
              | EmptyString => []
              | _ => string_take maxTxtLen s :: dump_chunks fuel (string_drop maxTxtLen s)
              end
  end.

(** The text of one handler, if it can be dumped. *)
Definition dump_of (level : string) (s : St) (h : Handler St) : option string :=
  match hd_DumpLeasesLevel h with
  | Some dump => Some (dump level s)
  | None => match hd_DumpLeases h with Some dump => Some (dump s) | None => None end
  end.

(** The dump text; Go's order over the handlers is unspecified. *)
Definition dump_text (r : Router St) (level : string) (s : St) : string :=
  match omap (fun e => dump_of level s e.2) (map_to_list (r_handlers r)) with
  | [] => (if bool_decide (level = "debug") then "=== Lease Store Dump ===" else "=== Lease Store Summary ===")
            +:+ String "010" "(no dump-capable handlers configured)" +:+ String "010" ""
  | texts => String.concat "" texts
  end.

Definition handleDumpQuery (r : Router St) (m : Msg) (s : St) : Msg :=
  let text := dump_text r (dumpLevelFromQuery m) s in
  mkMsg (mkMsgHeader (ID (MsgHdr m)) 0 true true false false RcodeSuccess 0) (Question m)
        (map (fun chunk => mkRR (mkHeader dumpQueryName ClassINET 0) (RD_TXT [chunk])) (dump_chunks (String.length text) text))
        [] [] [] [].

(** ** Routing *)

Definition moduleForOpcode (r : Router St) (opcode : Z) : list string := default [] (r_opcodeMap r !! opcode).

(** The loop over the modules: the answer of the first that takes the request, or none.  A
    processed result without a message is a nil dereference. *)
Fixpoint try_modules (r : Router St) (rMsg : Msg) (moduleNames : list string) (s : St) : option (St * option Msg) :=
  match moduleNames with
  | [] => Some (s, None)
  | moduleName :: rest =>
      match r_handlers r !! moduleName with
      | None => try_modules r rMsg rest s
      | Some handler =>
          out ← hd_Handle handler rMsg s;
          match out with
          | (s, None) => try_modules r rMsg rest s
          | (s, Some res) =>
              match Status res with
              | StatusProcessed => m ← Message res; Some (s, Some m)
              | StatusNotRelevant => try_modules r rMsg rest s
              | StatusError => Some (s, Some (default (servfail rMsg) (Message res)))
              end
          end
      end
  end.

Definition Route (r : Router St) (rMsg : Msg) (s : St) : option (St * Msg) :=
  if isDumpQuery rMsg then Some (s, handleDumpQuery r rMsg s)
  else
    match moduleForOpcode r (Opcode (MsgHdr rMsg)) with
    | [] => Some (s, forwardToUpstream r rMsg)
    | moduleNames =>
        out ← try_modules r rMsg moduleNames s;
        match out with
        | (s, Some m) => Some (s, m)
        | (s, None) => Some (s, forwardToUpstream r rMsg)
        end
    end.

(** ** What the router relies on *)

(** A result the router can use: a declined request without a message, or an answer to the
    request. *)
Definition answers (rMsg : Msg) (res : HandlerResult) : Prop :=
  match Status res with
  | StatusNotRelevant => True
  | _ => exists m, Message res = Some m /\ ID (MsgHdr m) = ID (MsgHdr rMsg) /\ Response (MsgHdr m) = true
  end.

(** A module: on the requests [ok] of the wire and the states [inv] it always returns, keeps
    [inv], answers, and changes nothing when it declines; what it does not own, [frame], it
    never changes. *)
Class Module (ok : Msg -> Prop) (inv : St -> Prop) (frame : St -> St -> Prop) (h : Handler St) : Prop := {
  module_total : forall r s, ok r -> inv s ->
    exists s' res, hd_Handle h r s = Some (s', Some res) /\ inv s' /\ answers r res;
  module_declines : forall r s s' res, hd_Handle h r s = Some (s', Some res) -> Status res = StatusNotRelevant -> s' = s;
  module_frame : forall r s s' res, hd_Handle h r s = Some (s', res) -> frame s s' }.

Context (ok : Msg -> Prop) (inv : St -> Prop) (r : Router St).
Context (frame : string -> St -> St -> Prop).
Hypothesis modules : forall name h, r_handlers r !! name = Some h -> Module ok inv (frame name) h.

(** The module that took the request, after others that declined it. *)
Inductive taken_by (rMsg : Msg) (s s' : St) (m : Msg) : list string -> Prop :=
| taken_here name rest h res :
    r_handlers r !! name = Some h -> hd_Handle h rMsg s = Some (s', Some res) -> Status res <> StatusNotRelevant ->
    Message res = Some m -> frame name s s' -> taken_by rMsg s s' m (name :: rest)
| taken_later name rest :
    (forall h, r_handlers r !! name = Some h -> exists res, hd_Handle h rMsg s = Some (s, Some res) /\ Status res = StatusNotRelevant) ->
    taken_by rMsg s s' m rest -> taken_by rMsg s s' m (name :: rest).

Definition all_decline (rMsg : Msg) (s : St) (names : list string) : Prop :=
  forall name h, name ∈ names -> r_handlers r !! name = Some h ->
    exists res, hd_Handle h rMsg s = Some (s, Some res) /\ Status res = StatusNotRelevant.

Lemma try_modules_spec rMsg names s :
  ok rMsg -> inv s ->
  exists s' om, try_modules r rMsg names s = Some (s', om) /\ inv s' /\
    match om with
    | Some m => taken_by rMsg s s' m names /\ ID (MsgHdr m) = ID (MsgHdr rMsg) /\ Response (MsgHdr m) = true
    | None => s' = s /\ all_decline rMsg s names
    end.
Proof using modules.
  intros Hok Hs. induction names as [|name rest IH]; cbn [try_modules].
  { exists s, None. split_and!; [done..|]. intros n h Hn. by apply not_elem_of_nil in Hn. }
  destruct (r_handlers r !! name) as [h|] eqn:Hh.
  - destruct (modules _ _ Hh) as [Ht Hd Hf]. destruct (Ht rMsg s Hok Hs) as (s' & res & HH & Hs' & Ha).
    rewrite HH. cbn [mbind option_bind]. unfold answers in Ha. destruct (Status res) eqn:ES.
    + destruct Ha as (m & Hm & Hid & Hr). rewrite Hm. cbn [mbind option_bind]. exists s', (Some m). split_and!; [done..| |done|done].
      eapply taken_here; eauto. by rewrite ES.
    + assert (s' = s) as -> by eauto.
      destruct IH as (s1 & om & -> & Hi & Hom). exists s1, om. split_and!; [done..|]. destruct om as [m|].
      * destruct Hom as [? ?]. split; [|done]. apply taken_later; [|done]. intros h' [= <-]%(eq_trans (eq_sym Hh)). eauto.
      * destruct Hom as [-> Hall]. split; [done|]. intros n h' [->|Hn]%elem_of_cons Hh'; [|by eapply Hall]. simplify_eq. eauto.
    + destruct Ha as (m & Hm & Hid & Hr). rewrite Hm. cbn [default]. exists s', (Some m). split_and!; [done..| |done|done].
      eapply taken_here; eauto. by rewrite ES.
  - destruct IH as (s1 & om & -> & Hi & Hom). exists s1, om. split_and!; [done..|]. destruct om as [m|].
    + destruct Hom as [? ?]. split; [|done]. apply taken_later; [|done]. intros h' ?. congruence.
    + destruct Hom as [-> Hall]. split; [done|]. intros n h' [->|Hn]%elem_of_cons Hh'; [congruence|by eapply Hall].
Qed.
End router.

(** ** Dump texts *)

Lemma dump_chunks_spec fuel s :
  (String.length s <= fuel)%nat ->
  String.concat "" (dump_chunks fuel s) = s /\
  Forall (fun c => 0 < String.length c <= maxTxtLen)%nat (dump_chunks fuel s).
Proof.
  revert s. induction fuel as [|fuel IH]; intros s Hl; [by destruct s; cbn in Hl; [split|lia]|].
  destruct s as [|c s]; [by split|]. set (t := String c s) in *.
  change (dump_chunks (S fuel) t) with (string_take maxTxtLen t :: dump_chunks fuel (string_drop maxTxtLen t)).
  destruct (IH (string_drop maxTxtLen t)) as [Hc Hf].
  { rewrite string_drop_length. unfold maxTxtLen. subst t. cbn [String.length] in *. lia. }
  assert (Hcat : forall x l, String.concat "" (x :: l) = x +:+ String.concat "" l).
  { intros x [|y l]; cbn; [by rewrite string_app_nil_r|done]. }
  split.
  - rewrite Hcat, Hc. apply string_take_drop.
  - constructor; [|done]. destruct (Nat.le_gt_cases maxTxtLen (String.length t)) as [H|H].
    + rewrite string_take_length by done. unfold maxTxtLen. lia.
    + assert (E : string_take maxTxtLen t = t).
      { rewrite <- (string_take_drop maxTxtLen t) at 2. assert (E0 : string_drop maxTxtLen t = "").
        { assert (Hz : String.length (string_drop maxTxtLen t) = 0%nat) by (rewrite string_drop_length; lia).
          by destruct (string_drop maxTxtLen t). }
        by rewrite E0, string_app_nil_r. }
      rewrite E. split; [subst t; cbn; lia|lia].
Qed.

(** ** The two modules

    Each handler keeps its own lease store (cmd/sig0lease refuses a configuration that shares
    one).  [Env] is what a request meets: its transport, whether its locks are taken before
    its deadline, and the readings of the clock.  The text a handler prints of its store is an
    argument. *)

Record Proxy := mkProxy { p_update : World; p_srp : SRPWorld }.

Record Env := mkEnv { e_udp : bool; e_acquired : bool; e_now0 : Z; e_now : Z; e_now' : Z }.

Section modules.
Context {L : DnsLib} {LL : DnsLibLaws L} {SG : Sig0} {U : UpstreamCoordinator}.
Context (uh : UpdateHandler) (sh : SRPHandler) (e : Env) (dump : string -> Store -> string).

Definition update_module : Handler Proxy :=
  mkHandler (fun r p => '(w, res) ← Handle uh (e_acquired e) (w_store (p_update p)) (e_now0 e) (e_now e) (e_now' e) r (p_update p);
                        Some (mkProxy w (p_srp p), Some res))
            (Some (fun level p => dump level (w_store (p_update p)))) None.

Definition srp_module : Handler Proxy :=
  mkHandler (fun r p => '(x, res) ← SRP_Handle sh (e_udp e) (e_acquired e) (e_now e) (e_now' e) r (p_srp p);
                        Some (mkProxy (p_update p) x, Some res))
            (Some (fun level p => dump level (w_store (sw (p_srp p))))) None.

Definition update_name : string := "update_handler".
Definition srp_name : string := "srp_handler".

(** What the configuration gives both. *)
Record configured : Prop := {
  cf_update : requireUpstream uh = true;
  cf_policy : policy_uint32 (h_LeasePolicy uh);
  cf_srp : is_Some (s_upstreamKey sh);
  cf_zone : fqdn (s_upstreamZone sh) = true }.

Definition both_WF (p : Proxy) : Prop := WF (w_store (p_update p)) /\ WF (w_store (sw (p_srp p))).

(** Each module leaves the other's state alone. *)
Definition owns (name : string) (p p' : Proxy) : Prop :=
  if bool_decide (name = srp_name) then p_update p' = p_update p else p_srp p' = p_srp p.

(** *** Answers *)

Lemma error_result_answers r r' rc msg : MsgHdr r' = MsgHdr r -> answers r (error_result r' rc msg).
Proof. intros H. cbn. eexists. split; [done|]. cbn. by rewrite H. Qed.

Lemma update_answers acquired st0 now0 now now' r w w' res :
  policy_uint32 (h_LeasePolicy uh) -> Handle uh acquired st0 now0 now now' r w = Some (w', res) ->
  answers r res /\ (Status res = StatusNotRelevant -> w' = w).
Proof using LL.
  intros (P1 & P2 & P3 & P4) HH. unfold Handle in HH. destruct (hasUpdateLeaseOption r) eqn:Hopt; cbn [andb] in HH.
  2:{ unfold prologue in HH. rewrite Hopt in HH. cbn in HH. injection HH as <- <-. done. }
  case_match; [done|]. assert (He : forall res, error_reply r res -> answers r res /\ (Status res = StatusNotRelevant -> w' = w)).
  { intros res' (Hs & m & ? & ? & ? & _). unfold answers. rewrite Hs. split; [eauto|done]. }
  destruct (prologue uh st0 now0 r) as [res0|q] eqn:Hp.
  { simplify_eq. apply He. by eapply prologue_error. }
  destruct acquired; cbn [negb] in HH; [|simplify_eq; apply He; by apply error_result_reply].
  pose proof (prologue_inv _ _ _ _ _ Hp) as (qst & l0 & k0 & _ & _ & _ & _ & _ & _ & _ & Hpl & Hc & _).
  apply parseLease_ok in Hpl as (Hl0 & Hk0 & _).
  apply clamp_ok in Hc as (Hl & Hk & Hle); [|unfold policy_nonneg, uint32_ok in *; lia|done..].
  destruct (dispatch_reply _ _ _ _ _ _ _ _ Hl Hk Hle HH) as [?|(Hs & m & notes & ? & ? & ? & _)]; [by apply He|].
  unfold answers. rewrite Hs. split; [eauto|done].
Qed.

Lemma srp_prologue_header h udp r r' cu : srp_prologue h udp r = Some (inr (r', cu)) -> MsgHdr r' = MsgHdr r.
Proof.
  unfold srp_prologue. intros H. repeat (case_match; try done); by simplify_eq.
Qed.

Lemma srp_prologue_answers h udp r res : srp_prologue h udp r = Some (inl res) -> answers r res.
Proof.
  unfold srp_prologue, refuseDottedLabels. intros H.
  repeat (case_match; try done); simplify_eq; first [done | by apply error_result_answers].
Qed.

Lemma fcfs_names_error h V r cu names acc res :
  fcfs_names h V r cu names acc = Some (inl res) -> exists rc msg, res = error_result r rc msg.
Proof.
  revert acc. induction names as [|name names IH]; intros acc; cbn [fcfs_names]; [done|].
  destruct (KeyFor _ _ _); cbn [mbind option_bind]; [|done].
  destruct (Evaluate _ _ _ _ _) as [[[] ?]|]; intros; simplify_eq; eauto.
Qed.

Lemma srp_locked_answers h now now' r cu x x' res :
  srp_locked h now now' r cu x = Some (x', res) -> answers r res /\ Status res <> StatusNotRelevant.
Proof.
  assert (He : forall rc msg, answers r (error_result r rc msg) /\ Status (error_result r rc msg) <> StatusNotRelevant).
  { intros rc msg. split; [by apply error_result_answers|done]. }
  unfold srp_locked. cbn zeta. destruct (fcfs_names _ _ _ _ _ _) as [[res0|prereqs]|] eqn:Hf; cbn [mbind option_bind]; [| |done].
  { apply fcfs_names_error in Hf as (rc & msg & ->). by intros [= _ <-]. }
  destruct (srp_parseLease r) as [[l k]|]; [|by intros [= _ <-]]. destruct (clamp _ _ _) as [l' k'].
  destruct (forwardRecords _ _ _); cbn [mbind option_bind]; [|done].
  destruct (send _ _ _) as [out|]; cbn [mbind option_bind]; [|done].
  destruct (o_err out); [repeat case_match; by intros [= _ <-]|].
  destruct (applyLocalMutations _ _ _ _ _ _ _) as [[[st' touched] ?]|]; cbn [mbind option_bind]; [|done].
  destruct (reconcileServiceEnumeration _ _ _); cbn [mbind option_bind]; [|done].
  intros [= _ <-]. split; [|done]. cbn. by eexists.
Qed.

Lemma srp_answers h udp acquired now now' r x x' res :
  SRP_Handle h udp acquired now now' r x = Some (x', res) ->
  answers r res /\ (Status res = StatusNotRelevant -> x' = x).
Proof.
  unfold SRP_Handle. destruct (srp_prologue h udp r) as [[res0|[r' cu]]|] eqn:Hp; cbn [mbind option_bind]; [| |done].
  { intros [= <- <-]. split; [by eapply srp_prologue_answers|done]. }
  apply srp_prologue_header in Hp. destruct (lockRoots _ _); cbn [mbind option_bind]; [|done].
  assert (Hans : forall res, answers r' res -> answers r res) by (intros res0; unfold answers; by rewrite Hp).
  destruct acquired; cbn [negb]; [intros [? ?]%srp_locked_answers; split; [auto|done]|].
  intros [= <- <-]. split; [by apply error_result_answers|done].
Qed.

(** *** The interface, discharged *)

Lemma update_Module : configured -> Module decoded both_WF (owns update_name) update_module.
Proof using LL.
  intros [Hu Hpol _ _]. split.
  - intros r p Hr [W W']. cbn [update_module hd_Handle].
    assert (HT : exists w' res, Handle uh (e_acquired e) (w_store (p_update p)) (e_now0 e) (e_now e) (e_now' e) r (p_update p)
        = Some (w', res) /\ WF (w_store w')).
    { unfold Handle. rewrite Hu, andb_false_r. destruct (prologue _ _ _ _) as [res|q] eqn:Hp; [eauto|].
      destruct (e_acquired e); cbn [negb]; [|eauto].
      destruct (dispatch_post uh q (e_now e) (e_now' e) r (p_update p)) as (w' & res & Hd & HW & _);
        [by eapply decoded_request_ok|done|by apply bool_decide_eq_true in Hu|eauto]. }
    destruct HT as (w' & res & HH & HW). destruct (update_answers _ _ _ _ _ _ _ _ _ Hpol HH) as [Ha _].
    rewrite HH. cbn. eexists _, _. split; [done|]. split; [by split|done].
  - intros r p p' res. cbn. destruct (Handle _ _ _ _ _ _ _ _) as [[w' res']|] eqn:HH; [|done]. cbn. intros [= <- <-] Hs.
    destruct (update_answers _ _ _ _ _ _ _ _ _ Hpol HH) as [_ Hd]. rewrite (Hd Hs). by destruct p.
  - intros r p p' res. cbn. destruct (Handle _ _ _ _ _ _ _ _) as [[w' res']|] eqn:HH; [|done]. cbn. by intros [= <- <-].
Qed.

Lemma srp_Module : configured -> Module decoded both_WF (owns srp_name) srp_module.
Proof using LL.
  intros [_ _ Hk Hz]. split.
  - intros r p [Hr _] [W W']. cbn [srp_module hd_Handle].
    destruct (SRP_Handle_total sh (e_udp e) (e_acquired e) (e_now e) (e_now' e) r (p_srp p) W' Hr Hz Hk) as [[x' res] HH].
    rewrite HH. cbn. eexists _, _. split; [done|]. split; [split; [done|by eapply SRP_Handle_WF]|by eapply srp_answers].
  - intros r p p' res. cbn. destruct (SRP_Handle _ _ _ _ _ _ _) as [[x' res']|] eqn:HH; [|done]. cbn. intros [= <- <-] Hs.
    apply srp_answers in HH as [_ Hd]. rewrite (Hd Hs). by destruct p.
  - intros r p p' res. cbn. destruct (SRP_Handle _ _ _ _ _ _ _) as [[x' res']|] eqn:HH; [|done]. cbn. by intros [= <- <-].
Qed.
End modules.

(** ** The proxy *)

Section proxy.
Context {L : DnsLib} {LL : DnsLibLaws L} {SG : Sig0} {U : UpstreamCoordinator}.
Context (uh : UpdateHandler) (sh : SRPHandler) (e : Env) (dump : string -> Store -> string).
Context (resolver : option (Msg -> result Msg)) (timeout : Z).

(** The router with both modules, SRP first, as config.yaml lists them for opcode 5. *)
Definition proxy_router : Router Proxy :=
  RegisterHandler update_name (update_module uh e dump)
    (RegisterHandler srp_name (srp_module sh e dump)
       (mkRouter {[OpcodeUpdate := [srp_name; update_name]]} ∅ resolver timeout)).

Lemma proxy_modules : configured uh sh ->
  forall name h, r_handlers proxy_router !! name = Some h -> Module decoded both_WF (owns name) h.
Proof using LL.
  intros Hc name h. cbn. intros [[<- <-]|[_ H]]%lookup_insert_Some; [by apply update_Module with (sh := sh)|].
  apply lookup_insert_Some in H as [[<- <-]|[_ H]]; [by apply srp_Module with (uh := uh)|]. by rewrite lookup_empty in H.
Qed.

(** The text of an answer of TXT records. *)
Definition txt_text (m : Msg) : string :=
  String.concat "" (concat (map (fun rr => match RD rr with RD_TXT l => l | _ => [] end) (Answer m))).

Lemma txt_text_chunks hdr q hd chunks :
  txt_text (mkMsg hdr q (map (fun chunk => mkRR hd (RD_TXT [chunk])) chunks) [] [] [] []) = String.concat "" chunks.
Proof.
  unfold txt_text. cbn [Answer]. f_equal. induction chunks as [|c l IH]; [done|]. cbn [map concat RD]. by rewrite IH.
Qed.

(** One of the two handlers answered, the other's state untouched. *)
Definition srp_answered (r : Msg) (p p' : Proxy) (m : Msg) : Prop :=
  p_update p' = p_update p /\
  exists res, SRP_Handle sh (e_udp e) (e_acquired e) (e_now e) (e_now' e) r (p_srp p) = Some (p_srp p', res) /\
    Status res <> StatusNotRelevant /\ Message res = Some m.

Definition srp_declined (r : Msg) (p : Proxy) : Prop :=
  exists res, SRP_Handle sh (e_udp e) (e_acquired e) (e_now e) (e_now' e) r (p_srp p) = Some (p_srp p, res) /\
    Status res = StatusNotRelevant.

Definition update_answered (r : Msg) (p p' : Proxy) (m : Msg) : Prop :=
  p_srp p' = p_srp p /\ hasUpdateLeaseOption r = true /\
  exists res, Handle uh (e_acquired e) (w_store (p_update p)) (e_now0 e) (e_now e) (e_now' e) r (p_update p)
    = Some (p_update p', res) /\ Status res <> StatusNotRelevant /\ Message res = Some m.

(** The update handler declines exactly the UPDATEs without the lease option. *)
Lemma update_declines acquired st0 now0 now now' r w w' res :
  policy_uint32 (h_LeasePolicy uh) -> Handle uh acquired st0 now0 now now' r w = Some (w', res) ->
  Status res = StatusNotRelevant <-> hasUpdateLeaseOption r = false.
Proof using LL.
  intros (P1 & P2 & P3 & P4) HH. unfold Handle in HH. destruct (hasUpdateLeaseOption r) eqn:Hopt; cbn [andb] in HH.
  2:{ unfold prologue in HH. rewrite Hopt in HH. cbn in HH. injection HH as <- <-. done. }
  split; [|done]. case_match; [done|].
  destruct (prologue uh st0 now0 r) as [res0|q] eqn:Hp.
  { injection HH as <- <-. destruct (prologue_error _ _ _ _ _ Hopt Hp) as [-> _]. done. }
  destruct acquired; cbn [negb] in HH; [|injection HH as <- <-; done].
  pose proof (prologue_inv _ _ _ _ _ Hp) as (qst & l0 & k0 & _ & _ & _ & _ & _ & _ & _ & Hpl & Hc & _).
  apply parseLease_ok in Hpl as (Hl0 & Hk0 & _).
  apply clamp_ok in Hc as (Hl & Hk & Hle); [|unfold policy_nonneg, uint32_ok in *; lia|done..].
  destruct (dispatch_reply _ _ _ _ _ _ _ _ Hl Hk Hle HH) as [[-> _]|[-> _]]; done.
Qed.

Lemma proxy_srp_handler : r_handlers proxy_router !! srp_name = Some (srp_module sh e dump).
Proof. cbn. rewrite lookup_insert_ne by done. apply lookup_insert_eq. Qed.

Lemma proxy_update_handler : r_handlers proxy_router !! update_name = Some (update_module uh e dump).
Proof. cbn. apply lookup_insert_eq. Qed.

Lemma srp_module_run r p p' res :
  hd_Handle (srp_module sh e dump) r p = Some (p', Some res) ->
  SRP_Handle sh (e_udp e) (e_acquired e) (e_now e) (e_now' e) r (p_srp p) = Some (p_srp p', res) /\ p_update p' = p_update p.
Proof. cbn. destruct (SRP_Handle _ _ _ _ _ _ _) as [[x' res']|]; [|done]. cbn. by intros [= <- <-]. Qed.

Lemma update_module_run r p p' res :
  hd_Handle (update_module uh e dump) r p = Some (p', Some res) ->
  Handle uh (e_acquired e) (w_store (p_update p)) (e_now0 e) (e_now e) (e_now' e) r (p_update p) = Some (p_update p', res) /\
  p_srp p' = p_srp p.
Proof. cbn. destruct (Handle _ _ _ _ _ _ _ _) as [[x' res']|]; [|done]. cbn. by intros [= <- <-]. Qed.

(** What the module loop did with an UPDATE. *)
Lemma proxy_taken r p p' m : configured uh sh ->
  taken_by proxy_router owns r p p' m [srp_name; update_name] ->
  srp_answered r p p' m \/ srp_declined r p /\ update_answered r p p' m.
Proof using LL.
  intros Hc H. inversion H as [? ? h res Hh HH Hs Hm _ E|? ? Hd Hlater E]; subst.
  - left. rewrite proxy_srp_handler in Hh. injection Hh as <-. apply srp_module_run in HH as [HH ?]. split; [done|]. eauto.
  - right. destruct (Hd _ proxy_srp_handler) as (res0 & HH0%srp_module_run & Hs0). destruct HH0 as [HH0 _].
    split; [exists res0; done|]. inversion Hlater as [? ? h res Hh HH Hs Hm _ E|? ? _ Hnil E]; subst; [|by inversion Hnil].
    rewrite proxy_update_handler in Hh. injection Hh as <-. apply update_module_run in HH as [HH ?].
    split; [done|]. split; [|eauto]. apply not_false_iff_true. intros Hf. apply Hs.
    eapply update_declines; [apply Hc|exact HH|done].
Qed.

Lemma proxy_declined r p : configured uh sh ->
  all_decline proxy_router r p [srp_name; update_name] -> srp_declined r p /\ hasUpdateLeaseOption r = false.
Proof using LL.
  intros Hc H. split.
  - destruct (H srp_name _ ltac:(by left) proxy_srp_handler) as (res & [HH _]%srp_module_run & Hs). by exists res.
  - destruct (H update_name _ ltac:(by right; left) proxy_update_handler) as (res & [HH _]%update_module_run & Hs).
    eapply update_declines; [apply Hc|exact HH|done].
Qed.

(** What one request through the router leaves; [proxy_dispatch] below. *)
Lemma Route_spec (r : Msg) (p : Proxy) :
  configured uh sh -> decoded r -> both_WF p ->
  exists p' m, Route proxy_router r p = Some (p', m) /\ both_WF p' /\
    if isDumpQuery r then
      p' = p /\ txt_text m = dump_text proxy_router (dumpLevelFromQuery r) p /\
      Forall (fun rr => exists chunk, RD rr = RD_TXT [chunk] /\ (0 < String.length chunk <= maxTxtLen)%nat) (Answer m)
    else if negb (Opcode (MsgHdr r) =? OpcodeUpdate) then p' = p /\ m = forwardToUpstream proxy_router r
    else
      ((srp_answered r p p' m \/ srp_declined r p /\ update_answered r p p' m) /\
       ID (MsgHdr m) = ID (MsgHdr r) /\ Response (MsgHdr m) = true) \/
      (srp_declined r p /\ hasUpdateLeaseOption r = false /\ p' = p /\ m = forwardToUpstream proxy_router r).
Proof using LL.
  intros Hc Hr W. unfold Route. destruct (isDumpQuery r).
  - eexists p, _. split; [done|]. split; [done|]. split; [done|]. unfold handleDumpQuery.
    set (text := dump_text _ _ _). destruct (dump_chunks_spec (String.length text) text) as [Ht Hf]; [done|]. split.
    + by rewrite txt_text_chunks.
    + apply Forall_map. eapply Forall_impl; [exact Hf|]. intros c Hl. cbn. eauto.
  - unfold moduleForOpcode. cbn [proxy_router RegisterHandler r_opcodeMap]. destruct (Z.eqb_spec (Opcode (MsgHdr r)) OpcodeUpdate) as [->|Hne].
    + rewrite lookup_singleton_eq. cbn [default negb].
      destruct (try_modules_spec decoded both_WF proxy_router owns (proxy_modules Hc) r [srp_name; update_name] p Hr W)
        as (p' & om & HT & W' & Hom). cbn [default from_option id]. rewrite HT. cbn [mbind option_bind]. destruct om as [m|].
      * exists p', m. split_and!; [done..|]. left. destruct Hom as (Ht & ? & ?). split; [|done]. by apply proxy_taken.
      * destruct Hom as [-> Hall]. eexists p, _. split_and!; [done..|]. right. apply proxy_declined in Hall as [? ?]; [|done]. done.
    + rewrite lookup_singleton_ne by done. cbn. eexists p, _. split_and!; done.
Qed.

(** [C11] Every request gets one answer from one place.  The proxy never panics on a decoded
    request and keeps both lease stores well formed.  A dump query is answered, without any
    change, with the whole dump text in TXT strings of at most 240 octets.  A request that is
    not an UPDATE is forwarded without any change.  An UPDATE goes to the SRP handler first;
    the update handler sees it only when the SRP handler declined it, and takes it exactly when
    it has the lease option; whichever answers, the other's lease store, timers and log are
    untouched, and the answer carries the request's id; an UPDATE that both decline is
    forwarded without any change. *)
Theorem proxy_dispatch (r : Msg) (p : Proxy) :
  configured uh sh -> decoded r -> both_WF p ->
  exists p' m, Route proxy_router r p = Some (p', m) /\ both_WF p' /\
    if isDumpQuery r then
      p' = p /\ txt_text m = dump_text proxy_router (dumpLevelFromQuery r) p /\
      Forall (fun rr => exists chunk, RD rr = RD_TXT [chunk] /\ (0 < String.length chunk <= maxTxtLen)%nat) (Answer m)
    else if negb (Opcode (MsgHdr r) =? OpcodeUpdate) then p' = p /\ m = forwardToUpstream proxy_router r
    else
      ((srp_answered r p p' m \/ srp_declined r p /\ update_answered r p p' m) /\
       ID (MsgHdr m) = ID (MsgHdr r) /\ Response (MsgHdr m) = true) \/
      (srp_declined r p /\ hasUpdateLeaseOption r = false /\ p' = p /\ m = forwardToUpstream proxy_router r).
Proof using LL. apply Route_spec. Qed.
End proxy.

(** The printer's registration through the whole proxy. *)
Definition ex_update_handler : UpdateHandler :=
  mkUpdateHandler "example.com." (Some DemoUp.proxy_key) (mkLeasePolicy 0 0 0 0) 300 false false [].
Definition ex_proxy : Proxy := mkProxy (mkWorld NewInMemoryManager newExpiryTimers []) SrpRun.fresh.

Lemma proxy_dispatch_witness :
  exists p' m,
    Route (proxy_router (L := Demo.lib) (SG := DemoUp.sig0) (U := SrpRun.upstream) ex_update_handler SrpRun.handler
             (mkEnv false true 4 5 6) (fun _ _ => "") None 20) SrpRun.request ex_proxy = Some (p', m) /\
    both_WF (L := Demo.lib) p' /\ ID (MsgHdr m) = 7.
Proof.
  destruct (proxy_dispatch (L := Demo.lib) (LL := Demo.laws) (SG := DemoUp.sig0) (U := SrpRun.upstream) ex_update_handler SrpRun.handler
    (mkEnv false true 4 5 6) (fun _ _ => "") None 20 SrpRun.request ex_proxy) as (p' & m & HR & HW & H).
  - split; [reflexivity|vm_compute; intuition discriminate|by eexists|reflexivity].
  - split; [apply SrpRun.request_wf|]. intros sig Hs. vm_compute in Hs. injection Hs as <-. vm_compute. reflexivity.
  - split; apply WF_new.
  - exists p', m. split; [exact HR|]. split; [exact HW|].
    change (isDumpQuery SrpRun.request) with false in H. change (Opcode (MsgHdr SrpRun.request) =? OpcodeUpdate) with true in H.
    cbn [negb] in H. destruct H as [(_ & Hid & _)|(_ & Hf & _)]; [exact Hid|]. vm_compute in Hf. discriminate Hf.
Defined.
