(* ===== verification/SrpComplete.v ===== *)
(** * SRP updates: what classification accepts

    The converse of SrpClassify: [srp_form] states a shape of updates, that of RFC 9665 S3.3.1
    but for the two places where classification looks at the order of the records, and every
    update of that shape is classified; so a requester that builds such an update is
    understood. *)

From Stdlib Require Import Ascii String ZArith Lia.
From S2P Require Import Prelude DnsName DnsData SrpClassify SrpValidate.

Local Open Scope Z_scope.

Definition fname (rr : RR) : string := Fold (Name (Hdr rr)).
Definition is_KEY (rr : RR) : bool := match RD rr with RD_KEY _ => true | _ => false end.
Definition is_TXT (rr : RR) : bool := match RD rr with RD_TXT _ => true | _ => false end.
Definition is_addr (rr : RR) : bool := match RD rr with RD_A _ | RD_AAAA _ => true | _ => false end.

(** A record with a place in an update: a Delete All, an add, or the delete of one PTR. *)
Definition in_place (rr : RR) : bool :=
  match RD rr with
  | RD_ANY => true
  | RD_KEY _ | RD_A _ | RD_AAAA _ | RD_SRV _ _ _ _ | RD_TXT _ => Class (Hdr rr) =? ClassINET
  | RD_PTR _ => (Class (Hdr rr) =? ClassINET) || (Class (Hdr rr) =? ClassNONE)
  | _ => false
  end.

Definition ptr_add (name target : string) (rr : RR) : Prop :=
  exists ptr, RD rr = RD_PTR ptr /\ Class (Hdr rr) = ClassINET /\ fname rr = name /\ Fold ptr = target.

(** An update of host [hn]. *)
Record srp_form (ns : list RR) (hn : string) : Prop := {
  sf_place : forall rr, rr ∈ ns -> in_place rr = true;
  (* one Delete All, at most one SRV and at most one KEY at each name *)
  sf_dels : NoDup (map fname (filter (fun rr => is_ANY rr = true) ns));
  sf_srvs : NoDup (map fname (filter (fun rr => is_SRV rr = true) ns));
  sf_keys : NoDup (map fname (filter (fun rr => is_KEY rr = true) ns));
  (* the Host Description: a Delete All, a KEY, and every address *)
  sf_host : exists rr, rr ∈ ns /\ is_ANY rr = true /\ fname rr = hn;
  sf_hostkey : exists rr, rr ∈ ns /\ is_KEY rr = true /\ fname rr = hn;
  sf_addr : forall rr, rr ∈ ns -> is_addr rr = true -> fname rr = hn;
  (* Service Descriptions: a Delete All each, elsewhere than at the host *)
  sf_inst : forall rr, rr ∈ ns -> is_SRV rr = true \/ is_TXT rr = true ->
    fname rr <> hn /\ exists del, del ∈ ns /\ is_ANY del = true /\ fname del = fname rr;
  sf_live : forall rr p w port target, rr ∈ ns -> RD rr = RD_SRV p w port target ->
    Fold target = hn /\ (exists txt, txt ∈ ns /\ is_TXT txt = true /\ fname txt = fname rr) /\
    exists ptr name, ptr ∈ ns /\ ptr_add name (fname rr) ptr;
  (* Service Discovery: adds list live instances, a subtype after its base type *)
  sf_ptr : forall rr name target, rr ∈ ns -> ptr_add name target rr ->
    exists srv, srv ∈ ns /\ is_SRV srv = true /\ fname srv = target;
  sf_sub : forall l rr rest name target base, ns = l ++ rr :: rest -> ptr_add name target rr ->
    isSubtypePTROwner name = Some base ->
    exists rr', rr' ∈ l /\ ptr_add base target rr' /\ isSubtypePTROwner base = None;
  (* KEYs at the host or at an instance; without addresses, those of instances that are
     removed come after the host's *)
  sf_keyat : forall rr, rr ∈ ns -> is_KEY rr = true ->
    fname rr = hn \/ exists del, del ∈ ns /\ is_ANY del = true /\ fname del = fname rr;
  sf_fallback : (exists rr, rr ∈ ns /\ is_addr rr = true) \/
    forall i rr, ns !! i = Some rr -> is_KEY rr = true ->
      fname rr = hn \/ (exists srv, srv ∈ ns /\ is_SRV srv = true /\ fname srv = fname rr) \/
      exists j k, (j < i)%nat /\ ns !! j = Some k /\ is_KEY k = true /\ fname k = hn }.

(** ** Positions *)

Lemma unique_position {A B} (P : A -> bool) (f : A -> B) (l : list A) i j x y :
  NoDup (map f (filter (fun a => P a = true) l)) -> l !! i = Some x -> l !! j = Some y -> P x = true -> P y = true ->
  f x = f y -> i = j.
Proof.
  revert i j. induction l as [|a l IH]; intros i j Hnd Hi Hj Px Py E; [done|].
  assert (Hsome : forall k z, l !! k = Some z -> P z = true -> f z ∈ map f (filter (fun a => P a = true) l)).
  { intros k z Hk Pz. apply list_elem_of_fmap. exists z. split; [done|]. apply list_elem_of_filter. split; [done|].
    by eapply list_elem_of_lookup_2. }
  rewrite filter_cons in Hnd. destruct i as [|i], j as [|j]; cbn in Hi, Hj; simplify_eq.
  - done.
  - rewrite decide_True in Hnd by done. cbn in Hnd. apply NoDup_cons in Hnd as [Hn _]. destruct Hn. rewrite E. eauto.
  - rewrite decide_True in Hnd by done. cbn in Hnd. apply NoDup_cons in Hnd as [Hn _]. destruct Hn. rewrite <- E. eauto.
  - f_equal. eapply IH; eauto. case_decide; [by apply NoDup_cons in Hnd as [_ ?]|done].
Qed.

Lemma elem_of_add_positions l i : i ∈ add_positions l <-> exists rr, l !! i = Some rr /\ is_ANY rr = false.
Proof.
  unfold add_positions. rewrite list_elem_of_omap. split.
  - intros ([j rr] & (k & Hk)%list_elem_of_lookup & E). rewrite list_lookup_imap in Hk.
    destruct (l !! k) as [rr'|] eqn:El; [|done]. cbn in Hk. injection Hk as -> ->. cbn in E.
    destruct (is_ANY rr) eqn:Ea; [done|]. injection E as ->. eauto.
  - intros (rr & Hl & Ha). exists (i, rr). cbn. rewrite Ha. split; [|done]. apply list_elem_of_lookup. exists i.
    rewrite list_lookup_imap, Hl. done.
Qed.

Lemma delete_at_elem ns name : (exists i, delete_at ns name i) <-> exists rr, rr ∈ ns /\ is_ANY rr = true /\ fname rr = name.
Proof.
  split.
  - intros (i & rr & Hi & Ha & Hn). exists rr. split; [by eapply list_elem_of_lookup_2|done].
  - intros (rr & [i Hi]%list_elem_of_lookup & Ha & Hn). by exists i, rr.
Qed.

(** Where a record of a given kind is after the scan. *)
Section placed.
Context (ns l : list RR) (st : classifyState).
Hypothesis I : scan_inv ns l st.

Lemma placed_in i rr : l !! i = Some rr -> is_ANY rr = false -> i ∈ scan_adds st.
Proof using I. intros Hi Ha. rewrite (si_adds _ _ _ I). apply elem_of_add_positions. eauto. Qed.

(** One position is one add, of the kind the record says. *)
Lemma scan_adds_cases i : i ∈ scan_adds st ->
  (exists h, st_host st = Some h /\ i ∈ host_Addresses h /\ address_at ns (host_Name h) i) \/
  (exists inst, inst ∈ st_order st /\ inst_SRV inst = Some i /\ srv_at ns (inst_Name inst) i) \/
  (exists inst, inst ∈ st_order st /\ i ∈ inst_TXT inst /\ txt_at ns (inst_Name inst) i) \/
  (exists d, d ∈ st_discovery st /\ sd_RR d = i /\ ptr_at ns d) \/
  (i ∈ st_keyAdds st /\ exists name, key_at ns name i).
Proof using I.
  unfold scan_adds. rewrite !elem_of_app. intros [H|[H|[H|H]]].
  - left. destruct (st_host st) as [h|] eqn:E; [|by apply not_elem_of_nil in H]. exists h. split_and!; [done..|].
    by apply (si_host _ _ _ I h E).
  - apply list_elem_of_In, in_concat in H as (adds & (inst & <- & Hin)%in_map_iff & Hi). apply list_elem_of_In in Hin, Hi.
    destruct (si_inst _ _ _ I inst Hin) as ([_ Hs Ht _] & Hk & _). unfold inst_adds in Hi. rewrite Hk in Hi. cbn in Hi.
    apply elem_of_app in Hi as [Hi|Hi]; [right; left|right; right; left].
    + destruct (inst_SRV inst) as [j|] eqn:E; [|by apply not_elem_of_nil in Hi]. apply list_elem_of_singleton in Hi as ->.
      exists inst. auto.
    + exists inst. auto.
  - apply list_elem_of_fmap in H as (d & -> & Hd). right; right; right; left. exists d. split_and!; [done..|]. by apply I.
  - right; right; right; right. split; [done|]. by apply I.
Qed.

Lemma srv_placed i rr : i ∈ scan_adds st -> ns !! i = Some rr -> is_SRV rr = true ->
  exists inst, inst ∈ st_order st /\ inst_SRV inst = Some i /\ inst_Name inst = fname rr.
Proof using I.
  intros [(h & _ & _ & rr' & E & Ht & _)|[(inst & Hin & Hs & (hd & p & w & q & t & E & _ & Hn))|[(inst & _ & _ & (hd & t & E & _))|
    [(d & _ & <- & (hd & p & E & _))|(_ & n & k & E & _)]]]]%scan_adds_cases Hi Hs'; rewrite E in Hi; injection Hi as <-; try done.
  - unfold is_SRV, RRToType in *. destruct (RD rr'); cbn in *; destruct Ht; done.
  - exists inst. by rewrite <- Hn.
Qed.

Lemma txt_placed i rr : i ∈ scan_adds st -> ns !! i = Some rr -> is_TXT rr = true ->
  exists inst, inst ∈ st_order st /\ i ∈ inst_TXT inst /\ inst_Name inst = fname rr.
Proof using I.
  intros [(h & _ & _ & rr' & E & Ht & _)|[(inst & Hin & Hs & (hd & p & w & q & t & E & _ & Hn))|[(inst & Hin & Ht & (hd & t & E & _ & Hn))|
    [(d & _ & <- & (hd & p & E & _))|(_ & n & k & E & _)]]]]%scan_adds_cases Hi Hs'; rewrite E in Hi; injection Hi as <-; try done.
  - unfold is_TXT, RRToType in *. destruct (RD rr'); cbn in *; destruct Ht; done.
  - exists inst. by rewrite <- Hn.
Qed.

Lemma ptr_placed i rr ptr : i ∈ scan_adds st -> ns !! i = Some rr -> RD rr = RD_PTR ptr ->
  exists d, d ∈ st_discovery st /\ sd_Name d = fname rr /\ sd_Target d = Fold ptr /\
    (Class (Hdr rr) = ClassINET -> sd_IsAdd d = true) /\ sd_BaseType d = baseTypeOrEmpty (isSubtypePTROwner (sd_Name d)).
Proof using I.
  intros [(h & _ & _ & rr' & E & Ht & _)|[(inst & Hin & Hs & (hd & p & w & q & t & E & _ & Hn))|[(inst & Hin & Ht & (hd & t & E & _ & Hn))|
    [(d & Hd & <- & (hd & p & E & Hn & Ht & Hc & Hb))|(_ & n & k & E & _)]]]]%scan_adds_cases Hi Hs'; rewrite E in Hi;
    injection Hi as <-; try done.
  - unfold RRToType in *. rewrite Hs' in Ht. by destruct Ht.
  - cbn in Hs'. injection Hs' as ->. exists d. split_and!; [done..| |done]. cbn. intros Hc'. rewrite Hc' in Hc. by destruct (sd_IsAdd d).
Qed.

Lemma key_placed i rr : i ∈ scan_adds st -> ns !! i = Some rr -> is_KEY rr = true -> i ∈ st_keyAdds st.
Proof using I.
  intros [(h & _ & _ & rr' & E & Ht & _)|[(inst & Hin & Hs & (hd & p & w & q & t & E & _ & Hn))|[(inst & Hin & Ht & (hd & t & E & _ & Hn))|
    [(d & _ & <- & (hd & p & E & _))|(? & n & k & E & _)]]]]%scan_adds_cases Hi Hs'; rewrite E in Hi; injection Hi as <-; try done.
  unfold is_KEY, RRToType in *. destruct (RD rr'); cbn in *; destruct Ht; done.
Qed.

Lemma addr_placed i rr : i ∈ scan_adds st -> ns !! i = Some rr -> is_addr rr = true -> st_host st <> None.
Proof using I.
  intros [(h & -> & _)|[(inst & Hin & Hs & (hd & p & w & q & t & E & _ & Hn))|[(inst & Hin & Ht & (hd & t & E & _ & Hn))|
    [(d & _ & <- & (hd & p & E & _))|(? & n & k & E & _)]]]]%scan_adds_cases Hi Hs'; [done|rewrite E in Hi; injection Hi as <-; done..].
Qed.
End placed.

(** ** The scan goes through *)

Section progress.
Context (ns : list RR) (hn : string).
Hypothesis SF : srp_form ns hn.

(** What the scan invariant leaves out: whose the host is, and that instances are live ones. *)
Definition live_inst (inst : ServiceInstance) : Prop := inst_SRV inst <> None \/ inst_TXT inst <> [].

Record scan_live (st : classifyState) : Prop := {
  sl_host : forall h, st_host st = Some h -> host_Name h = hn;
  sl_inst : forall inst, inst ∈ st_order st -> live_inst inst }.

Lemma collect_deletes_progress l :
  NoDup (map fname (filter (fun rr => is_ANY rr = true) l)) -> exists dels, collect_deletes l = Ok dels.
Proof.
  induction l as [|rr l IH] using rev_ind; intros Hnd; [by eexists|].
  rewrite filter_app, map_app in Hnd. apply NoDup_app in Hnd as (Hnd & Hdis & _). destruct (IH Hnd) as [d0 Hd0].
  unfold collect_deletes. rewrite imap_pair_snoc, foldM_app. fold (collect_deletes l). rewrite Hd0. cbn [mbind result_bind foldM].
  destruct (is_ANY rr) eqn:Ha; [|unfold is_ANY in Ha; destruct (RD rr); try done; by eexists].
  assert (Hnone : d0 !! fname rr = None).
  { destruct (d0 !! fname rr) as [i|] eqn:E; [|done]. apply (collect_deletes_spec _ _ Hd0) in E as (rr' & Hi & Ha' & Hn).
    exfalso. apply (Hdis (fname rr)).
    - apply list_elem_of_fmap. exists rr'. split; [done|]. apply list_elem_of_filter. split; [done|]. by eapply list_elem_of_lookup_2.
    - rewrite filter_cons, decide_True by done. cbn. by left. }
  unfold is_ANY in Ha. unfold fname in Hnone. destruct (RD rr); try done. rewrite Hnone. by eexists.
Qed.

Lemma deleted_at l st rr : scan_inv ns l st ->
  (exists del, del ∈ ns /\ is_ANY del = true /\ fname del = fname rr) -> exists i, st_deletes st !! fname rr = Some i.
Proof. intros I [i Hi]%delete_at_elem. exists i. by apply I. Qed.

Lemma address_progress l st rr : scan_inv ns l st -> scan_live st -> rr ∈ ns -> is_addr rr = true ->
  exists st', addHostAddress (fname rr) (length l) st = Ok st' /\ scan_live st'.
Proof using SF.
  intros I [Hh Hi] Hin Ha. pose proof (sf_addr _ _ SF rr Hin Ha) as Hn. unfold addHostAddress.
  destruct (deleted_at l st rr I) as [del ->]; [rewrite Hn; apply SF|].
  destruct (st_host st) as [h|] eqn:E.
  - rewrite bool_decide_eq_true_2 by (rewrite Hn; auto). cbn [negb]. eexists. split; [done|].
    split; cbn; [intros h' [= <-]; cbn; auto|done].
  - eexists. split; [done|]. split; cbn; [by intros h' [= <-]|done].
Qed.

(** An instance at the name, new or known. *)
Lemma instanceFor_progress l st rr :
  scan_inv ns l st -> rr ∈ ns -> is_SRV rr = true \/ is_TXT rr = true ->
  exists st', instanceFor (fname rr) st = Ok st' /\ st_host st' = st_host st /\
    (forall inst, inst ∈ st_order st' -> inst ∈ st_order st \/ inst_Name inst = fname rr /\ inst_SRV inst = None).
Proof using SF.
  intros I Hin Hk. unfold instanceFor. destruct (instance_named (fname rr) (st_order st)); [eauto|].
  destruct (sf_inst _ _ SF rr Hin Hk) as [_ Hd]. destruct (deleted_at l st rr I Hd) as [del ->]. eexists. split; [done|].
  split; [done|]. cbn. intros inst [?| ->%list_elem_of_singleton]%elem_of_app; auto.
Qed.

Lemma update_live name g l :
  (forall inst, inst_Name inst = name -> live_inst (g inst)) -> (forall inst, inst ∈ l -> live_inst inst \/ inst_Name inst = name) ->
  forall inst, inst ∈ update_instance name g l -> live_inst inst.
Proof.
  intros Hg Hl inst [[Hin Hn]|(x & Hx & Hn & ->)]%update_instance_elem; [|auto]. by destruct (Hl inst Hin).
Qed.

(** The SRV of a name is its first. *)
Lemma srv_first l st rr rest i inst :
  ns = l ++ rr :: rest -> scan_inv ns l st -> is_SRV rr = true -> inst ∈ st_order st -> inst_Name inst = fname rr ->
  inst_SRV inst = Some i -> False.
Proof using SF.
  intros E I Hs Hin Hn Hi. destruct (si_inst _ _ _ I inst Hin) as ([_ Hsrv _ _] & _).
  destruct (Hsrv i Hi) as (hd & p & w & q & t & Hat & _ & Hname).
  assert (Hpos : i ∈ scan_adds st).
  { unfold scan_adds. rewrite !elem_of_app. right; left. apply list_elem_of_In, in_concat. exists (inst_adds inst). split.
    - apply in_map_iff. exists inst. split; [done|]. by apply list_elem_of_In.
    - apply list_elem_of_In. unfold inst_adds. rewrite Hi, !elem_of_app. right; left. by left. }
  rewrite (si_adds _ _ _ I) in Hpos. apply elem_of_add_positions in Hpos as (rr' & Hl & _).
  assert (i = length l) as ->.
  { eapply (unique_position is_SRV fname ns); [apply SF|exact Hat| |done|exact Hs|].
    - rewrite E. by apply list_lookup_middle.
    - unfold fname. cbn. by rewrite Hname, Hn. }
  apply lookup_lt_Some in Hl. lia.
Qed.

(** A subtype's base type has been seen. *)
Lemma base_seen l st rr rest ptr base :
  ns = l ++ rr :: rest -> scan_inv ns l st -> RD rr = RD_PTR ptr -> Class (Hdr rr) = ClassINET ->
  isSubtypePTROwner (fname rr) = Some base ->
  existsb (fun d => bool_decide (sd_BaseType d = "") && bool_decide (sd_Name d = base)
                    && bool_decide (sd_Target d = Fold ptr)) (ptrAdds (st_discovery st)) = true.
Proof using SF.
  intros E I Hr Hc Hb. destruct (sf_sub _ _ SF l rr rest (fname rr) (Fold ptr) base E) as (rr' & Hin & Hpa & Hnone); [by exists ptr|done|].
  destruct Hpa as (ptr' & Hr' & Hc' & Hn' & Ht'). apply list_elem_of_lookup in Hin as [i Hi].
  destruct (ptr_placed ns l st I i rr' ptr') as (d & Hd & Hdn & Hdt & Hda & Hdb);
    [eapply placed_in; eauto; unfold is_ANY; by rewrite Hr'|rewrite E; by apply lookup_app_l_Some|done|].
  apply existsb_exists. exists d. split.
  - apply list_elem_of_In, list_elem_of_filter. auto.
  - rewrite Hdb, Hdn, Hn', Hnone, Hdt, Ht'. cbn. by rewrite !bool_decide_eq_true_2.
Qed.

Lemma classify_rr_progress l st rr rest :
  ns = l ++ rr :: rest -> scan_inv ns l st -> scan_live st ->
  exists st', classify_rr st (length l, rr) = Ok st' /\ scan_live st'.
Proof using SF.
  intros E I SL. assert (Hin : rr ∈ ns) by (rewrite E; apply elem_of_app; right; by left).
  pose proof (sf_place _ _ SF rr Hin) as Hp. unfold in_place in Hp. unfold classify_rr. cbn zeta. fold (fname rr).
  destruct (RD rr) as [a|a|k|s|pr w q t|txt|ptr| | | | | | | | | | | | | | | | | | | | | | ] eqn:Hr; try done; rewrite ?Hp; cbn [negb].
  - apply address_progress; [done..|]. unfold is_addr. by rewrite Hr.
  - apply address_progress; [done..|]. unfold is_addr. by rewrite Hr.
  - eexists. split; [done|]. destruct SL. by split.
  - assert (Hs : is_SRV rr = true) by (unfold is_SRV; by rewrite Hr).
    destruct (instanceFor_progress l st rr I Hin (or_introl Hs)) as (st1 & H1 & Hh & Hnew). rewrite H1. cbn [mbind result_bind].
    destruct (instanceFor_inv _ _ _ _ _ I H1) as [I1 [inst Hi]]. rewrite Hi. apply instance_named_Some in Hi as [Hin1 Hn1].
    destruct inst as [n d k0 [i|] tx rs]; cbn in Hn1.
    { exfalso. eapply (srv_first l st1 rr rest i); eauto. }
    eexists. split; [done|]. destruct SL as [S1 S2]. split; cbn [set_order st_host st_order]; [rewrite Hh; done|].
    apply update_live; [by left|]. intros x [?|[? _]]%Hnew; auto.
  - assert (Hs : is_TXT rr = true) by (unfold is_TXT; by rewrite Hr).
    destruct (instanceFor_progress l st rr I Hin (or_intror Hs)) as (st1 & H1 & Hh & Hnew). rewrite H1. cbn [mbind result_bind].
    eexists. split; [done|]. destruct SL as [S1 S2]. split; cbn [set_order st_host st_order]; [rewrite Hh; done|].
    apply update_live; [right; cbn; by destruct (inst_TXT inst)|]. intros x [?|[? _]]%Hnew; auto.
  - unfold addPTR. cbn zeta. assert (HSL : forall d, scan_live (add_discovery d st)) by (intros d; destruct SL; by split).
    destruct (Class (Hdr rr) =? ClassINET) eqn:Hc; cbn [orb] in Hp.
    + destruct (isSubtypePTROwner (fname rr)) as [base|] eqn:Hb; [|eexists; split; [done|apply HSL]].
      rewrite (base_seen l st rr rest ptr base) by (done || by apply Z.eqb_eq). eexists. split; [done|apply HSL].
    + rewrite Hp. eexists. split; [done|apply HSL].
  - by eexists.
Qed.

Lemma scan_progress : exists st, scan ns = Ok st /\ scan_inv ns ns st /\ scan_live st.
Proof using SF.
  unfold scan. destruct (collect_deletes_progress ns (sf_dels _ _ SF)) as [dels Hd]. rewrite Hd. cbn [mbind result_bind].
  assert (Hgen : forall l, l `prefix_of` ns ->
    exists st, foldM classify_rr (mkCS dels ∅ None [] [] []) (imap pair l) = Ok st /\ scan_inv ns l st /\ scan_live st).
  { intros l. induction l as [|rr l IH] using rev_ind; intros Hpre.
    - eexists. split; [done|]. split.
      + split; cbn; try done; [apply (collect_deletes_spec _ _ Hd)|intros ? Hx; by apply not_elem_of_nil in Hx|apply NoDup_nil_2| |..].
        * intros n. split; [set_solver|]. intros [(? & ? & _)|Hx]; [done|by apply not_elem_of_nil in Hx].
        * intros d Hx. by apply not_elem_of_nil in Hx.
        * intros i Hx. by apply not_elem_of_nil in Hx.
      + split; cbn; [done|]. intros ? Hx. by apply not_elem_of_nil in Hx.
    - destruct IH as (st & HF & I & SL); [destruct Hpre as [suf ->]; exists ([rr] ++ suf); by rewrite app_assoc|].
      destruct Hpre as [suf Hpre]. rewrite <- app_assoc in Hpre. cbn in Hpre.
      destruct (classify_rr_progress l st rr suf Hpre I SL) as (st' & Hst & SL'). exists st'.
      rewrite imap_pair_snoc, foldM_app, HF. cbn [mbind result_bind foldM]. rewrite Hst. cbn [mbind result_bind]. split; [done|].
      split; [|done]. eapply classify_rr_inv; [exact I| |exact Hst]. rewrite Hpre. by apply list_lookup_middle. }
  by apply Hgen.
Qed.

(** ** The reconciliation goes through *)

Lemma srv_instance st name : scan_inv ns ns st -> (exists srv, srv ∈ ns /\ is_SRV srv = true /\ fname srv = name) ->
  exists inst i, instance_named name (st_order st) = Some inst /\ inst_SRV inst = Some i.
Proof.
  intros I (srv & [i Hi]%list_elem_of_lookup & Hs & <-).
  assert (Hnany : is_ANY srv = false) by (unfold is_SRV, is_ANY in *; by destruct (RD srv)).
  destruct (srv_placed ns ns st I i srv) as (inst & Hin & Hsrv & Hn); [by eapply placed_in|done|done|].
  destruct (instance_named (fname srv) (st_order st)) as [inst'|] eqn:E.
  - apply instance_named_Some in E as [Hin' Hn']. assert (inst' = inst) as ->; [|eauto].
    apply list_elem_of_lookup in Hin as [n1 H1], Hin' as [n2 H2].
    pose proof (si_names _ _ _ I) as Hnd. assert (n1 = n2) as ->; [|congruence].
    eapply NoDup_lookup; [exact Hnd|rewrite list_lookup_fmap, H1; done|rewrite list_lookup_fmap, H2; cbn; congruence].
  - apply instance_named_None in E. destruct E. apply list_elem_of_fmap. exists inst. done.
Qed.

Lemma order_not_host st inst : scan_inv ns ns st -> scan_live st -> inst ∈ st_order st -> inst_Name inst <> hn.
Proof using SF.
  intros I SL Hin. destruct (si_inst _ _ _ I inst Hin) as ([_ Hs Ht _] & _).
  destruct (sl_inst _ SL inst Hin) as [H|H].
  - destruct (inst_SRV inst) as [i|] eqn:E; [|done]. destruct (Hs i eq_refl) as (hd & p & w & q & t & Hat & _ & Hn).
    destruct (sf_inst _ _ SF (mkRR hd (RD_SRV p w q t))) as [Hne _]; [by eapply list_elem_of_lookup_2|by left|].
    unfold fname in Hne. cbn in Hne. congruence.
  - destruct (inst_TXT inst) as [|i ts] eqn:E; [done|]. destruct (Ht i) as (hd & t & Hat & _ & Hn); [by left|].
    destruct (sf_inst _ _ SF (mkRR hd (RD_TXT t))) as [Hne _]; [by eapply list_elem_of_lookup_2|by right|].
    unfold fname in Hne. cbn in Hne. congruence.
Qed.

Lemma key_position st k : scan_inv ns ns st -> k ∈ st_keyAdds st ->
  exists rr, ns !! k = Some rr /\ is_KEY rr = true /\ owner_of ns k = fname rr /\ rr ∈ ns /\ key_at ns (fname rr) k.
Proof.
  intros I Hk. destruct (si_keys _ _ _ I k Hk) as (name & key & Hat & Hc & Hn). exists (KEY_RR key).
  split_and!; [done|done| |by eapply list_elem_of_lookup_2|by exists key]. unfold owner_of. by rewrite Hat.
Qed.

Lemma key_of_host st : scan_inv ns ns st -> exists k, k ∈ st_keyAdds st /\ owner_of ns k = hn.
Proof using SF.
  intros I. destruct (sf_hostkey _ _ SF) as (rr & [k Hk]%list_elem_of_lookup & Hkey & Hn). exists k.
  assert (Hnany : is_ANY rr = false) by (unfold is_KEY, is_ANY in *; by destruct (RD rr)).
  split; [eapply key_placed; eauto; by eapply placed_in|]. unfold owner_of. rewrite Hk. done.
Qed.

(** The host, found by its addresses or by its KEY. *)
Lemma host_fallback_progress keys st : StronglySorted lt keys ->
  st_host st = None ->
  (forall k, k ∈ keys -> owner_of ns k = hn \/ owner_of ns k ∈ st_consumed st \/ exists j, (j < k)%nat /\ j ∈ keys /\ owner_of ns j = hn) ->
  hn ∉ st_consumed st -> (exists i, st_deletes st !! hn = Some i) -> (exists k, k ∈ keys /\ owner_of ns k = hn) ->
  exists h, host_fallback ns keys st = consume hn (set_host h st) /\ host_Name h = hn.
Proof.
  intros Hsort Hh Hkeys Hnc [del Hdel] (k0 & Hk0 & Ho0). induction Hsort as [|k keys _ IH Hall]; [by apply not_elem_of_nil in Hk0|].
  rewrite Forall_forall in Hall. cbn [host_fallback]. cbn zeta. destruct (Hkeys k) as [Hk|[Hk|(j & Hlt & Hj & _)]]; [by left| | |].
  3:{ apply elem_of_cons in Hj as [->|Hj%Hall]; lia. }
  - rewrite Hk, Hdel, bool_decide_eq_false_2 by done. cbn [negb]. eauto.
  - assert (Hrec : exists h, host_fallback ns keys st = consume hn (set_host h st) /\ host_Name h = hn).
    { apply IH; [|apply elem_of_cons in Hk0 as [->|?]; [congruence|done]]. intros k' Hk'.
      destruct (Hkeys k') as [?|[?|(j & Hlt & Hj & Ho)]]; [by right|by left|by right; left|right; right].
      apply elem_of_cons in Hj as [->|Hj]; [congruence|eauto]. }
    destruct (st_deletes st !! owner_of ns k); [|done]. by rewrite bool_decide_eq_true_2.
Qed.

Lemma host_progress st0 : scan_inv ns ns st0 -> scan_live st0 -> StronglySorted lt (st_keyAdds st0) ->
  let st := match st_host st0 with None => host_fallback ns (st_keyAdds st0) st0 | Some _ => st0 end in
  exists h, st_host st = Some h /\ host_Name h = hn /\ st_order st = st_order st0 /\ st_discovery st = st_discovery st0 /\
    st_keyAdds st = st_keyAdds st0.
Proof using SF.
  intros I SL Hsort. cbn zeta. destruct (st_host st0) as [h|] eqn:Hh; [exists h; split_and!; [done|by apply SL|done..]|].
  destruct (host_fallback_progress (st_keyAdds st0) st0 Hsort) as (h & E & Hn); [done| | | | |].
  - intros k Hk. destruct (key_position st0 k I Hk) as (rr & Hat & Hkey & -> & Hin & _).
    destruct (sf_fallback _ _ SF) as [(a & [i Hi]%list_elem_of_lookup & Ha)|Hfb].
    + exfalso. assert (is_ANY a = false) by (unfold is_addr, is_ANY in *; by destruct (RD a)).
      eapply (addr_placed ns ns st0 I i a); eauto. by eapply placed_in.
    + destruct (Hfb k rr Hat Hkey) as [?|[Hs|(j & kr & Hlt & Hj & Hjk & Hjn)]]; [by left|right; left|right; right].
      2:{ exists j. split; [done|]. assert (is_ANY kr = false) by (unfold is_KEY, is_ANY in *; by destruct (RD kr)).
          split; [eapply key_placed; eauto; by eapply placed_in|]. unfold owner_of. by rewrite Hj. }
      destruct (srv_instance st0 _ I Hs) as (inst & _ & Hi & _).
      apply instance_named_Some in Hi as [Hi Hn]. apply I. right. apply list_elem_of_fmap. by exists inst.
  - intros [(h & ? & _)|(inst & Hn & Hin)%list_elem_of_fmap]%(si_consumed _ _ _ I); [congruence|].
    by apply (order_not_host st0 inst I SL Hin).
  - destruct (sf_host _ _ SF) as (rr & Hin & Ha & <-). eapply deleted_at; eauto.
  - by apply key_of_host.
  - exists h. rewrite E. cbn. done.
Qed.

Lemma checks_progress st : scan_inv ns ns st -> check_targets st = Ok tt /\ check_instances ns hn st = Ok tt.
Proof using SF.
  intros I. split.
  - apply foldM_ok_each. intros d [Ha Hd]%list_elem_of_filter.
    destruct (si_disc _ _ _ I d Hd) as (hd & ptr & Hat & Hn & Ht & Hc & _). rewrite Ha in Hc.
    destruct (sf_ptr _ _ SF _ (sd_Name d) (sd_Target d) (list_elem_of_lookup_2 _ _ _ Hat)) as (srv & Hsrv);
      [exists ptr; split_and!; [done..|by unfold fname; cbn|done]|].
    destruct (srv_instance st (sd_Target d) I) as (inst & i & -> & Hi); [eauto|]. by destruct inst as [? ? ? [?|] ? ?].
  - apply foldM_ok_each. intros inst Hin. destruct (inst_SRV inst) as [i|] eqn:Hi; [|done].
    destruct (si_inst _ _ _ I inst Hin) as ([_ Hs _ _] & _).
    destruct (Hs i Hi) as (hd & p & w & q & t & Hat & _ & Hn). pose proof (list_elem_of_lookup_2 _ _ _ Hat) as Hel.
    destruct (sf_live _ _ SF _ _ _ _ _ Hel eq_refl) as (Htg & (txt & [j Hj]%list_elem_of_lookup & Ht & Htn) & ptr & name & Hp & Hpa).
    unfold fname in Htn, Hpa. cbn [Hdr] in Htn, Hpa. rewrite Hn in Htn, Hpa.
    assert (Hj' : is_ANY txt = false) by (unfold is_TXT, is_ANY in *; by destruct (RD txt)).
    destruct (txt_placed ns ns st I j txt) as (inst' & Hin' & Hjt & Hn'); [by eapply placed_in|done|done|].
    assert (inst' = inst) as ->.
    { apply list_elem_of_lookup in Hin as [n1 H1], Hin' as [n2 H2].
      assert (n1 = n2) as ->; [|congruence]. eapply NoDup_lookup; [apply (si_names _ _ _ I)|rewrite list_lookup_fmap, H1; done|].
      rewrite list_lookup_fmap, H2. cbn. f_equal. unfold fname in Hn'. congruence. }
    destruct (length (inst_TXT inst) =? 0)%nat eqn:Hl.
    { apply Nat.eqb_eq, nil_length_inv in Hl. rewrite Hl in Hjt. by apply not_elem_of_nil in Hjt. }
    unfold srv_target. rewrite Hat, bool_decide_eq_true_2 by done. cbn [negb].
    destruct Hpa as (tgt & Hr & Hc & _ & Htgt). apply list_elem_of_lookup in Hp as [m Hm].
    destruct (ptr_placed ns ns st I m ptr tgt) as (d & Hd & _ & Hdt & Hda & _);
      [eapply placed_in; eauto; unfold is_ANY; by rewrite Hr|done|done|].
    replace (existsb _ _) with true; [done|]. symmetry. apply existsb_exists. exists d. split.
    + apply list_elem_of_In, list_elem_of_filter. auto.
    + apply bool_decide_eq_true_2. congruence.
Qed.

(** A key that was assigned is one of those done. *)
Lemma assigned_done h0 l0 done hl k :
  keys_inv ns h0 l0 done hl -> (forall inst, inst ∈ l0 -> inst_ok ns inst /\ inst_Key inst = None) ->
  k ∈ keys_of hl -> (exists name, key_at ns name k) -> k ∈ done.
Proof.
  intros K Hl0 Hk (name & key & Hat & _). rewrite (ki_keys _ _ _ _ _ K) in Hk. apply elem_of_app in Hk as [?|Hk]; [done|].
  exfalso. apply list_elem_of_In, in_concat in Hk as (adds & (inst & <- & Hin)%in_map_iff & Hk). apply list_elem_of_In in Hin, Hk.
  destruct (Hl0 inst Hin) as ([_ Hs Ht _] & Hn). unfold inst_adds in Hk. rewrite Hn in Hk. cbn in Hk.
  apply elem_of_app in Hk as [Hk|Hk].
  - destruct (inst_SRV inst) as [j|] eqn:E; [|by apply not_elem_of_nil in Hk]. apply list_elem_of_singleton in Hk as ->.
    destruct (Hs j eq_refl) as (? & ? & ? & ? & ? & Hat' & _). rewrite Hat in Hat'. discriminate Hat'.
  - destruct (Ht k Hk) as (? & ? & Hat' & _). rewrite Hat in Hat'. discriminate Hat'.
Qed.

Lemma key_unique name i j : key_at ns name i -> key_at ns name j -> i = j.
Proof using SF.
  intros (k & Hk & _ & Hn) (k' & Hk' & _ & Hn'). eapply (unique_position is_KEY fname ns); [apply SF|exact Hk|exact Hk'|done|done|].
  unfold fname. cbn. congruence.
Qed.

Lemma keys_progress h0 l0 ks :
  (forall inst, inst ∈ l0 -> inst_ok ns inst /\ inst_Key inst = None) -> NoDup (map inst_Name l0) ->
  host_Name h0 = hn -> host_Key h0 = None -> NoDup ks ->
  (forall k, k ∈ ks -> exists name, key_at ns name k /\ (name = hn \/ name ∈ map inst_Name l0)) ->
  exists hl, foldM (assign_key ns) (h0, l0) ks = Ok hl /\
    ((exists k, k ∈ ks /\ owner_of ns k = hn) -> host_Key hl.1 <> None).
Proof using SF.
  intros Hl0 Hnd Hh Hk0 Hks Hat. induction ks as [|k ks IH] using rev_ind.
  { eexists. split; [done|]. intros (k & Hk & _). by apply not_elem_of_nil in Hk. }
  apply NoDup_app in Hks as (Hks & Hdis & _).
  destruct IH as (hl & HF & Hset); [done|intros k' Hk'; apply Hat, elem_of_app; by left|].
  assert (K : keys_inv ns h0 l0 ks hl).
  { apply assign_keys_spec in HF; [done| |done|intros; by apply Hl0|done].
    intros k' Hk'. destruct (Hat k') as (name & ? & _); [apply elem_of_app; by left|by exists name]. }
  destruct (Hat k) as (name & Hkat & Hname); [apply elem_of_app; right; by left|].
  assert (Hnew : k ∉ ks) by (intros Hin; apply (Hdis k Hin); by left).
  rewrite foldM_app, HF. cbn [mbind result_bind foldM]. destruct hl as [host insts].
  pose proof (key_at_owner _ _ _ Hkat) as Hown. destruct (ki_host _ _ _ _ _ K) as [Hhn _]. cbn [fst] in Hhn.
  unfold assign_key. cbn zeta. rewrite Hown. case_bool_decide as Hn.
  - destruct (host_Key host) as [i|] eqn:Ehk.
    { exfalso. pose proof (ki_hkey _ _ _ _ _ K i Ehk) as Hi. assert (i = k) as ->.
      { eapply key_unique; [exact Hi|]. by rewrite <- Hhn, <- Hn. }
      apply Hnew, (assigned_done h0 l0 ks (host, insts)); [done|done| |eauto]. unfold keys_of. cbn. rewrite Ehk. by left. }
    cbn. eexists. split; [done|]. done.
  - destruct Hname as [->|Hname]; [congruence|].
    assert (Hnames : map inst_Name insts = map inst_Name l0).
    { pose proof (ki_same _ _ _ _ _ K) as HS. cbn [snd] in HS. clear -HS. induction HS as [|a b l l' [E _] ? IH]; [done|].
      cbn. by rewrite E, IH. }
    destruct (instance_named name insts) as [inst|] eqn:Ei; [|by apply instance_named_None in Ei; rewrite Hnames in Ei].
    apply instance_named_Some in Ei as [Hin Hin'].
    destruct (inst_Key inst) as [i|] eqn:Eik.
    { exfalso. destruct (ki_ok _ _ _ _ _ K inst Hin) as [_ _ _ Hkey]. assert (i = k) as ->.
      { eapply key_unique; [by apply Hkey|]. by rewrite Hin'. }
      apply Hnew, (assigned_done h0 l0 ks (host, insts)); [done|done| |eauto]. unfold keys_of. cbn. apply elem_of_app. right.
      apply list_elem_of_In, in_concat. exists (inst_adds inst). split; [apply in_map_iff; exists inst; split; [done|by apply list_elem_of_In]|].
      apply list_elem_of_In. unfold inst_adds. rewrite Eik. by left. }
    cbn. eexists. split; [done|]. cbn. intros (k' & [Hk'| ->%list_elem_of_singleton]%elem_of_app & Ho); [eauto|]. congruence.
Qed.

Lemma NoDup_add_positions (l : list RR) : NoDup (add_positions l).
Proof.
  induction l as [|rr l IH] using rev_ind; [apply NoDup_nil_2|]. rewrite add_positions_snoc. apply NoDup_app. split_and!; [done| |].
  - intros i (x & Hx & _)%elem_of_add_positions Hi. destruct (is_ANY rr); [by apply not_elem_of_nil in Hi|].
    apply list_elem_of_singleton in Hi as ->. apply lookup_lt_Some in Hx. lia.
  - destruct (is_ANY rr); [apply NoDup_nil_2|apply NoDup_singleton].
Qed.

Lemma NoDup_keyAdds st : scan_inv ns ns st -> NoDup (st_keyAdds st).
Proof.
  intros I. pose proof (NoDup_add_positions ns) as H. rewrite <- (si_adds _ _ _ I) in H. unfold scan_adds in H.
  apply NoDup_app in H as (_ & _ & H). apply NoDup_app in H as (_ & _ & H). by apply NoDup_app in H as (_ & _ & H).
Qed.

(** Removals are at names no other instruction uses. *)
Lemma removals_elsewhere st r : r ∈ st_order (add_removals st) -> r ∈ st_order st \/ inst_Name r ∉ st_consumed st.
Proof.
  destruct (add_removals_loop (map_to_list (st_deletes st)) st) as [E _]; [apply NoDup_fst_map_to_list|].
  unfold add_removals. rewrite E, elem_of_app. intros [?|(p & -> & [Hp _]%list_elem_of_filter)%list_elem_of_fmap]; [by left|].
  right. by destruct p.
Qed.

Lemma same_names l l' : Forall2 same_but_key l l' -> map inst_Name l' = map inst_Name l.
Proof. induction 1 as [|a b l l' (E & _) _ IH]; [done|]. cbn. by rewrite E, IH. Qed.

Lemma reconcile_progress st0 : scan_inv ns ns st0 -> scan_live st0 -> StronglySorted lt (st_keyAdds st0) ->
  exists cu, classify_reconcile ns st0 = Ok cu /\ host_Name (cu_Host cu) = hn /\ hn ∉ map inst_Name (cu_Instances cu).
Proof using SF.
  intros I0 SL Hsort. unfold classify_reconcile. cbn zeta. destruct (host_progress st0 I0 SL Hsort) as (h & Hh & Hn & Ho & Hd & Hk).
  set (st := match st_host st0 with None => _ | Some _ => st0 end) in *.
  assert (I : scan_inv ns ns st) by (subst st; destruct (st_host st0) eqn:E; [done|by apply host_fallback_inv]). clearbody st.
  rewrite Hh. destruct (checks_progress st I) as [Hct Hci]. rewrite Hct. cbn [mbind result_bind]. rewrite Hn, Hci. cbn [mbind result_bind].
  destruct (add_removals_spec _ _ I) as (rs & E1 & Hrs & Hnd & Hdel & _ & E3 & E4).
  assert (Hother : hn ∉ map inst_Name (st_order st ++ rs)).
  { rewrite <- E1. intros (r & Er & [Hr|Hr]%removals_elsewhere)%list_elem_of_fmap.
    - rewrite Ho in Hr. by apply (order_not_host st0 r I0 SL Hr).
    - apply Hr, (si_consumed _ _ _ I). left. exists h. split; [done|congruence]. }
  rewrite E1, E4. pose proof (si_host _ _ _ I h Hh) as (Hk0 & _). destruct (keys_progress h (st_order st ++ rs) (st_keyAdds st)) as (hl & HF & Hset).
  - intros inst [Hin|Hin]%elem_of_app; [split; apply (si_inst _ _ _ I inst Hin)|by destruct (Hrs inst Hin) as (? & _ & ? & _)].
  - done.
  - done.
  - done.
  - by apply NoDup_keyAdds.
  - intros k Hin. destruct (key_position st k I Hin) as (rr & Hat & Hkey & _ & Hel & Hka). exists (fname rr). split; [done|].
    destruct (sf_keyat _ _ SF rr Hel Hkey) as [?|[i Hi]%delete_at_elem]; [by left|].
    destruct (Hdel _ _ Hi) as [(h' & Hh' & <-)|?]; [left; congruence|by right].
  - rewrite HF. cbn [mbind result_bind]. destruct (host_Key hl.1) as [k|] eqn:Ek.
    + eexists. split; [done|]. cbn.
      apply assign_keys_spec in HF as [[N1 _] _ Hsame _ _ _];
        [split; [congruence|by rewrite (same_names _ _ Hsame)]|intros; by eapply si_keys|done| |done].
      intros inst [Hin|Hin]%elem_of_app; [apply (si_inst _ _ _ I inst Hin)|by apply Hrs].
    + exfalso. apply Hset; [|done]. by apply key_of_host.
Qed.
End progress.

(** The scan collects the KEYs in their order. *)
Lemma classify_rr_keyAdds st i rr st' :
  classify_rr st (i, rr) = Ok st' -> st_keyAdds st' = st_keyAdds st ++ (if is_KEY rr then [i] else []).
Proof.
  assert (Hi : forall name st0 st1, instanceFor name st0 = Ok st1 -> st_keyAdds st1 = st_keyAdds st0).
  { intros name st0 st1. unfold instanceFor. intros H. by repeat (case_match; try done; simplify_eq/=). }
  unfold classify_rr, addHostAddress, addPTR, is_KEY. cbn zeta. intros H.
  destruct (RD rr); rewrite ?app_nil_r; repeat (case_match; try done; simplify_eq/=); try done;
    try (injection H as <-; done).
  all: apply bind_ok in H as (st1 & <-%Hi & H); repeat (case_match; try done; simplify_eq/=); try (injection H as <-); done.
Qed.

Lemma scan_keys_sorted l st0 st :
  st_keyAdds st0 = [] -> foldM classify_rr st0 (imap pair l) = Ok st ->
  StronglySorted lt (st_keyAdds st) /\ Forall (fun k => (k < length l)%nat) (st_keyAdds st).
Proof.
  intros H0. revert st. induction l as [|rr l IH] using rev_ind; intros st.
  { cbn. intros [= <-]. rewrite H0. by repeat constructor. }
  rewrite imap_app, foldM_app. intros (st1 & H1 & H2)%bind_ok. cbn in H2. apply bind_ok in H2 as (st2 & H2 & [= <-]).
  rewrite Nat.add_0_r in H2. apply classify_rr_keyAdds in H2 as ->. destruct (IH st1 H1) as [Hs Hf]. rewrite length_app. cbn [length].
  assert (Hf' : Forall (fun k => (k < length l + 1)%nat) (st_keyAdds st1)) by (eapply Forall_impl; [exact Hf|cbn; lia]).
  destruct (is_KEY rr); [|by rewrite app_nil_r]. split; [|apply Forall_app; split; [done|repeat constructor; lia]].
  clear -Hs Hf. induction Hs as [|a ks _ IH Ha]; cbn; [by repeat constructor|]. apply Forall_cons in Hf as [Hl Hf]. constructor; [by apply IH|].
  apply Forall_app. split; [done|by repeat constructor].
Qed.

Lemma Classify_form msg hn : srp_form (Ns msg) hn -> exists cu, Classify msg = Ok cu /\ host_Name (cu_Host cu) = hn /\ hn ∉ map inst_Name (cu_Instances cu).
Proof.
  intros SF. unfold Classify. destruct (scan_progress _ _ SF) as (st & Hst & I & SL). rewrite Hst. cbn [mbind result_bind].
  apply (reconcile_progress _ _ SF); [done..|]. unfold scan in Hst. apply bind_ok in Hst as (dels & _ & Hst).
  by apply scan_keys_sorted in Hst as [? _].
Qed.

(** [C33] Classification understands every update of a form: every record is a Delete All, an
    add or a PTR delete; there is a Host Description with its Delete All, its KEY and all
    addresses; Service Descriptions are elsewhere, each with its Delete All, and if it is not
    removed its one SRV pointing at the host, a TXT and a PTR; every PTR add is of a live
    instance, a subtype's behind its base type's; KEYs are at the host or at an instance, one at
    most at each; and if there is no address, the KEYs of removed instances come behind the
    host's.  Such an update is classified, as an update of that host, with one instance for
    every other name that has a Delete All.  (The last condition is needed:
    [removal_taken_for_host].) *)
Theorem classify_complete (msg : Msg) (hn : string) :
  srp_form (Ns msg) hn ->
  exists cu, Classify msg = Ok cu /\ host_Name (cu_Host cu) = hn /\ NoDup (Names cu) /\
    forall name, (exists del, del ∈ Ns msg /\ is_ANY del = true /\ fname del = name) <->
                 name ∈ Names cu.
Proof.
  intros SF. destruct (Classify_form msg hn SF) as (cu & HC & Hn & Hother). exists cu.
  destruct (Classify_parts _ _ HC) as (st & _ & _ & _ & _ & [Hhd _ _] & Hi & Hnd & Hdel & _). split_and!; [done..| |].
  { apply NoDup_cons. by rewrite Hn. }
  intros name. unfold Names. rewrite elem_of_cons, Hn, <- delete_at_elem. split.
  - intros [i Hd]. destruct (Hdel _ _ Hd); [left; congruence|by right].
  - intros [->|(inst & -> & Hin)%list_elem_of_fmap]; [rewrite <- Hn; by eexists|]. destruct (Hi inst Hin) as [Hd _ _ _]. by eexists.
Qed.

(** Without an address the first KEY at a name with nothing else is taken for the host's.  The
    removal of the printer's host and of its service, both with their KEYs, is understood when the
    host's comes first; when the service's does, the service is taken for the host and the host
    for a service, though each name has all that its description may have. *)
Definition removal_of (first second : string) : Msg :=
  mkMsg (MsgHdr SrpDemo.msg) (Question SrpDemo.msg) []
    [SrpDemo.rr first ClassANY 0 RD_ANY; KEY_RR (SrpDemo.key first); SrpDemo.rr second ClassANY 0 RD_ANY; KEY_RR (SrpDemo.key second)]
    [] (Pseudo SrpDemo.msg) [].

Example removal_taken_for_host :
  (exists cu, Classify (removal_of SrpDemo.printhost SrpDemo.office) = Ok cu /\ host_Name (cu_Host cu) = Fold SrpDemo.printhost) /\
  (exists cu, Classify (removal_of SrpDemo.office SrpDemo.printhost) = Ok cu /\ host_Name (cu_Host cu) = Fold SrpDemo.office).
Proof. split; eexists; (split; [vm_compute; reflexivity|reflexivity]). Qed.
