(* ===== verification/SrpRequest.v ===== *)
(** * SRP updates: the requester's side

    pkg/srp/update.go builds an SRP update from a description of a host and its service
    instances; response.go reads the registrar's answer.  The built update is of the form
    the registrar's classification and validation accept, and the leases the requester reads
    from a reply are those the registrar granted. *)

From Stdlib Require Import Ascii String ZArith Lia.
From S2P Require Import Prelude DnsName DnsData LeaseStore LeaseOption LeasePolicy UpdateCore HandlerBase Expiry UpdateHandler UpdateTheorems DnsSd.
From S2P Require Import SrpClassify SrpValidate SrpHandler SrpTheorems SrpComplete.

Local Open Scope Z_scope.

(** ** update.go *)

(** [netip.Addr]: [Is4] or not. *)
Inductive Addr := Addr4 (a : Z) | Addr6 (a : Z).

Record InstanceSpec := mkInstanceSpec {
  is_Name : string;
  is_ServiceType : string;
  is_Subtypes : list string;
  is_Port : Z;
  is_TXTs : list string;
  is_Key : option KEY;
  is_Remove : bool }.

Record UpdateSpec := mkUpdateSpec {
  us_Zone : string;
  us_Host : string;
  us_Addresses : list Addr;
  us_Key : option KEY;
  us_Instances : list InstanceSpec;
  us_Lease : Z;
  us_KeyLease : Z;
  us_TTL : Z }.

Definition hostKeyRR (key : KEY) (name : string) (ttl : Z) : KEY :=
  mkKEY (mkHeader name ClassINET ttl)
        (mkKeyData 0 (Protocol (key_Data key)) (Algorithm (key_Data key)) (PublicKey (key_Data key))).

Definition ptrAdd (owner target : string) (ttl : Z) : RR := mkRR (mkHeader owner ClassINET ttl) (RD_PTR target).

Definition deleteAllRR (name : string) : RR := mkRR (mkHeader name ClassANY 0) RD_ANY.

Definition addressRR (host : string) (ttl : Z) (a : Addr) : RR :=
  mkRR (mkHeader host ClassINET ttl) (match a with Addr4 a => RD_A a | Addr6 a => RD_AAAA a end).

(** The records of one instance, the body of the loop of [BuildUpdate]. *)
Definition instanceRRs (host : string) (ttl : Z) (inst : InstanceSpec) : result (list RR) :=
  if bool_decide (is_Name inst = "") then Err "srp: BuildUpdate: instance name is required"
  else
    let del := deleteAllRR (is_Name inst) in
    if is_Remove inst then Ok [del]
    else if bool_decide (is_ServiceType inst = "")
    then Err "srp: BuildUpdate: service type is required unless Remove"
    else
      let srv := mkRR (mkHeader (is_Name inst) ClassINET ttl) (RD_SRV 0 0 (is_Port inst) host) in
      let txt := mkRR (mkHeader (is_Name inst) ClassINET ttl)
                      (RD_TXT (if (length (is_TXTs inst) =? 0)%nat then [""] else is_TXTs inst)) in
      let key := match is_Key inst with Some k => [KEY_RR (hostKeyRR k (is_Name inst) ttl)] | None => [] end in
      Ok ([del; srv; txt] ++ key ++ ptrAdd (is_ServiceType inst) (is_Name inst) ttl
          :: map (fun subtype => ptrAdd subtype (is_Name inst) ttl) (is_Subtypes inst)).

(** The OPT record with the lease option; [SetUDPSize] sets the size in the class, a uint16. *)
Definition leaseOPT {L : DnsLib} (lease keyLease : Z) : result RR :=
  options ← Encode (Encode8Byte lease keyLease) [];
  Ok (mkRR (mkHeader "." (DefaultMsgSize mod 2 ^ 16) 0) (RD_OPT options)).

Definition BuildUpdate {L : DnsLib} (spec : UpdateSpec) : result Msg :=
  if bool_decide (us_Zone spec = "") then Err "srp: BuildUpdate: zone is required"
  else if bool_decide (us_Host spec = "") then Err "srp: BuildUpdate: host is required"
  else match us_Key spec with
  | None => Err "srp: BuildUpdate: key is required"
  | Some key =>
      if us_TTL spec =? 0 then Err "srp: BuildUpdate: ttl is required"
      else if us_KeyLease spec <? us_Lease spec then Err "srp: BuildUpdate: lease must not exceed key-lease"
      else
        let host := us_Host spec in
        let ttl := us_TTL spec in
        let head := deleteAllRR host :: map (addressRR host ttl) (us_Addresses spec) ++ [KEY_RR (hostKeyRR key host ttl)] in
        ns ← foldM (fun ns inst => rrs ← instanceRRs host ttl inst; Ok (ns ++ rrs)) head (us_Instances spec);
        match leaseOPT (us_Lease spec) (us_KeyLease spec) with
        | Err _ => Err "srp: BuildUpdate: encode Update-Lease option"
        | Ok opt =>
            let msg := new_update (us_Zone spec) in
            Ok (mkMsg (MsgHdr msg) (Question msg) (Answer msg) ns [opt] (Pseudo msg) (Data msg))
        end
  end.

(** ** response.go *)

Inductive RequestOutcome := OutcomeSuccess | OutcomeConflict | OutcomeRefused | OutcomeServerFailure | OutcomeOther.

Definition InterpretResponse (resp : option Msg) : RequestOutcome :=
  match resp with
  | None => OutcomeServerFailure
  | Some resp =>
      let rcode := Rcode (MsgHdr resp) in
      if rcode =? RcodeSuccess then OutcomeSuccess
      else if rcode =? RcodeYXDomain then OutcomeConflict
      else if rcode =? RcodeRefused then OutcomeRefused
      else if rcode =? RcodeServerFailure then OutcomeServerFailure
      else OutcomeOther
  end.

(** [None] is [ok] false. *)
Definition GrantedLease (resp : Msg) : option (Z * Z) :=
  match FindAndDecode resp with
  | Err _ => None
  | Ok lo => Some (Lease lo, default (Lease lo) (KeyLease lo))
  end.

(** ** The built records *)

(** A description a registrar can serve: complete, with one use per name, DNS-SD types, and
    one key. *)
Record inst_spec_ok (key : KEY) (inst : InstanceSpec) : Prop := {
  io_named : is_Name inst <> "";
  io_typed : is_Remove inst = false -> is_ServiceType inst <> "" /\
    isSubtypePTROwner (Fold (is_ServiceType inst)) = None /\
    ServiceTypeFromServiceName (Fold (is_ServiceType inst)) <> None /\
    (CutFirstLabel (Fold (is_Name inst))).1.2 = Fold (is_ServiceType inst);
  io_subtypes : forall s, is_Remove inst = false -> s ∈ is_Subtypes inst ->
    isSubtypePTROwner (Fold s) = Some (Fold (is_ServiceType inst));
  io_onekey : forall k, is_Remove inst = false -> is_Key inst = Some k -> keysIdentical key k = true }.

Record spec_ok (spec : UpdateSpec) (key : KEY) : Prop := {
  so_zone : us_Zone spec <> "";
  so_host : us_Host spec <> "";
  so_key : us_Key spec = Some key;
  so_ttl : us_TTL spec <> 0;
  so_lease : uint32_ok (us_Lease spec) /\ uint32_ok (us_KeyLease spec) /\ us_Lease spec <= us_KeyLease spec;
  so_names : NoDup (Fold (us_Host spec) :: map (fun i => Fold (is_Name i)) (us_Instances spec));
  so_insts : forall inst, inst ∈ us_Instances spec -> inst_spec_ok key inst }.

(** The records of an instance, once they are known to be built. *)
Definition inst_rrs (host : string) (ttl : Z) (inst : InstanceSpec) : list RR :=
  match instanceRRs host ttl inst with Ok rrs => rrs | Err _ => [] end.

Definition head_rrs (spec : UpdateSpec) (key : KEY) : list RR :=
  deleteAllRR (us_Host spec) :: map (addressRR (us_Host spec) (us_TTL spec)) (us_Addresses spec)
  ++ [KEY_RR (hostKeyRR key (us_Host spec) (us_TTL spec))].

Definition built_ns (spec : UpdateSpec) (key : KEY) : list RR :=
  head_rrs spec key ++ concat (map (inst_rrs (us_Host spec) (us_TTL spec)) (us_Instances spec)).

Lemma instanceRRs_ok host ttl key inst : inst_spec_ok key inst -> instanceRRs host ttl inst = Ok (inst_rrs host ttl inst).
Proof.
  intros [Hn Ht _ _]. unfold inst_rrs, instanceRRs. rewrite (bool_decide_eq_false_2 _ Hn).
  destruct (is_Remove inst); [done|]. destruct (Ht eq_refl) as [Hs _]. by rewrite (bool_decide_eq_false_2 _ Hs).
Qed.

Lemma instances_built host ttl key insts acc :
  (forall inst, inst ∈ insts -> inst_spec_ok key inst) ->
  foldM (fun ns inst => rrs ← instanceRRs host ttl inst; Ok (ns ++ rrs)) acc insts
  = Ok (acc ++ concat (map (inst_rrs host ttl) insts)).
Proof.
  revert acc. induction insts as [|inst insts IH]; intros acc Hok; cbn [foldM map concat]; [by rewrite app_nil_r|].
  rewrite (instanceRRs_ok host ttl key) by (apply Hok; by left). cbn [mbind result_bind].
  rewrite IH by (intros; apply Hok; by right). by rewrite app_assoc.
Qed.

Lemma BuildUpdate_ok {L : DnsLib} spec key :
  spec_ok spec key ->
  exists opt msg, leaseOPT (us_Lease spec) (us_KeyLease spec) = Ok opt /\ BuildUpdate spec = Ok msg /\ Ns msg = built_ns spec key /\
    Question msg = [mkQuest (us_Zone spec) ClassINET TypeSOA] /\ Answer msg = [] /\ Extra msg = [opt] /\ Pseudo msg = [].
Proof.
  intros [Hz Hh Hk Ht (_ & _ & Hl) _ Hi]. unfold BuildUpdate.
  rewrite (bool_decide_eq_false_2 _ Hz), (bool_decide_eq_false_2 _ Hh), Hk, (proj2 (Z.eqb_neq _ _) Ht).
  rewrite (proj2 (Z.ltb_ge _ _) Hl). cbn zeta. rewrite (instances_built _ _ key) by done. cbn [mbind result_bind].
  assert (exists opt, leaseOPT (us_Lease spec) (us_KeyLease spec) = Ok opt) as [opt E].
  { unfold leaseOPT, Encode. cbn [Encode8Byte Validate]. unfold Validate, Encode8Byte. cbn [LeaseOption.Lease LeaseOption.KeyLease].
    destruct (us_KeyLease spec =? 0) eqn:E1, (us_Lease spec =? 0) eqn:E2, (us_KeyLease spec <? us_Lease spec) eqn:E3; cbn;
      try (by eexists); exfalso; apply Z.ltb_lt in E3; lia. }
  rewrite E. eexists _, _. split_and!; try done.
Qed.

(** *** The records by kind *)

Definition inst_srv (host : string) (ttl : Z) (inst : InstanceSpec) : RR :=
  mkRR (mkHeader (is_Name inst) ClassINET ttl) (RD_SRV 0 0 (is_Port inst) host).
Definition inst_txt (ttl : Z) (inst : InstanceSpec) : RR :=
  mkRR (mkHeader (is_Name inst) ClassINET ttl) (RD_TXT (if (length (is_TXTs inst) =? 0)%nat then [""] else is_TXTs inst)).
Definition inst_keys (ttl : Z) (inst : InstanceSpec) : list RR :=
  match is_Key inst with Some k => [KEY_RR (hostKeyRR k (is_Name inst) ttl)] | None => [] end.
Definition inst_ptrs (ttl : Z) (inst : InstanceSpec) : list RR :=
  ptrAdd (is_ServiceType inst) (is_Name inst) ttl :: map (fun s => ptrAdd s (is_Name inst) ttl) (is_Subtypes inst).

Lemma inst_rrs_eq host ttl key inst : inst_spec_ok key inst ->
  inst_rrs host ttl inst =
  if is_Remove inst then [deleteAllRR (is_Name inst)]
  else deleteAllRR (is_Name inst) :: inst_srv host ttl inst :: inst_txt ttl inst :: inst_keys ttl inst ++ inst_ptrs ttl inst.
Proof.
  intros [Hn Ht _ _]. unfold inst_rrs, instanceRRs. rewrite (bool_decide_eq_false_2 _ Hn).
  destruct (is_Remove inst); [done|]. destruct (Ht eq_refl) as [Hs _]. by rewrite (bool_decide_eq_false_2 _ Hs).
Qed.

Lemma filter_concat_map {A B} (P : B -> Prop) `{!forall x, Decision (P x)} (f : A -> list B) l :
  filter P (concat (map f l)) = concat (map (fun x => filter P (f x)) l).
Proof. induction l as [|x l IH]; [done|]. cbn [map concat]. by rewrite filter_app, IH. Qed.

Lemma map_concat_map {A B C} (g : B -> C) (f : A -> list B) l :
  map g (concat (map f l)) = concat (map (fun x => map g (f x)) l).
Proof. induction l as [|x l IH]; [done|]. cbn [map concat]. by rewrite map_app, IH. Qed.

Lemma concat_sublist {A B} (g : A -> list B) (h : A -> B) l :
  (forall x, x ∈ l -> g x = [] \/ g x = [h x]) -> concat (map g l) `sublist_of` map h l.
Proof.
  induction l as [|x l IH]; intros Hg; [done|]. cbn [map concat].
  destruct (Hg x) as [-> | ->]; [by left| |]; cbn; constructor; apply IH; intros; apply Hg; by right.
Qed.

(** At most one record of a kind per instance: its name, or nothing. *)
Definition kind_names (K : RR -> bool) (rrs : list RR) : list string := map fname (filter (fun rr => K rr = true) rrs).

Lemma kind_ptrs K ttl inst : (forall o t, K (ptrAdd o t ttl) = false) -> kind_names K (inst_ptrs ttl inst) = [].
Proof.
  intros HK. unfold kind_names, inst_ptrs. rewrite filter_cons, decide_False by (by rewrite HK).
  induction (is_Subtypes inst) as [|s l IH]; [done|]. cbn [map]. rewrite filter_cons, decide_False by (by rewrite HK). done.
Qed.

Lemma kind_names_app K l l' : kind_names K (l ++ l') = kind_names K l ++ kind_names K l'.
Proof. unfold kind_names. by rewrite filter_app, map_app. Qed.

Lemma kind_names_cons K x l : kind_names K (x :: l) = if K x then fname x :: kind_names K l else kind_names K l.
Proof.
  unfold kind_names. rewrite filter_cons. destruct (K x) eqn:E; [by rewrite decide_True|by rewrite decide_False].
Qed.

Lemma kind_names_inst K host ttl key inst :
  inst_spec_ok key inst -> K = is_ANY \/ K = is_SRV \/ K = is_KEY ->
  kind_names K (inst_rrs host ttl inst) = [] \/ kind_names K (inst_rrs host ttl inst) = [Fold (is_Name inst)].
Proof.
  intros Hok HK. rewrite (inst_rrs_eq _ _ key) by done.
  assert (HP : forall o t, K (ptrAdd o t ttl) = false) by (intros; by destruct HK as [->|[->| ->]]).
  destruct (is_Remove inst); rewrite !kind_names_cons, ?kind_names_app, ?(kind_ptrs K ttl inst HP), ?app_nil_r.
  - destruct HK as [->|[->| ->]]; cbn; auto.
  - unfold inst_keys. destruct (is_Key inst); rewrite ?kind_names_cons; destruct HK as [->|[->| ->]]; cbn; auto.
Qed.

Lemma kind_names_head K spec key :
  K = is_ANY \/ K = is_SRV \/ K = is_KEY ->
  kind_names K (head_rrs spec key) = if K (inst_srv "" 0 (mkInstanceSpec "" "" [] 0 [] None false)) then [] else [Fold (us_Host spec)].
Proof.
  intros HK. unfold head_rrs. rewrite kind_names_cons, kind_names_app.
  assert (HA : forall a, K (addressRR (us_Host spec) (us_TTL spec) a) = false) by (intros []; by destruct HK as [->|[->| ->]]).
  assert (E : kind_names K (map (addressRR (us_Host spec) (us_TTL spec)) (us_Addresses spec)) = []).
  { induction (us_Addresses spec) as [|a l IH]; [done|]. cbn [map]. by rewrite kind_names_cons, HA. }
  rewrite E, kind_names_cons. by destruct HK as [->|[->| ->]].
Qed.

Lemma kind_names_built K spec key :
  spec_ok spec key -> K = is_ANY \/ K = is_SRV \/ K = is_KEY -> NoDup (kind_names K (built_ns spec key)).
Proof.
  intros S HK. unfold built_ns. rewrite kind_names_app, kind_names_head by done.
  assert (Hsub : kind_names K (concat (map (inst_rrs (us_Host spec) (us_TTL spec)) (us_Instances spec)))
                 `sublist_of` map (fun i => Fold (is_Name i)) (us_Instances spec)).
  { unfold kind_names. rewrite filter_concat_map, map_concat_map.
    apply (concat_sublist (fun x => kind_names K (inst_rrs (us_Host spec) (us_TTL spec) x))).
    intros inst Hin. eapply kind_names_inst; [by apply (so_insts _ _ S)|done]. }
  pose proof (so_names _ _ S) as [Hn Hnd]%NoDup_cons.
  destruct (K _); cbn [app]; [by eapply sublist_NoDup|]. apply NoDup_cons. split; [|by eapply sublist_NoDup].
  intros Hin. apply Hn. eapply elem_of_submseteq; [exact Hin|]. by apply sublist_submseteq.
Qed.

(** *** Membership *)

Lemma elem_of_built spec key rr :
  rr ∈ built_ns spec key <-> rr ∈ head_rrs spec key \/
    exists inst, inst ∈ us_Instances spec /\ rr ∈ inst_rrs (us_Host spec) (us_TTL spec) inst.
Proof.
  unfold built_ns. rewrite elem_of_app. f_equiv. split.
  - intros (l & (inst & <- & Hin)%in_map_iff & Hrr)%list_elem_of_In%in_concat. apply list_elem_of_In in Hin, Hrr. eauto.
  - intros (inst & Hin & Hrr). apply list_elem_of_In, in_concat. eexists. split; [apply in_map_iff; exists inst; split; [done|]|];
      by apply list_elem_of_In.
Qed.

(** The kinds of records of the head and of an instance. *)
Lemma head_cases spec key rr : rr ∈ head_rrs spec key ->
  rr = deleteAllRR (us_Host spec) \/ (exists a, rr = addressRR (us_Host spec) (us_TTL spec) a) \/
  rr = KEY_RR (hostKeyRR key (us_Host spec) (us_TTL spec)).
Proof.
  unfold head_rrs. rewrite elem_of_cons, elem_of_app, list_elem_of_fmap, list_elem_of_singleton. naive_solver.
Qed.

Lemma inst_cases host ttl key inst rr : inst_spec_ok key inst -> rr ∈ inst_rrs host ttl inst ->
  rr = deleteAllRR (is_Name inst) \/
  is_Remove inst = false /\
  (rr = inst_srv host ttl inst \/ rr = inst_txt ttl inst \/
   (exists k, is_Key inst = Some k /\ rr = KEY_RR (hostKeyRR k (is_Name inst) ttl)) \/
   rr = ptrAdd (is_ServiceType inst) (is_Name inst) ttl \/
   exists s, s ∈ is_Subtypes inst /\ rr = ptrAdd s (is_Name inst) ttl).
Proof.
  intros Hok. rewrite (inst_rrs_eq _ _ key) by done. destruct (is_Remove inst).
  - rewrite list_elem_of_singleton. auto.
  - unfold inst_keys, inst_ptrs. rewrite !elem_of_cons, elem_of_app, elem_of_cons, list_elem_of_fmap.
    destruct (is_Key inst) as [k|]; [rewrite list_elem_of_singleton|]; set_solver.
Qed.

Lemma inst_members host ttl key inst : inst_spec_ok key inst ->
  deleteAllRR (is_Name inst) ∈ inst_rrs host ttl inst /\
  (is_Remove inst = false ->
   inst_srv host ttl inst ∈ inst_rrs host ttl inst /\ inst_txt ttl inst ∈ inst_rrs host ttl inst /\
   ptrAdd (is_ServiceType inst) (is_Name inst) ttl ∈ inst_rrs host ttl inst).
Proof.
  intros Hok. rewrite (inst_rrs_eq _ _ key) by done. destruct (is_Remove inst); [split; [by left|done]|].
  split; [by left|]. intros _. unfold inst_ptrs. split_and!; set_solver.
Qed.

(** *** The order of PTR adds *)

Lemma concat_map_split {A B} (f : A -> list B) L l x rest :
  concat (map f L) = l ++ x :: rest ->
  exists L1 a L2 m1 m2, L = L1 ++ a :: L2 /\ f a = m1 ++ x :: m2 /\ l = concat (map f L1) ++ m1.
Proof.
  revert l. induction L as [|a L IH]; intros l H; cbn in H; [by destruct l|].
  apply app_eq_app in H as (k & [[Ea H]|[-> H]]).
  - destruct k as [|y k]; cbn in H.
    + destruct (IH [] (eq_sym H)) as (L1 & b & L2 & m1 & m2 & -> & E & E'). exists (a :: L1), b, L2, m1, m2.
      split_and!; [done..|]. cbn. by rewrite <- app_assoc, <- E', Ea, !app_nil_r.
    + injection H as -> ->. by exists [], a, L, l, k.
  - destruct (IH k H) as (L1 & b & L2 & m1 & m2 & -> & E & ->). exists (a :: L1), b, L2, m1, m2. split_and!; [done..|].
    cbn. by rewrite app_assoc.
Qed.

Lemma past_prefix {A} (p q m1 m2 : list A) x y : p ++ q = m1 ++ x :: m2 -> x ∉ p -> y ∈ p -> y ∈ m1.
Proof.
  intros H Hx Hy. apply app_eq_app in H as (k & [[-> H]|[-> H]]); [|apply elem_of_app; by left].
  destruct k as [|z k]; [by rewrite app_nil_r in Hy|]. injection H as <- _. destruct Hx. set_solver.
Qed.

(** A PTR add before the subtype's lists the same instance under the base type. *)
Lemma inst_subtype host ttl key inst m1 m2 rr ptr base :
  inst_spec_ok key inst -> inst_rrs host ttl inst = m1 ++ rr :: m2 -> RD rr = RD_PTR ptr ->
  isSubtypePTROwner (fname rr) = Some base ->
  exists rr', rr' ∈ m1 /\ ptr_add base (Fold ptr) rr' /\ isSubtypePTROwner base = None.
Proof.
  intros Hok E Hrd Hsub. assert (Hin : rr ∈ inst_rrs host ttl inst) by (rewrite E; set_solver).
  apply (inst_cases _ _ key) in Hin as [->|(Hr & [->|[->|[(k & _ & ->)|[->|(s & Hs & ->)]]]])]; try done;
    destruct (io_typed _ _ Hok Hr) as (_ & Hb & _).
  { cbn in Hsub. congruence. }
  pose proof (io_subtypes _ _ Hok s Hr Hs) as Hs'. cbn in Hsub, Hrd. rewrite Hs' in Hsub. injection Hsub as <-. injection Hrd as <-.
  exists (ptrAdd (is_ServiceType inst) (is_Name inst) ttl). split_and!; [|by eexists|done].
  rewrite (inst_rrs_eq _ _ key), Hr in E by done.
  apply (past_prefix (deleteAllRR (is_Name inst) :: inst_srv host ttl inst :: inst_txt ttl inst :: inst_keys ttl inst
    ++ [ptrAdd (is_ServiceType inst) (is_Name inst) ttl]) (map (fun s => ptrAdd s (is_Name inst) ttl) (is_Subtypes inst))
    m1 m2 (ptrAdd s (is_Name inst) ttl)).
  - rewrite <- E. unfold inst_ptrs. cbn. by rewrite <- app_assoc.
  - rewrite !elem_of_cons, elem_of_app, list_elem_of_singleton. unfold inst_keys.
    intros [?|[?|[?|[Hk|Hp]]]]; try done.
    + destruct (is_Key inst); [|by apply not_elem_of_nil in Hk]. by apply list_elem_of_singleton in Hk.
    + injection Hp as ->. congruence.
  - rewrite !elem_of_cons, elem_of_app, list_elem_of_singleton. tauto.
Qed.

Lemma built_subtype spec key l rr rest name target base :
  spec_ok spec key -> built_ns spec key = l ++ rr :: rest -> ptr_add name target rr -> isSubtypePTROwner name = Some base ->
  exists rr', rr' ∈ l /\ ptr_add base target rr' /\ isSubtypePTROwner base = None.
Proof.
  intros S H (ptr & Hrd & Hc & <- & <-) Hsub.
  change (built_ns spec key) with (concat (head_rrs spec key :: map (inst_rrs (us_Host spec) (us_TTL spec)) (us_Instances spec))) in H.
  rewrite <- (map_id (_ :: _)) in H. apply concat_map_split in H as (L1 & a & L2 & m1 & m2 & EL & E & ->).
  assert (Ha : a ∈ head_rrs spec key :: map (inst_rrs (us_Host spec) (us_TTL spec)) (us_Instances spec)) by (rewrite EL; set_solver).
  apply elem_of_cons in Ha as [->|(inst & -> & Hin)%list_elem_of_fmap].
  - assert (Hin : rr ∈ head_rrs spec key) by (cbn in E; rewrite E; set_solver).
    apply head_cases in Hin as [->|[[[] ->]| ->]]; done.
  - destruct (inst_subtype _ _ _ _ _ _ _ _ _ (so_insts _ _ S inst Hin) E Hrd Hsub) as (rr' & Hr & ?). exists rr'.
    split; [|done]. apply elem_of_app. by right.
Qed.

(** *** The form *)

(** Every record is one of the update's kinds. *)
Lemma built_cases spec key rr : spec_ok spec key -> rr ∈ built_ns spec key ->
  rr = deleteAllRR (us_Host spec) \/ (exists a, rr = addressRR (us_Host spec) (us_TTL spec) a) \/
  rr = KEY_RR (hostKeyRR key (us_Host spec) (us_TTL spec)) \/
  exists inst, inst ∈ us_Instances spec /\ inst_spec_ok key inst /\
   (rr = deleteAllRR (is_Name inst) \/ is_Remove inst = false /\
    (rr = inst_srv (us_Host spec) (us_TTL spec) inst \/ rr = inst_txt (us_TTL spec) inst \/
     (exists k, is_Key inst = Some k /\ rr = KEY_RR (hostKeyRR k (is_Name inst) (us_TTL spec))) \/
     rr = ptrAdd (is_ServiceType inst) (is_Name inst) (us_TTL spec) \/
     exists s, s ∈ is_Subtypes inst /\ rr = ptrAdd s (is_Name inst) (us_TTL spec))).
Proof.
  intros S [H|(inst & Hin & H)]%elem_of_built.
  - apply head_cases in H. tauto.
  - right; right; right. pose proof (so_insts _ _ S inst Hin) as Hok. exists inst. split_and!; [done..|]. by apply (inst_cases _ _ key).
Qed.

Lemma elem_of_head spec key rr : rr ∈ head_rrs spec key -> rr ∈ built_ns spec key.
Proof. intros ?. apply elem_of_built. by left. Qed.

Lemma elem_of_inst spec key inst rr : inst ∈ us_Instances spec -> rr ∈ inst_rrs (us_Host spec) (us_TTL spec) inst -> rr ∈ built_ns spec key.
Proof. intros ??. apply elem_of_built. eauto. Qed.

Lemma name_not_host spec key inst : spec_ok spec key -> inst ∈ us_Instances spec -> Fold (is_Name inst) <> Fold (us_Host spec).
Proof.
  intros S Hin E. pose proof (so_names _ _ S) as [Hn _]%NoDup_cons. apply Hn. rewrite <- E. apply list_elem_of_fmap. eauto.
Qed.

Ltac built_kind S H :=
  apply (built_cases _ _ _ S) in H as
    [->|[[[] ->]|[->|(inst & Hinst & Hiok & [->|(Hlive & [->|[->|[(ikey & Hikey & ->)|[->|(stype & Hstype & ->)]]]])])]]].

(** A described instance that is not removed has its records in the update. *)
Lemma live_records spec key inst : spec_ok spec key -> inst ∈ us_Instances spec ->
  deleteAllRR (is_Name inst) ∈ built_ns spec key /\
  (is_Remove inst = false ->
   inst_srv (us_Host spec) (us_TTL spec) inst ∈ built_ns spec key /\ inst_txt (us_TTL spec) inst ∈ built_ns spec key /\
   ptrAdd (is_ServiceType inst) (is_Name inst) (us_TTL spec) ∈ built_ns spec key).
Proof.
  intros S Hin. destruct (inst_members (us_Host spec) (us_TTL spec) key inst (so_insts _ _ S inst Hin)) as [H1 H2].
  split; [by eapply elem_of_inst|]. intros Hr. destruct (H2 Hr) as (? & ? & ?). split_and!; by eapply elem_of_inst.
Qed.

Lemma built_form spec key : spec_ok spec key -> srp_form (built_ns spec key) (Fold (us_Host spec)).
Proof.
  intros S.
  assert (Hdel : deleteAllRR (us_Host spec) ∈ built_ns spec key) by (apply elem_of_head; unfold head_rrs; set_solver).
  assert (Hkey : KEY_RR (hostKeyRR key (us_Host spec) (us_TTL spec)) ∈ built_ns spec key)
    by (apply elem_of_head; unfold head_rrs; set_solver).
  pose proof (live_records spec key) as HL. split.
  - intros rr H. built_kind S H; done.
  - apply (kind_names_built is_ANY); auto.
  - apply (kind_names_built is_SRV); auto.
  - apply (kind_names_built is_KEY); auto.
  - eauto.
  - eauto.
  - intros rr H Ha. built_kind S H; done.
  - intros rr H Hk. built_kind S H; destruct Hk; try done; (split; [by eapply name_not_host|]); destruct (HL inst S Hinst); eauto.
  - intros rr p w port target H Hrd. built_kind S H; try done. injection Hrd as <- <- <- <-.
    destruct (HL inst S Hinst) as [_ (_ & Ht & Hp)]; [done|]. split_and!; [done|eauto|].
    eexists _, _. split; [exact Hp|]. by eexists.
  - intros rr name target H (ptr & Hrd & _ & _ & <-). built_kind S H; try done; injection Hrd as <-;
      destruct (HL inst S Hinst) as [_ (Hs & _)]; eauto.
  - intros l rr rest name target base. by apply built_subtype.
  - intros rr H Hk. built_kind S H; try done; [by left|right]. destruct (HL inst S Hinst) as [Hd _]. eauto.
  - right. intros i rr H%list_elem_of_lookup_2 Hk. built_kind S H; try done; [by left|right; left]. destruct (HL inst S Hinst) as [_ (Hs & _)]; eauto.
Qed.

(** ** The registrar accepts what is built *)

Lemma ttl_refs_adds cu i : i ∈ ttl_refs cu -> i ∈ cu_adds cu.
Proof.
  unfold ttl_refs, cu_adds. rewrite !elem_of_app. intros [?|[?|[H|(d & -> & [_ Hd]%list_elem_of_filter)%list_elem_of_fmap]]]; auto.
  - right; right; left. apply list_elem_of_In, in_concat in H as (l & (inst & <- & Hin)%in_map_iff & Hi).
    apply list_elem_of_In, in_concat. exists (inst_adds inst). split; [by apply in_map|]. unfold inst_adds.
    apply list_elem_of_In. apply list_elem_of_In in Hi. set_solver.
  - right; right; right. apply list_elem_of_fmap. eauto.
Qed.

Section accepted.
Context {L : DnsLib} (spec : UpdateSpec) (key : KEY) (msg : Msg) (cu : ClassifiedUpdate).
Hypothesis S : spec_ok spec key.
Hypothesis Hns : Ns msg = built_ns spec key.
Hypothesis HC : Classify msg = Ok cu.

(** Every KEY of the update has the described key's material. *)
Lemma built_key i k : key_of (Ns msg) i = Some k -> keysIdentical key k = true.
Proof using S Hns.
  unfold key_of. destruct (Ns msg !! i) as [rr|] eqn:E; [|done]. apply list_elem_of_lookup_2 in E. rewrite Hns in E. cbn. intros Hk.
  built_kind S E; try done; cbn in Hk; injection Hk as <-; [by apply keysIdentical_spec|].
  exact (io_onekey _ _ Hiok ikey Hlive Hikey).
Qed.

Lemma built_keys_valid : validateKeys (Ns msg) cu = Ok tt.
Proof using S Hns.
  unfold validateKeys. set (l := option_list _ ++ _).
  assert (H : forall k, k ∈ omap (key_of (Ns msg)) l -> keysIdentical key k = true).
  { intros k (i & _ & Hi)%list_elem_of_omap. by eapply built_key. }
  destruct (omap (key_of (Ns msg)) l) as [|k0 ks]; [done|]. apply foldM_ok_each. intros k Hk.
  assert (keysIdentical k0 k = true) as ->; [|done].
  pose proof (H k0 ltac:(by left)) as H0%keysIdentical_spec. pose proof (H k ltac:(by right)) as H1%keysIdentical_spec.
  apply keysIdentical_spec. naive_solver congruence.
Qed.

Lemma built_ttls_valid : validateTTLConsistency (Ns msg) cu = Ok tt.
Proof using S Hns HC.
  unfold validateTTLConsistency. apply CheckConsistentTTLs_iff.
  assert (H : forall rr, rr ∈ deref (Ns msg) (ttl_refs cu) -> TTL (Hdr rr) = us_TTL spec); [|intros; by rewrite !H].
  intros rr (i & Hi%ttl_refs_adds & Hrr)%list_elem_of_omap.
  destruct (Classify_parts _ _ HC) as (_ & _ & _ & _ & _ & _ & _ & _ & _ & _ & Hp). rewrite Hp in Hi.
  apply elem_of_add_positions in Hi as (rr' & E & Ha). rewrite Hrr in E. injection E as <-.
  apply list_elem_of_lookup_2 in Hrr. rewrite Hns in Hrr. built_kind S Hrr; done.
Qed.

Lemma built_names_valid : validateServiceNames cu = Ok tt.
Proof using S Hns HC.
  unfold validateServiceNames. apply foldM_ok_each. intros d Hd. destruct (sd_IsAdd d) eqn:Ha; [|done]. cbn [negb]. cbn zeta.
  destruct (Classify_parts _ _ HC) as (st & I & _ & _ & Ed & _). rewrite Ed in Hd.
  destruct (si_disc _ _ _ I d Hd) as (hdr & ptr & Hi & Hname & Ht & _ & Hb). apply list_elem_of_lookup_2 in Hi. rewrite Hns in Hi.
  rewrite Hb, Hname, Ht. remember (mkRR hdr (RD_PTR ptr)) as rr eqn:Err.
  built_kind S Hi; try done; destruct (io_typed _ _ Hiok Hlive) as (Hne & Hnone & Hsvc & Hcut); injection Err as <- <-;
    cbn [Name]; [rewrite Hnone|rewrite (io_subtypes _ _ Hiok stype Hlive Hstype)]; cbn [baseTypeOrEmpty default from_option id].
  - rewrite bool_decide_eq_true_2 by done. destruct (ServiceTypeFromServiceName _); [|done]. by rewrite bool_decide_eq_true_2.
  - rewrite bool_decide_eq_false_2 by (intros E%Fold_empty; done).
    destruct (ServiceTypeFromServiceName _); [|done]. by rewrite bool_decide_eq_true_2.
Qed.

(** The update's names are the described ones, each once. *)
Lemma built_instances : host_Name (cu_Host cu) = Fold (us_Host spec) -> Fold (us_Host spec) ∉ map inst_Name (cu_Instances cu) ->
  map inst_Name (cu_Instances cu) ≡ₚ map (fun inst => Fold (is_Name inst)) (us_Instances spec).
Proof using S Hns HC.
  intros Hh Ho. destruct (Classify_parts _ _ HC) as (st & I & _ & _ & _ & [Hhd _ _] & Hok & Hnd & Hdel & _ & _). apply NoDup_Permutation.
  - done.
  - by apply (NoDup_cons_1_2 _ _ (so_names _ _ S)).
  - intros name. split.
    + intros (sinst & -> & Hin)%list_elem_of_fmap. destruct (Hok sinst Hin) as [(rr & Hrr & Ha & Hn) _ _ _].
      apply list_elem_of_lookup_2 in Hrr. rewrite Hns in Hrr. rewrite <- Hn.
      built_kind S Hrr; try done.
      * destruct Ho. cbn in Hn. rewrite Hn. apply list_elem_of_fmap. eauto.
      * apply list_elem_of_fmap. eauto.
    + intros (inst & -> & Hin)%list_elem_of_fmap. destruct (live_records spec key inst S Hin) as [H _].
      rewrite <- Hns in H. apply list_elem_of_lookup in H as [i Hi]. destruct (Hdel (Fold (is_Name inst)) i); [by eexists| |done].
      exfalso. eapply name_not_host; [done..|]. congruence.
Qed.

Lemma built_validated : Question msg = [mkQuest (us_Zone spec) ClassINET TypeSOA] -> Answer msg = [] ->
  (exists lo, FindAndDecode msg = Ok lo) -> srp_Validate msg = Ok cu.
Proof using S Hns HC.
  intros Hq Ha [lo Hlo]. apply Validate_Classified. split; [done|]. unfold ValidateClassified. rewrite Hq, Ha. cbn [length Nat.eqb negb].
  unfold validatePostClassify. assert (validateLeaseOption msg = Ok tt) as ->.
  { unfold validateLeaseOption, FindAndDecode in *. destruct (FindOption msg); [|done]. cbn. unfold DecodeOption in Hlo. by rewrite Hlo. }
  cbn [mbind result_bind]. rewrite built_ttls_valid. cbn [mbind result_bind]. rewrite built_keys_valid. cbn [mbind result_bind].
  exact built_names_valid.
Qed.
End accepted.

(** The lease option a requester sends is the one the registrar reads. *)
Lemma leaseOPT_found {L : DnsLib} lease keyLease opt :
  uint32_ok lease -> uint32_ok keyLease -> leaseOPT lease keyLease = Ok opt ->
  forall msg, Pseudo msg = [] -> Extra msg = [opt] -> FindAndDecode msg = Ok (mkLeaseOption lease (Some keyLease)).
Proof.
  intros Hl Hk E msg Hp He. unfold leaseOPT in E. apply bind_ok in E as (os & E & [= <-]). unfold Encode in E.
  apply bind_ok in E as ([] & HV & [= <-]). unfold FindAndDecode, FindOption. rewrite Hp, He. cbn -[PutUint32].
  by apply (decode_encoded (Encode8Byte lease keyLease)).
Qed.

(** What the registrar makes of an update built for a description. *)
Definition accepted (spec : UpdateSpec) (key : KEY) (msg : Msg) (cu : ClassifiedUpdate) : Prop :=
  srp_Validate msg = Ok cu /\
  Question msg = [mkQuest (us_Zone spec) ClassINET TypeSOA] /\
  host_Name (cu_Host cu) = Fold (us_Host spec) /\
  map inst_Name (cu_Instances cu) ≡ₚ map (fun inst => Fold (is_Name inst)) (us_Instances spec) /\
  (forall name, name ∈ Names cu -> exists k, KeyFor (Ns msg) cu name = Some k /\ Fold (Name (key_Hdr k)) = name /\
     keysIdentical key k = true) /\
  FindAndDecode msg = Ok (mkLeaseOption (us_Lease spec) (Some (us_KeyLease spec))).

Lemma built_accepted {L : DnsLib} (spec : UpdateSpec) (key : KEY) :
  spec_ok spec key -> exists msg cu, BuildUpdate spec = Ok msg /\ accepted spec key msg cu.
Proof.
  intros S. destruct (BuildUpdate_ok spec key S) as (opt & msg & Ho & Hb & Hns & Hq & Ha & He & Hp).
  destruct (Classify_form msg (Fold (us_Host spec))) as (cu & HC & Hh & Hother); [rewrite Hns; by apply built_form|].
  destruct (so_lease _ _ S) as (Hl & Hkl & _).
  assert (Hlo : FindAndDecode msg = Ok (mkLeaseOption (us_Lease spec) (Some (us_KeyLease spec)))) by (by eapply leaseOPT_found).
  assert (HV : srp_Validate msg = Ok cu) by (eapply built_validated; eauto).
  exists msg, cu. split; [done|]. split_and!; try done.
  - by eapply built_instances.
  - intros name Hn. destruct (KeyFor_total _ _ _ HC Hn) as (k & Hk & Hkn). exists k. split_and!; [done..|].
    destruct (Classify_host_key _ _ HC) as (hk & Hhk & _). pose proof (KeyFor_material _ _ _ _ _ HV Hhk Hk) as H1%keysIdentical_spec.
    destruct (host_Key (cu_Host cu)) as [i|]; [|done]. pose proof (built_key spec key msg S Hns i hk Hhk) as H2%keysIdentical_spec.
    apply keysIdentical_spec. naive_solver congruence.
Qed.

(** What the requester builds, the registrar accepts.  For a complete description of a host
    and its services (every instance at its own name below its own service type, subtypes of
    that type, one key, LEASE at most KEY-LEASE) [BuildUpdate] succeeds, and the update it
    builds passes the registrar's classification and validation, as an update of that host and
    of exactly the described instances, removals included, each once; every name in it is
    governed by the described key's material; and the lease the registrar reads is the
    described one. *)
Theorem built_update_accepted {L : DnsLib} (spec : UpdateSpec) (key : KEY) :
  spec_ok spec key ->
  exists msg cu, BuildUpdate spec = Ok msg /\ accepted spec key msg cu.
Proof. apply built_accepted. Qed.

Definition demo_spec : UpdateSpec :=
  mkUpdateSpec "example.com." SrpDemo.printhost [Addr4 3221226219] (Some (SrpDemo.key ""))
    [mkInstanceSpec SrpDemo.office "_ipp._tcp.example.com." ["_color._sub._ipp._tcp.example.com."] 631 [] None false;
     mkInstanceSpec SrpDemo.former "" [] 0 [] None true] 3600 604800 120.

Lemma demo_spec_ok : spec_ok demo_spec (SrpDemo.key "").
Proof.
  split; try done; [vm_compute; repeat constructor; set_solver|].
  intros inst [->|[->|H%not_elem_of_nil]%elem_of_cons]%elem_of_cons; [| |done]; split; try done.
  intros s _ ->%list_elem_of_singleton. by vm_compute.
Qed.

Lemma built_update_accepted_witness :
  exists msg cu, BuildUpdate (L := Demo.lib) demo_spec = Ok msg /\ srp_Validate msg = Ok cu /\
    map inst_Name (cu_Instances cu) ≡ₚ [Fold SrpDemo.office; Fold SrpDemo.former].
Proof.
  destruct (built_update_accepted (L := Demo.lib) demo_spec (SrpDemo.key "") demo_spec_ok) as (msg & cu & H1 & H2 & _ & _ & H3 & _).
  exists msg, cu. split_and!; [exact H1|exact H2|exact H3].
Defined.

Lemma classify_complete_witness :
  exists cu, Classify (mkMsg (MsgHdr SrpDemo.msg) [] [] (built_ns demo_spec (SrpDemo.key "")) [] [] []) = Ok cu /\
    host_Name (cu_Host cu) = "printhost.example.com.".
Proof.
  destruct (classify_complete (mkMsg (MsgHdr SrpDemo.msg) [] [] (built_ns demo_spec (SrpDemo.key "")) [] [] []) "printhost.example.com.")
    as (cu & HC & Hn & _); [apply (built_form demo_spec), demo_spec_ok|].
  exists cu. split; [exact HC|exact Hn].
Defined.

(** ** What the requester reads from the answer *)

Section reply.
Context {L : DnsLib} {SG : Sig0} {U : UpstreamCoordinator}.

Lemma GrantedLease_reply r lease keyLease :
  uint32_ok lease -> uint32_ok keyLease -> (lease <> 0 -> keyLease <> 0 -> lease <= keyLease) ->
  GrantedLease (leaseResponse r lease keyLease) = Some (lease, keyLease).
Proof.
  intros Hl Hk Hle. unfold GrantedLease, FindAndDecode, FindOption, leaseResponse, Encode. rewrite granted_encodes by done.
  cbn [mbind result_bind Pseudo updateResponse map app FindOption_scan RD lease_erfc]. rewrite Z.eqb_refl. unfold DecodeOption.
  by rewrite (decode_encoded (Encode8Byte lease keyLease)) by (done || by apply granted_encodes).
Qed.

Lemma srp_parseLease_ok r l k : srp_parseLease r = Ok (l, k) -> uint32_ok l /\ uint32_ok k.
Proof.
  unfold srp_parseLease. destruct (FindOption r) as [e|]; [|done]. destruct (DecodeOption e) as [lo|] eqn:E; [|done].
  destruct (KeyLease lo) eqn:Ek; [|done]. intros [= <- <-]. apply decodeERFC_ok in E as (H1 & H2 & _). rewrite Ek in H2. done.
Qed.

(** A name of the update is another key's. *)
Definition fcfs_conflict (h : SRPHandler) (V : StoreView) (r : Msg) (cu : ClassifiedUpdate) : Prop :=
  exists name k p, name ∈ Names cu /\ KeyFor (Ns r) cu name = Some k /\
    Evaluate (V := V) up_QueryKeyAtName (s_upstreamZone h) name k (s_refuseOnForeignData h) = Ok (FCFSConflict, p).

(** The reply of a refused request: its rcode, and what YXDOMAIN stands for. *)
Definition refusal (r : Msg) (res : HandlerResult) (conflict : Prop) : Prop :=
  exists rc e, res = error_result r rc e /\ rc <> RcodeSuccess /\ (rc = RcodeYXDomain -> conflict).

Lemma refusal_other r rc e conflict : rc <> RcodeSuccess -> rc <> RcodeYXDomain -> refusal r (error_result r rc e) conflict.
Proof. intros ??. by exists rc, e. Qed.

Lemma fcfs_names_refusal h V r cu names acc res :
  fcfs_names h V r cu names acc = Some (inl res) -> (forall name, name ∈ names -> name ∈ Names cu) ->
  refusal r res (fcfs_conflict h V r cu).
Proof.
  revert acc. induction names as [|name names IH]; intros acc; cbn [fcfs_names]; [done|].
  destruct (KeyFor _ _ _) as [k|] eqn:Hk; cbn [mbind option_bind]; [|done].
  destruct (Evaluate _ _ _ _ _) as [[[] p]|] eqn:E; intros H Hin; [by eapply IH; [done|]; intros; apply Hin; right| | |];
    injection H as <-; [|by apply refusal_other..].
  eexists _, _. split_and!; [done..|]. intros _. exists name, k, p. split_and!; [apply Hin; by left|done..].
Qed.

(** The upstream server answered the UPDATE, which has the request's first-claim prerequisites,
    with the rcode of one of them: YXDOMAIN for a name that must not be in use, YXRRSET for a KEY
    RRset that must not exist. *)
Definition prerequisite_conflict (h : SRPHandler) (now : Z) (r : Msg) (cu : ClassifiedUpdate) (x x' : SRPWorld) : Prop :=
  exists zone prereqs records msg resp,
    fcfs_names h (leaseStoreView now (w_store (sw x))) r cu (Names cu) [] = Some (inr prereqs) /\
    up_ResolveAuthoritativeZone (s_upstreamZone h) = Ok zone /\
    BuildAndSign zone prereqs records (s_upstreamKey h) = Ok msg /\ up_SendUpdate zone msg = Ok (Some resp) /\
    (Rcode (MsgHdr resp) = RcodeYXDomain /\ (exists p, p ∈ prereqs /\ RRToType p = TypeANY) \/
     Rcode (MsgHdr resp) = RcodeYXRrset /\ (exists p, p ∈ prereqs /\ RRToType p = TypeKEY)) /\
    w_sent (sw x') = w_sent (sw x) ++ [mkSent zone prereqs records false].

Lemma prerequisiteFailed_true rcode prereqs : prerequisiteFailed rcode prereqs = true ->
  rcode = RcodeYXDomain /\ (exists p, p ∈ prereqs /\ RRToType p = TypeANY) \/
  rcode = RcodeYXRrset /\ (exists p, p ∈ prereqs /\ RRToType p = TypeKEY).
Proof.
  intros H. unfold prerequisiteFailed in H. destruct (Z.eqb_spec rcode RcodeYXDomain); [left|destruct (Z.eqb_spec rcode RcodeYXRrset); [right|done]];
    (split; [done|]); apply existsb_exists in H as (p & Hp%list_elem_of_In & ?%Z.eqb_eq); eauto.
Qed.

Lemma send_answered t prereqs records resp e :
  o_err (send_update t prereqs records) = Some e -> o_resp (send_update t prereqs records) = Some resp ->
  exists zone msg, up_ResolveAuthoritativeZone (t_zone t) = Ok zone /\ BuildAndSign zone prereqs records (t_signingKey t) = Ok msg /\ up_SendUpdate zone msg = Ok (Some resp) /\
    o_sent (send_update t prereqs records) = [mkSent zone prereqs records false].
Proof. unfold send_update. repeat case_match; simpl; try done. intros _ [= <-]. eauto 8. Qed.

Lemma srp_locked_reply h now now' r cu x x' res :
  srp_locked h now now' r cu x = Some (x', res) ->
  refusal r res (fcfs_conflict h (leaseStoreView now (w_store (sw x))) r cu \/ prerequisite_conflict h now r cu x x') \/
  exists l k, srp_parseLease r = Ok (l, k) /\
    res = NewProcessedResult (leaseResponse r (clamp (s_LeasePolicy h) l k).1 (clamp (s_LeasePolicy h) l k).2).
Proof.
  unfold srp_locked. cbn zeta. destruct (fcfs_names _ _ _ _ _ _) as [[res0|prereqs]|] eqn:Hf; cbn [mbind option_bind]; [| |done].
  { apply fcfs_names_refusal in Hf as (rc & e & -> & Hs & Hy); [|done]. intros [= _ <-]. left. exists rc, e. split_and!; auto. }
  destruct (srp_parseLease r) as [[l k]|]; [|intros [= _ <-]; left; by apply refusal_other].
  destruct (clamp _ _ _) as [l' k'] eqn:Hc.
  destruct (forwardRecords _ _ _) as [records|]; cbn [mbind option_bind]; [|done].
  destruct (send _ _ _) as [out|] eqn:Hout; cbn [mbind option_bind]; [|done]. apply send_Some in Hout as [_ ->].
  destruct (o_err _) as [e|] eqn:He.
  - intros H. left. destruct (o_resp _) as [resp|] eqn:Hr; [|injection H as _ <-; by apply refusal_other].
    destruct (prerequisiteFailed _ _) eqn:Hp; injection H as <- <-; [|by apply refusal_other].
    eexists _, _. split_and!; [done..|]. intros _. right. destruct (send_answered _ _ _ _ _ He Hr) as (zone & msg & Hz & Hb & Hsu & Hsent).
    exists zone, prereqs, records, msg, resp. split_and!; [done..|by apply prerequisiteFailed_true|]. cbn. by rewrite Hsent.
  - destruct (applyLocalMutations _ _ _ _ _ _ _) as [[[st' touched] ?]|]; cbn [mbind option_bind]; [|done].
    destruct (reconcileServiceEnumeration _ _ _); cbn [mbind option_bind]; [|done].
    intros [= _ <-]. right. exists l, k. by rewrite Hc.
Qed.

Lemma srp_prologue_reply h udp r res :
  srp_prologue h udp r = Some (inl res) ->
  Status res = StatusNotRelevant /\ Message res = None \/ refusal r res False.
Proof.
  unfold srp_prologue, refuseDottedLabels. intros H.
  repeat (case_match; try done); simplify_eq; first [by left | right; by apply refusal_other].
Qed.

Lemma srp_prologue_rest h udp r r' cu :
  srp_prologue h udp r = Some (inr (r', cu)) -> MsgHdr r' = MsgHdr r /\ srp_parseLease r' = srp_parseLease r.
Proof. unfold srp_prologue. intros H. repeat (case_match; try done); by simplify_eq. Qed.

Lemma refusal_read r res conflict :
  refusal r res conflict ->
  Status res = StatusError /\
  exists resp, Message res = Some resp /\ ID (MsgHdr resp) = ID (MsgHdr r) /\
    InterpretResponse (Some resp) <> OutcomeSuccess /\ (InterpretResponse (Some resp) = OutcomeConflict -> conflict).
Proof.
  intros (rc & e & -> & Hs & Hy). split; [done|]. eexists. split_and!; [done..| |]; unfold InterpretResponse; cbn.
  - rewrite (proj2 (Z.eqb_neq _ _) Hs). repeat case_match; done.
  - rewrite (proj2 (Z.eqb_neq _ _) Hs). destruct (rc =? RcodeYXDomain) eqn:E; [intros _; apply Hy; lia|]. repeat case_match; done.
Qed.

(** An update was applied: one UPDATE with its records was confirmed, and the lease store is what
    [applyLocalMutations] made of it. *)
Definition update_applied (h : SRPHandler) (now' : Z) (r : Msg) (cu : ClassifiedUpdate) (lease keyLease : Z) (x x' : SRPWorld) : Prop :=
  let ns := applyRecordTTL cu (s_recordTTL h) lease keyLease (Ns r) in
  exists zone prereqs recs extra touched err,
    forwardRecords (w_store (sw x)) ns cu = Some recs /\
    w_sent (sw x') = w_sent (sw x) ++ mkSent zone prereqs recs true :: extra /\
    applyLocalMutations now' lease keyLease (s_upstreamZone h) ns cu (w_store (sw x)) = Some (w_store (sw x'), touched, err).

Lemma applied_update h now now' r cu x x' res ru :
  srp_applied h now now' r cu x x' res ru -> update_applied h now' r cu (ru_lease ru) (ru_keyLease ru) x x'.
Proof.
  intros Ha. destruct (applied_sent _ _ _ _ _ _ _ _ _ Ha) as (extra & Hs & _). unfold update_applied. rewrite <- (ap_ns _ _ _ _ _ _ _ _ _ Ha).
  eexists _, _, _, _, _, _. split_and!; [apply (ap_records _ _ _ _ _ _ _ _ _ Ha)|exact Hs|].
  destruct (reconcile_frame _ _ _ _ (ap_world _ _ _ _ _ _ _ _ _ Ha)) as (-> & _). apply (ap_mutations _ _ _ _ _ _ _ _ _ Ha).
Qed.

(** [C34] The requester learns what the registrar did.  A request that is not an SRP update gets
    no answer from this handler.  One that is refused is answered with its ID and read as
    something other than success, the lease store is unchanged and no UPDATE was confirmed; it
    is read as a naming conflict only if another key was found at one of its names or the
    upstream server answered the UPDATE with the rcode of a failed first-claim prerequisite.
    One that is read as a success was applied: an UPDATE with its records was confirmed and the
    lease store is the outcome of its local mutations, with the leases the requester reads,
    which are the requested ones clamped by the registrar's policy. *)
Theorem requester_reads_reply (h : SRPHandler) (udp acquired : bool) (now now' : Z) (r : Msg) (x x' : SRPWorld) (res : HandlerResult) :
  policy_uint32 (s_LeasePolicy h) ->
  SRP_Handle h udp acquired now now' r x = Some (x', res) ->
  match Status res with
  | StatusNotRelevant => Message res = None /\ x' = x
  | StatusError =>
      w_store (sw x') = w_store (sw x) /\
      (exists extra, w_sent (sw x') = w_sent (sw x) ++ extra /\ Forall (fun s => sent_ok s = false) extra) /\
      exists resp, Message res = Some resp /\ ID (MsgHdr resp) = ID (MsgHdr r) /\
        InterpretResponse (Some resp) <> OutcomeSuccess /\
        (InterpretResponse (Some resp) = OutcomeConflict ->
         exists r' cu, srp_prologue h udp r = Some (inr (r', cu)) /\
           (prerequisite_conflict h now r' cu x x' \/ fcfs_conflict h (leaseStoreView now (w_store (sw x))) r' cu))
  | StatusProcessed =>
      exists resp l k, Message res = Some resp /\ ID (MsgHdr resp) = ID (MsgHdr r) /\
        InterpretResponse (Some resp) = OutcomeSuccess /\ srp_parseLease r = Ok (l, k) /\
        GrantedLease resp = Some (clamp (s_LeasePolicy h) l k) /\
        exists r' cu, srp_prologue h udp r = Some (inr (r', cu)) /\
          update_applied h now' r' cu (clamp (s_LeasePolicy h) l k).1 (clamp (s_LeasePolicy h) l k).2 x x'
  end.
Proof.
  intros Hpol HH. assert (Hst : Status res <> StatusProcessed -> w_store (sw x') = w_store (sw x) /\
    exists extra, w_sent (sw x') = w_sent (sw x) ++ extra /\ Forall (fun s => sent_ok s = false) extra).
  { intros Hs. apply SRP_Handle_cases in HH as [[(? & _ & _ & _ & _ & ?) _]|(_ & r' & cu & _ & [(? & _ & _ & _ & _ & ?)|[ru Ha]])]; [done..|].
    rewrite (ap_res _ _ _ _ _ _ _ _ _ Ha) in Hs. done. }
  assert (Hap : Status res = StatusProcessed -> exists r' cu ru, srp_prologue h udp r = Some (inr (r', cu)) /\ srp_applied h now now' r' cu x x' res ru).
  { intros Hs. apply SRP_Handle_cases in HH as [[(_ & _ & _ & _ & Hn & _) _]|(_ & r' & cu & Hp & [(_ & _ & _ & _ & Hn & _)|[ru Ha]])]; [done..|eauto]. }
  unfold SRP_Handle in HH. destruct (srp_prologue h udp r) as [[res0|[r' cu]]|] eqn:Hp; cbn [mbind option_bind] in HH; [| |done].
  { injection HH as <- <-. destruct (srp_prologue_reply _ _ _ _ Hp) as [[-> ?]|HR]; [done|].
    apply refusal_read in HR as (Es & resp & ? & ? & ? & Hc). rewrite Es in *. destruct (Hst ltac:(done)) as [? ?]. split; [done|]. split; [done|].
    exists resp. split_and!; try done; intros E; by destruct (Hc E). }
  destruct (srp_prologue_rest _ _ _ _ _ Hp) as [Hhdr Hpl]. destruct (lockRoots _ _) as [roots|]; cbn [mbind option_bind] in HH; [|done].
  destruct acquired; cbn [negb] in HH.
  2: { injection HH as <- <-. cbn. split; [done|]. split; [by apply (Hst ltac:(done))|]. eexists. split_and!; [done|cbn; by rewrite Hhdr|done|done]. }
  apply srp_locked_reply in HH as [HR|(l & k & Hl & ->)].
  - apply refusal_read in HR as (Es & resp & ? & Hid & ? & Hc). rewrite Es in *. destruct (Hst ltac:(done)) as [? ?]. split; [done|]. split; [done|]. exists resp.
    split_and!; [done|by rewrite Hid, Hhdr|done|]. intros E. exists r', cu. split; [done|]. destruct (Hc E); [by right|by left].
  - cbn [Status Message NewProcessedResult] in *. destruct (Hap eq_refl) as (r1 & cu1 & ru & Hp1 & Ha). injection Hp1 as <- <-.
    destruct (ap_lease _ _ _ _ _ _ _ _ _ Ha) as (l0 & k0 & E0 & Ec). rewrite Hl in E0. injection E0 as <- <-.
    apply applied_update in Ha. rewrite Hpl in Hl. eexists _, l, k. split_and!; [done|cbn; by rewrite Hhdr|done|done| |by rewrite Ec; eauto].
    destruct (srp_parseLease_ok _ _ _ Hl) as [Hl1 Hk1]. destruct (clamp (s_LeasePolicy h) l k) as [l' k'] eqn:Hc.
    destruct Hpol as (?&?&?&?). apply clamp_ok in Hc as (Hl' & Hk' & Hle); [|unfold policy_nonneg, uint32_ok in *; lia|done..].
    by apply GrantedLease_reply.
Qed.
End reply.

Lemma requester_reads_reply_witness :
  exists resp, Message (SrpRun.after SrpRun.request SrpRun.fresh).2 = Some resp /\
    InterpretResponse (Some resp) = OutcomeSuccess /\ GrantedLease resp <> None /\
    exists s, s ∈ w_sent (sw (SrpRun.after SrpRun.request SrpRun.fresh).1) /\ sent_ok s = true.
Proof.
  pose proof (requester_reads_reply (L := Demo.lib) (SG := DemoUp.sig0) (U := SrpRun.upstream) SrpRun.handler false true 5 6
                SrpRun.request SrpRun.fresh (SrpRun.after SrpRun.request SrpRun.fresh).1 (SrpRun.after SrpRun.request SrpRun.fresh).2
                ltac:(repeat split; vm_compute; congruence) ltac:(vm_compute; reflexivity)) as H.
  assert (Hs : Status (SrpRun.after SrpRun.request SrpRun.fresh).2 = StatusProcessed) by (vm_compute; reflexivity).
  rewrite Hs in H. destruct H as (resp & l & k & H1 & _ & H2 & _ & H3 & r' & cu & _ & zone & pre & recs & extra & touched & err & _ & Hlog & _).
  exists resp. split_and!; [exact H1|exact H2|by rewrite H3|]. exists (mkSent zone pre recs true). split; [rewrite Hlog; apply elem_of_app; right; left|reflexivity].
Defined.
