(* ===== verification/SrpDiscovery.v ===== *)
(** * The SRP requester: finding the registrar

    client/srp/discovery.go: from a registration domain, SOA queries find the apex of the
    enclosing zone, SRV queries at the domain and its parents up to that apex find the
    registrar, and address queries its address.  A [DNSQuery] is a function of the name and
    type asked for: the answers of the resolvers during one discovery.  The searches go up one
    label at a time, with the length of the name as fuel; [None] is running out of it, which
    [discovery_finds_closest] excludes. *)

From Stdlib Require Import Ascii String ZArith Lia.
From S2P Require Import Prelude DnsName DnsData UpdateCore SrpRequest.

Local Open Scope Z_scope.

(** ** Networks and modes *)

(** [Network] and [DiscoveryMode] are integers. *)
Definition NetworkTCP : Z := 0.
Definition NetworkTLS : Z := 1.
Definition NetworkUDP : Z := 2.
Definition DiscoveryClosest : Z := 0.
Definition DiscoveryApexOnly : Z := 1.

Definition Network_validate (n : Z) : result unit :=
  if (n =? NetworkTCP) || (n =? NetworkTLS) || (n =? NetworkUDP) then Ok tt else Err "unknown Network".

Definition DiscoveryService (n : Z) : string :=
  if n =? NetworkTLS then "_dnssd-srp-tls._tcp" else "_dnssd-srp._tcp".

Definition DiscoveryMode_validate (m : Z) : result unit :=
  if (m =? DiscoveryClosest) || (m =? DiscoveryApexOnly) then Ok tt else Err "unknown DiscoveryMode".

(** ** Addresses as text: [netip.Addr.String] and [net.JoinHostPort] *)

Definition v6u16 (a : Z) (i : nat) : Z := Z.land (Z.shiftr a (16 * (7 - Z.of_nat i))) 65535.

Definition String4 (a : Z) : string :=
  JoinDot (map (fun i => fmt_d (Z.land (Z.shiftr a (8 * i)) 255)) [3; 2; 1; 0]).

(** The length of the run of zero groups from [i] on. *)
Fixpoint zero_run (a : Z) (i fuel : nat) : nat :=
  match fuel with
  | O => O
  | S fuel => if (i <? 8)%nat && (v6u16 a i =? 0) then S (zero_run a (S i) fuel) else O
  end.

(** The first longest run of at least two zero groups. *)
Definition zero_span (a : Z) : option (nat * nat) :=
  foldl (fun best i =>
           let l := zero_run a i 8 in
           if (2 <=? l)%nat && (match best with Some (s, e) => (e - s <? l)%nat | None => true end)
           then Some (i, (i + l)%nat) else best) None (seq 0 8).

Definition hex_digit (d : Z) : ascii := if d <? 10 then ascii_of_N (48 + Z.to_N d) else ascii_of_N (87 + Z.to_N d).

Fixpoint hex_digits (n : nat) (v : Z) : string :=
  match n with O => "" | S n => hex_digits n (Z.shiftr v 4) +:+ String (hex_digit (Z.land v 15)) "" end.

Definition hex16 (v : Z) : string :=
  hex_digits (if 4096 <=? v then 4%nat else if 256 <=? v then 3%nat else if 16 <=? v then 2%nat else 1%nat) v.

Fixpoint String6_groups (a : Z) (span : option (nat * nat)) (i fuel : nat) : string :=
  match fuel with
  | O => ""
  | S fuel =>
      if (8 <=? i)%nat then ""
      else match span with
      | Some (s, e) =>
          if (i =? s)%nat
          then "::" +:+ (if (8 <=? e)%nat then "" else hex16 (v6u16 a e) +:+ String6_groups a span (S e) fuel)
          else (if (0 <? i)%nat then ":" else "") +:+ hex16 (v6u16 a i) +:+ String6_groups a span (S i) fuel
      | None => (if (0 <? i)%nat then ":" else "") +:+ hex16 (v6u16 a i) +:+ String6_groups a span (S i) fuel
      end
  end.

Definition Addr_String (addr : Addr) : string :=
  match addr with
  | Addr4 a => String4 a
  | Addr6 a => if Z.shiftr a 32 =? 65535 then "::ffff:" +:+ String4 (Z.land a 4294967295)
               else String6_groups a (zero_span a) 0 9
  end.

Definition ContainsColon (s : string) : bool := string_existsb (fun c => bool_decide (c = ":"%char)) s.

Definition JoinHostPort (host port : string) : string :=
  if ContainsColon host then "[" +:+ host +:+ "]:" +:+ port else host +:+ ":" +:+ port.

Example ipv6_text :
  map Addr_String [Addr6 42540766411282592856903984951653826561; Addr6 0; Addr6 1; Addr6 281473902969472;
                   Addr6 42540766411282592856903984951653826560; Addr4 3221226219]
  = ["2001:db8::1"; "::"; "::1"; "::ffff:192.0.2.128"; "2001:db8::"; "192.0.2.235"].
Proof. vm_compute. reflexivity. Qed.

(** ** Queries *)

Definition DNSQuery := string -> Z -> result Msg.

Definition ensureFQDN (name : string) : string := if HasSuffix name "." then name else name +:+ ".".

(** [LiveDNSQuery]: [exchange] is [dns.Exchange] over UDP, whose response is non-nil unless it
    reports an error. *)
Fixpoint try_resolvers (exchange : Msg -> string -> result Msg) (req : Msg) (resolvers : list string) : result Msg :=
  match resolvers with
  | [] => Err "query failed against all resolvers"
  | resolver :: rest =>
      match exchange req resolver with
      | Err _ => try_resolvers exchange req rest
      | Ok resp =>
          if negb (Rcode (MsgHdr resp) =? RcodeSuccess) && negb (Rcode (MsgHdr resp) =? RcodeNameError)
          then try_resolvers exchange req rest
          else Ok resp
      end
  end.

Definition LiveDNSQuery (exchange : Msg -> string -> result Msg) (resolvers : list string) : DNSQuery :=
  let resolvers := match resolvers with [] => defaultBootstrapResolvers | _ => resolvers end in
  fun name qtype => try_resolvers exchange (new_query name qtype) resolvers.

(** ** The zone and the names to search *)

Fixpoint firstSOA (rrs : list RR) : option RR :=
  match rrs with
  | [] => None
  | rr :: rrs => match soa_Ns rr with Some _ => Some rr | None => firstSOA rrs end
  end.

Definition answer_soa (resp : Msg) : option RR :=
  match firstSOA (Answer resp) with Some soa => Some soa | None => firstSOA (Ns resp) end.

(** [_, rest, _ = dnsname.CutFirstLabel(name)]. *)
Definition parent (name : string) : string := (CutFirstLabel name).1.2.

Fixpoint zoneApex_loop (query : DNSQuery) (fuel : nat) (candidate : string) : option (result string) :=
  match fuel with
  | O => None
  | S fuel =>
      if (length (Labels candidate) <=? 2)%nat
      then Some (Err "no SOA record found for the name or any parent name above the top-level domain")
      else match query candidate TypeSOA with
      | Err e => Some (Err e)
      | Ok resp =>
          match answer_soa resp with
          | Some soa =>
              let apex := ensureFQDN (Name (Hdr soa)) in
              if bool_decide (apex = ".") then Some (Err "no zone below the root encloses the name") else Some (Ok apex)
          | None => zoneApex_loop query fuel (parent candidate)
          end
      end
  end.

Definition zoneApex (query : DNSQuery) (name : string) : option (result string) :=
  zoneApex_loop query (S (String.length (ensureFQDN name))) (ensureFQDN name).

(** The names from [name] up to [apex]. *)
Fixpoint search_names (fuel : nat) (name apex : string) : option (result (list string)) :=
  match fuel with
  | O => None
  | S fuel =>
      if EqualFold name apex then Some (Ok [name])
      else if bool_decide (parent name = "") then Some (Err "the zone apex does not enclose the name")
      else names ← search_names fuel (parent name) apex;
           Some (match names with Ok names => Ok (name :: names) | Err e => Err e end)
  end.

Definition registrarSearchNames (domain apex : string) (mode : Z) : option (result (list string)) :=
  names ← search_names (S (String.length domain)) domain apex;
  Some (match names with
        | Err e => Err e
        | Ok names => Ok (if mode =? DiscoveryApexOnly then option_list (last names) else names)
        end).

(** ** The registrar *)

Record SRV := mkSRV { Priority : Z; Weight : Z; Port : Z; Target : string }.

Definition as_SRV (rr : RR) : option SRV :=
  match RD rr with RD_SRV p w port target => Some (mkSRV p w port target) | _ => None end.

(** The loop over the names: the SRV records at the first that has any. *)
Fixpoint find_srvs (query : DNSQuery) (network : Z) (names : list string) : result (list SRV) :=
  match names with
  | [] => Ok []
  | n :: names =>
      match query (DiscoveryService network +:+ "." +:+ n) TypeSRV with
      | Err e => Err e
      | Ok resp =>
          match omap as_SRV (Answer resp) with
          | [] => find_srvs query network names
          | srvs => Ok srvs
          end
      end
  end.

Definition better (s best : SRV) : bool :=
  (Priority s <? Priority best) || ((Priority s =? Priority best) && (Weight best <? Weight s)).

Definition best_srv (srv : SRV) (srvs : list SRV) : SRV := foldl (fun best s => if better s best then s else best) srv srvs.

Definition as_A (rr : RR) : option Addr := match RD rr with RD_A a => Some (Addr4 a) | _ => None end.
Definition as_AAAA (rr : RR) : option Addr := match RD rr with RD_AAAA a => Some (Addr6 a) | _ => None end.

Definition targetAddress (query : DNSQuery) (target : string) : result Addr :=
  match query target TypeA with
  | Err e => Err e
  | Ok resp =>
      match omap as_A (Answer resp) with
      | a :: _ => Ok a
      | [] =>
          match query target TypeAAAA with
          | Err e => Err e
          | Ok resp =>
              match omap as_AAAA (Answer resp) with
              | a :: _ => Ok a
              | [] => Err "SRV target has no A or AAAA record"
              end
          end
      end
  end.

(** [Discover]; a nil query is [None]. *)
Definition Discover (query : option DNSQuery) (domain : string) (mode network : Z) : option (result string) :=
  match query with
  | None => Some (Err "Discover called with a nil DNSQuery")
  | Some query =>
      match DiscoveryMode_validate mode, Network_validate network with
      | Err e, _ | Ok _, Err e => Some (Err e)
      | Ok _, Ok _ =>
          let domain := ensureFQDN domain in
          zone ← zoneApex query domain;
          match zone with
          | Err e => Some (Err e)
          | Ok zone =>
              names ← registrarSearchNames domain zone mode;
              match names with
              | Err e => Some (Err e)
              | Ok names =>
                  match find_srvs query network names with
                  | Err e => Some (Err e)
                  | Ok [] => Some (Err "no SRP registrar found: no SRV record")
                  | Ok (srv :: srvs) =>
                      let best := best_srv srv srvs in
                      match targetAddress query (Target best) with
                      | Err e => Some (Err e)
                      | Ok addr => Some (Ok (JoinHostPort (Addr_String addr) (fmt_d (Port best))))
                      end
                  end
              end
          end
      end
  end.

(** ** Going up *)

(** The [k]-th name above [name]. *)
Fixpoint up (k : nat) (name : string) : string := match k with O => name | S k => up k (parent name) end.

Lemma parent_shorter name : name <> "" -> (String.length (parent name) < String.length name)%nat.
Proof.
  intros Hn. unfold parent. pose proof (CutFirstLabel_spec name) as H. destruct (CutFirstLabel name) as [[first rest] []]; cbn.
  - destruct H as (-> & _). rewrite !string_length_app. cbn. lia.
  - destruct H as (_ & -> & _). destruct name; [done|cbn; lia].
Qed.

Lemma Labels_empty : Labels "" = [].
Proof. done. Qed.

(** [zone] is what the SOA queries say is the zone of [d]: the SOA at the first name, going
    up from [d], with one. *)
Definition apex_of (query : DNSQuery) (d zone : string) : Prop :=
  exists k resp soa,
    (forall j, (j < k)%nat -> exists resp, query (up j d) TypeSOA = Ok resp /\ answer_soa resp = None) /\
    (forall j, (j <= k)%nat -> (2 < length (Labels (up j d)))%nat) /\
    query (up k d) TypeSOA = Ok resp /\ answer_soa resp = Some soa /\ zone = ensureFQDN (Name (Hdr soa)) /\ zone <> ".".

Lemma forall_lt_S (P : nat -> Prop) k : P O -> (forall j, (j < k)%nat -> P (S j)) -> forall j, (j < S k)%nat -> P j.
Proof. intros H0 HS [|j] ?; [done|]. apply HS. lia. Qed.

Lemma zoneApex_loop_total query fuel c : (String.length c < fuel)%nat -> is_Some (zoneApex_loop query fuel c).
Proof.
  revert c. induction fuel as [|fuel IH]; intros c Hf; [lia|]. cbn [zoneApex_loop].
  destruct (Nat.leb_spec (length (Labels c)) 2) as [E|E]; [done|]. destruct (query c TypeSOA) as [resp|]; [|done].
  destruct (answer_soa resp); [by case_bool_decide|]. apply IH. assert (c <> "") by (intros ->; rewrite Labels_empty in *; cbn in *; lia).
  pose proof (parent_shorter c). naive_solver lia.
Qed.

Lemma zoneApex_loop_ok query fuel c zone : zoneApex_loop query fuel c = Some (Ok zone) -> apex_of query c zone.
Proof.
  revert c. induction fuel as [|fuel IH]; intros c; [done|]. cbn [zoneApex_loop].
  destruct (Nat.leb_spec (length (Labels c)) 2) as [E|E]; [done|]. destruct (query c TypeSOA) as [resp|] eqn:Hq; [|done].
  destruct (answer_soa resp) as [soa|] eqn:Hs.
  - case_bool_decide; intros [= <-]. exists O, resp, soa. split_and!; try done; [lia|]. intros j ?. replace j with O by lia. cbn [up]. lia.
  - intros (k & resp' & soa & H1 & H2 & H)%IH. exists (S k), resp', soa. split_and!; [| |apply H..].
    + apply forall_lt_S; [eauto|exact H1].
    + intros [|j] ?; [cbn [up]; lia|]. apply H2. lia.
Qed.

Lemma zoneApex_loop_complete query fuel c zone :
  (String.length c < fuel)%nat -> apex_of query c zone -> zoneApex_loop query fuel c = Some (Ok zone).
Proof.
  revert c. induction fuel as [|fuel IH]; intros c Hf; [lia|]. intros (k & resp & soa & H1 & H2 & Hq & Hs & Hz & Hd). cbn [zoneApex_loop].
  pose proof (H2 O ltac:(lia)) as H0. cbn [up] in H0. destruct (Nat.leb_spec (length (Labels c)) 2) as [E|E]; [lia|]. destruct k as [|k].
  - cbn in Hq. rewrite Hq, Hs, <- Hz. by rewrite bool_decide_false.
  - destruct (H1 O ltac:(lia)) as (resp0 & E0 & E1). cbn in E0. rewrite E0, E1. apply IH.
    + assert (c <> "") by (intros ->; rewrite Labels_empty in *; cbn in *; lia). pose proof (parent_shorter c). naive_solver lia.
    + exists k, resp, soa. split_and!; try done; intros j Hj; [apply (H1 (S j))|apply (H2 (S j))]; lia.
Qed.

(** The names from [d] up to the apex, the [k]-th above it. *)
Definition names_upto (d : string) (k : nat) : list string := map (fun i => up i d) (seq 0 (S k)).

Definition first_at (d apex : string) (k : nat) : Prop :=
  Fold (up k d) = Fold apex /\ forall j, (j < k)%nat -> Fold (up j d) <> Fold apex.

Lemma names_upto_S d k : names_upto d (S k) = d :: names_upto (parent d) k.
Proof. unfold names_upto. cbn [seq map up]. f_equal. cbn [seq map up]. f_equal. rewrite <- !seq_shift, !map_map. done. Qed.

Lemma search_names_total fuel d apex : (String.length d < fuel)%nat -> is_Some (search_names fuel d apex).
Proof.
  revert d. induction fuel as [|fuel IH]; intros d Hf; [lia|]. cbn [search_names]. destruct (EqualFold d apex); [done|].
  case_bool_decide as E; [done|]. assert (d <> "") by (intros ->; done). pose proof (parent_shorter d).
  destruct (IH (parent d)) as [names ->]; [naive_solver lia|]. done.
Qed.

Lemma search_names_ok fuel d apex names :
  search_names fuel d apex = Some (Ok names) -> exists k, names = names_upto d k /\ first_at d apex k.
Proof.
  revert d names. induction fuel as [|fuel IH]; intros d names; [done|]. cbn [search_names].
  destruct (EqualFold d apex) eqn:E.
  - intros [= <-]. exists O. split; [done|]. split; [by apply EqualFold_iff|lia].
  - case_bool_decide; [done|]. destruct (search_names fuel (parent d) apex) as [[names'|]|] eqn:Es; try done. cbn [mbind option_bind]. intros [= <-].
    apply IH in Es as (k & -> & Hk & Hlt). exists (S k). rewrite names_upto_S. split; [done|]. split; [done|]. apply forall_lt_S; [|done].
    cbn. intros ?%EqualFold_iff. congruence.
Qed.

Lemma search_names_complete fuel d apex k :
  (String.length d < fuel)%nat -> apex <> "" -> first_at d apex k -> search_names fuel d apex = Some (Ok (names_upto d k)).
Proof.
  revert d k. induction fuel as [|fuel IH]; intros d k Hf Ha [Hk Hlt]; [lia|]. cbn [search_names]. destruct k as [|k].
  - cbn [up] in Hk. by rewrite (proj2 (EqualFold_iff _ _) Hk).
  - destruct (EqualFold d apex) eqn:E; [apply EqualFold_iff in E; by destruct (Hlt O ltac:(lia))|].
    assert (Hp : parent d <> "").
    { intros E0. cbn [up] in Hk. rewrite E0 in Hk. assert (Hup : forall k, up k "" = "") by (induction k0; done).
      rewrite Hup in Hk. symmetry in Hk. by apply Fold_empty in Hk. }
    rewrite bool_decide_false by done. assert (d <> "") by (intros ->; done). pose proof (parent_shorter d).
    rewrite (IH (parent d) k); [cbn [mbind option_bind]; by rewrite names_upto_S|naive_solver lia|done|]. split; [done|]. intros j Hj. apply (Hlt (S j)). lia.
Qed.

(** ** The choice among SRV records *)

Lemma better_true a b : better a b = true <-> Priority a < Priority b \/ Priority a = Priority b /\ Weight b < Weight a.
Proof. unfold better. rewrite orb_true_iff, andb_true_iff, !Z.ltb_lt, Z.eqb_eq. done. Qed.

Lemma better_false a b : better a b = false <-> Priority b < Priority a \/ Priority b = Priority a /\ Weight a <= Weight b.
Proof. rewrite <- not_true_iff_false, better_true. lia. Qed.

Lemma best_srv_spec srv srvs :
  best_srv srv srvs ∈ srv :: srvs /\ forall s, s ∈ srv :: srvs -> better s (best_srv srv srvs) = false.
Proof.
  revert srv. induction srvs as [|s0 srvs IH]; intros srv; cbn [best_srv foldl].
  - split; [by left|]. intros s ->%list_elem_of_singleton. apply better_false. lia.
  - fold (best_srv (if better s0 srv then s0 else srv) srvs). destruct (IH (if better s0 srv then s0 else srv)) as [H1 H2].
    split; [destruct (better s0 srv); set_solver|].
    pose proof (H2 _ ltac:(by left)) as H3. apply better_false in H3.
    intros s [->|[->|Hs]%elem_of_cons]%elem_of_cons; [| |apply H2; by right]; apply better_false;
      destruct (better s0 srv) eqn:E; [apply better_true in E|apply better_false in E|apply better_true in E|apply better_false in E]; lia.
Qed.

(** The SRV records at a name. *)
Definition srvs_at (query : DNSQuery) (network : Z) (n : string) (srvs : list SRV) : Prop :=
  exists resp, query (DiscoveryService network +:+ "." +:+ n) TypeSRV = Ok resp /\ omap as_SRV (Answer resp) = srvs.

Lemma find_srvs_ok query network names srvs :
  find_srvs query network names = Ok srvs -> srvs <> [] ->
  exists i n, names !! i = Some n /\ srvs_at query network n srvs /\
    forall j m, (j < i)%nat -> names !! j = Some m -> srvs_at query network m [].
Proof.
  induction names as [|n names IH]; cbn [find_srvs]; [by intros [= <-]|].
  destruct (query _ _) as [resp|] eqn:Hq; [|done]. destruct (omap as_SRV (Answer resp)) as [|s l] eqn:Es.
  - intros H Hne. destruct (IH H Hne) as (i & m & Hi & Hm & Hlt). exists (S i), m. split_and!; [done..|].
    intros [|j] m' Hj; cbn; [intros [= <-]; by exists resp|]. apply Hlt. lia.
  - intros [= <-] _. exists O, n. split_and!; [done|by exists resp|]. intros j m Hj. lia.
Qed.

Lemma find_srvs_complete query network names i n srvs :
  names !! i = Some n -> srvs_at query network n srvs -> srvs <> [] ->
  (forall j m, (j < i)%nat -> names !! j = Some m -> srvs_at query network m []) ->
  find_srvs query network names = Ok srvs.
Proof.
  revert i. induction names as [|m names IH]; intros i Hi Hs Hne Hlt; [done|]. cbn [find_srvs]. destruct i as [|i].
  - injection Hi as ->. destruct Hs as (resp & -> & E). rewrite E. by destruct srvs.
  - destruct (Hlt O m ltac:(lia) eq_refl) as (resp & -> & ->). apply (IH i); [done..|]. intros j m' Hj Hm. apply (Hlt (S j)); [lia|done].
Qed.

Lemma names_upto_lookup d k i n : names_upto d k !! i = Some n <-> (i <= k)%nat /\ n = up i d.
Proof.
  unfold names_upto. rewrite list_lookup_fmap. split.
  - destruct (seq 0 (S k) !! i) as [j|] eqn:E; [|done]. apply lookup_seq in E as [-> Hlt]. cbn. intros [= <-]. split; [lia|done].
  - intros [Hi ->]. rewrite (proj2 (lookup_seq 0 (S k) i i)); [done|lia].
Qed.

Lemma last_names_upto d k : last (names_upto d k) = Some (up k d).
Proof. unfold names_upto. rewrite seq_S, map_app. cbn [map]. by rewrite last_snoc. Qed.

Lemma ensureFQDN_idem s : ensureFQDN (ensureFQDN s) = ensureFQDN s.
Proof.
  unfold ensureFQDN. destruct (HasSuffix s ".") eqn:E; [by rewrite E|].
  rewrite (proj2 (HasSuffix_spec (s +:+ ".") ".")); [done|by eexists].
Qed.

Lemma ensureFQDN_ne s : ensureFQDN s <> "".
Proof. unfold ensureFQDN. destruct (HasSuffix s ".") eqn:E; [by apply HasSuffix_spec in E as [[] ->]|by destruct s]. Qed.

(** The registrar of [d]: the best SRV at the [i]-th name, at or below the zone's apex (the
    [k]-th), with nothing closer unless only the apex is asked. *)
Definition registrar (query : DNSQuery) (d : string) (mode network : Z) (srvs : list SRV) : Prop :=
  exists zone k i, apex_of query d zone /\ first_at d zone k /\ (i <= k)%nat /\ srvs_at query network (up i d) srvs /\ srvs <> [] /\
    (mode = DiscoveryApexOnly -> i = k) /\
    (mode = DiscoveryClosest -> forall j, (j < i)%nat -> srvs_at query network (up j d) []).

Lemma search_total domain zone mode : is_Some (registrarSearchNames domain zone mode).
Proof. unfold registrarSearchNames. destruct (search_names_total (S (String.length domain)) domain zone) as [n ->]; [lia|done]. Qed.

Lemma search_ok d zone mode names :
  registrarSearchNames d zone mode = Some (Ok names) ->
  exists k, first_at d zone k /\ names = if mode =? DiscoveryApexOnly then [up k d] else names_upto d k.
Proof.
  unfold registrarSearchNames. destruct (search_names _ _ _) as [[l|]|] eqn:E; try done. cbn [mbind option_bind]. intros [= <-].
  apply search_names_ok in E as (k & -> & Hk). exists k. split; [done|]. by rewrite last_names_upto.
Qed.

Lemma search_complete d zone mode k :
  zone <> "" -> first_at d zone k ->
  registrarSearchNames d zone mode = Some (Ok (if mode =? DiscoveryApexOnly then [up k d] else names_upto d k)).
Proof.
  intros Hz Hk. unfold registrarSearchNames. rewrite (search_names_complete _ _ _ k) by (done || lia). cbn [mbind option_bind].
  by rewrite last_names_upto.
Qed.

Lemma Discover_total query domain mode network : is_Some (Discover (Some query) domain mode network).
Proof.
  unfold Discover. destruct (DiscoveryMode_validate mode); [|done]. destruct (Network_validate network); [|done]. cbn zeta.
  unfold zoneApex. rewrite ensureFQDN_idem.
  destruct (zoneApex_loop_total query (S (String.length (ensureFQDN domain))) (ensureFQDN domain)) as [[zone|] ->]; [lia| |done].
  cbn [mbind option_bind]. destruct (search_total (ensureFQDN domain) zone mode) as [names ->]. cbn [mbind option_bind]. by repeat case_match.
Qed.

(** The names searched, one way or the other. *)
Lemma find_registrar query network d k mode srvs :
  find_srvs query network (if mode =? DiscoveryApexOnly then [up k d] else names_upto d k) = Ok srvs -> srvs <> [] ->
  exists i, (i <= k)%nat /\ srvs_at query network (up i d) srvs /\ (mode = DiscoveryApexOnly -> i = k) /\
    (mode = DiscoveryClosest -> forall j, (j < i)%nat -> srvs_at query network (up j d) []).
Proof.
  intros H Hne. destruct (find_srvs_ok _ _ _ _ H Hne) as (i & n & Hi & Hn & Hlt). destruct (mode =? DiscoveryApexOnly) eqn:E.
  - apply list_lookup_singleton_Some in Hi as [-> <-]. exists k. split_and!; [done..|]. intros ->. done.
  - apply names_upto_lookup in Hi as [Hi ->]. exists i. split_and!; [done..|lia|]. intros _ j Hj. apply (Hlt j); [done|].
    apply names_upto_lookup. split; [lia|done].
Qed.

Lemma find_registrar_complete query network d k i mode srvs :
  DiscoveryMode_validate mode = Ok tt -> (i <= k)%nat -> srvs_at query network (up i d) srvs -> srvs <> [] ->
  (mode = DiscoveryApexOnly -> i = k) -> (mode = DiscoveryClosest -> forall j, (j < i)%nat -> srvs_at query network (up j d) []) ->
  find_srvs query network (if mode =? DiscoveryApexOnly then [up k d] else names_upto d k) = Ok srvs.
Proof.
  unfold DiscoveryMode_validate. intros Hm Hi Hs Hne Ha Hc. destruct (mode =? DiscoveryApexOnly) eqn:E.
  - rewrite <- (Ha ltac:(lia)). apply (find_srvs_complete _ _ _ O (up i d)); try done. lia.
  - apply (find_srvs_complete _ _ _ i (up i d)); [by apply names_upto_lookup|done..|].
    destruct (mode =? DiscoveryClosest) eqn:E0; [|done]. intros j m Hj [_ ->]%names_upto_lookup. apply Hc; [lia|done].
Qed.

(** One of lowest priority and, at that priority, of highest weight. *)
Definition preferred (srv : SRV) (srvs : list SRV) : Prop :=
  srv ∈ srvs /\ forall s, s ∈ srvs -> Priority srv < Priority s \/ Priority srv = Priority s /\ Weight s <= Weight srv.

(** [C36] Discovery always ends, and what it finds is the registrar.  An address is returned only
    for an SRV record at the registration domain or one of its parents, at or below the apex of
    the enclosing zone, never above it: in closest mode at the first such name with an SRV, in
    apex-only mode at the apex; among its SRV records a preferred one is chosen, of lowest
    priority and then of highest weight, and the address is its target's.  And with a valid mode
    and network, when there is such a name and the targets of its preferred SRV records have
    addresses, discovery succeeds. *)
Theorem discovery_finds_closest (query : DNSQuery) (domain : string) (mode network : Z) :
  let d := ensureFQDN domain in
  exists res, Discover (Some query) domain mode network = Some res /\
    (forall addr, res = Ok addr ->
       exists srvs srv a, registrar query d mode network srvs /\ preferred srv srvs /\
         targetAddress query (Target srv) = Ok a /\ addr = JoinHostPort (Addr_String a) (fmt_d (Port srv))) /\
    (forall srvs, DiscoveryMode_validate mode = Ok tt -> Network_validate network = Ok tt ->
       registrar query d mode network srvs -> (forall s, preferred s srvs -> is_ok (targetAddress query (Target s)) = true) ->
       exists addr, res = Ok addr).
Proof.
  cbn zeta. unfold Discover. destruct (DiscoveryMode_validate mode) as [[]|] eqn:Hm; [|by eexists].
  destruct (Network_validate network) as [[]|] eqn:Hn; [|by eexists]. set (d := ensureFQDN domain). cbn zeta.
  assert (Hd : ensureFQDN d = d) by apply ensureFQDN_idem. unfold zoneApex. rewrite Hd.
  destruct (zoneApex_loop_total query (S (String.length d)) d) as [zone Hz]; [lia|]. rewrite Hz. cbn [mbind option_bind].
  assert (Hzone : forall z, apex_of query d z -> zone = Ok z).
  { intros z Ha. rewrite (zoneApex_loop_complete query (S (String.length d)) d z) in Hz by (done || lia). by injection Hz as <-. }
  destruct zone as [zone|]; [|eexists; split_and!; [done..|]; intros srvs _ _ (z & k & i & Ha & _); discriminate (Hzone z Ha)].
  apply zoneApex_loop_ok in Hz. destruct (search_total d zone mode) as [names Hs]. rewrite Hs. cbn [mbind option_bind].
  assert (Hnames : forall k, first_at d zone k -> names = Ok (if mode =? DiscoveryApexOnly then [up k d] else names_upto d k)).
  { intros k Hk. rewrite (search_complete d zone mode k) in Hs; [by injection Hs as <-| |done].
    destruct Hz as (? & ? & ? & _ & _ & _ & _ & -> & _). apply ensureFQDN_ne. }
  assert (Hreg : forall srvs, registrar query d mode network srvs ->
            exists ns, names = Ok ns /\ find_srvs query network ns = Ok srvs).
  { intros srvs (z & k & i & Ha & Hk & Hi & Hsrv & Hne & H1 & H2). pose proof (Hzone z Ha) as [= <-]. rewrite (Hnames k Hk).
    eexists. split; [done|]. by eapply find_registrar_complete. }
  destruct names as [names|]; [|eexists; split_and!; [done..|]; intros srvs _ _ HR _; by destruct (Hreg srvs HR) as (? & ? & _)].
  apply search_ok in Hs as (k & Hk & ->).
  destruct (find_srvs _ _ _) as [[|srv srvs]|] eqn:Hf; [eexists; split_and!; [done..|]| |eexists; split_and!; [done..|]].
  1, 3: intros srvs _ _ HR _; destruct (Hreg srvs HR) as (ns & [= <-] & E); rewrite Hf in E; try done;
    injection E as <-; by destruct HR as (? & ? & ? & _ & _ & _ & _ & ? & _).
  assert (Hbest : preferred (best_srv srv srvs) (srv :: srvs)).
  { destruct (best_srv_spec srv srvs) as [Hb1 Hb2]. split; [done|]. intros s Hin. apply better_false. by apply Hb2. }
  destruct (targetAddress query (Target (best_srv srv srvs))) as [a|] eqn:Ht.
  - eexists. split_and!; [done| |by eauto]. intros addr [= <-]. exists (srv :: srvs), (best_srv srv srvs), a.
    split_and!; [|done..].
    destruct (find_registrar _ _ _ _ _ _ Hf) as (i & ? & ? & ? & ?); [done|]. exists zone, k, i. by split_and!.
  - eexists. split_and!; [done..|]. intros srvs' _ _ HR Hok. destruct (Hreg srvs' HR) as (ns & [= <-] & E). rewrite Hf in E.
    injection E as <-. pose proof (Hok _ Hbest) as H. by rewrite Ht in H.
Qed.

(** Zone example.org with a registrar for lab.example.org and everything below it. *)
Definition demo_answer (answer ns : list RR) : result Msg :=
  Ok (mkMsg (mkMsgHeader 0 0 true false false true RcodeSuccess 0) [] answer ns [] [] []).

Definition demo_query : DNSQuery := fun name qtype =>
  if qtype =? TypeSOA
  then demo_answer [] [mkRR (mkHeader "example.org." ClassINET 60) (RD_SOA "ns." "hostmaster." 1 2 3 4 5)]
  else if (qtype =? TypeSRV) && bool_decide (name = "_dnssd-srp._tcp.Lab.example.org.")
  then demo_answer [mkRR (mkHeader name ClassINET 60) (RD_SRV 10 5 53 "backup.example.org.");
                    mkRR (mkHeader name ClassINET 60) (RD_SRV 0 5 5353 "reg.example.org.")] []
  else if (qtype =? TypeA) && bool_decide (name = "reg.example.org.")
  then demo_answer [mkRR (mkHeader name ClassINET 60) (RD_A 3221226219)] []
  else demo_answer [] [].

Lemma discovery_finds_closest_witness :
  Discover (Some demo_query) "printers.Lab.example.org" DiscoveryClosest NetworkTCP = Some (Ok "192.0.2.235:5353") /\
  exists srvs, registrar demo_query "printers.Lab.example.org." DiscoveryClosest NetworkTCP srvs.
Proof.
  destruct (discovery_finds_closest demo_query "printers.Lab.example.org" DiscoveryClosest NetworkTCP) as (res & E & H & _).
  assert (E' : Discover (Some demo_query) "printers.Lab.example.org" DiscoveryClosest NetworkTCP = Some (Ok "192.0.2.235:5353"))
    by (vm_compute; reflexivity).
  split; [exact E'|]. rewrite E' in E. injection E as <-. destruct (H _ eq_refl) as (srvs & srv & a & HR & _). exists srvs. exact HR.
Defined.
