(* ===== verification/SrpTiming.v ===== *)
(** * The SRP requester: when it sends

    client/srp/timing.go.  Durations are int64 nanoseconds and wrap.  The random offsets are
    computed in float64: a draw of [rng.Float64] is [k / 2^53] with [0 <= k < 2^53], and each
    product is rounded to 53 bits, to nearest, ties to even, which [round53] writes out for the
    positive, normal numbers that occur here. *)

From Stdlib Require Import ZArith Lia.
From S2P Require Import Prelude.

Local Open Scope Z_scope.

(** ** Arithmetic *)

(** int64. *)
Definition wrap64 (x : Z) : Z := (x + 2 ^ 63) mod 2 ^ 64 - 2 ^ 63.

(** A non-negative float64: [fl_m * 2 ^ fl_e]. *)
Record float64 := mkFl { fl_m : Z; fl_e : Z }.

Definition round53 (m e : Z) : float64 :=
  let n := Z.log2 m - 52 in
  if n <=? 0 then mkFl m e
  else
    let q := Z.shiftr m n in
    let r := Z.land m (Z.ones n) in
    let half := Z.shiftl 1 (n - 1) in
    mkFl (if (half <? r) || ((r =? half) && Z.odd q) then q + 1 else q) (e + n).

Definition fl_mul (a b : float64) : float64 := round53 (fl_m a * fl_m b) (fl_e a + fl_e b).

(** [float64(n)] of an integer, and back, truncating. *)
Definition fl_of_Z (n : Z) : float64 := round53 n 0.
Definition fl_trunc (a : float64) : Z := Z.shiftl (fl_m a) (fl_e a).

(** [rng.Float64()] for the draw [k], and the constant [0.05]. *)
Definition Float64 (k : Z) : float64 := mkFl k (-53).
Definition fl_005 : float64 := mkFl 7205759403792794 (-57).

Definition Second : Z := 1000000000.

(** ** timing.go *)

Definition minRefreshDelay : Z := 1 * Second.

Definition refreshDelay (k leaseSeconds : Z) : Z :=
  let lease := wrap64 (leaseSeconds * Second) in
  let base := Z.quot (wrap64 (lease * 80)) 100 in
  let jitter := fl_trunc (fl_mul (fl_mul (Float64 k) fl_005) (fl_of_Z lease)) in
  let d := wrap64 (base + jitter) in
  if d <? minRefreshDelay then minRefreshDelay else d.

Definition initialDelay (k : Z) : Z := fl_trunc (fl_mul (Float64 k) (fl_of_Z (3 * Second))).

(** ** Rounding *)

(** Rounding gains at most one part in [2 ^ 53]. *)
Lemma round53_le m e : 0 <= m ->
  0 <= fl_m (round53 m e) /\ e <= fl_e (round53 m e) /\ fl_m (round53 m e) * 2 ^ (fl_e (round53 m e) - e) * 2 ^ 53 <= m * (2 ^ 53 + 1).
Proof.
  intros Hm. unfold round53. cbn zeta. destruct (Z.leb_spec (Z.log2 m - 52) 0) as [Hn|Hn]; cbn [fl_m fl_e].
  { rewrite Z.sub_diag. change (2 ^ 0) with 1. nia. }
  set (n := Z.log2 m - 52) in *. rewrite Z.shiftr_div_pow2, Z.land_ones, Z.shiftl_mul_pow2, Z.mul_1_l by lia.
  assert (Hp : 0 < m) by (destruct (Z.eq_dec m 0) as [->|]; [cbn in n; lia|lia]).
  pose proof (Z.log2_spec m Hp) as [Hlow _]. replace (Z.log2 m) with ((n - 1) + 53) in Hlow by lia. rewrite Z.pow_add_r in Hlow by lia.
  assert (Hn2 : 2 ^ n = 2 * 2 ^ (n - 1)) by (rewrite <- Z.pow_succ_r by lia; f_equal; lia).
  pose proof (Z.div_mod m (2 ^ n) ltac:(lia)) as Hdm. pose proof (Z.mod_pos_bound m (2 ^ n) ltac:(lia)) as Hr.
  pose proof (Z.div_pos m (2 ^ n) Hm ltac:(lia)) as Hq. replace (e + n - e) with n by lia.
  set (q := m / 2 ^ n) in *. set (r := m mod 2 ^ n) in *. set (h := 2 ^ (n - 1)) in *.
  split; [case_match; lia|]. split; [lia|].
  destruct ((h <? r) || ((r =? h) && Z.odd q)) eqn:E; [|nia].
  assert (h <= r) by (apply orb_true_iff in E as [E|[E _]%andb_true_iff]; lia). nia.
Qed.

Lemma fl_trunc_le m e s : 0 <= m -> 0 <= s -> 0 <= e + s -> 0 <= fl_trunc (mkFl m e) /\ fl_trunc (mkFl m e) * 2 ^ s <= m * 2 ^ (e + s).
Proof.
  intros Hm Hs Hes. unfold fl_trunc. cbn [fl_m fl_e]. destruct (Z_le_gt_dec 0 e) as [He|He].
  - rewrite Z.shiftl_mul_pow2, Z.pow_add_r by lia. nia.
  - replace e with (- (- e)) at 1 2 by lia. rewrite Z.shiftl_opp_r, Z.shiftr_div_pow2 by lia.
    pose proof (Z.div_pos m (2 ^ (- e)) Hm ltac:(lia)). pose proof (Z.mul_div_le m (2 ^ (- e)) ltac:(lia)). split; [done|].
    replace s with ((e + s) + (- e)) at 1 by lia. rewrite Z.pow_add_r by lia. nia.
Qed.

Lemma round53_scaled m e s : 0 <= m -> 0 <= e + s ->
  0 <= fl_m (round53 m e) /\ e <= fl_e (round53 m e) /\
  fl_m (round53 m e) * 2 ^ (fl_e (round53 m e) + s) * 2 ^ 53 <= m * 2 ^ (e + s) * (2 ^ 53 + 1).
Proof.
  intros Hm Hs. destruct (round53_le m e Hm) as (H1 & H2 & H3). split_and!; [done..|].
  replace (fl_e (round53 m e) + s) with ((fl_e (round53 m e) - e) + (e + s)) by lia. rewrite Z.pow_add_r by lia.
  assert (0 < 2 ^ (e + s)) by lia. nia.
Qed.

Definition draw (k : Z) : Prop := 0 <= k < 2 ^ 53.

(** The offset is a twentieth of the lease, give or take the rounding. *)
Definition jitter (k lease : Z) : Z := fl_trunc (fl_mul (fl_mul (Float64 k) fl_005) (fl_of_Z lease)).

Lemma jitter_bound k lease : draw k -> 0 <= lease -> 0 <= jitter k lease /\ 20 * jitter k lease * 2 ^ 50 <= lease * (2 ^ 50 + 1).
Proof.
  intros Hk Hl. unfold draw in Hk. unfold jitter, fl_mul, fl_of_Z, Float64, fl_005. cbn [fl_m fl_e].
  destruct (round53_scaled (k * 7205759403792794) (-53 + -57) 110 ltac:(lia) ltac:(lia)) as (A1 & A2 & A3).
  change (-53 + -57) with (-110) in *. set (a := round53 (k * 7205759403792794) (-110)) in *. change (2 ^ (-110 + 110)) with 1 in A3.
  destruct (round53_scaled lease 0 0 Hl ltac:(lia)) as (L1 & L2 & L3). set (f := round53 lease 0) in *.
  rewrite !Z.add_0_r in L3. change (2 ^ 0) with 1 in L3.
  destruct (round53_scaled (fl_m a * fl_m f) (fl_e a + fl_e f) 110 ltac:(nia) ltac:(lia)) as (B1 & B2 & B3).
  set (b := round53 (fl_m a * fl_m f) (fl_e a + fl_e f)) in *.
  destruct (fl_trunc_le (fl_m b) (fl_e b) 110 B1 ltac:(lia) ltac:(lia)) as (T1 & T2).
  replace (mkFl (fl_m b) (fl_e b)) with b in * by (by destruct b). set (t := fl_trunc b) in *. split; [done|].
  replace (fl_e a + fl_e f + 110) with ((fl_e a + 110) + fl_e f) in B3 by lia. rewrite (Z.pow_add_r 2 (fl_e a + 110)) in B3 by lia.
  set (V := fl_m a * 2 ^ (fl_e a + 110)) in *. set (F := fl_m f * 2 ^ fl_e f) in *.
  assert (HV : 0 <= V) by (unfold V; apply Z.mul_nonneg_nonneg; [done|lia]).
  assert (HF : 0 <= F) by (unfold F; apply Z.mul_nonneg_nonneg; [done|lia]).
  replace (fl_m a * fl_m f * (2 ^ (fl_e a + 110) * 2 ^ fl_e f)) with (V * F) in B3 by (unfold V, F; ring).
  assert (C1 : V <= 7205759403792794 * (2 ^ 53 + 1)) by nia.
  assert (C2 : V * (F * 2 ^ 53) <= 7205759403792794 * (2 ^ 53 + 1) * (lease * (2 ^ 53 + 1))) by (apply Z.mul_le_mono_nonneg; nia).
  assert (C3 : t * 2 ^ 110 * 2 ^ 53 * 2 ^ 53 <= V * F * (2 ^ 53 + 1) * 2 ^ 53) by nia.
  nia.
Qed.

Lemma wrap64_small x : - 2 ^ 63 <= x < 2 ^ 63 -> wrap64 x = x.
Proof. intros H. unfold wrap64. rewrite Z.mod_small by lia. lia. Qed.

(** The longest lease whose 80 % is computed without overflow, about 3.6 years. *)
Definition maxExactLease : Z := 115292150.

Lemma refreshDelay_bounds (k leaseSeconds : Z) :
  draw k -> 0 <= leaseSeconds <= maxExactLease ->
  let lease := leaseSeconds * Second in
  let d := refreshDelay k leaseSeconds in
  minRefreshDelay <= d /\
  (2 <= leaseSeconds -> 80 * lease <= 100 * d /\ 100 * d <= 85 * lease + 1000 /\ d < lease) /\
  (leaseSeconds <= 1 -> d = minRefreshDelay).
Proof.
  unfold maxExactLease. intros Hk Hl. cbn zeta. unfold refreshDelay. cbn zeta. fold (jitter k (wrap64 (leaseSeconds * Second))).
  unfold Second, minRefreshDelay, Second in *. rewrite (wrap64_small (leaseSeconds * 1000000000)) by lia.
  rewrite (wrap64_small (leaseSeconds * 1000000000 * 80)) by lia.
  replace (leaseSeconds * 1000000000 * 80) with (leaseSeconds * 800000000 * 100) by ring. rewrite Z.quot_mul by lia.
  destruct (jitter_bound k (leaseSeconds * 1000000000) Hk ltac:(lia)) as [J0 J1]. rewrite wrap64_small by lia.
  set (j := jitter _ _) in *. destruct (Z.ltb_spec (leaseSeconds * 800000000 + j) (1 * 1000000000)); lia.
Qed.

(** [C37] The refresh clock of RFC 9664 S5.2, for leases up to [maxExactLease]: whatever is drawn,
    the next registration comes after at least 80 % and at most 85 % of the granted lease (but
    for the rounding of the offset), so before the lease ends, and never sooner than a second;
    a lease of a second or less is refreshed after a second. *)
Theorem refresh_before_expiry (k leaseSeconds : Z) :
  draw k -> 0 <= leaseSeconds <= maxExactLease ->
  let lease := leaseSeconds * Second in
  let d := refreshDelay k leaseSeconds in
  minRefreshDelay <= d /\
  (2 <= leaseSeconds -> 80 * lease <= 100 * d /\ 100 * d <= 85 * lease + 1000 /\ d < lease) /\
  (leaseSeconds <= 1 -> d = minRefreshDelay).
Proof. apply refreshDelay_bounds. Qed.

Lemma refresh_before_expiry_witness :
  refreshDelay 4503599627370496 3600 = 2970000000000 /\ refreshDelay 4503599627370496 3600 < 3600 * Second.
Proof.
  split; [vm_compute; reflexivity|].
  exact (proj2 (proj2 (proj1 (proj2 (refresh_before_expiry 4503599627370496 3600 ltac:(unfold draw; lia) ltac:(unfold maxExactLease; lia)))
                             ltac:(lia)))).
Defined.

Lemma initialDelay_bound k : draw k -> 0 <= initialDelay k <= 3 * Second.
Proof.
  intros Hk. unfold draw in Hk. unfold initialDelay, fl_mul, Float64, Second.
  change (fl_of_Z (3 * 1000000000)) with (mkFl 3000000000 0). cbn [fl_m fl_e].
  destruct (round53_scaled (k * 3000000000) (-53 + 0) 53 ltac:(lia) ltac:(lia)) as (B1 & B2 & B3).
  change (-53 + 0) with (-53) in *. set (b := round53 (k * 3000000000) (-53)) in *. change (2 ^ (-53 + 53)) with 1 in B3.
  destruct (fl_trunc_le (fl_m b) (fl_e b) 53 B1 ltac:(lia) ltac:(lia)) as (T1 & T2).
  replace (mkFl (fl_m b) (fl_e b)) with b in * by (by destruct b). split; [done|]. nia.
Qed.

(** Longer leases overflow: 80 times the next longer lease does not fit an int64, the base
    wraps to a negative duration, and whatever is drawn the floor of one second is used, so a
    requester granted a lease of 3.6 years sends an update every second. *)
Theorem refresh_overflow (k : Z) : draw k -> refreshDelay k (maxExactLease + 1) = minRefreshDelay.
Proof.
  intros Hk. unfold refreshDelay. cbn zeta. fold (jitter k (wrap64 ((maxExactLease + 1) * Second))).
  change (wrap64 ((maxExactLease + 1) * Second)) with 115292151000000000.
  destruct (jitter_bound k 115292151000000000 Hk ltac:(lia)) as [J0 J1]. set (j := jitter _ _) in *.
  change (Z.quot (wrap64 (115292151000000000 * 80)) 100) with (-92233719937095516). rewrite wrap64_small by lia.
  unfold minRefreshDelay, Second. destruct (Z.ltb_spec (-92233719937095516 + j) (1 * 1000000000)); lia.
Qed.

Lemma refresh_overflow_witness : refreshDelay 4503599627370496 115292151 = 1000000000.
Proof. exact (refresh_overflow 4503599627370496 ltac:(unfold draw; lia)). Defined.
