(* ===== verification/SrpClient.v ===== *)
(** * The SRP requester: registering, renaming and staying registered

    client/srp/client.go.  A [Client] keeps the labels in use (renamed after a conflict); the
    configuration does not change.  The world outside is a state [N]: the resolvers' answers
    are read from it ([ask]), sending an update may change it ([transport]), and so may time.
    [Run] is a step relation, one step per registration cycle, labelled with the sleep that
    follows it. *)

From Stdlib Require Import Ascii String ZArith Lia.
From S2P Require Import Prelude DnsName DnsData LeaseOption UpdateCore DnsSd SrpClassify SrpValidate SrpRequest SrpDiscovery SrpTiming.

Local Open Scope Z_scope.

(** ** Configuration *)

Record InstanceConfig := mkInstanceConfig {
  ic_Label : string;
  ic_ServiceType : string;
  ic_Subtypes : list string;
  ic_Port : Z;
  ic_TXT : list string;
  ic_Remove : bool }.

(** [Config], less the function fields, which [NewClient] sets to the live ones when they are
    nil: they are [ask], [transport] and the sleeps below.  [Timeout] is in nanoseconds. *)
Record Config := mkConfig {
  Domain : string;
  HostLabel : string;
  Addresses : list Addr;
  Instances : list InstanceConfig;
  cfg_Key : option KEY;
  RequestedLease : Z;
  RequestedKeyLease : Z;
  cfg_TTL : Z;
  RegistrarAddr : string;
  Discovery : Z;
  cfg_Network : Z;
  Timeout : Z;
  MaxRenames : Z }.

Record Client := mkClient {
  cfg : Config;
  cl_key : KEY;
  hostLabel : string;
  instanceLabels : list string;
  renameSuffix : Z }.

Definition checkInstance (inst : InstanceConfig) : result unit :=
  _ ← CheckLabel (ic_Label inst);
  _ ← ValidateServiceType (ic_ServiceType inst);
  seqM CheckLabel (ic_Subtypes inst).

Definition or_default (v dflt : Z) : Z := if v =? 0 then dflt else v.
Definition or_default_pos (v dflt : Z) : Z := if v <=? 0 then dflt else v.

(** [NewClient]; [GenerateKey] is [keyrec.GenerateKey] for an ECDSA P-256 key at a name. *)
Definition NewClient (GenerateKey : string -> result KEY) (c : Config) : result Client :=
  if bool_decide (Domain c = "") then Err "srp/client: Domain is required"
  else if bool_decide (HostLabel c = "") then Err "srp/client: HostLabel is required"
  else
    _ ← CheckLabel (HostLabel c);
    _ ← seqM checkInstance (Instances c);
    _ ← DiscoveryMode_validate (Discovery c);
    _ ← Network_validate (cfg_Network c);
    let lease := or_default (RequestedLease c) 3600 in
    let keyLease := or_default (RequestedKeyLease c) 1209600 in
    let ttl := or_default (cfg_TTL c) 300 in
    if keyLease <? lease then Err "srp/client: RequestedLease must not exceed RequestedKeyLease"
    else
      let timeout := or_default_pos (Timeout c) (20 * Second) in
      let maxRenames := or_default_pos (MaxRenames c) 5 in
      key ← match cfg_Key c with
            | Some k => Ok k
            | None => GenerateKey (ensureFQDN (HostLabel c +:+ "." +:+ Domain c))
            end;
      let c := mkConfig (Domain c) (HostLabel c) (Addresses c) (Instances c) (Some key) lease keyLease ttl
                        (RegistrarAddr c) (Discovery c) (cfg_Network c) timeout maxRenames in
      Ok (mkClient c key (HostLabel c) (map ic_Label (Instances c)) 0).

(** ** Names *)

Definition hostFQDN (c : Client) : string := ensureFQDN (hostLabel c +:+ "." +:+ Domain (cfg c)).

Definition instance_spec (domain : string) (remove : bool) (inst : InstanceConfig) (label : string) : InstanceSpec :=
  mkInstanceSpec
    (ensureFQDN (label +:+ "." +:+ ic_ServiceType inst +:+ "." +:+ domain))
    (ensureFQDN (ic_ServiceType inst +:+ "." +:+ domain))
    (map (fun st => ensureFQDN (st +:+ "._sub." +:+ ic_ServiceType inst +:+ "." +:+ domain)) (ic_Subtypes inst))
    (ic_Port inst) (ic_TXT inst) None (remove || ic_Remove inst).

(** [specs]: [instanceLabels] has one label per configured instance. *)
Definition specs (remove : bool) (c : Client) : list InstanceSpec :=
  zip_with (instance_spec (Domain (cfg c)) remove) (Instances (cfg c)) (instanceLabels c).

Definition keyRR (c : Client) : KEY := key_set_Name (hostFQDN c) (cl_key c).

Definition rename (c : Client) : Client :=
  let n := renameSuffix c + 1 in
  let suffix := "-" +:+ fmt_d (n + 1) in
  mkClient (cfg c) (cl_key c) (HostLabel (cfg c) +:+ suffix)
           (map (fun inst => ic_Label inst +:+ suffix) (Instances (cfg c))) n.

(** The description an update of this client is built from. *)
Definition update_spec (c : Client) (addresses : list Addr) (instances : list InstanceSpec) (lease keyLease : Z) : UpdateSpec :=
  mkUpdateSpec (ensureFQDN (Domain (cfg c))) (hostFQDN c) addresses (Some (keyRR c)) instances lease keyLease (cfg_TTL (cfg c)).

(** ** One update *)

Section world.
Context {L : DnsLib} {SG : Sig0} {N : Type}.
Context (ask : N -> DNSQuery) (transport : string -> Z -> Msg -> N -> result (option Msg) * N).

(** [None], here and below, is the end of [Discover]'s fuel. *)
Definition registrarAddr (c : Client) (n : N) : option (result string) :=
  if negb (bool_decide (RegistrarAddr (cfg c) = "")) then Some (Ok (RegistrarAddr (cfg c)))
  else Discover (Some (ask n)) (Domain (cfg c)) (Discovery (cfg c)) (cfg_Network (cfg c)).

Definition buildSignSend (c : Client) (addresses : list Addr) (instances : list InstanceSpec) (lease keyLease : Z) (n : N)
    : option (result (option Msg * RequestOutcome) * N) :=
  addr ← registrarAddr c n;
  let spec := update_spec c addresses instances lease keyLease in
  Some
    match (addr ← addr; msg ← BuildUpdate spec; signed ← SignMessage msg (keyRR c); Ok (addr, signed)) with
    | Err e => (Err e, n)
    | Ok (addr, signed) =>
        match transport addr (cfg_Network (cfg c)) signed n with
        | (Err e, n) => (Err e, n)
        | (Ok resp, n) => (Ok (resp, InterpretResponse resp), n)
        end
    end.

Definition client_Register (c : Client) (n : N) : option (result (option Msg * RequestOutcome) * N) :=
  buildSignSend c (Addresses (cfg c)) (specs false c) (RequestedLease (cfg c)) (RequestedKeyLease (cfg c)) n.
Definition Deregister (c : Client) (n : N) : option (result (option Msg * RequestOutcome) * N) :=
  buildSignSend c [] (specs true c) 0 0 n.

(** The loop of [registerWithRenameRetry]; [None] is also the panic of reading the rcode of a
    nil response. *)
Fixpoint register_attempts (attempts : nat) (c : Client) (n : N) : option (result Msg * Client * N) :=
  match attempts with
  | O => Some (Err "srp/client: gave up after the rename attempts, still conflicting", c, n)
  | S attempts =>
      r ← client_Register c n;
      match r with
      | (Err e, n) => Some (Err e, c, n)
      | (Ok (resp, OutcomeConflict), n) => register_attempts attempts (rename c) n
      | (Ok (resp, OutcomeSuccess), n) => resp ← resp; Some (Ok resp, c, n)
      | (Ok (resp, _), n) => _ ← resp; Some (Err "srp/client: registration failed", c, n)
      end
  end.

Definition registerWithRenameRetry (c : Client) (n : N) : option (result Msg * Client * N) :=
  register_attempts (S (Z.to_nat (MaxRenames (cfg c)))) c n.

(** ** Run *)

Definition minRegisterRetryBackoff : Z := 5 * Second.
Definition maxRegisterRetryBackoff : Z := 5 * 60 * Second.

Record RunState := mkRunState { rs_client : Client; rs_backoff : Z; rs_world : N }.

Definition next_backoff (backoff : Z) : Z :=
  if maxRegisterRetryBackoff <? backoff * 2 then maxRegisterRetryBackoff else backoff * 2.

(** The lease the refresh clock runs on. *)
Definition granted (c : Client) (resp : Msg) : Z :=
  match GrantedLease resp with Some (lease, _) => lease | None => RequestedLease (cfg c) end.

(** What a cycle ends with: an error, or the granted lease, and the sleep that follows. *)
Inductive cycle := Failed (slept : Z) | Refreshed (lease slept : Z).

(** One iteration of the loop of [Run], after which the world is any. *)
Inductive run_step : RunState -> cycle -> RunState -> Prop :=
| run_failed c b n e c' n' n'' :
    registerWithRenameRetry c n = Some (Err e, c', n') ->
    run_step (mkRunState c b n) (Failed b) (mkRunState c' (next_backoff b) n'')
| run_registered c b n resp c' n' n'' k :
    registerWithRenameRetry c n = Some (Ok resp, c', n') -> draw k ->
    run_step (mkRunState c b n) (Refreshed (granted c' resp) (refreshDelay k (granted c' resp)))
             (mkRunState c' minRegisterRetryBackoff n'').

(** [Run] up to some cycle: the first sleep, then the cycles, the latest first. *)
Inductive runs (c : Client) : Z -> list cycle -> RunState -> Prop :=
| run_start k n : draw k -> runs c (initialDelay k) [] (mkRunState c minRegisterRetryBackoff n)
| run_cycle d cycles s cy s' : runs c d cycles s -> run_step s cy s' -> runs c d (cy :: cycles) s'.
End world.

(** ** Names of a client *)

Lemma HasSuffix_dot_app x d : d <> "" -> HasSuffix (x +:+ d) "." = HasSuffix d ".".
Proof.
  intros Hd. apply eq_true_iff_eq. rewrite !HasSuffix_spec. split; intros [p Hp].
  - destruct (HasSuffix d ".") eqn:E; [by apply HasSuffix_spec|]. exfalso.
    assert (Hl : exists q c, d = q +:+ String c "").
    { clear -Hd. induction d as [|c d IH]; [done|]. destruct d as [|c' d]; [by exists "", c|].
      destruct IH as (q & c0 & E); [done|]. exists (String c q), c0. sapp. by rewrite E. }
    destruct Hl as (q & c & ->). rewrite <- string_app_assoc in Hp. apply string_app_length_inj_r in Hp as [_ Hp]; [|done].
    injection Hp as ->. assert (HasSuffix (q +:+ ".") "." = true) by (apply HasSuffix_spec; eauto). congruence.
  - exists (x +:+ p). by rewrite Hp, string_app_assoc.
Qed.

Lemma ensureFQDN_app x d : d <> "" -> ensureFQDN (x +:+ d) = x +:+ ensureFQDN d.
Proof. intros Hd. unfold ensureFQDN. rewrite HasSuffix_dot_app by done. destruct (HasSuffix d "."); [done|]. by rewrite string_app_assoc. Qed.

Lemma SplitDot_Fold s : SplitDot (Fold s) = map Fold (SplitDot s).
Proof.
  induction s as [|c s IH]; [done|]. rewrite Fold_cons. cbn [SplitDot]. destruct (decide (c = "."%char)) as [->|Hc].
  - change (fold ".") with "."%char. rewrite !bool_decide_true by done. cbn [map]. by rewrite IH.
  - rewrite !bool_decide_false by (done || by intros ?%fold_dot). rewrite IH. pose proof (SplitDot_ne s).
    destruct (SplitDot s) as [|l ls]; [done|]. cbn [map]. by rewrite Fold_cons.
Qed.

Lemma SplitDot_nodot s : ContainsDot s = false -> SplitDot s = [s].
Proof.
  pose proof (CutFirstLabel_spec s) as H. destruct (CutFirstLabel s) as [[f r] []]; [|by destruct H as (_ & _ & _ & ->)].
  destruct H as (-> & _). unfold ContainsDot. rewrite !string_existsb_app. cbn. by rewrite orb_true_r.
Qed.

Lemma Labels_SplitDot s : s <> "" -> Labels s = SplitDot s.
Proof. intros H. unfold Labels. by rewrite bool_decide_false. Qed.

Lemma CutFirstLabel_dot l rest : ContainsDot l = false -> CutFirstLabel (l +:+ "." +:+ rest) = (l, rest, true).
Proof.
  change ("." +:+ rest) with (String "." rest). induction l as [|c l IH]; sapp; [done|]. unfold ContainsDot. cbn.
  case_bool_decide; [done|]. cbn. intros Hl. by rewrite IH.
Qed.

Lemma ContainsDot_Fold s : ContainsDot (Fold s) = ContainsDot s.
Proof.
  rewrite Fold_map. unfold ContainsDot. induction s as [|c s IH]; [done|]. cbn. rewrite IH. f_equal. apply bool_decide_ext.
  split; [apply fold_dot|]. by intros ->.
Qed.

Lemma Fold_dotted a b : Fold (a +:+ "." +:+ b) = Fold a +:+ "." +:+ Fold b.
Proof. by rewrite !Fold_app. Qed.

(** *** A checked service type *)

Definition service_ok (t : string) : Prop :=
  exists service proto, SplitDot t = [service; proto] /\ isServiceLabel (Fold service) = true /\ isProtoLabel (Fold proto) = true.

Lemma ValidateServiceType_ok t : ValidateServiceType t = Ok tt -> t <> "" /\ service_ok t.
Proof.
  unfold ValidateServiceType. intros H. assert (Ht : t <> "") by (intros ->; done). split; [done|]. rewrite Labels_SplitDot in H by done.
  destruct (SplitDot t) as [|service [|proto [|? ?]]] eqn:E; try done. exists service, proto. split; [done|].
  destruct (isProtoLabel (Fold proto)); [|done]. split; [|done]. destruct service as [|c rest]; [done|]. cbn [negb] in H.
  case_bool_decide as Hc; [|done]. subst c. rewrite Fold_cons. unfold validateServiceNameSyntax in H.
  destruct rest as [|c' rest]; [done|]. by rewrite Fold_cons.
Qed.

(** The name of a service type in a domain, and of a subtype of it. *)
Section typed.
Context (t D : string).
Hypothesis Ht : service_ok t.

Lemma type_labels : exists service proto, Labels (Fold (t +:+ "." +:+ D)) = service :: proto :: map Fold (SplitDot D) /\
  isServiceLabel service = true /\ isProtoLabel proto = true.
Proof using Ht.
  destruct Ht as (s & p & E & Hs & Hp). exists (Fold s), (Fold p). split_and!; [|done..].
  rewrite Labels_SplitDot by (intros H%Fold_empty; by destruct t). by rewrite SplitDot_Fold, SplitDot_app_dot, E.
Qed.

Lemma type_service : ServiceTypeFromServiceName (Fold (t +:+ "." +:+ D)) <> None.
Proof using Ht.
  unfold ServiceTypeFromServiceName. rewrite Fold_idem. destruct type_labels as (s & p & -> & Hs & Hp). pose proof (SplitDot_ne D).
  destruct (SplitDot D); [done|]. cbn [map]. by rewrite Hs, Hp.
Qed.

Lemma type_not_sub : isSubtypePTROwner (Fold (t +:+ "." +:+ D)) = None.
Proof using Ht.
  unfold isSubtypePTROwner. rewrite Fold_idem. destruct type_labels as (s & p & -> & Hs & Hp).
  assert (p <> "_sub") by (intros ->; done). by rewrite (bool_decide_false (p = "_sub")), andb_false_r.
Qed.

Lemma subtype_base s : ContainsDot s = false ->
  isSubtypePTROwner (Fold (s +:+ "._sub." +:+ t +:+ "." +:+ D)) = Some (Fold (t +:+ "." +:+ D)).
Proof using Ht.
  intros Hs. unfold isSubtypePTROwner. rewrite Fold_idem.
  change ("._sub." +:+ t +:+ "." +:+ D) with ("." +:+ "_sub" +:+ "." +:+ t +:+ "." +:+ D).
  assert (E : SplitDot (Fold (s +:+ "." +:+ "_sub" +:+ "." +:+ t +:+ "." +:+ D)) = Fold s :: "_sub" :: SplitDot (Fold (t +:+ "." +:+ D))).
  { rewrite !SplitDot_Fold, !SplitDot_app_dot, (SplitDot_nodot s) by done. done. }
  rewrite Labels_SplitDot by (intros H%Fold_empty; by destruct s). rewrite E.
  destruct type_labels as (a & b & El & _). rewrite Labels_SplitDot in El by (intros H%Fold_empty; by destruct t).
  rewrite El. cbn [length Nat.leb]. rewrite bool_decide_true by done. cbn [andb]. rewrite <- El. by rewrite JoinDot_SplitDot.
Qed.
End typed.

(** ** Clients *)

Lemma NoDup_map_refine {A B C} (f : A -> B) (g : A -> C) l :
  NoDup (map f l) -> (forall x y, x ∈ l -> y ∈ l -> g x = g y -> f x = f y) -> NoDup (map g l).
Proof.
  induction l as [|x l IH]; intros H Hg; [apply NoDup_nil_2|]. apply NoDup_cons in H as [Hx Hnd]. apply NoDup_cons. split.
  - intros (y & E & Hy)%list_elem_of_fmap. apply Hx, list_elem_of_fmap. exists y. split; [|done]. apply Hg; [by left|by right|done].
  - apply IH; [done|]. intros a b Ha Hb. apply Hg; by right.
Qed.

Lemma zip_with_map {A B C} (f : A -> B -> C) (g : A -> B) l : zip_with f l (map g l) = map (fun x => f x (g x)) l.
Proof. induction l as [|x l IH]; [done|]. cbn. by rewrite IH. Qed.

(** A checked configuration, with its defaults. *)
Record config_ok (c : Config) : Prop := {
  cf_domain : Domain c <> "";
  cf_host : ContainsDot (HostLabel c) = false;
  cf_insts : forall inst, inst ∈ Instances c -> ContainsDot (ic_Label inst) = false /\ ic_ServiceType inst <> "" /\
    service_ok (ic_ServiceType inst) /\ forall s, s ∈ ic_Subtypes inst -> ContainsDot s = false;
  cf_lease : RequestedLease c <> 0 /\ RequestedKeyLease c <> 0 /\ RequestedLease c <= RequestedKeyLease c;
  cf_ttl : cfg_TTL c <> 0;
  cf_search : DiscoveryMode_validate (Discovery c) = Ok tt /\ Network_validate (cfg_Network c) = Ok tt;
  cf_renames : 0 < MaxRenames c /\ 0 < Timeout c }.

(** The labels in use are the configured ones with one suffix. *)
Definition rename_suffix (n : Z) : string := if n =? 0 then "" else "-" +:+ fmt_d (n + 1).

Record client_ok (c : Client) : Prop := {
  co_config : config_ok (cfg c);
  co_suffix : 0 <= renameSuffix c;
  co_host : hostLabel c = HostLabel (cfg c) +:+ rename_suffix (renameSuffix c);
  co_labels : instanceLabels c = map (fun inst => ic_Label inst +:+ rename_suffix (renameSuffix c)) (Instances (cfg c)) }.

Lemma CheckLabel_ok l : CheckLabel l = Ok tt -> ContainsDot l = false.
Proof. unfold CheckLabel. by repeat case_match. Qed.

Lemma or_default_ne v d : d <> 0 -> or_default v d <> 0.
Proof. unfold or_default. destruct (Z.eqb_spec v 0); lia. Qed.

Lemma or_default_pos_pos v d : 0 < d -> 0 < or_default_pos v d.
Proof. unfold or_default_pos. destruct (Z.leb_spec v 0); lia. Qed.

Lemma NewClient_ok gen c0 c : NewClient gen c0 = Ok c -> client_ok c /\ renameSuffix c = 0 /\
  Instances (cfg c) = Instances c0 /\ HostLabel (cfg c) = HostLabel c0 /\ Domain (cfg c) = Domain c0 /\
  (forall k, cfg_Key c0 = Some k -> cl_key c = k).
Proof.
  unfold NewClient. case_bool_decide as Hd; [done|]. case_bool_decide as Hh; [done|]. intros H.
  apply bind_ok in H as ([] & Hc%CheckLabel_ok & H). apply bind_ok in H as ([] & Hi & H). apply bind_ok in H as ([] & Hm & H).
  apply bind_ok in H as ([] & Hn & H). cbn zeta in H. destruct (Z.ltb_spec (or_default (RequestedKeyLease c0) 1209600) (or_default (RequestedLease c0) 3600)); [done|].
  apply bind_ok in H as (key & Hk & [= <-]). cbn. split_and!; try done; [|intros k E; rewrite E in Hk; congruence].
  split; cbn; [|lia|by rewrite string_app_nil_r|].
  - split; cbn; try done; [|split_and!; [by apply or_default_ne..|lia]|by apply or_default_ne|split; by apply or_default_pos_pos].
    intros inst Hin. apply foldM_ok_each with (x := inst) in Hi; [|done]. unfold checkInstance in Hi.
    apply bind_ok in Hi as ([] & H1%CheckLabel_ok & Hi). apply bind_ok in Hi as ([] & [H2 H3]%ValidateServiceType_ok & Hi).
    split_and!; [done..|]. intros s Hs. apply CheckLabel_ok. by apply foldM_ok_each with (x := s) in Hi.
  - apply map_ext. intros inst. by rewrite string_app_nil_r.
Qed.

Lemma rename_ok c : client_ok c -> client_ok (rename c) /\ renameSuffix (rename c) = renameSuffix c + 1.
Proof.
  intros [H1 H2 H3 H4]. split; [|done]. unfold rename. split; cbn; [done|lia|..]; unfold rename_suffix;
    rewrite (proj2 (Z.eqb_neq _ _)) by lia; done.
Qed.

Lemma iter_rename_ok k c : client_ok c ->
  client_ok (Nat.iter k rename c) /\ renameSuffix (Nat.iter k rename c) = renameSuffix c + Z.of_nat k /\
  cfg (Nat.iter k rename c) = cfg c /\ cl_key (Nat.iter k rename c) = cl_key c.
Proof.
  intros H. induction k as [|k (IH1 & IH2 & IH3 & IH4)]; [split_and!; [done|cbn; lia|done..]|].
  change (Nat.iter (S k) rename c) with (rename (Nat.iter k rename c)).
  destruct (rename_ok _ IH1) as [H1 H2]. split_and!; [done| |done..]. rewrite H2, IH2. lia.
Qed.

Lemma digits_nodot s : string_forallb is_digit s = true -> ContainsDot s = false.
Proof.
  unfold ContainsDot. induction s as [|c s IH]; [done|]. rewrite string_forallb_cons. intros [Hc Hs]%andb_true_iff.
  cbn [string_existsb]. rewrite IH by done. rewrite bool_decide_false; [done|]. by intros ->.
Qed.

Lemma suffix_nodot n : ContainsDot (rename_suffix n) = false.
Proof.
  unfold rename_suffix. destruct (n =? 0); [done|]. unfold ContainsDot. rewrite string_existsb_app. apply orb_false_iff.
  split; [by vm_compute|]. apply digits_nodot, fmt_d_digits.
Qed.

Section names.
Context (c : Client) (remove : bool).
Hypothesis Hc : client_ok c.
Let D := ensureFQDN (Domain (cfg c)).
Let suf := rename_suffix (renameSuffix c).
Let label (inst : InstanceConfig) : string := ic_Label inst +:+ suf.

Lemma hostFQDN_eq : hostFQDN c = hostLabel c +:+ "." +:+ D.
Proof using Hc. unfold hostFQDN, D. rewrite <- !string_app_assoc. apply ensureFQDN_app, Hc. Qed.

Lemma specs_eq : specs remove c =
  map (fun inst => mkInstanceSpec (label inst +:+ "." +:+ ic_ServiceType inst +:+ "." +:+ D) (ic_ServiceType inst +:+ "." +:+ D)
                     (map (fun st => st +:+ "._sub." +:+ ic_ServiceType inst +:+ "." +:+ D) (ic_Subtypes inst))
                     (ic_Port inst) (ic_TXT inst) None (remove || ic_Remove inst)) (Instances (cfg c)).
Proof using Hc.
  pose proof (cf_domain _ (co_config _ Hc)) as Hd. unfold specs. rewrite (co_labels _ Hc), zip_with_map. apply map_ext. intros inst.
  unfold instance_spec. f_equal.
  - rewrite <- !string_app_assoc. by apply ensureFQDN_app.
  - rewrite <- !string_app_assoc. by apply ensureFQDN_app.
  - apply map_ext. intros st. rewrite <- !string_app_assoc. by apply ensureFQDN_app.
Qed.

Lemma label_nodot inst : inst ∈ Instances (cfg c) -> ContainsDot (label inst) = false.
Proof using Hc.
  intros Hin. destruct (cf_insts _ (co_config _ Hc) inst Hin) as [H _]. unfold label, ContainsDot in *.
  rewrite string_existsb_app, H. apply suffix_nodot.
Qed.

Lemma host_nodot : ContainsDot (hostLabel c) = false.
Proof using Hc.
  pose proof (cf_host _ (co_config _ Hc)) as H. rewrite (co_host _ Hc). unfold ContainsDot in *. rewrite string_existsb_app, H.
  apply suffix_nodot.
Qed.

(** Instances that differ in label or type, up to case, have different names, none the host's. *)
Lemma names_distinct :
  NoDup (map (fun inst => (Fold (ic_Label inst), Fold (ic_ServiceType inst))) (Instances (cfg c))) ->
  NoDup (Fold (hostFQDN c) :: map (fun i => Fold (is_Name i)) (specs remove c)).
Proof using Hc.
  intros Hnd. rewrite specs_eq, map_map. cbn [is_Name]. apply NoDup_cons. split.
  - rewrite hostFQDN_eq. intros (inst & E & Hin)%list_elem_of_fmap. apply (f_equal (fun s => length (SplitDot s))) in E. revert E.
    destruct (cf_insts _ (co_config _ Hc) inst Hin) as (_ & _ & (s & p & Hs & _) & _).
    rewrite !SplitDot_Fold, !SplitDot_app_dot, !length_map, !length_app, Hs.
    rewrite (SplitDot_nodot (hostLabel c)) by apply host_nodot. rewrite (SplitDot_nodot (label inst)) by (by apply label_nodot).
    cbn [length]. lia.
  - eapply NoDup_map_refine; [exact Hnd|]. cbn beta. intros x y Hx Hy E.
    apply (f_equal CutFirstLabel) in E. rewrite !Fold_dotted in E.
    rewrite !CutFirstLabel_dot in E by (rewrite ContainsDot_Fold; by apply label_nodot). injection E as E1 E2. f_equal.
    + unfold label in E1. rewrite !Fold_app in E1. by apply string_app_inj_r in E1.
    + by apply string_app_inj_r in E2.
Qed.

Lemma instance_specs_ok key inst : inst ∈ specs remove c -> inst_spec_ok key inst.
Proof using Hc.
  rewrite specs_eq. intros (ic & -> & Hin)%list_elem_of_fmap. destruct (cf_insts _ (co_config _ Hc) ic Hin) as (_ & Hne & Hs & Hsub).
  split; cbn [is_Name is_ServiceType is_Subtypes is_Key is_Remove]; [by destruct (label ic)| | |done].
  - intros _. split_and!; [by destruct (ic_ServiceType ic)|by apply type_not_sub|by apply type_service|].
    rewrite Fold_dotted, CutFirstLabel_dot by (rewrite ContainsDot_Fold; by apply label_nodot). done.
  - intros s _ (st & -> & Hst)%list_elem_of_fmap. apply subtype_base; auto.
Qed.

Lemma update_spec_ok addresses lease keyLease :
  NoDup (map (fun inst => (Fold (ic_Label inst), Fold (ic_ServiceType inst))) (Instances (cfg c))) ->
  uint32_ok lease -> uint32_ok keyLease -> lease <= keyLease ->
  spec_ok (update_spec c addresses (specs remove c) lease keyLease) (keyRR c).
Proof using Hc.
  intros Hnd Hl Hk Hle. split; cbn [us_Zone us_Host us_Key us_TTL us_Lease us_KeyLease us_Instances update_spec]; try done.
  - apply ensureFQDN_ne.
  - apply ensureFQDN_ne.
  - apply Hc.
  - by apply names_distinct.
  - intros inst. apply instance_specs_ok.
Qed.
End names.

(** ** What a client does *)

Section behaviour.
Context {L : DnsLib} {SG : Sig0} {N : Type}.
Context (ask : N -> DNSQuery) (transport : string -> Z -> Msg -> N -> result (option Msg) * N).

(** A transport that reports no error has a response ([client.Query]). *)
Definition transport_answers : Prop :=
  forall addr net msg n n', transport addr net msg n <> (Ok None, n').

Lemma registrarAddr_total c n : is_Some (registrarAddr ask c n).
Proof. unfold registrarAddr. destruct (negb _); [done|]. apply Discover_total. Qed.

Lemma Register_total c n : transport_answers ->
  exists r n', client_Register ask transport c n = Some (r, n') /\
    forall resp o, r = Ok (resp, o) -> exists m, resp = Some m /\ o = InterpretResponse (Some m).
Proof.
  intros HT. unfold client_Register, buildSignSend. destruct (registrarAddr_total c n) as [addr ->]. cbn [mbind option_bind]. cbn zeta.
  destruct (mbind _ addr) as [[a signed]|e]; [|by eexists _, _].
  destruct (transport a _ signed n) as [[resp|e] n'] eqn:Et; [|by eexists _, _]. eexists _, _. split; [done|].
  intros resp' o [= <- <-]. destruct resp as [m|]; [eauto|]. by destruct (HT _ _ _ _ _ Et).
Qed.

(** [j] registrations in a row end in a conflict, each followed by a rename. *)
Inductive conflicts : nat -> Client -> N -> Client -> N -> Prop :=
| conflicts_none c n : conflicts O c n c n
| conflicts_more j c n resp n1 c' n' :
    client_Register ask transport c n = Some (Ok (resp, OutcomeConflict), n1) -> conflicts j (rename c) n1 c' n' ->
    conflicts (S j) c n c' n'.

Lemma iter_S {A} (f : A -> A) k x : Nat.iter k f (f x) = Nat.iter (S k) f x.
Proof. induction k as [|k IH]; [done|]. cbn [Nat.iter nat_rect] in *. by f_equal. Qed.

Lemma conflicts_client j c n c' n' : conflicts j c n c' n' -> c' = Nat.iter j rename c.
Proof. induction 1 as [|j c n resp n1 c' n' _ _ IH]; [done|]. by rewrite IH, iter_S. Qed.

(** How a round of attempts ended. *)
Definition ended (attempts j : nat) (c' : Client) (n1 : N) (res : result Msg) (n' : N) : Prop :=
  match res with
  | Ok resp => (j < attempts)%nat /\ client_Register ask transport c' n1 = Some (Ok (Some resp, OutcomeSuccess), n')
  | Err _ =>
      j = attempts /\ n' = n1 \/
      (j < attempts)%nat /\ exists r, client_Register ask transport c' n1 = Some (r, n') /\
        match r with Err _ => True | Ok (_, o) => o <> OutcomeSuccess /\ o <> OutcomeConflict end
  end.

Lemma register_attempts_spec attempts c n : transport_answers ->
  exists res c' n' j n1, register_attempts ask transport attempts c n = Some (res, c', n') /\
    conflicts j c n c' n1 /\ ended attempts j c' n1 res n'.
Proof.
  intros HT. revert c n. induction attempts as [|a IH]; intros c n; cbn [register_attempts].
  { eexists _, _, _, O, _. split; [done|]. split; [constructor|by left]. }
  destruct (Register_total c n HT) as (r & n1 & Hr & Hresp). rewrite Hr. cbn [mbind option_bind].
  destruct r as [[resp o]|e].
  2: { eexists _, _, _, O, _. split; [done|]. split; [constructor|]. right. split; [lia|]. by eexists. }
  destruct (Hresp resp o eq_refl) as (m & -> & Ho). destruct o; cbn [mbind option_bind].
  2: { destruct (IH (rename c) n1) as (res & c' & n' & j & n2 & E & Hc & He). exists res, c', n', (S j), n2.
       split; [done|]. split; [by econstructor|]. unfold ended in *. destruct res; [|naive_solver lia]. split; [lia|by apply He]. }
  all: eexists _, _, _, O, _; (split; [done|]); (split; [constructor|]).
  - split; [lia|done].
  - right. split; [lia|]. eexists. split; [done|]. done.
  - right. split; [lia|]. eexists. split; [done|]. done.
  - right. split; [lia|]. eexists. split; [done|]. done.
Qed.

Lemma suffix_inj m n : 0 <= m -> 0 <= n -> rename_suffix m = rename_suffix n -> m = n.
Proof.
  intros Hm Hn. unfold rename_suffix. destruct (Z.eqb_spec m 0) as [->|], (Z.eqb_spec n 0) as [->|]; try done.
  intros [= E]. apply fmt_d_inj in E; lia.
Qed.

Lemma digits_Fold s : string_forallb is_digit s = true -> Fold s = s.
Proof.
  induction s as [|c s IH]; [done|]. rewrite string_forallb_cons. intros [Hc Hs]%andb_true_iff. rewrite Fold_cons, IH by done. f_equal.
  unfold fold, isUpper. unfold is_digit in Hc. apply andb_true_iff in Hc as [_ Hc%N.leb_le].
  destruct (N.leb_spec 65 (N_of_ascii c)); [lia|done].
Qed.

Lemma suffix_Fold n : Fold (rename_suffix n) = rename_suffix n.
Proof. unfold rename_suffix. destruct (n =? 0); [done|]. by rewrite Fold_app, (digits_Fold (fmt_d _)) by apply fmt_d_digits. Qed.

(** Every rename is to names not tried before. *)
Lemma renamed_host_inj c i j : client_ok c ->
  Fold (hostFQDN (Nat.iter i rename c)) = Fold (hostFQDN (Nat.iter j rename c)) -> i = j.
Proof.
  intros Hc E. destruct (iter_rename_ok i c Hc) as (Hi & Ri & Ci & _), (iter_rename_ok j c Hc) as (Hj & Rj & Cj & _).
  rewrite !hostFQDN_eq, Ci, Cj in E by done. rewrite !Fold_app in E. apply string_app_inj_r in E.
  rewrite (co_host _ Hi), (co_host _ Hj), Ci, Cj, Ri, Rj, !Fold_app, !suffix_Fold in E.
  apply string_app_length_inj in E as [_ E]; [|done]. pose proof (co_suffix _ Hc). apply suffix_inj in E; lia.
Qed.

(** The update of the client, as it reaches the transport. *)
Lemma buildSignSend_sent c addresses instances lease keyLease n addr msg signed :
  registrarAddr ask c n = Some (Ok addr) -> BuildUpdate (update_spec c addresses instances lease keyLease) = Ok msg ->
  SignMessage msg (keyRR c) = Ok signed ->
  buildSignSend ask transport c addresses instances lease keyLease n =
    Some (let '(r, n') := transport addr (cfg_Network (cfg c)) signed n in (resp ← r; Ok (resp, InterpretResponse resp), n')).
Proof.
  intros H1 H2 H3. unfold buildSignSend. rewrite H1. cbn [mbind option_bind]. cbn zeta. cbn [mbind result_bind]. rewrite H2. cbn [mbind result_bind].
  rewrite H3. cbn [mbind result_bind]. by destruct (transport _ _ _ _) as [[] ?].
Qed.
End behaviour.

(** [C27] What a client sends is acceptable.  For a configuration [NewClient] takes whose
    instances differ in label or service type when letter case is ignored, and after any number
    of renames, the update of [Register] and the one of [Deregister] pass the registrar's
    classification and validation, as updates of the client's current host name and of exactly
    its instances, under its key, asking for the configured leases and for none respectively;
    and they are what is signed and sent to the registrar that was found.  Neither check is of
    the length of the labels, which renames may take beyond what a message can carry. *)
Theorem client_updates_accepted {L : DnsLib} {SG : Sig0} {N : Type} (ask : N -> DNSQuery)
    (transport : string -> Z -> Msg -> N -> result (option Msg) * N) (gen : string -> result KEY) (c0 : Config) (c : Client) (k : nat) :
  NewClient gen c0 = Ok c ->
  NoDup (map (fun inst => (Fold (ic_Label inst), Fold (ic_ServiceType inst))) (Instances c0)) ->
  uint32_ok (RequestedLease (cfg c)) -> uint32_ok (RequestedKeyLease (cfg c)) ->
  let ck := Nat.iter k rename c in
  let sends (send : N -> option (result (option Msg * RequestOutcome) * N)) addresses instances lease keyLease :=
    exists msg cu, accepted (update_spec ck addresses instances lease keyLease) (keyRR ck) msg cu /\
      forall n addr signed, registrarAddr ask ck n = Some (Ok addr) -> SignMessage msg (keyRR ck) = Ok signed ->
        send n = Some (let '(r, n') := transport addr (cfg_Network (cfg ck)) signed n in (resp ← r; Ok (resp, InterpretResponse resp), n')) in
  sends (client_Register ask transport ck) (Addresses (cfg ck)) (specs false ck) (RequestedLease (cfg ck)) (RequestedKeyLease (cfg ck)) /\
  sends (Deregister ask transport ck) [] (specs true ck) 0 0.
Proof.
  intros HN Hnd Hl Hk. cbn zeta. destruct (NewClient_ok _ _ _ HN) as (Hc & _ & Hi & _). destruct (iter_rename_ok k c Hc) as (Hck & _ & Hcfg & _).
  assert (G : forall remove addresses lease keyLease, uint32_ok lease -> uint32_ok keyLease -> lease <= keyLease ->
    exists msg cu, accepted (update_spec (Nat.iter k rename c) addresses (specs remove (Nat.iter k rename c)) lease keyLease)
      (keyRR (Nat.iter k rename c)) msg cu /\
      BuildUpdate (update_spec (Nat.iter k rename c) addresses (specs remove (Nat.iter k rename c)) lease keyLease) = Ok msg).
  { intros remove addresses lease keyLease ???. destruct (built_accepted (update_spec (Nat.iter k rename c) addresses
      (specs remove (Nat.iter k rename c)) lease keyLease) (keyRR (Nat.iter k rename c))) as (msg & cu & ? & ?); [|eauto].
    apply update_spec_ok; [done| |done..]. by rewrite Hcfg, Hi. }
  split.
  - rewrite <- Hcfg in Hl, Hk. destruct (G false (Addresses (cfg (Nat.iter k rename c))) _ _ Hl Hk) as (msg & cu & Ha & Hb);
      [by apply (cf_lease _ (co_config _ Hck))|]. exists msg, cu. split; [done|].
    intros n addr signed H1 H2. unfold client_Register. by apply (buildSignSend_sent _ _ _ _ _ _ _ _ _ msg).
  - destruct (G true [] 0 0) as (msg & cu & Ha & Hb); [done..|]. exists msg, cu. split; [done|].
    intros n addr signed H1 H2. unfold Deregister. by apply (buildSignSend_sent _ _ _ _ _ _ _ _ _ msg).
Qed.

(** Renaming after conflicts ends, and never retries a name.  With a transport that answers,
    [registerWithRenameRetry] returns after at most [MaxRenames] + 1 registrations: a number of
    conflicts in a row, each followed by a rename, and then the outcome it reports, a success
    exactly when the last registration, under the client's current names, was answered with
    success; an error when that failed otherwise or every attempt was a conflict.  The host
    names of all attempts differ, up to case. *)
Theorem rename_retry {L : DnsLib} {SG : Sig0} {N : Type} (ask : N -> DNSQuery)
    (transport : string -> Z -> Msg -> N -> result (option Msg) * N) (c : Client) (n : N) :
  client_ok c -> transport_answers transport ->
  let attempts := S (Z.to_nat (MaxRenames (cfg c))) in
  exists res c' n' j n1, registerWithRenameRetry ask transport c n = Some (res, c', n') /\
    (j <= attempts)%nat /\ conflicts ask transport j c n c' n1 /\ c' = Nat.iter j rename c /\
    ended ask transport attempts j c' n1 res n' /\
    forall i i', Fold (hostFQDN (Nat.iter i rename c)) = Fold (hostFQDN (Nat.iter i' rename c)) -> i = i'.
Proof.
  intros Hc HT. cbn zeta. unfold registerWithRenameRetry.
  destruct (register_attempts_spec ask transport (S (Z.to_nat (MaxRenames (cfg c)))) c n HT) as (res & c' & n' & j & n1 & E & Hcf & He).
  exists res, c', n', j, n1. split_and!; [done| |done|by eapply conflicts_client|done|].
  - unfold ended in He. destruct res; [lia|]. destruct He as [[? _]|[? _]]; lia.
  - intros i i'. by apply renamed_host_inj.
Qed.

(** ** Run *)

(** The failed cycles since the last success, the latest first. *)
Fixpoint failures (cycles : list cycle) : nat :=
  match cycles with Failed _ :: cycles => S (failures cycles) | _ => O end.

(** Doubling from five seconds, up to five minutes. *)
Definition backoff_after (failed : nat) : Z := Z.min (minRegisterRetryBackoff * 2 ^ Z.of_nat failed) maxRegisterRetryBackoff.

Lemma next_backoff_after m : next_backoff (backoff_after m) = backoff_after (S m).
Proof.
  unfold next_backoff, backoff_after. rewrite Nat2Z.inj_succ, Z.pow_succ_r by lia. unfold minRegisterRetryBackoff, maxRegisterRetryBackoff, Second.
  set (p := 2 ^ Z.of_nat m). assert (0 < p) by (unfold p; lia).
  match goal with |- context [?a <? ?b] => destruct (Z.ltb_spec a b) end; lia.
Qed.

(** The sleep after each cycle. *)
Definition slept_ok (cy : cycle) (earlier : list cycle) : Prop :=
  match cy with
  | Failed d => d = backoff_after (failures earlier)
  | Refreshed lease d => minRefreshDelay <= d /\ (2 <= lease <= maxExactLease -> 80 * (lease * Second) <= 100 * d /\ d < lease * Second)
  end.

Section running.
Context {L : DnsLib} {SG : Sig0} {N : Type}.
Context (ask : N -> DNSQuery) (transport : string -> Z -> Msg -> N -> result (option Msg) * N).

Lemma refreshDelay_floor k lease : minRefreshDelay <= refreshDelay k lease.
Proof. unfold refreshDelay. cbn zeta. match goal with |- context [?a <? ?b] => destruct (Z.ltb_spec a b) end; lia. Qed.

Lemma registerWithRenameRetry_client c n res c' n' : transport_answers transport ->
  registerWithRenameRetry ask transport c n = Some (res, c', n') -> exists j, c' = Nat.iter j rename c.
Proof.
  intros HT H. destruct (register_attempts_spec ask transport (S (Z.to_nat (MaxRenames (cfg c)))) c n HT)
    as (res0 & c0 & n0 & j & n1 & E & Hc & _). unfold registerWithRenameRetry in H. rewrite H in E. injection E as <- <- <-. exists j.
  by eapply conflicts_client.
Qed.

Lemma runs_inv c d cycles s : transport_answers transport -> runs ask transport c d cycles s ->
  0 <= d <= 3 * Second /\ rs_backoff s = backoff_after (failures cycles) /\ (exists k, rs_client s = Nat.iter k rename c) /\
  forall later cy earlier, cycles = later ++ cy :: earlier -> slept_ok cy earlier.
Proof.
  intros HT. induction 1 as [k n Hk|d cycles s cy s' Hr (IH1 & IH2 & (k & IH3) & IH4) Hs].
  { split_and!; [by apply initialDelay_bound..|done|by exists O|]. intros [] ? ?; done. }
  assert (Hcy : slept_ok cy cycles /\ rs_backoff s' = backoff_after (failures (cy :: cycles)) /\ exists k, rs_client s' = Nat.iter k rename c).
  { destruct Hs as [c1 b n e c' n' n'' HR|c1 b n resp c' n' n'' k' HR Hk']; cbn [rs_client rs_backoff] in *; subst c1;
      apply registerWithRenameRetry_client in HR as [j ->]; try done.
    - split_and!; [done|cbn [failures]; rewrite IH2; apply next_backoff_after|]. exists (j + k)%nat. by rewrite Nat.iter_add.
    - split_and!; [|done|exists (j + k)%nat; by rewrite Nat.iter_add]. split; [apply refreshDelay_floor|]. intros Hle.
      match type of Hle with 2 <= ?g <= _ => destruct (refreshDelay_bounds k' g Hk') as (_ & H & _); [lia|] end.
      destruct (H (proj1 Hle)) as (? & _ & ?). done. }
  destruct Hcy as (H1 & H2 & H3). split_and!; [apply IH1..|done|done|]. intros later cy' earlier E. destruct later as [|cy0 later].
  - by injection E as <- <-.
  - injection E as -> E. by apply (IH4 later cy' earlier).
Qed.
End running.

(** [C35] A requester keeps registering.  In every run of [Run], however the world behaves, the
    first registration comes after at most three seconds; after a failed cycle the sleep is
    five seconds doubled for every failure since the last success, and at most five minutes;
    after a success it is the refresh clock's, at least a second and, for a lease from two
    seconds to [maxExactLease], at least 80 % of it and over before it is; the client's names are the configured ones
    with the suffix of some number of renames; and there always is a next cycle. *)
Theorem run_keeps_registering {L : DnsLib} {SG : Sig0} {N : Type} (ask : N -> DNSQuery)
    (transport : string -> Z -> Msg -> N -> result (option Msg) * N) (c : Client) (d : Z) (cycles : list cycle) (s : RunState) :
  transport_answers transport -> runs ask transport c d cycles s ->
  0 <= d <= 3 * Second /\
  (forall later cy earlier, cycles = later ++ cy :: earlier -> slept_ok cy earlier) /\
  (exists k, rs_client s = Nat.iter k rename c) /\
  exists cy s', run_step ask transport s cy s'.
Proof.
  intros HT Hr. destruct (runs_inv ask transport c d cycles s HT Hr) as (H1 & _ & H3 & H4). split_and!; [apply H1..|done|done|].
  destruct s as [cl b n]. destruct (register_attempts_spec ask transport (S (Z.to_nat (MaxRenames (cfg cl)))) cl n HT)
    as (res & c' & n' & j & n1 & E & _). destruct res as [resp|e].
  - eexists _, _. apply (run_registered _ _ _ _ _ resp c' n' n' 0); [exact E|unfold draw; lia].
  - eexists _, _. by apply (run_failed _ _ _ _ _ e c' n' n').
Qed.

(** ** A printer whose name is taken *)

Module ClientDemo.
Definition config : Config :=
  mkConfig "example.com" "PrintHost" [Addr4 3221226219]
    [mkInstanceConfig "Office" "_ipp._tcp" ["_color"] 631 [] false] (Some (SrpDemo.key "")) 0 0 0 "192.0.2.1:53" 0 0 0 0.
Definition client : Client := match NewClient (fun _ => Err "no key") config with Ok c => c | Err _ => mkClient config (SrpDemo.key "") "" [] 0 end.
(** The first update is answered with YXDOMAIN, every later one with NOERROR. *)
Definition transport (addr : string) (net : Z) (msg : Msg) (n : nat) : result (option Msg) * nat :=
  (Ok (Some (mkMsg (mkMsgHeader 0 OpcodeUpdate true true false false (match n with O => RcodeYXDomain | _ => RcodeSuccess end) 0)
                   [] [] [] [] [] [])), S n).
Definition ask (n : nat) : DNSQuery := demo_query.
Definition sig0 : Sig0 := {| SignMessage m k := Ok m; VerifySignature m k := Ok tt |}.

Lemma built : NewClient (fun _ => Err "no key") config = Ok client.
Proof. vm_compute. reflexivity. Qed.

Lemma answers : transport_answers transport.
Proof. intros addr net msg n n'. done. Qed.
End ClientDemo.

Lemma client_updates_accepted_witness :
  exists msg cu, accepted (update_spec (rename ClientDemo.client) [] (specs true (rename ClientDemo.client)) 0 0)
    (keyRR (rename ClientDemo.client)) msg cu.
Proof.
  destruct (client_updates_accepted (L := Demo.lib) (SG := ClientDemo.sig0) ClientDemo.ask ClientDemo.transport (fun _ => Err "no key")
              ClientDemo.config ClientDemo.client 1 ClientDemo.built ltac:(repeat constructor; set_solver)
              ltac:(vm_compute; split; congruence) ltac:(vm_compute; split; congruence)) as (_ & msg & cu & H & _).
  exists msg, cu. exact H.
Defined.

Lemma rename_retry_witness :
  exists res c' n', registerWithRenameRetry (L := Demo.lib) (SG := ClientDemo.sig0) ClientDemo.ask ClientDemo.transport ClientDemo.client 0%nat
    = Some (res, c', n') /\ is_ok res = true /\ hostLabel c' = "PrintHost-2".
Proof.
  destruct (rename_retry (L := Demo.lib) (SG := ClientDemo.sig0) ClientDemo.ask ClientDemo.transport ClientDemo.client 0%nat
              (proj1 (NewClient_ok _ _ _ ClientDemo.built)) ClientDemo.answers) as (res & c' & n' & j & n1 & E & _).
  exists res, c', n'. split; [exact E|]. vm_compute in E. injection E as <- <- <-. split; vm_compute; reflexivity.
Defined.

Lemma run_keeps_registering_witness :
  exists cy s', run_step (L := Demo.lib) (SG := ClientDemo.sig0) ClientDemo.ask ClientDemo.transport
    (mkRunState ClientDemo.client minRegisterRetryBackoff 0%nat) cy s'.
Proof.
  destruct (run_keeps_registering (L := Demo.lib) (SG := ClientDemo.sig0) ClientDemo.ask ClientDemo.transport ClientDemo.client
              (initialDelay 0) [] (mkRunState ClientDemo.client minRegisterRetryBackoff 0%nat) ClientDemo.answers
              (run_start _ _ _ 0 _ ltac:(unfold draw; lia))) as (_ & _ & _ & H).
  exact H.
Defined.
