(* ===== verification/Sig0Signer.v ===== *)
(** * SIG(0): the signed data, signing and verifying

    pkg/sig0/signer.go.  The bytes a transaction signature covers ([rdataOnlyPrefix], then the
    message), the dispatch on the algorithm, and the encodings of keys and signatures are the
    source's.  The cryptographic primitives and the DNS library's SIG0Sign and SIG0Verify,
    which pack the message and call back the signer, are parameters. *)

From Stdlib Require Import Ascii String ZArith Lia.
From S2P Require Import Prelude DnsName DnsData LeaseOption WireLabel GoQuote UpdateCore.

Local Open Scope Z_scope.

Notation bytes := (list Z) (only parsing).

Definition string_bytes (s : string) : bytes := map byte_of (String.list_ascii_of_string s).

(** ** The signed data *)

Definition appendUint32 (buf : bytes) (v : Z) : bytes := buf ++ PutUint32 v.
Definition appendUint16 (buf : bytes) (v : Z) : bytes := buf ++ [Z.shiftr v 8 mod 256; v mod 256].

Definition canonicalDomainName (name : string) : string :=
  let name := Fold name in
  if bool_decide (name = "") || bool_decide (name = ".") then "."
  else if HasSuffix name "." then name else name +:+ ".".

(** The loop of [appendDomainName]; every round takes at least one byte of [name]. *)
Fixpoint append_labels (fuel : nat) (buf : bytes) (name : string) : bytes :=
  match fuel with
  | O => buf
  | S fuel =>
      if bool_decide (name = "") then buf
      else
        let '(label, rest, more) := CutFirstLabel name in
        let buf := buf ++ [Z.of_nat (String.length label) mod 256] ++ string_bytes label in
        if more then append_labels fuel buf rest else buf
  end.

Definition appendDomainName (buf : bytes) (name : string) : bytes :=
  let name := canonicalDomainName name in
  if bool_decide (name = ".") then buf ++ [0]
  else
    let name := TrimSuffixDot name in
    append_labels (String.length name) buf name ++ [0].

Definition rdataOnlyPrefix (sig : SigData) : bytes :=
  let buf := [0; 0] ++ [sig_Algorithm sig; sig_Labels sig] in
  let buf := appendUint32 buf (sig_OrigTTL sig) in
  let buf := appendUint32 buf (sig_Expiration sig) in
  let buf := appendUint32 buf (sig_Inception sig) in
  let buf := appendUint16 buf (sig_KeyTag sig) in
  appendDomainName buf (SignerName sig).

(** ** encoding/base64, strings.TrimSpace and math/big *)

Definition b64_char (v : Z) : ascii :=
  chr (if v <? 26 then 65 + v else if v <? 52 then 71 + v else if v <? 62 then v - 4 else if v =? 62 then 43 else 47).

Definition b64_value (c : ascii) : option Z :=
  let b := byte_of c in
  if (65 <=? b) && (b <=? 90) then Some (b - 65)
  else if (97 <=? b) && (b <=? 122) then Some (b - 71)
  else if (48 <=? b) && (b <=? 57) then Some (b + 4)
  else if b =? 43 then Some 62
  else if b =? 47 then Some 63
  else None.

Definition pad : ascii := "="%char.

(** [StdEncoding.EncodeToString]. *)
Fixpoint b64_encode (b : bytes) : string :=
  match b with
  | [] => ""
  | [x] => String (b64_char (x / 4)) (String (b64_char (x mod 4 * 16)) (String pad (String pad "")))
  | [x; y] =>
      String (b64_char (x / 4)) (String (b64_char (x mod 4 * 16 + y / 16)) (String (b64_char (y mod 16 * 4)) (String pad "")))
  | x :: y :: z :: b =>
      String (b64_char (x / 4)) (String (b64_char (x mod 4 * 16 + y / 16))
        (String (b64_char (y mod 16 * 4 + z / 64)) (String (b64_char (z mod 64)) (b64_encode b))))
  end.

(** [StdEncoding.DecodeString]: line breaks are skipped, padding ends the text, and the bits
    it leaves over are ignored. *)
Fixpoint strip_newlines (s : string) : string :=
  match s with
  | EmptyString => EmptyString
  | String c s => if (byte_of c =? 10) || (byte_of c =? 13) then strip_newlines s else String c (strip_newlines s)
  end.

Fixpoint b64_quads (s : string) : option bytes :=
  match s with
  | EmptyString => Some []
  | String a (String b (String c (String d s))) =>
      va ← b64_value a; vb ← b64_value b;
      if bool_decide (c = pad) then
        if bool_decide (d = pad) && bool_decide (s = "") then Some [va * 4 + vb / 16] else None
      else
        vc ← b64_value c;
        if bool_decide (d = pad) then
          if bool_decide (s = "") then Some [va * 4 + vb / 16; vb mod 16 * 16 + vc / 4] else None
        else
          vd ← b64_value d; rest ← b64_quads s;
          Some ([va * 4 + vb / 16; vb mod 16 * 16 + vc / 4; vc mod 4 * 64 + vd] ++ rest)
  | _ => None
  end.

Definition b64_decode (s : string) : option bytes := b64_quads (strip_newlines s).

(** [strings.TrimSpace]: the white space of Unicode, in UTF-8. *)
Definition spaces : list bytes :=
  map (fun c => [c]) [9; 10; 11; 12; 13; 32] ++ [[194; 133]; [194; 160]; [225; 154; 128]]
  ++ map (fun c => [226; 128; c]) [128; 129; 130; 131; 132; 133; 134; 135; 136; 137; 138; 168; 169; 175]
  ++ [[226; 129; 159]; [227; 128; 128]].

Fixpoint cut_prefix (pre b : bytes) : option bytes :=
  match pre, b with
  | [], _ => Some b
  | x :: pre, y :: b => if x =? y then cut_prefix pre b else None
  | _ :: _, [] => None
  end.

Fixpoint trim_left (seqs : list bytes) (fuel : nat) (b : bytes) : bytes :=
  match fuel with
  | O => b
  | S fuel => match omap (fun s => cut_prefix s b) seqs with b' :: _ => trim_left seqs fuel b' | [] => b end
  end.

Definition trim_bytes (b : bytes) : bytes :=
  let b := trim_left spaces (length b) b in
  rev (trim_left (map (@rev Z) spaces) (length b) (rev b)).

Definition TrimSpace (s : string) : string := String.string_of_list_ascii (map chr (trim_bytes (string_bytes s))).

(** [FillBytes] of [n] bytes, big endian ([None]: the number does not fit, a panic), and
    [SetBytes]. *)
Fixpoint be_bytes (n : nat) (v : Z) : bytes :=
  match n with O => [] | S n => be_bytes n (v / 256) ++ [v mod 256] end.

Definition FillBytes (n : nat) (v : Z) : option bytes := if v <? 256 ^ Z.of_nat n then Some (be_bytes n v) else None.

Definition SetBytes (b : bytes) : Z := foldl (fun v x => v * 256 + x) 0 b.

(** ** The primitives *)

Inductive Curve := P256 | P384.
Inductive Hash := SHA256 | SHA384.

Definition ECDSAP256SHA256 : Z := 13.
Definition ECDSAP384SHA384 : Z := 14.
Definition ED25519 : Z := 15.

(** crypto/ecdsa, crypto/ed25519 and the hashes; [base_Sign] and [base_Verify] are the DNS
    library's own implementation, used for every other algorithm.  The randomness of an
    ECDSA signature is a choice of the function. *)
Class Crypto := {
  EcdsaKey : Type; Ed25519Key : Type; OtherKey : Type;
  Sum : Hash -> bytes -> bytes;
  ecdsa_Sign : EcdsaKey -> bytes -> result (Z * Z);
  ecdsa_Verify : Curve -> Z * Z -> bytes -> Z * Z -> bool;
  ed25519_Sign : Ed25519Key -> bytes -> result bytes;
  ed25519_Verify : bytes -> bytes -> bytes -> bool;
  base_Sign : KeyData -> OtherKey + (EcdsaKey + Ed25519Key) -> SigData -> bytes -> result bytes;
  base_Verify : KeyData -> SigData -> bytes -> result unit }.

(** A [crypto.PrivateKey]: the two kinds the package signs with itself, another
    [crypto.Signer], or something that cannot sign. *)
Inductive PrivateKey `{Crypto} :=
| PrivECDSA (k : EcdsaKey) | PrivED25519 (k : Ed25519Key) | PrivOther (k : OtherKey) | PrivNone.

(** The DNS library's SIG0Sign and SIG0Verify: both pack the message without its SIG and hand
    it to the signer with the SIG. *)
Class SIG0Lib := {
  SIG0Sign : Msg -> (SigData -> bytes -> result bytes) -> result Msg;
  SIG0Verify : Z -> Msg -> KEY -> (SigData -> bytes -> result unit) -> result unit }.

Definition ecdsaCurve (algorithm : Z) : option (Curve * nat * Hash) :=
  if algorithm =? ECDSAP256SHA256 then Some (P256, 32%nat, SHA256)
  else if algorithm =? ECDSAP384SHA384 then Some (P384, 48%nat, SHA384)
  else None.

Section signer.
Context {C : Crypto}.

Definition ecdsaPublicKeyFromKEY (k : KeyData) (coordSize : nat) : result (Z * Z) :=
  match b64_decode (TrimSpace (PublicKey k)) with
  | None => Err "invalid base64 in KEY public key"
  | Some raw =>
      if negb (length raw =? 2 * coordSize)%nat then Err "wrong ECDSA public key length for algorithm"
      else Ok (SetBytes (take coordSize raw), SetBytes (drop coordSize raw))
  end.

(** [None] in the outer option is the panic of [FillBytes]. *)
Definition signECDSA (priv : PrivateKey) (sig : SigData) (p : bytes) (coordSize : nat) (hash : Hash) : option (result bytes) :=
  match priv with
  | PrivECDSA k =>
      match ecdsa_Sign k (Sum hash (rdataOnlyPrefix sig ++ p)) with
      | Err _ => Some (Err "ECDSA sign failed")
      | Ok (r, s) => rb ← FillBytes coordSize r; sb ← FillBytes coordSize s; Some (Ok (rb ++ sb))
      end
  | _ => Some (Err "ECDSA signing requires an *ecdsa.PrivateKey")
  end.

Definition verifyECDSA (key : KeyData) (sig : SigData) (p : bytes) (curve : Curve) (coordSize : nat) (hash : Hash) : result unit :=
  match ecdsaPublicKeyFromKEY key coordSize with
  | Err _ => Err "ECDSA SIG(0) verify"
  | Ok pub =>
      match b64_decode (TrimSpace (Signature sig)) with
      | None => Err "invalid base64 signature"
      | Some raw =>
          if negb (length raw =? 2 * coordSize)%nat then Err "wrong ECDSA signature length"
          else if ecdsa_Verify curve pub (Sum hash (rdataOnlyPrefix sig ++ p)) (SetBytes (take coordSize raw), SetBytes (drop coordSize raw))
          then Ok tt else Err "ECDSA SIG(0) verification failed"
      end
  end.

(** [Sign] and [Verify] of [sig0SignerImpl]. *)
Definition signer_Sign (key : KeyData) (priv : PrivateKey) (sig : SigData) (p : bytes) : option (result bytes) :=
  if Algorithm key =? ED25519 then
    match priv with
    | PrivED25519 k => Some (ed25519_Sign k (rdataOnlyPrefix sig ++ p))
    | _ => Some (Err "ED25519 signer is not an ed25519.PrivateKey")
    end
  else match ecdsaCurve (Algorithm key) with
  | Some (_, coordSize, hash) => signECDSA priv sig p coordSize hash
  | None =>
      Some match priv with
           | PrivECDSA k => base_Sign key (inr (inl k)) sig p
           | PrivED25519 k => base_Sign key (inr (inr k)) sig p
           | PrivOther k => base_Sign key (inl k) sig p
           | PrivNone => Err "private key does not implement crypto.Signer interface"
           end
  end.

Definition signer_Verify (key : KeyData) (sig : SigData) (p : bytes) : result unit :=
  if Algorithm key =? ED25519 then
    match b64_decode (PublicKey key) with
    | None => Err "failed to decode base64 public key"
    | Some pub =>
        if negb (length pub =? 32)%nat then Err "invalid ED25519 public key length after base64 decode"
        else match b64_decode (Signature sig) with
        | None => Err "failed to decode signature"
        | Some raw => if ed25519_Verify pub (rdataOnlyPrefix sig ++ p) raw then Ok tt else Err "ED25519 signature verification failed"
        end
    end
  else match ecdsaCurve (Algorithm key) with
  | Some (curve, coordSize, hash) => verifyECDSA key sig p curve coordSize hash
  | None => base_Verify key sig p
  end.

Context {L : DnsLib} {S0 : SIG0Lib}.

(** The SIG record of a request signed at [now], in Unix seconds; the fields are uint32. *)
Definition newSIG (now : Z) (keyRR : KEY) : SigData :=
  let now := wrap32 now in
  mkSigData (Algorithm (key_Data keyRR)) 0 0 (wrap32 (now + 300)) (wrap32 (now - 300)) (KeyTag (key_Data keyRR)) (Name (key_Hdr keyRR)) "".

(** [SignMessage] and [VerifySignature] of package sig0, messages and KEYs being non-nil.  A
    panic of the signer is the [Err] of [panics]. *)
Definition panics {A} (r : option (result A)) : result A := default (Err "panic: math/big: buffer too small to fit value") r.

Definition sig0_SignMessage (now : Z) (msg : Msg) (keyRR : KEY) (priv : PrivateKey) : result Msg :=
  match priv with
  | PrivNone => Err "private key does not implement crypto.Signer interface"
  | _ =>
      let sigRR := mkRR (mkHeader "." ClassANY 0) (RD_SIG (newSIG now keyRR)) in
      let msg := mkMsg (MsgHdr msg) (Question msg) (Answer msg) (Ns msg) (Extra msg) (Pseudo msg ++ [sigRR]) (Data msg) in
      SIG0Sign msg (fun sig p => panics (signer_Sign (key_Data keyRR) priv sig p))
  end.

Definition sig0_VerifySignature (now : Z) (msg : Msg) (keyRR : KEY) : result unit :=
  match SIG0Verify now msg keyRR (signer_Verify (key_Data keyRR)) with
  | Err _ => Err "SIG(0) verification failed"
  | Ok _ => Ok tt
  end.
End signer.

(** ** Encodings *)

Lemma b64_value_char v : 0 <= v < 64 -> b64_value (b64_char v) = Some v /\ b64_char v <> pad /\
  (byte_of (b64_char v) =? 10) || (byte_of (b64_char v) =? 13) = false.
Proof.
  intros H. assert (G : forallb (fun n => let v := Z.of_nat n in
     bool_decide (b64_value (b64_char v) = Some v) && negb (bool_decide (b64_char v = pad))
     && negb ((byte_of (b64_char v) =? 10) || (byte_of (b64_char v) =? 13))) (seq 0 64) = true) by (vm_compute; reflexivity).
  rewrite forallb_forall in G. specialize (G (Z.to_nat v)). rewrite in_seq, Z2Nat.id in G by lia. specialize (G ltac:(lia)). cbn zeta in G.
  apply andb_true_iff in G as [[G1%bool_decide_eq_true G2]%andb_true_iff G3]. split_and!; [done| |by apply negb_true_iff].
  apply negb_true_iff in G2. by apply bool_decide_eq_false in G2.
Qed.

(** [lia] with quotients and remainders. *)
Ltac dlia := Z.div_mod_to_equations; lia.

(** One character of a quad goes through. *)
Ltac b64_step v :=
  let E := fresh in let N := fresh in let S := fresh in
  destruct (b64_value_char v ltac:(dlia)) as (E & N & S); rewrite ?E, ?S, ?(bool_decide_false (b64_char v = pad) N);
  cbn [mbind option_bind].

Lemma b64_roundtrip b : Forall byte_ok b -> b64_quads (b64_encode b) = Some b /\ strip_newlines (b64_encode b) = b64_encode b.
Proof.
  revert b. fix IH 1. intros [|x [|y [|z b]]] Hb; [done|..];
    repeat match goal with H : Forall _ (_ :: _) |- _ => apply Forall_cons in H as [? H] end; unfold byte_ok in *;
    cbn [b64_encode b64_quads strip_newlines].
  - b64_step (x / 4). b64_step (x mod 4 * 16). rewrite !(bool_decide_true (pad = pad)), (bool_decide_true ("" = "")) by done.
    split; [|done]. cbn [andb]. do 2 f_equal. dlia.
  - b64_step (x / 4). b64_step (x mod 4 * 16 + y / 16). b64_step (y mod 16 * 4).
    rewrite !(bool_decide_true (pad = pad)), (bool_decide_true ("" = "")) by done. split; [|done]. repeat f_equal; dlia.
  - b64_step (x / 4). b64_step (x mod 4 * 16 + y / 16). b64_step (y mod 16 * 4 + z / 64). b64_step (z mod 64).
    destruct (IH b Hb) as [-> ->]. cbn [mbind option_bind app]. split; [|done]. repeat f_equal; dlia.
Qed.

Lemma b64_decode_encode b : Forall byte_ok b -> b64_decode (b64_encode b) = Some b.
Proof. intros [H1 H2]%b64_roundtrip. unfold b64_decode. by rewrite H2. Qed.

Lemma be_bytes_length n v : length (be_bytes n v) = n.
Proof. revert v. induction n as [|n IH]; intros v; [done|]. cbn. rewrite length_app, IH. cbn. lia. Qed.

Lemma be_bytes_ok n v : Forall byte_ok (be_bytes n v).
Proof.
  revert v. induction n as [|n IH]; intros v; [constructor|]. cbn. apply Forall_app. split; [done|]. constructor; [|constructor].
  unfold byte_ok. dlia.
Qed.

Lemma SetBytes_be n v : 0 <= v < 256 ^ Z.of_nat n -> SetBytes (be_bytes n v) = v.
Proof.
  unfold SetBytes. revert v. induction n as [|n IH]; intros v Hv; [cbn in *; lia|]. cbn [be_bytes]. rewrite foldl_app.
  rewrite Nat2Z.inj_succ, Z.pow_succ_r in Hv by lia. rewrite IH; [cbn; dlia|]. dlia.
Qed.

(** Text without white space. *)
Definition graphic (b : Z) : bool := (33 <=? b) && (b <? 128).

Lemma trim_left_graphic seqs fuel b :
  (forall s, s ∈ seqs -> exists x s', s = x :: s' /\ graphic x = false) -> Forall (fun x => graphic x = true) b ->
  trim_left seqs fuel b = b.
Proof.
  intros Hs Hb. destruct fuel as [|fuel]; [done|]. cbn [trim_left].
  assert (Hn : omap (fun s => cut_prefix s b) seqs = []); [|by rewrite Hn].
  induction seqs as [|s seqs IH]; [done|]. cbn. destruct (Hs s ltac:(by left)) as (x & s' & -> & Hx).
  rewrite IH by (intros; apply Hs; by right). destruct Hb as [|y b Hy _]; [done|]. cbn.
  destruct (Z.eqb_spec x y) as [->|]; [congruence|done].
Qed.

Lemma spaces_not_graphic s : s ∈ spaces \/ s ∈ map (@rev Z) spaces -> exists x s', s = x :: s' /\ graphic x = false.
Proof.
  assert (G : forallb (fun s => match s with x :: _ => negb (graphic x) | [] => false end) (spaces ++ map (@rev Z) spaces) = true)
    by (vm_compute; reflexivity).
  rewrite forallb_forall in G. intros H. specialize (G s). rewrite in_app_iff, <- !list_elem_of_In in G. specialize (G H).
  destruct s as [|x s']; [done|]. exists x, s'. split; [done|]. by apply negb_true_iff.
Qed.

Lemma trim_bytes_graphic b : Forall (fun x => graphic x = true) b -> trim_bytes b = b.
Proof.
  intros Hb. unfold trim_bytes. rewrite (trim_left_graphic spaces) by (done || (intros; apply spaces_not_graphic; by left)).
  rewrite trim_left_graphic; [apply rev_involutive|intros; apply spaces_not_graphic; by right|]. by apply Forall_rev.
Qed.

Lemma string_bytes_chr s : String.string_of_list_ascii (map chr (string_bytes s)) = s.
Proof. unfold string_bytes. induction s as [|c s IH]; [done|]. cbn. by rewrite chr_byte, IH. Qed.

Lemma b64_char_graphic v : 0 <= v < 64 -> graphic (byte_of (b64_char v)) = true.
Proof.
  intros H. assert (G : forallb (fun n => graphic (byte_of (b64_char (Z.of_nat n)))) (seq 0 64) = true) by (vm_compute; reflexivity).
  rewrite forallb_forall in G. specialize (G (Z.to_nat v)). rewrite in_seq, Z2Nat.id in G by lia. apply G. lia.
Qed.

Lemma b64_graphic b : Forall byte_ok b -> Forall (fun x => graphic x = true) (string_bytes (b64_encode b)).
Proof.
  revert b. fix IH 1. intros [|x [|y [|z b]]] Hb; [constructor|..];
    repeat match goal with H : Forall _ (_ :: _) |- _ => apply Forall_cons in H as [? H] end; unfold byte_ok in *;
    cbn [b64_encode]; unfold string_bytes; cbn [String.list_ascii_of_string map];
    repeat (constructor; [first [done | apply b64_char_graphic; dlia]|]); [constructor..|]. by apply IH.
Qed.

Lemma TrimSpace_b64 b : Forall byte_ok b -> TrimSpace (b64_encode b) = b64_encode b.
Proof. intros Hb. unfold TrimSpace. rewrite trim_bytes_graphic by (by apply b64_graphic). apply string_bytes_chr. Qed.

(** ** The name in the signed data *)

Definition encode_label (l : string) : bytes := Z.of_nat (String.length l) :: string_bytes l.

(** A name a message can carry: no empty or overlong label. *)
Definition label_ok (l : string) : Prop := (1 <= String.length l <= 63)%nat /\ ContainsDot l = false.

(** The labels of a signer name, folded; none for the root. *)
Definition signer_labels (name : string) : list string :=
  let n := Normalize name in if bool_decide (n = "") then [] else SplitDot n.

Definition signer_ok (name : string) : Prop := Forall label_ok (signer_labels name).

Lemma append_labels_spec fuel buf name :
  (String.length name <= fuel)%nat -> Forall label_ok (if bool_decide (name = "") then [] else SplitDot name) ->
  append_labels fuel buf name = buf ++ concat (map encode_label (if bool_decide (name = "") then [] else SplitDot name)).
Proof.
  revert buf name. induction fuel as [|fuel IH]; intros buf name Hf Hok.
  { destruct name; [|cbn in Hf; lia]. cbn. by rewrite app_nil_r. }
  cbn [append_labels]. case_bool_decide as E; [cbn; by rewrite app_nil_r|].
  pose proof (CutFirstLabel_spec name) as H. destruct (CutFirstLabel name) as [[label rest] []].
  - destruct H as (-> & Hnd & Hsp). rewrite Hsp in *. apply Forall_cons in Hok as [[Hlen _] Hok].
    rewrite !string_length_app in Hf. change (String.length ".") with 1%nat in Hf. assert (Hr : rest <> "").
    { intros ->. cbn in Hok. apply Forall_cons in Hok as [[? _] _]. cbn in *. lia. }
    rewrite Z.mod_small by lia. rewrite IH; rewrite ?(bool_decide_false _ Hr); [|lia|done].
    cbn [map concat]. unfold encode_label at 2. rewrite <- !app_assoc. done.
  - destruct H as (-> & _ & Hnd & Hsp). rewrite Hsp in *. apply Forall_cons in Hok as [[Hlen _] _].
    rewrite Z.mod_small by lia. cbn. by rewrite !app_nil_r.
Qed.

Lemma appendDomainName_spec buf name :
  signer_ok name -> appendDomainName buf name = buf ++ concat (map encode_label (signer_labels name)) ++ [0].
Proof.
  unfold signer_ok, signer_labels, appendDomainName, canonicalDomainName, Normalize. cbn zeta. intros Hok.
  destruct (bool_decide (Fold name = "") || bool_decide (Fold name = ".")) eqn:E0.
  { assert (TrimSuffixDot (Fold name) = "") as ->; [|done].
    apply orb_true_iff in E0 as [->%bool_decide_eq_true| ->%bool_decide_eq_true]; done. }
  apply orb_false_iff in E0 as [E1%bool_decide_eq_false E2%bool_decide_eq_false].
  set (n := if HasSuffix (Fold name) "." then Fold name else Fold name +:+ ".").
  assert (Hn : TrimSuffixDot n = TrimSuffixDot (Fold name) /\ n <> ".").
  { unfold n. destruct (HasSuffix (Fold name) ".") eqn:Es; [done|]. rewrite TrimSuffixDot_dot.
    rewrite TrimSuffixDot_nodot by (intros p Hp; assert (HasSuffix (Fold name) "." = true) by (apply HasSuffix_spec; eauto); congruence).
    split; [done|]. intros Hd. by destruct (Fold name) as [|? [|]]. }
  destruct Hn as [Hn Hne]. rewrite (bool_decide_false _ Hne), Hn, append_labels_spec by done. by rewrite app_assoc.
Qed.

Lemma string_bytes_length s : length (string_bytes s) = String.length s.
Proof. unfold string_bytes. rewrite length_map. induction s; [done|]. cbn. by f_equal. Qed.

Lemma string_bytes_inj s s' : string_bytes s = string_bytes s' -> s = s'.
Proof. intros E. rewrite <- (string_bytes_chr s), <- (string_bytes_chr s'). by rewrite E. Qed.

Lemma encoded_labels_inj l1 l2 p1 p2 :
  Forall label_ok l1 -> Forall label_ok l2 ->
  concat (map encode_label l1) ++ 0 :: p1 = concat (map encode_label l2) ++ 0 :: p2 -> l1 = l2 /\ p1 = p2.
Proof.
  intros H1. revert l2. induction H1 as [|a l1 [Ha _] _ IH]; intros [|b l2] H2 E; cbn in E.
  - by injection E.
  - exfalso. apply Forall_cons in H2 as [[Hb _] _]. injection E as E _. lia.
  - exfalso. injection E as E _. lia.
  - apply Forall_cons in H2 as [_ H2]. injection E as El E. rewrite <- !app_assoc in E.
    apply app_inj_1 in E as [Es E]; [|rewrite !string_bytes_length; lia].
    apply string_bytes_inj in Es as ->. destruct (IH _ H2 E) as [-> ->]. done.
Qed.

Lemma PutUint32_inj v v' : uint32_ok v -> uint32_ok v' -> PutUint32 v = PutUint32 v' -> v = v'.
Proof. intros H H' E. rewrite <- (Uint32_PutUint32 v [] H), <- (Uint32_PutUint32 v' [] H'). by rewrite E. Qed.

(** The fields of a SIG as the library holds them. *)
Record sig_ok (s : SigData) : Prop := {
  so_alg : uint8_ok (sig_Algorithm s); so_labels : uint8_ok (sig_Labels s); so_ttl : uint32_ok (sig_OrigTTL s);
  so_exp : uint32_ok (sig_Expiration s); so_inc : uint32_ok (sig_Inception s); so_tag : uint16_ok (sig_KeyTag s);
  so_signer : signer_ok (SignerName s) }.

Definition sig_head (s : SigData) : bytes :=
  [0; 0; sig_Algorithm s; sig_Labels s] ++ PutUint32 (sig_OrigTTL s) ++ PutUint32 (sig_Expiration s) ++ PutUint32 (sig_Inception s)
  ++ [Z.shiftr (sig_KeyTag s) 8 mod 256; sig_KeyTag s mod 256].

Lemma rdataOnlyPrefix_eq s : sig_ok s ->
  rdataOnlyPrefix s = sig_head s ++ concat (map encode_label (signer_labels (SignerName s))) ++ [0].
Proof. intros H. unfold rdataOnlyPrefix, appendUint32, appendUint16. cbn zeta. by rewrite appendDomainName_spec by apply H. Qed.

Lemma sig_head_inj s s' : sig_ok s -> sig_ok s' -> sig_head s = sig_head s' ->
  sig_Algorithm s = sig_Algorithm s' /\ sig_Labels s = sig_Labels s' /\ sig_OrigTTL s = sig_OrigTTL s' /\
  sig_Expiration s = sig_Expiration s' /\ sig_Inception s = sig_Inception s' /\ sig_KeyTag s = sig_KeyTag s'.
Proof.
  intros [_ _ A B C D _] [_ _ A' B' C' D' _] E. unfold sig_head in E. apply app_inj_1 in E as [E0 E]; [|done].
  apply app_inj_1 in E as [E1%PutUint32_inj E]; [|done..]. apply app_inj_1 in E as [E2%PutUint32_inj E]; [|done..].
  apply app_inj_1 in E as [E3%PutUint32_inj E]; [|done..]. injection E0 as E4 E5. injection E as E6 E7.
  split_and!; [done..|]. unfold uint16_ok in *. rewrite !Z.shiftr_div_pow2 in E6 by lia. change (2 ^ 8) with 256 in E6. dlia.
Qed.

(** The [n] octets from [off] on as a number, the most significant first (RFC 1035 S2.3.2). *)
Definition field (b : bytes) (off n : nat) : Z := foldl (fun v x => 256 * v + x) 0 (take n (drop off b)).

(** The RDATA of a SIG before the signer's name (RFC 2535 S4.1, RFC 2931 S3): type covered, which
    is 0, algorithm, labels, original TTL, expiration, inception and key tag. *)
Definition sig_fields (b : bytes) (s : SigData) : Prop :=
  field b 0 2 = 0 /\ field b 2 1 = sig_Algorithm s /\ field b 3 1 = sig_Labels s /\ field b 4 4 = sig_OrigTTL s /\
  field b 8 4 = sig_Expiration s /\ field b 12 4 = sig_Inception s /\ field b 16 2 = sig_KeyTag s.

Lemma PutUint32_field v : uint32_ok v -> foldl (fun v x => 256 * v + x) 0 (PutUint32 v) = v.
Proof. unfold uint32_ok, PutUint32. intros H. cbn [foldl]. rewrite !Z.shiftr_div_pow2 by lia. change (2 ^ 24) with 16777216. change (2 ^ 16) with 65536. change (2 ^ 8) with 256. dlia. Qed.

Lemma sig_head_fields s b : sig_ok s -> sig_fields (sig_head s ++ b) s.
Proof.
  intros [_ _ A B C D _]. pose proof (PutUint32_field _ A) as HA. pose proof (PutUint32_field _ B) as HB. pose proof (PutUint32_field _ C) as HC.
  unfold sig_fields, field, sig_head. unfold PutUint32 in *. cbn [app take drop]. split_and!; [done..| | | |]; [done|done|done|].
  rewrite take_0. cbn [foldl]. unfold uint16_ok in D. rewrite Z.shiftr_div_pow2 by lia. change (2 ^ 8) with 256. dlia.
Qed.

Lemma wire_labels pre labels post :
  Forall label_ok labels ->
  let msg := pre ++ concat (map encode_label labels) ++ 0 :: post in
  wire_name msg (length pre) 0 (map string_bytes labels) (length pre + length (concat (map encode_label labels)) + 1).
Proof.
  intros H. cbn zeta. revert pre. induction H as [|l labels [Hl _] _ IH]; intros pre; cbn [map concat].
  - rewrite Nat.add_0_r. apply wn_root. by rewrite lookup_app_r, Nat.sub_diag by lia.
  - set (tail := concat (map encode_label labels)). set (msg := pre ++ (encode_label l ++ tail) ++ 0 :: post).
    assert (Hmsg : msg = (pre ++ encode_label l) ++ tail ++ 0 :: post) by (unfold msg; by rewrite <- !app_assoc).
    assert (Hdrop : drop (length pre + 1) msg = string_bytes l ++ tail ++ 0 :: post).
    { unfold msg. rewrite <- drop_drop, drop_app_length. unfold encode_label. cbn. by rewrite <- app_assoc. }
    assert (Hlen : Z.to_nat (Z.of_nat (String.length l)) = length (string_bytes l)) by (rewrite string_bytes_length; lia).
    replace (string_bytes l) with (take (Z.to_nat (Z.of_nat (String.length l))) (drop (length pre + 1) msg))
      by (by rewrite Hdrop, Hlen, take_app_length).
    apply wn_label.
    + unfold msg. by rewrite lookup_app_r, Nat.sub_diag by lia.
    + lia.
    + unfold msg, encode_label. rewrite !length_app. cbn [length]. rewrite string_bytes_length. lia.
    + specialize (IH (pre ++ encode_label l)). cbn zeta in IH. fold tail in IH. rewrite <- Hmsg in IH.
      replace (length pre + 1 + Z.to_nat (Z.of_nat (String.length l)))%nat with (length (pre ++ encode_label l))
        by (rewrite length_app; unfold encode_label; cbn [length]; rewrite string_bytes_length; lia).
      replace (length pre + length (encode_label l ++ tail) + 1)%nat with (length (pre ++ encode_label l) + length tail + 1)%nat
        by (rewrite !length_app; lia). exact IH.
Qed.

(** [C32] What a signature covers.  The signed bytes of a SIG with a signer name a message can
    carry are the RDATA fields in their places, each in network byte order (a type covered of 0,
    algorithm, labels, original TTL, expiration, inception and key tag, 18 octets), then, in the
    wire format, the name's labels in lower case, and then the message; and they determine what was signed: two SIGs and messages with the same
    signed bytes agree in every RDATA field, in the signer name up to case and a final dot,
    and in the message. *)
Theorem signed_data_unambiguous (s s' : SigData) (p p' : bytes) :
  sig_ok s -> sig_ok s' ->
  sig_fields (rdataOnlyPrefix s ++ p) s /\
  wire_name (rdataOnlyPrefix s ++ p) 18 0 (map string_bytes (signer_labels (SignerName s))) (length (rdataOnlyPrefix s)) /\
  drop (length (rdataOnlyPrefix s)) (rdataOnlyPrefix s ++ p) = p /\
  (rdataOnlyPrefix s ++ p = rdataOnlyPrefix s' ++ p' ->
   sig_Algorithm s = sig_Algorithm s' /\ sig_Labels s = sig_Labels s' /\ sig_OrigTTL s = sig_OrigTTL s' /\
   sig_Expiration s = sig_Expiration s' /\ sig_Inception s = sig_Inception s' /\ sig_KeyTag s = sig_KeyTag s' /\
   Normalize (SignerName s) = Normalize (SignerName s') /\ p = p').
Proof.
  intros H H'. split_and!; [rewrite rdataOnlyPrefix_eq, <- app_assoc by done; by apply sig_head_fields| |apply drop_app_length|];
    rewrite !rdataOnlyPrefix_eq by done.
  - rewrite <- !app_assoc. cbn [app]. rewrite !length_app. cbn [length]. rewrite Nat.add_assoc.
    change 18%nat with (length (sig_head s)). apply wire_labels, H.
  - rewrite <- !app_assoc. cbn [app]. intros E. apply app_inj_1 in E as [Eh E]; [|done].
    apply encoded_labels_inj in E as [El ->]; [|apply H|apply H'].
    destruct (sig_head_inj s s' H H' Eh) as (? & ? & ? & ? & ? & ?). split_and!; try done.
    unfold signer_labels in El. cbn zeta in El. repeat case_bool_decide; try congruence.
    + by destruct (SplitDot_ne (Normalize (SignerName s'))).
    + by destruct (SplitDot_ne (Normalize (SignerName s))).
    + rewrite <- (JoinDot_SplitDot (Normalize (SignerName s))), El. apply JoinDot_SplitDot.
Qed.

(** ** Signing and verifying *)

(** Key pairs, and what the primitives promise of them. *)
Class CryptoLaws (C : Crypto) := {
  ed25519_pair : Ed25519Key -> bytes -> Prop;
  ecdsa_pair : Curve -> EcdsaKey -> Z * Z -> Prop;
  ed25519_correct : forall k pub m s, ed25519_pair k pub -> ed25519_Sign k m = Ok s ->
    Forall byte_ok s /\ ed25519_Verify pub m s = true;
  ecdsa_correct : forall curve k pub d r s, ecdsa_pair curve k pub -> ecdsa_Sign k d = Ok (r, s) ->
    let bound := 256 ^ (match curve with P256 => 32 | P384 => 48 end) in
    0 <= r < bound /\ 0 <= s < bound /\ ecdsa_Verify curve pub d (r, s) = true }.

Definition set_Signature (s : string) (sig : SigData) : SigData :=
  mkSigData (sig_Algorithm sig) (sig_Labels sig) (sig_OrigTTL sig) (sig_Expiration sig) (sig_Inception sig) (sig_KeyTag sig)
            (SignerName sig) s.

(** A KEY is the one a SIG names. *)
Definition names_key `{DnsLib} (sig : SigData) (key : KEY) : Prop :=
  Normalize (SignerName sig) = Normalize (Name (key_Hdr key)) /\ sig_KeyTag sig = KeyTag (key_Data key) /\
  sig_Algorithm sig = Algorithm (key_Data key).

(** SIG0Sign signs the packed message with the last SIG of the message and puts the result in
    that SIG; SIG0Verify of the outcome, with a KEY the SIG names and within its validity, is
    the verifier's answer for the same bytes. *)
Class SIG0LibLaws {L : DnsLib} (S0 : SIG0Lib) : Prop := {
  SIG0Sign_signs : forall m m' sign pre hdr sig,
    SIG0Sign m sign = Ok m' -> Pseudo m = pre ++ [mkRR hdr (RD_SIG sig)] ->
    exists p b, sign sig p = Ok b /\
      MsgHdr m' = MsgHdr m /\ Question m' = Question m /\ Answer m' = Answer m /\ Ns m' = Ns m /\ Extra m' = Extra m /\
      Pseudo m' = pre ++ [mkRR hdr (RD_SIG (set_Signature (b64_encode b) sig))] /\
      forall now key verify, names_key sig key -> sig_Inception sig <= now <= sig_Expiration sig ->
        SIG0Verify now m' key verify = verify (set_Signature (b64_encode b) sig) p }.

Section signing.
Context {C : Crypto} {CL : CryptoLaws C} {L : DnsLib} {S0 : SIG0Lib} {SL : SIG0LibLaws S0}.

(** The private half of a KEY, for the algorithms the package implements. *)
Definition key_pair (key : KeyData) (priv : PrivateKey) : Prop :=
  match priv with
  | PrivED25519 k => Algorithm key = ED25519 /\ exists pub, b64_decode (PublicKey key) = Some pub /\ length pub = 32%nat /\ ed25519_pair k pub
  | PrivECDSA k => exists curve coord hash pub, ecdsaCurve (Algorithm key) = Some (curve, coord, hash) /\
      ecdsaPublicKeyFromKEY key coord = Ok pub /\ ecdsa_pair curve k pub
  | _ => False
  end.

Lemma ecdsaCurve_cases alg curve coord hash : ecdsaCurve alg = Some (curve, coord, hash) ->
  alg <> ED25519 /\ Z.of_nat coord = match curve with P256 => 32 | P384 => 48 end.
Proof.
  unfold ecdsaCurve, ECDSAP256SHA256, ECDSAP384SHA384, ED25519. destruct (Z.eqb_spec alg 13) as [->|];
    [|destruct (Z.eqb_spec alg 14) as [->|]; [|done]]; intros [= <- <- _]; done.
Qed.

(** What one half signs the other verifies. *)
Lemma sign_verify key priv sig p b :
  key_pair key priv -> signer_Sign key priv sig p = Some (Ok b) -> signer_Verify key (set_Signature (b64_encode b) sig) p = Ok tt.
Proof using CL.
  unfold signer_Sign, signer_Verify. destruct priv as [k|k|k|]; try done.
  - intros (curve & coord & hash & pub & Ec & Ep & Hp). destruct (ecdsaCurve_cases _ _ _ _ Ec) as [Hne Hco].
    rewrite (proj2 (Z.eqb_neq _ _) Hne), Ec. unfold signECDSA, verifyECDSA. rewrite Ep. cbn [Signature set_Signature].
    change (rdataOnlyPrefix (set_Signature (b64_encode b) sig)) with (rdataOnlyPrefix sig).
    destruct (ecdsa_Sign k _) as [[r s]|] eqn:Es; [|done]. destruct (ecdsa_correct _ _ _ _ _ _ Hp Es) as (Hr & Hs & HV).
    rewrite <- Hco in Hr, Hs. unfold FillBytes. rewrite (proj2 (Z.ltb_lt r _) (proj2 Hr)), (proj2 (Z.ltb_lt s _) (proj2 Hs)). cbn [mbind option_bind].
    intros [= <-]. assert (Hb : Forall byte_ok (be_bytes coord r ++ be_bytes coord s)) by (apply Forall_app; split; apply be_bytes_ok).
    rewrite TrimSpace_b64, b64_decode_encode by done. rewrite length_app, !be_bytes_length.
    replace (coord + coord =? 2 * coord)%nat with true by (symmetry; apply Nat.eqb_eq; lia). cbn [negb].
    rewrite take_app_length', drop_app_length' by (by rewrite be_bytes_length). rewrite !SetBytes_be by done. by rewrite HV.
  - intros [-> (pub & Ep & Hl & Hp)]. rewrite Z.eqb_refl, Ep, Hl. cbn [Nat.eqb negb Signature set_Signature].
    change (rdataOnlyPrefix (set_Signature (b64_encode b) sig)) with (rdataOnlyPrefix sig).
    intros [= Es]. destruct (ed25519_correct _ _ _ _ Hp Es) as [Hb HV]. rewrite b64_decode_encode by done. by rewrite HV.
Qed.

(** What verification relies on: the primitive accepted the signature of exactly the signed
    bytes, under the KEY's public key. *)
Definition primitive_accepts (key : KeyData) (sig : SigData) (p : bytes) : Prop :=
  if Algorithm key =? ED25519
  then exists pub raw, b64_decode (PublicKey key) = Some pub /\ b64_decode (Signature sig) = Some raw /\
         ed25519_Verify pub (rdataOnlyPrefix sig ++ p) raw = true
  else match ecdsaCurve (Algorithm key) with
  | Some (curve, coord, hash) =>
      exists pub raw, ecdsaPublicKeyFromKEY key coord = Ok pub /\ b64_decode (TrimSpace (Signature sig)) = Some raw /\
        length raw = (2 * coord)%nat /\
        ecdsa_Verify curve pub (Sum hash (rdataOnlyPrefix sig ++ p)) (SetBytes (take coord raw), SetBytes (drop coord raw)) = true
  | None => base_Verify key sig p = Ok tt
  end.

Lemma signer_Verify_sound key sig p : signer_Verify key sig p = Ok tt -> primitive_accepts key sig p.
Proof.
  unfold signer_Verify, primitive_accepts. destruct (Algorithm key =? ED25519).
  - destruct (b64_decode (PublicKey key)) as [pub|]; [|done]. destruct (length pub =? 32)%nat; [|done]. cbn [negb].
    destruct (b64_decode (Signature sig)) as [raw|]; [|done]. destruct (ed25519_Verify _ _ _) eqn:E; [|done]. eauto.
  - destruct (ecdsaCurve (Algorithm key)) as [[[curve coord] hash]|]; [|done]. unfold verifyECDSA.
    destruct (ecdsaPublicKeyFromKEY key coord) as [pub|] eqn:Ep; [|done].
    destruct (b64_decode (TrimSpace (Signature sig))) as [raw|]; [|done].
    destruct (Nat.eqb_spec (length raw) (2 * coord)); [|done]. cbn [negb]. destruct (ecdsa_Verify _ _ _ _) eqn:E; [|done].
    intros _. exists pub, raw. done.
Qed.

Lemma signed_parts now m key priv m' :
  sig0_SignMessage now m key priv = Ok m' ->
  exists p b, panics (signer_Sign (key_Data key) priv (newSIG now key) p) = Ok b /\
    Question m' = Question m /\ Answer m' = Answer m /\ Ns m' = Ns m /\ Extra m' = Extra m /\
    Pseudo m' = Pseudo m ++ [mkRR (mkHeader "." ClassANY 0) (RD_SIG (set_Signature (b64_encode b) (newSIG now key)))] /\
    forall now' key' verify, names_key (newSIG now key) key' ->
      sig_Inception (newSIG now key) <= now' <= sig_Expiration (newSIG now key) ->
      SIG0Verify now' m' key' verify = verify (set_Signature (b64_encode b) (newSIG now key)) p.
Proof using SL.
  unfold sig0_SignMessage. intros H.
  assert (HS : exists f, f = (fun sig p => panics (signer_Sign (key_Data key) priv sig p)) /\
    SIG0Sign (mkMsg (MsgHdr m) (Question m) (Answer m) (Ns m) (Extra m)
      (Pseudo m ++ [mkRR (mkHeader "." ClassANY 0) (RD_SIG (newSIG now key))]) (Data m)) f = Ok m')
    by (destruct priv; [eexists; split; [reflexivity|exact H]..|done]).
  destruct HS as (f & -> & HS). destruct (SIG0Sign_signs _ _ _ _ _ _ HS eq_refl) as (p & b & Hb & _ & Hq & Ha & Hn & He & Hp & HV).
  exists p, b. split_and!; done.
Qed.
End signing.

Lemma signed_verifies {C : Crypto} {CL : CryptoLaws C} {L : DnsLib} {S0 : SIG0Lib} {SL : SIG0LibLaws S0}
    (now now' : Z) (m m' : Msg) (key key' : KEY) (priv : PrivateKey) :
  key_pair (key_Data key) priv -> 300 <= now -> now + 300 < 2 ^ 32 -> now - 300 <= now' <= now + 300 ->
  Normalize (Name (key_Hdr key')) = Normalize (Name (key_Hdr key)) -> key_Data key' = key_Data key ->
  sig0_SignMessage now m key priv = Ok m' ->
  sig0_VerifySignature now' m' key' = Ok tt /\
  Question m' = Question m /\ Answer m' = Answer m /\ Ns m' = Ns m /\ Extra m' = Extra m /\
  (exists sig, Pseudo m' = Pseudo m ++ [mkRR (mkHeader "." ClassANY 0) (RD_SIG sig)] /\ SignerName sig = Name (key_Hdr key) /\
     names_key sig key') /\
  forall sig p, signer_Verify (key_Data key') sig p = Ok tt -> primitive_accepts (key_Data key') sig p.
Proof.
  intros Hpair Hlo Hhi Hnow Hname Hdata HS. destruct (signed_parts _ _ _ _ _ HS) as (p & b & Hb & Hq & Ha & Hn & He & Hp & HV).
  assert (Hk : names_key (newSIG now key) key') by (unfold names_key, newSIG; cbn; by rewrite Hname, Hdata).
  split_and!; [|done..| |intros sig p'; apply signer_Verify_sound].
  - unfold sig0_VerifySignature. rewrite HV; [|done|unfold newSIG; cbn; unfold wrap32; rewrite !Z.mod_small by (rewrite ?Z.mod_small by lia; lia); lia].
    rewrite Hdata. destruct (signer_Sign (key_Data key) priv (newSIG now key) p) as [r|] eqn:Es; [|done]. cbn in Hb. subst r.
    by rewrite (sign_verify _ _ _ _ _ Hpair Es).
  - eexists. split_and!; [exact Hp|done|exact Hk].
Qed.

(** [C31] A signed message verifies.  What [SignMessage] makes of a message with one half of an
    Ed25519 or ECDSA P-256 or P-384 key is the message with a SIG that names the KEY, and within
    five minutes [VerifySignature] accepts it with any KEY of the same name and data; and the
    signer's [Verify], which [VerifySignature] hands to the library, accepts nothing unless the
    primitive accepts the SIG's signature for the signed bytes under the KEY's public key. *)
Theorem signed_message_verifies {C : Crypto} {CL : CryptoLaws C} {L : DnsLib} {S0 : SIG0Lib} {SL : SIG0LibLaws S0}
    (now now' : Z) (m m' : Msg) (key key' : KEY) (priv : PrivateKey) :
  key_pair (key_Data key) priv -> 300 <= now -> now + 300 < 2 ^ 32 -> now - 300 <= now' <= now + 300 ->
  Normalize (Name (key_Hdr key')) = Normalize (Name (key_Hdr key)) -> key_Data key' = key_Data key ->
  sig0_SignMessage now m key priv = Ok m' ->
  sig0_VerifySignature now' m' key' = Ok tt /\
  Question m' = Question m /\ Answer m' = Answer m /\ Ns m' = Ns m /\ Extra m' = Extra m /\
  (exists sig, Pseudo m' = Pseudo m ++ [mkRR (mkHeader "." ClassANY 0) (RD_SIG sig)] /\ SignerName sig = Name (key_Hdr key) /\
     names_key sig key') /\
  forall sig p, signer_Verify (key_Data key') sig p = Ok tt -> primitive_accepts (key_Data key') sig p.
Proof. apply signed_verifies. Qed.

(** ** A concrete instance, for evaluation

    The primitives sign with a checksum under the key's number; the library packs the number
    of records. *)
Module DemoSig.
Definition sum (b : bytes) : Z := foldl Z.add 0 b mod 256.

Definition crypto : Crypto := {|
  EcdsaKey := Z; Ed25519Key := Z; OtherKey := unit;
  Sum h b := [sum b];
  ecdsa_Sign k d := Ok (k mod 256, sum d);
  ecdsa_Verify c pub d rs := (rs.1 =? pub.1) && (rs.2 =? sum d);
  ed25519_Sign k m := Ok [k mod 256; sum m];
  ed25519_Verify pub m s := bool_decide (s = [default 0 (head pub); sum m]);
  base_Sign key k sig p := Err "not implemented";
  base_Verify key sig p := Err "not implemented" |}.

Definition laws : CryptoLaws crypto.
Proof.
  refine {| ed25519_pair := fun (k : Ed25519Key (Crypto := crypto)) pub => head pub = Some ((k : Z) mod 256);
            ecdsa_pair := fun c (k : EcdsaKey (Crypto := crypto)) pub => pub.1 = (k : Z) mod 256 |}.
  - intros k pub m s Hp [= <-]. cbn. rewrite Hp. cbn. split; [|by rewrite bool_decide_true].
    repeat constructor; unfold sum; dlia.
  - intros curve k pub d r s Hp [= <- <-]. cbn zeta. cbn. rewrite Hp, !Z.eqb_refl. unfold sum. destruct curve; split_and!; try done; try dlia.
Defined.

Definition pack (m : Msg) : bytes := [Z.of_nat (length (Ns m)) mod 256].

Definition lib : SIG0Lib := {|
  SIG0Sign m sign :=
    match rev (Pseudo m) with
    | mkRR hdr (RD_SIG sig) :: pre =>
        b ← sign sig (pack m);
        Ok (mkMsg (MsgHdr m) (Question m) (Answer m) (Ns m) (Extra m)
                  (rev pre ++ [mkRR hdr (RD_SIG (set_Signature (b64_encode b) sig))]) (Data m))
    | _ => Err "no SIG"
    end;
  SIG0Verify now m key verify :=
    match rev (Pseudo m) with mkRR hdr (RD_SIG sig) :: _ => verify sig (pack m) | _ => Err "no SIG" end |}.

Lemma lib_laws `{DnsLib} : SIG0LibLaws lib.
Proof.
  split. intros m m' sign pre hdr sig. cbn. intros E Hp. rewrite Hp, rev_app_distr in E. cbn in E.
  apply bind_ok in E as (b & Hb & [= <-]). exists (pack m), b. cbn. rewrite rev_involutive. split_and!; try done.
  intros now key verify _ _. by rewrite rev_app_distr.
Qed.

Definition key : KEY := mkKEY (mkHeader "host.example.org." ClassINET 300) (mkKeyData 0 3 15 (b64_encode (replicate 32 7))).
Definition priv : PrivateKey (H := crypto) := PrivED25519 (H := crypto) (7 : Ed25519Key (Crypto := crypto)).

Lemma pair : @key_pair crypto laws (key_Data key) priv.
Proof. split; [done|]. exists (replicate 32 7). split_and!; [vm_compute; reflexivity|done|done]. Qed.

Definition request : Msg := new_update "example.org.".
Definition signed : Msg := match @sig0_SignMessage crypto Demo.lib lib 1000 request key priv with Ok m => m | Err _ => request end.
End DemoSig.

Lemma signed_message_verifies_witness :
  @sig0_VerifySignature DemoSig.crypto DemoSig.lib 1100 DemoSig.signed DemoSig.key = Ok tt.
Proof.
  exact (proj1 (@signed_message_verifies DemoSig.crypto DemoSig.laws Demo.lib DemoSig.lib DemoSig.lib_laws 1000 1100
    DemoSig.request DemoSig.signed DemoSig.key DemoSig.key DemoSig.priv DemoSig.pair ltac:(lia) ltac:(lia) ltac:(lia) eq_refl eq_refl
    ltac:(vm_compute; reflexivity))).
Defined.

Definition ex_sig (now : Z) : SigData := @newSIG Demo.lib now DemoSig.key.

Lemma ex_sig_ok : sig_ok (ex_sig 1000).
Proof. split; try (vm_compute; split; congruence). repeat constructor; vm_compute; lia. Qed.

Lemma signed_data_unambiguous_witness :
  field (rdataOnlyPrefix (ex_sig 1000) ++ [1; 2]) 8 4 = 1300 /\ field (rdataOnlyPrefix (ex_sig 1000) ++ [1; 2]) 12 4 = 700 /\
  wire_name (rdataOnlyPrefix (ex_sig 1000) ++ [1; 2]) 18 0 (map string_bytes ["host"; "example"; "org"]) 36.
Proof.
  destruct (signed_data_unambiguous (ex_sig 1000) (ex_sig 1000) [1; 2] [1; 2] ex_sig_ok ex_sig_ok) as ((_ & _ & _ & _ & He & Hi & _) & Hw & _).
  split; [rewrite He; reflexivity|]. split; [rewrite Hi; reflexivity|]. exact Hw.
Defined.
