(* ===== verification/SrpEndToEnd.v ===== *)
(** * From the requester to the registrar

    The SRP requester's signed updates (SrpClient, SrpRequest) at the SRP handler (SrpHandler),
    with SIG(0) as pkg/sig0 implements it (Sig0Signer): a client's registration passes every
    check of the handler that does not depend on the registrar's state. *)

From Stdlib Require Import Ascii String ZArith Lia.
From S2P Require Import Prelude DnsName DnsData LeaseOption UpdateCore HandlerBase UpdateHandler DnsSd SrpClassify SrpValidate.
From S2P Require Import SrpHandler SrpTheorems SrpComplete SrpRequest SrpDiscovery SrpTiming SrpClient Sig0Signer.

Local Open Scope Z_scope.

(** pkg/sig0 at a time [now], with the private halves of the keys in use. *)
Definition pkg_sig0 `{Crypto, DnsLib, SIG0Lib} (now : Z) (private : KEY -> PrivateKey) : Sig0 := {|
  SignMessage m k := sig0_SignMessage now m k (private k);
  VerifySignature m k := sig0_VerifySignature now m k |}.

(** Signing leaves what classification and validation read. *)
Lemma validate_signed m m' :
  Question m' = Question m -> Answer m' = Answer m -> Ns m' = Ns m -> FindOption m' = FindOption m -> srp_Validate m' = srp_Validate m.
Proof.
  intros Hq Ha Hn Hf. unfold srp_Validate, Classify, validatePostClassify, validateLeaseOption. by rewrite Hq, Ha, Hn, Hf.
Qed.

Section client_keys.
Context (c : Client) (addresses : list Addr) (remove : bool) (lease keyLease : Z).
Hypothesis Hc : client_ok c.
Let spec := update_spec c addresses (specs remove c) lease keyLease.
Hypothesis S : spec_ok spec (keyRR c).

(** The only KEY of a client's update is the host's. *)
Lemma only_host_key k : KEY_RR k ∈ built_ns spec (keyRR c) -> k = hostKeyRR (keyRR c) (hostFQDN c) (cfg_TTL (cfg c)).
Proof using Hc S.
  intros H. remember (KEY_RR k) as rr eqn:E. built_kind S H; try done.
  - unfold KEY_RR in E. cbn in E. injection E as E1 E2. destruct k as [kh kd]. cbn in *. by subst.
  - exfalso. change (us_Instances spec) with (specs remove c) in Hinst. rewrite (specs_eq c remove Hc) in Hinst.
    apply list_elem_of_fmap in Hinst as (ic & -> & _). done.
Qed.
End client_keys.

Section authenticates.
Context {C : Crypto} {CL : CryptoLaws C} {L : DnsLib} {S0 : SIG0Lib} {SL : SIG0LibLaws S0}.
Context (h : SRPHandler) (udp : bool).

(** What of the handler's configuration an update depends on. *)
Record serves (zone : string) : Prop := {
  sv_zone : zoneEnabled h zone = true;
  sv_plain : Normalize zone <> Normalize defaultServiceARPA;
  sv_key : is_Some (s_upstreamKey h);
  sv_transport : s_allowUDP h = true \/ udp = false }.

(** The handler's checks, for a validated update whose signer is its host. *)
Lemma srp_prologue_passes (SG : Sig0) r cu sig hk :
  srp_Validate r = Ok cu -> (exists q, Question r = [q] /\ serves (q_Name q)) -> refuseDottedLabels r = None ->
  extractSig0 r = Ok sig -> Normalize (SignerName sig) = Normalize (host_Name (cu_Host cu)) ->
  host_Key (cu_Host cu) ≫= key_of (Ns r) = Some hk -> VerifySignature r hk = Ok tt ->
  srp_prologue h udp r = Some (inr (r, cu)).
Proof.
  intros [HC HV]%Validate_Classified (q & Hq & [Hz Ha Hk Ht]) Hd Hs Hn Hh Hv. unfold srp_prologue.
  rewrite HC, Hq. cbn zeta. rewrite Hz. cbn [negb]. rewrite (bool_decide_eq_true_2 _ Hk). cbn [negb]. rewrite Hd, HV.
  assert (negb (s_allowUDP h) && udp = false) as -> by (destruct Ht as [-> | ->]; [done|apply andb_false_r]).
  rewrite Hs, (bool_decide_eq_true_2 _ Hn). cbn [negb]. rewrite Hh, Hv. by rewrite (bool_decide_eq_false_2 _ Ha).
Qed.

Lemma signed_client_update c remove addresses lease keyLease now now' priv private msg m' :
  client_ok c -> spec_ok (update_spec c addresses (specs remove c) lease keyLease) (keyRR c) ->
  key_pair (key_Data (cl_key c)) priv -> Flags (key_Data (cl_key c)) = 0 ->
  300 <= now -> now + 300 < 2 ^ 32 -> now - 300 <= now' <= now + 300 ->
  serves (ensureFQDN (Domain (cfg c))) ->
  BuildUpdate (update_spec c addresses (specs remove c) lease keyLease) = Ok msg ->
  sig0_SignMessage now msg (keyRR c) priv = Ok m' -> refuseDottedLabels m' = None ->
  exists cu, srp_prologue (SG := pkg_sig0 now' private) h udp m' = Some (inr (m', cu)) /\
    accepted (update_spec c addresses (specs remove c) lease keyLease) (keyRR c) m' cu.
Proof using CL SL.
  intros Hc S Hpair Hflags Hlo Hhi Hnow Hsv Hb Hsign Hdots. set (spec := update_spec c addresses (specs remove c) lease keyLease) in *.
  destruct (BuildUpdate_ok spec (keyRR c) S) as (opt & msg0 & _ & Hb0 & Hns & Hq & _ & _ & Hp). rewrite Hb in Hb0. injection Hb0 as <-.
  destruct (built_accepted spec (keyRR c) S) as (msg1 & cu & Hb1 & HA). rewrite Hb in Hb1. injection Hb1 as <-.
  destruct HA as (HV & _ & Hh & Hi & Hk & Hl). pose proof HV as [HC _]%Validate_Classified.
  destruct (Classify_host_key _ _ HC) as (hk & Hhk & _). assert (Ehk : hk = hostKeyRR (keyRR c) (hostFQDN c) (cfg_TTL (cfg c))).
  { destruct (host_Key (cu_Host cu)) as [i|]; [|done]. cbn in Hhk. unfold key_of in Hhk. destruct (Ns msg !! i) as [rr|] eqn:E; [|done]. cbn in Hhk.
    apply list_elem_of_lookup_2 in E. rewrite Hns in E. apply (only_host_key c addresses remove lease keyLease Hc S).
    destruct rr as [hd rd]. destruct rd; try done. injection Hhk as <-. done. }
  destruct (signed_verifies now now' msg m' (keyRR c) hk priv) as (Hver & Eq & Ea & En & Ee & (sig & Ep & Es & _) & _); try done.
  { by rewrite Ehk. }
  { rewrite Ehk. cbn. unfold keyRR. cbn. destruct (key_Data (cl_key c)). cbn in *. by subst. }
  rewrite Hp in Ep. cbn in Ep. assert (Hf : FindOption m' = FindOption msg) by (unfold FindOption; by rewrite Ep, Hp, Ee).
  assert (HV' : srp_Validate m' = Ok cu) by (by rewrite (validate_signed msg m')). exists cu. split.
  - apply (srp_prologue_passes (pkg_sig0 now' private) m' cu sig hk); try done.
    + rewrite Eq, Hq. eexists. split; [done|exact Hsv].
    + unfold extractSig0. by rewrite Ep.
    + rewrite Es, Hh, Normalize_Fold. done.
    + by rewrite En.
  - unfold accepted. rewrite Eq, En. split_and!; try done. unfold FindAndDecode in *. by rewrite Hf.
Qed.
End authenticates.

(** Every update of a client passes the handler's checks; [registration_authenticates] below. *)
Lemma registration_passes {C : Crypto} {CL : CryptoLaws C} {L : DnsLib} {S0 : SIG0Lib} {SL : SIG0LibLaws S0}
    (h : SRPHandler) (udp : bool) (gen : string -> result KEY) (c0 : Config) (c : Client) (k : nat) (now now' : Z)
    (priv : PrivateKey) (private : KEY -> PrivateKey) :
  NewClient gen c0 = Ok c ->
  NoDup (map (fun inst => (Fold (ic_Label inst), Fold (ic_ServiceType inst))) (Instances c0)) ->
  uint32_ok (RequestedLease (cfg c)) -> uint32_ok (RequestedKeyLease (cfg c)) ->
  key_pair (key_Data (cl_key c)) priv -> Flags (key_Data (cl_key c)) = 0 ->
  300 <= now -> now + 300 < 2 ^ 32 -> now - 300 <= now' <= now + 300 -> serves h udp (ensureFQDN (Domain c0)) ->
  let ck := Nat.iter k rename c in
  let authenticates spec :=
    exists msg, BuildUpdate spec = Ok msg /\
      forall m', sig0_SignMessage now msg (keyRR ck) priv = Ok m' -> refuseDottedLabels m' = None ->
        exists cu, srp_prologue (SG := pkg_sig0 now' private) h udp m' = Some (inr (m', cu)) /\ accepted spec (keyRR ck) m' cu in
  authenticates (update_spec ck (Addresses (cfg ck)) (specs false ck) (RequestedLease (cfg ck)) (RequestedKeyLease (cfg ck))) /\
  authenticates (update_spec ck [] (specs true ck) 0 0).
Proof.
  intros HN Hnd Hl Hk Hpair Hflags Hlo Hhi Hnow Hsv. cbn zeta. destruct (NewClient_ok _ _ _ HN) as (Hc & _ & Hi & _ & Hd & _).
  destruct (iter_rename_ok k c Hc) as (Hck & _ & Hcfg & Hkey). set (ck := Nat.iter k rename c) in *.
  assert (G : forall remove addresses lease keyLease, uint32_ok lease -> uint32_ok keyLease -> lease <= keyLease ->
    exists msg, BuildUpdate (update_spec ck addresses (specs remove ck) lease keyLease) = Ok msg /\
      forall m', sig0_SignMessage now msg (keyRR ck) priv = Ok m' -> refuseDottedLabels m' = None ->
        exists cu, srp_prologue (SG := pkg_sig0 now' private) h udp m' = Some (inr (m', cu)) /\
          accepted (update_spec ck addresses (specs remove ck) lease keyLease) (keyRR ck) m' cu).
  { intros remove addresses lease keyLease ???.
    assert (S : spec_ok (update_spec ck addresses (specs remove ck) lease keyLease) (keyRR ck)).
    { apply update_spec_ok; [done| |done..]. by rewrite Hcfg, Hi. }
    destruct (BuildUpdate_ok _ _ S) as (opt & msg & _ & Hb & _). exists msg. split; [done|]. intros m' Hs Hdots.
    eapply (signed_client_update h udp ck remove addresses lease keyLease now now' priv private msg m'); try done;
      rewrite ?Hkey, ?Hcfg, ?Hd; done. }
  split.
  - apply G; [by rewrite Hcfg..|]. apply (cf_lease _ (co_config _ Hck)).
  - by apply G.
Qed.

(** [C28] A client's update authenticates at the registrar.  For a configuration [NewClient]
    takes whose instances differ in label or service type when letter case is ignored, a signing
    key with flags 0, and after any number of renames: [Register]'s and [Deregister]'s updates
    are built, and once signed with the client's key, if the check for labels with a dot lets
    them through and the handler serves the zone over the transport used, they pass, within five
    minutes, every other check the SRP handler makes before it looks at its state: they are
    classified and validated as the client's host and instances, the signer is the host, and the
    signature verifies with the KEY in the update. *)
Theorem registration_authenticates {C : Crypto} {CL : CryptoLaws C} {L : DnsLib} {S0 : SIG0Lib} {SL : SIG0LibLaws S0}
    (h : SRPHandler) (udp : bool) (gen : string -> result KEY) (c0 : Config) (c : Client) (k : nat) (now now' : Z)
    (priv : PrivateKey) (private : KEY -> PrivateKey) :
  NewClient gen c0 = Ok c ->
  NoDup (map (fun inst => (Fold (ic_Label inst), Fold (ic_ServiceType inst))) (Instances c0)) ->
  uint32_ok (RequestedLease (cfg c)) -> uint32_ok (RequestedKeyLease (cfg c)) ->
  key_pair (key_Data (cl_key c)) priv -> Flags (key_Data (cl_key c)) = 0 ->
  300 <= now -> now + 300 < 2 ^ 32 -> now - 300 <= now' <= now + 300 -> serves h udp (ensureFQDN (Domain c0)) ->
  let ck := Nat.iter k rename c in
  let authenticates spec :=
    exists msg, BuildUpdate spec = Ok msg /\
      forall m', sig0_SignMessage now msg (keyRR ck) priv = Ok m' -> refuseDottedLabels m' = None ->
        exists cu, srp_prologue (SG := pkg_sig0 now' private) h udp m' = Some (inr (m', cu)) /\ accepted spec (keyRR ck) m' cu in
  authenticates (update_spec ck (Addresses (cfg ck)) (specs false ck) (RequestedLease (cfg ck)) (RequestedKeyLease (cfg ck))) /\
  authenticates (update_spec ck [] (specs true ck) 0 0).
Proof. apply registration_passes. Qed.

(** The print host of [ClientDemo], with the key pair of [DemoSig], at the registrar of [SrpRun]. *)
Module EndToEndDemo.
Definition config : Config :=
  mkConfig "example.com" "PrintHost" [Addr4 3221226219]
    [mkInstanceConfig "Office" "_ipp._tcp" ["_color"] 631 [] false] (Some DemoSig.key) 0 0 0 "192.0.2.1:53" 0 0 0 0.
Definition client : Client := match NewClient (fun _ => Err "no key") config with Ok c => c | Err _ => mkClient config DemoSig.key "" [] 0 end.

Lemma client_built : NewClient (fun _ => Err "no key") config = Ok client.
Proof. vm_compute. reflexivity. Qed.

Lemma client_pair : @key_pair DemoSig.crypto DemoSig.laws (key_Data (cl_key client)) DemoSig.priv.
Proof. exact DemoSig.pair. Qed.

Lemma client_served : serves SrpRun.handler false (ensureFQDN (Domain config)).
Proof. split; [vm_compute; reflexivity|vm_compute; discriminate|by eexists|by right]. Qed.

(** The removal, signed at time 1000. *)
Definition removal : Msg :=
  match BuildUpdate (L := Demo.lib) (update_spec client [] (specs true client) 0 0) with Ok m => m | Err _ => DemoSig.request end.
Definition signed : Msg :=
  match @sig0_SignMessage DemoSig.crypto Demo.lib DemoSig.lib 1000 removal (keyRR client) DemoSig.priv with Ok m => m | Err _ => removal end.
End EndToEndDemo.

Lemma registration_authenticates_witness :
  exists cu, srp_prologue (SG := @pkg_sig0 DemoSig.crypto Demo.lib DemoSig.lib 1100 (fun _ => DemoSig.priv)) SrpRun.handler false EndToEndDemo.signed
    = Some (inr (EndToEndDemo.signed, cu)).
Proof.
  destruct (@registration_authenticates DemoSig.crypto DemoSig.laws Demo.lib DemoSig.lib DemoSig.lib_laws SrpRun.handler false
              (fun _ => Err "no key") EndToEndDemo.config EndToEndDemo.client 0 1000 1100 DemoSig.priv (fun _ => DemoSig.priv)
              EndToEndDemo.client_built ltac:(repeat constructor; set_solver) ltac:(vm_compute; split; congruence)
              ltac:(vm_compute; split; congruence) EndToEndDemo.client_pair eq_refl ltac:(lia) ltac:(lia) ltac:(lia) EndToEndDemo.client_served)
    as (_ & msg & Hb & H).
  assert (E : msg = EndToEndDemo.removal) by (vm_compute in Hb; injection Hb as <-; vm_compute; reflexivity). subst msg.
  destruct (H EndToEndDemo.signed ltac:(vm_compute; reflexivity) ltac:(vm_compute; reflexivity)) as (cu & Hcu & _).
  exists cu. exact Hcu.
Defined.
