(* ===== verification/KeyFiles.v ===== *)
(** * Key files: the keystore directory of SIG(0) keys

    pkg/keyrec/loader.go and generate.go.  A key is two files in a keystore directory,
    K<owner>+<algorithm>+<tag>.key with the KEY record and .private with the private half.  A
    directory is a map from the names of its entries; any system call may fail. *)

From Stdlib Require Import Ascii String ZArith Lia.
From S2P Require Import Prelude DnsName DnsData LeaseOption UpdateCore GoQuote Sig0Signer.

Local Open Scope Z_scope.

(** ** The directory *)

Inductive Entry := Dir | File (content : string).

(** [None]: the directory does not exist. *)
Definition Keystore := option (gmap string Entry).

(** What the system calls on a keystore do: whether listing it, reading a file of it and
    creating it fail, and for a file written, [None] when the write succeeds, or what the failed
    write leaves of the file, if it touched it. *)
Record KeystoreIO := mkIO {
  readdir_fails : bool;
  read_fails : string -> bool;
  mkdir_fails : bool;
  write_fault : string -> option (option string) }.

Definition io_ok : KeystoreIO := mkIO false (fun _ => false) false (fun _ => None).

(** An error of [os.ReadDir]: [fs.ErrNotExist] or another. *)
Inductive dir_error := NotExist | OtherError.

Definition ReadDir (io : KeystoreIO) (ks : Keystore) : list (string * Entry) + dir_error :=
  match ks with
  | None => inr NotExist
  | Some d =>
      if readdir_fails io then inr OtherError
      else inl (omap (fun n => e ← d !! n; Some (n, e)) (merge_sort String.le (map fst (map_to_list d))))
  end.

Definition ReadFile (io : KeystoreIO) (ks : Keystore) (name : string) : option string :=
  if read_fails io name then None
  else match ks ≫= (.!! name) with Some (File c) => Some c | _ => None end.

(** [os.WriteFile] in the directory.  A name with a slash would be in a directory below the
    keystore, of which there is none. *)
Definition WriteFile (io : KeystoreIO) (name content : string) (ks : Keystore) : Keystore * result unit :=
  match ks with
  | None => (ks, Err "no such file or directory")
  | Some d =>
      if negb (no_char "/" name) then (ks, Err "no such file or directory")
      else match d !! name, write_fault io name with
      | Some Dir, _ => (ks, Err "is a directory")
      | _, None => (Some (<[name := File content]> d), Ok tt)
      | _, Some None => (ks, Err "write")
      | _, Some (Some remains) => (Some (<[name := File remains]> d), Err "write")
      end
  end.

Definition MkdirAll (io : KeystoreIO) (ks : Keystore) : Keystore * result unit :=
  match ks with
  | Some _ => (ks, Ok tt)
  | None => if mkdir_fails io then (ks, Err "mkdir") else (Some ∅, Ok tt)
  end.

(** ** Strings *)

(** [strings.CutPrefix]. *)
Fixpoint CutPrefix (s prefix : string) : option string :=
  match prefix, s with
  | EmptyString, _ => Some s
  | String c prefix, String x s => if bool_decide (x = c) then CutPrefix s prefix else None
  | String _ _, EmptyString => None
  end.

Definition HasPrefix (s prefix : string) : bool := bool_decide (is_Some (CutPrefix s prefix)).

Definition TrimSuffix (s suf : string) : string :=
  if HasSuffix s suf then string_take (String.length s - String.length suf) s else s.

(** ** loader.go *)

(** The library's parsers of keys, its printing of the private half, and its key generation: [Generate bits] of a KEY gives
    the public and the private half. *)
Class KeyLib `{Crypto} := {
  Read : string -> result RR;
  NewPrivate : KEY -> string -> result PrivateKey;
  PrivateKeyString : KEY -> PrivateKey -> string;
  Generate : KEY -> Z -> result (string * PrivateKey) }.

Record LoadedKey {C : Crypto} := mkLoadedKey { lk_Name : string; lk_PublicKey : KEY; lk_PrivateKey : PrivateKey }.
Arguments mkLoadedKey {_} _ _ _.

Section keyrec.
Context {C : Crypto} {L : DnsLib} {K : KeyLib}.

Definition LoadKeyFromFile (io : KeystoreIO) (ks : Keystore) (keyName : string) : result LoadedKey :=
  match ReadFile io ks (keyName +:+ ".key") with
  | None => Err "failed to open public key file"
  | Some text =>
      match Read text with
      | Err _ => Err "failed to parse KEY RR"
      | Ok rr =>
          match as_KEY rr with
          | None => Err "expected dns.KEY"
          | Some dnsKey =>
              match ReadFile io ks (keyName +:+ ".private") with
              | None => Err "failed to read private key file"
              | Some privKeyBytes =>
                  match NewPrivate dnsKey privKeyBytes with
                  | Err _ => Err "failed to parse private key"
                  | Ok privKey => Ok (mkLoadedKey keyName dnsKey privKey)
                  end
              end
          end
      end
  end.

(** The loop over the directory: [keyNames] and [seen]. *)
Definition list_entry (acc : list string * gset string) (entry : string * Entry) : list string * gset string :=
  let '(keyNames, seen) := acc in
  let '(name, e) := entry in
  match e with
  | Dir => acc
  | File _ =>
      if HasPrefix name "K" && HasSuffix name ".key" then
        let baseName := TrimSuffix name ".key" in
        if bool_decide (baseName ∈ seen) then acc else (keyNames ++ [baseName], {[baseName]} ∪ seen)
      else acc
  end.

Definition ListKeysInDirectory (io : KeystoreIO) (ks : Keystore) : list string + dir_error :=
  match ReadDir io ks with
  | inr e => inr e
  | inl entries => inl (foldl list_entry ([], ∅) entries).1
  end.

(** The loop over the names: the ED25519 keys and the others. *)
Definition sort_by_algorithm (prefix : string) (acc : list string * list string) (keyName : string) : list string * list string :=
  let '(ed25519Keys, otherKeys) := acc in
  match CutPrefix keyName prefix with
  | None => acc
  | Some suffix =>
      if HasPrefix suffix "015+" then (ed25519Keys ++ [keyName], otherKeys) else (ed25519Keys, otherKeys ++ [keyName])
  end.

Definition FindKeysByZone (io : KeystoreIO) (ks : Keystore) (zoneName : string) : list string + dir_error :=
  let zoneName := if HasSuffix zoneName "." then zoneName else zoneName +:+ "." in
  match ListKeysInDirectory io ks with
  | inr e => inr e
  | inl keys =>
      let prefix := "K" +:+ zoneName +:+ "+" in
      let '(ed25519Keys, otherKeys) := foldl (sort_by_algorithm prefix) ([], []) keys in
      inl (merge_sort String.le ed25519Keys ++ merge_sort String.le otherKeys)
  end.

Definition KeyExists (io : KeystoreIO) (ks : Keystore) (keyName : string) : result unit :=
  match ListKeysInDirectory io ks with
  | inr _ => Err "failed to read keystore directory"
  | inl keyFiles => if bool_decide (keyName ∈ keyFiles) then Ok tt else Err "no key file found for key"
  end.

(** [fmt.Sprintf("K%s+%03d+%d", name, algorithm, tag)]. *)
Definition key_file_name (name : string) (algorithm tag : Z) : string :=
  "K" +:+ name +:+ "+" +:+ fmt_pad 3 algorithm +:+ "+" +:+ fmt_d tag.

Definition KeyFileName (lk : LoadedKey) : string :=
  let k := lk_PublicKey lk in key_file_name (Name (key_Hdr k)) (Algorithm (key_Data k)) (KeyTag (key_Data k)).

(** ** generate.go *)

Definition GenerateKey (name : string) (algorithm flags bits : Z) : result LoadedKey :=
  let pub := mkKEY (mkHeader name ClassINET 0) (mkKeyData flags 3 algorithm "") in
  match Generate pub bits with
  | Err _ => Err "keyrec: generate key"
  | Ok (material, priv) =>
      let pub := mkKEY (key_Hdr pub) (mkKeyData flags 3 algorithm material) in
      Ok (mkLoadedKey (key_file_name name algorithm (KeyTag (key_Data pub))) pub priv)
  end.

Definition SaveToFile (io : KeystoreIO) (lk : LoadedKey) (ks : Keystore) : Keystore * result unit :=
  match WriteFile io (lk_Name lk +:+ ".key") (RR_String (KEY_RR (lk_PublicKey lk)) +:+ String "010" "") ks with
  | (ks, Err _) => (ks, Err "keyrec: write")
  | (ks, Ok _) =>
      match WriteFile io (lk_Name lk +:+ ".private") (PrivateKeyString (lk_PublicKey lk) (lk_PrivateKey lk)) ks with
      | (ks, Err _) => (ks, Err "keyrec: write")
      | (ks, Ok _) => (ks, Ok tt)
      end
  end.

(** [createAlgorithm] 0: never create.  The result says whether the key was created. *)
Definition ResolveOrCreateKey (io : KeystoreIO) (dir owner : string) (createAlgorithm : Z) (ks : Keystore)
    : Keystore * result (LoadedKey * bool) :=
  if bool_decide (dir = "") then (ks, Err "keystore directory is required")
  else match FindKeysByZone io ks owner with
  | inr OtherError => (ks, Err "keyrec: search for existing key")
  | inl (first :: _) =>
      match LoadKeyFromFile io ks first with
      | Err _ => (ks, Err "keyrec: load existing key")
      | Ok k => (ks, Ok (k, false))
      end
  | inl [] | inr NotExist =>
      if createAlgorithm =? 0 then (ks, Err "no key found")
      else
        let bits := if createAlgorithm =? ECDSAP384SHA384 then 384 else 256 in
        match GenerateKey owner createAlgorithm 0 bits with
        | Err e => (ks, Err e)
        | Ok k =>
            match MkdirAll io ks with
            | (ks, Err _) => (ks, Err "keyrec: create keystore dir")
            | (ks, Ok _) =>
                match SaveToFile io k ks with
                | (ks, Err _) => (ks, Err "keyrec: save generated key")
                | (ks, Ok _) => (ks, Ok (k, true))
                end
            end
        end
  end.
End keyrec.

(** ** What a search finds *)

Lemma CutPrefix_Some s p r : CutPrefix s p = Some r <-> s = p +:+ r.
Proof.
  revert s. induction p as [|c p IH]; intros [|x s]; cbn [CutPrefix]; sapp; try by naive_solver.
  case_bool_decide as E; [subst; rewrite IH; naive_solver|naive_solver].
Qed.

Lemma HasPrefix_spec s p : HasPrefix s p = true <-> exists r, s = p +:+ r.
Proof. unfold HasPrefix. rewrite bool_decide_eq_true. unfold is_Some. by setoid_rewrite CutPrefix_Some. Qed.

Lemma TrimSuffix_app a suf : TrimSuffix (a +:+ suf) suf = a.
Proof.
  unfold TrimSuffix. assert (HasSuffix (a +:+ suf) suf = true) as -> by (apply HasSuffix_spec; eauto).
  rewrite string_length_app, Nat.add_sub. apply string_take_app.
Qed.

Lemma list_entries_spec entries names seen :
  NoDup names -> (forall n, n ∈ names <-> n ∈ seen) ->
  let out := (foldl list_entry (names, seen) entries).1 in
  NoDup out /\ forall n, n ∈ out <-> n ∈ names \/ HasPrefix (n +:+ ".key") "K" = true /\ exists c, (n +:+ ".key", File c) ∈ entries.
Proof.
  revert names seen. induction entries as [|[name e] entries IH]; intros names seen Hnd Hs; cbn [foldl].
  { split; [done|]. set_solver. }
  unfold list_entry at 2 4. destruct e as [|c].
  { destruct (IH names seen Hnd Hs) as [H1 H2]. split; [done|]. intros n. rewrite H2. set_solver. }
  destruct (HasPrefix name "K" && HasSuffix name ".key") eqn:E.
  - apply andb_true_iff in E as [Hp [base ->]%HasSuffix_spec]. rewrite TrimSuffix_app. case_bool_decide as Hb.
    + destruct (IH names seen Hnd Hs) as [H1 H2]. split; [done|]. intros n. rewrite H2. setoid_rewrite elem_of_cons.
      split; [naive_solver|]. intros [?|(? & c' & [[= ->%string_app_inj_r ->]|?])]; [by left|left; by apply Hs|eauto].
    + destruct (IH (names ++ [base]) ({[base]} ∪ seen)) as [H1 H2].
      { apply NoDup_app. split_and!; [done| |apply NoDup_singleton]. intros x Hx ->%list_elem_of_singleton. by apply Hb, Hs. }
      { intros n. rewrite elem_of_app, Hs. set_solver. }
      split; [done|]. intros n. rewrite H2, elem_of_app, list_elem_of_singleton. setoid_rewrite elem_of_cons.
      split; [naive_solver|]. intros [?|(? & c' & [[= ->%string_app_inj_r ->]|?])]; eauto.
  - destruct (IH names seen Hnd Hs) as [H1 H2]. split; [done|]. intros n. rewrite H2. setoid_rewrite elem_of_cons.
    split; [naive_solver|]. intros [?|(Hp & c' & [[= <- ->]|?])]; [by left| |eauto].
    rewrite Hp in E. assert (HasSuffix (n +:+ ".key") ".key" = true) by (apply HasSuffix_spec; eauto). by rewrite H in E.
Qed.

Section search.
Context (io : KeystoreIO).

(** [n] is a key of the keystore: its .key file is there. *)
Definition has_key (ks : Keystore) (n : string) : Prop := exists c, ks ≫= (.!! (n +:+ ".key")) = Some (File c).

Lemma ReadDir_spec ks entries : ReadDir io ks = inl entries -> forall n e, (n, e) ∈ entries <-> ks ≫= (.!! n) = Some e.
Proof.
  destruct ks as [d|]; [|done]. cbn. destruct (readdir_fails io); [done|]. intros [= <-] n e.
  rewrite list_elem_of_omap. setoid_rewrite merge_sort_Permutation. setoid_rewrite list_elem_of_fmap. split.
  - intros (x & _ & H). destruct (d !! x) eqn:E; cbn in H; [|done]. by injection H as -> ->.
  - intros H. exists n. rewrite H. split; [|done]. exists (n, e). split; [done|]. by apply elem_of_map_to_list.
Qed.

Lemma ListKeys_spec ks names :
  ListKeysInDirectory io ks = inl names -> NoDup names /\ forall n, n ∈ names <-> HasPrefix (n +:+ ".key") "K" = true /\ has_key ks n.
Proof.
  unfold ListKeysInDirectory. destruct (ReadDir io ks) as [entries|] eqn:E; [|done]. intros [= <-].
  destruct (list_entries_spec entries [] ∅ (NoDup_nil_2) ltac:(set_solver)) as [Hnd H]. split; [done|]. intros n. rewrite H.
  unfold has_key. setoid_rewrite (ReadDir_spec ks entries E). set_solver.
Qed.

Lemma sort_by_algorithm_spec prefix names acc :
  foldl (sort_by_algorithm prefix) acc names =
  (acc.1 ++ filter (fun n => HasPrefix n (prefix +:+ "015+") = true) names,
   acc.2 ++ filter (fun n => HasPrefix n prefix = true /\ HasPrefix n (prefix +:+ "015+") = false) names).
Proof.
  revert acc. induction names as [|n names IH]; intros [ed other]; cbn [foldl].
  { by rewrite !filter_nil, !app_nil_r. }
  rewrite IH, !filter_cons. unfold sort_by_algorithm. cbn [fst snd].
  assert (Hp : HasPrefix n prefix = bool_decide (is_Some (CutPrefix n prefix))) by done.
  destruct (CutPrefix n prefix) as [suffix|] eqn:E.
  - apply CutPrefix_Some in E as ->. rewrite bool_decide_true in Hp by by eexists.
    assert (Hq : HasPrefix (prefix +:+ suffix) (prefix +:+ "015+") = HasPrefix suffix "015+").
    { apply eq_true_iff_eq. rewrite !HasPrefix_spec. split; intros [r Hr].
      - exists r. rewrite string_app_assoc in Hr. by apply string_app_length_inj in Hr as [_ ->].
      - exists r. by rewrite Hr, string_app_assoc. }
    rewrite Hq. destruct (HasPrefix suffix "015+"); cbn [fst snd].
    + rewrite decide_True, decide_False by naive_solver. by rewrite <- app_assoc.
    + rewrite decide_False, decide_True by naive_solver. by rewrite <- app_assoc.
  - rewrite bool_decide_false in Hp by apply is_Some_None. rewrite !decide_False; [done|rewrite Hp; naive_solver|].
    intros [r ->]%HasPrefix_spec. rewrite string_app_assoc in E.
    assert (CutPrefix (prefix +:+ ("015+" +:+ r)) prefix = Some ("015+" +:+ r)) by by apply CutPrefix_Some. congruence.
Qed.

Definition zone_prefix (zone : string) : string := "K" +:+ (if HasSuffix zone "." then zone else zone +:+ ".") +:+ "+".

Lemma prefix_key n zone : HasPrefix n (zone_prefix zone) = true -> HasPrefix (n +:+ ".key") "K" = true.
Proof. intros [r ->]%HasPrefix_spec. apply HasPrefix_spec. unfold zone_prefix. rewrite !string_app_assoc. eauto. Qed.

Lemma FindKeys_spec ks zone l :
  FindKeysByZone io ks zone = inl l ->
  exists ed other, l = ed ++ other /\ Sorted String.le ed /\ Sorted String.le other /\ NoDup l /\
    (forall n, n ∈ l <-> HasPrefix n (zone_prefix zone) = true /\ has_key ks n) /\
    (forall n, n ∈ ed <-> n ∈ l /\ HasPrefix n (zone_prefix zone +:+ "015+") = true).
Proof.
  unfold FindKeysByZone. cbn zeta. destruct (ListKeysInDirectory io ks) as [names|] eqn:E; [|done].
  fold (zone_prefix zone). rewrite sort_by_algorithm_spec. cbn [fst snd app]. intros [= <-].
  destruct (ListKeys_spec ks names E) as [Hnd Hn].
  assert (Hsub : forall n, HasPrefix n (zone_prefix zone +:+ "015+") = true -> HasPrefix n (zone_prefix zone) = true).
  { intros n [r ->]%HasPrefix_spec. apply HasPrefix_spec. rewrite string_app_assoc. eauto. }
  eexists _, _. split; [done|]. split_and!; try apply Sorted_merge_sort, _.
  - rewrite !merge_sort_Permutation. apply NoDup_app. split_and!; [by apply NoDup_filter| |by apply NoDup_filter].
    intros n [H1 _]%list_elem_of_filter [[_ H2] _]%list_elem_of_filter. congruence.
  - intros n. rewrite !merge_sort_Permutation, elem_of_app, !list_elem_of_filter, Hn. split; [naive_solver|].
    intros [Hp Hk]. pose proof (prefix_key n zone Hp). destruct (HasPrefix n (zone_prefix zone +:+ "015+")) eqn:?; naive_solver.
  - intros n. rewrite !merge_sort_Permutation, elem_of_app, !list_elem_of_filter. naive_solver.
Qed.
End search.

(** A search of the keystore finds exactly the zone's keys.  What [FindKeysByZone] returns
    has no name twice and lists the keys whose file names start with K, the zone, and a plus,
    Ed25519 keys first and each group sorted, so the first key is the same on every run; and a
    key file named for an owner is among them exactly when the owner is the zone itself, never
    for a longer name that begins with the zone's letters. *)
Theorem keys_of_zone (io : KeystoreIO) (ks : Keystore) (zone : string) (l : list string) :
  FindKeysByZone io ks zone = inl l ->
  let z := if HasSuffix zone "." then zone else zone +:+ "." in
  NoDup l /\ (forall n, n ∈ l <-> (exists suffix, n = "K" +:+ z +:+ "+" +:+ suffix) /\ has_key ks n) /\
  (exists ed other, l = ed ++ other /\ Sorted String.le ed /\ Sorted String.le other /\
     forall n, n ∈ ed <-> n ∈ l /\ exists suffix, n = "K" +:+ z +:+ "+015+" +:+ suffix) /\
  forall owner algorithm tag, no_char "+" owner = true -> no_char "+" zone = true ->
    has_key ks (key_file_name owner algorithm tag) -> (key_file_name owner algorithm tag ∈ l <-> owner = z).
Proof.
  intros (ed & other & Hl & Hs1 & Hs2 & Hnd & Hin & Hed)%FindKeys_spec. cbn zeta. unfold zone_prefix in *.
  set (z := if HasSuffix zone "." then zone else zone +:+ ".") in *. setoid_rewrite HasPrefix_spec in Hin. setoid_rewrite HasPrefix_spec in Hed.
  repeat setoid_rewrite string_app_assoc in Hin. repeat setoid_rewrite string_app_assoc in Hed.
  split; [done|]. split; [done|]. split; [eauto 10|]. intros owner algorithm tag Ho Hz Hk. rewrite Hin. unfold key_file_name in *.
  assert (Hz' : no_char "+" z = true) by (unfold z; destruct (HasSuffix zone "."); [done|by rewrite no_char_app, Hz]). split.
  - intros [[suffix H] _]. sapp. injection H as H. by apply split_field in H as [-> _].
  - intros ->. split; [|done]. eexists. reflexivity.
Qed.

(** ** A created key comes back *)

(** A name whose text form is itself: letters, digits, hyphens and underscores, in labels. *)
Definition plain_char (c : ascii) : bool :=
  let n := byte_of c in
  ((48 <=? n) && (n <=? 57)) || ((65 <=? n) && (n <=? 90)) || ((97 <=? n) && (n <=? 122)) || (n =? 45) || (n =? 46) || (n =? 95).

(** The text formats read back what was printed of a generated key, and the two halves of a
    generated key belong together. *)
Class KeyLibLaws {C : Crypto} {CL : CryptoLaws C} (L : DnsLib) (K : KeyLib) : Prop := {
  read_generated : forall hdr data bits material priv,
    Generate (mkKEY hdr data) bits = Ok (material, priv) -> string_forallb plain_char (Name hdr) = true -> HasSuffix (Name hdr) "." = true ->
    let k := mkKEY hdr (mkKeyData (Flags data) (Protocol data) (Algorithm data) material) in
    Read (RR_String (KEY_RR k) +:+ String "010" "") = Ok (KEY_RR k) /\ NewPrivate k (PrivateKeyString k priv) = Ok priv;
  generate_pair : forall hdr data bits material priv,
    Generate (mkKEY hdr data) bits = Ok (material, priv) -> Algorithm data = ED25519 \/ is_Some (ecdsaCurve (Algorithm data)) ->
    key_pair (mkKeyData (Flags data) (Protocol data) (Algorithm data) material) priv }.

Section created.
Context {C : Crypto} {CL : CryptoLaws C} {L : DnsLib} {K : KeyLib} {KL : KeyLibLaws L K}.

Lemma WriteFile_ok io name content ks ks' :
  WriteFile io name content ks = (ks', Ok tt) -> exists d, ks = Some d /\ ks' = Some (<[name := File content]> d).
Proof. unfold WriteFile. intros H. repeat case_match; simplify_eq; eauto. Qed.

Lemma SaveToFile_ok io lk ks ks' :
  SaveToFile io lk ks = (ks', Ok tt) -> exists d, ks = Some d /\
    ks' = Some (<[lk_Name lk +:+ ".private" := File (PrivateKeyString (lk_PublicKey lk) (lk_PrivateKey lk))]>
                 (<[lk_Name lk +:+ ".key" := File (RR_String (KEY_RR (lk_PublicKey lk)) +:+ String "010" "")]> d)).
Proof.
  unfold SaveToFile. destruct (WriteFile io (_ +:+ ".key") _ ks) as [ks1 [[]|]] eqn:E1; [|done].
  destruct (WriteFile io (_ +:+ ".private") _ ks1) as [ks2 [[]|]] eqn:E2; [|done]. intros [= ->].
  apply WriteFile_ok in E1 as (d & -> & ->). apply WriteFile_ok in E2 as (d' & [= <-] & ->). eauto.
Qed.

Lemma key_private_ne n n' : n +:+ ".key" <> n' +:+ ".private".
Proof.
  change ".key" with (".ke" +:+ "y"). change ".private" with (".privat" +:+ "e"). rewrite <- !string_app_assoc.
  by intros [_ H]%string_app_length_inj_r.
Qed.

Lemma NoDup_only {A} (x : A) l : NoDup l -> (forall y, y ∈ l <-> y = x) -> l = [x].
Proof.
  intros Hnd H. destruct l as [|a [|b l]]; [exfalso; by apply (not_elem_of_nil x), H|f_equal; apply H; by left|exfalso].
  assert (a = x) as -> by (apply H; by left). assert (b = x) as -> by (apply H; right; by left).
  apply NoDup_cons in Hnd as [Hnd _]. apply Hnd. by left.
Qed.

(** The only way to a created key. *)
Lemma created_parts io dir owner alg ks ks' k :
  ResolveOrCreateKey io dir owner alg ks = (ks', Ok (k, true)) ->
  dir <> "" /\ alg <> 0 /\ (ks = None \/ FindKeysByZone io ks owner = inl []) /\
  GenerateKey owner alg 0 (if alg =? ECDSAP384SHA384 then 384 else 256) = Ok k /\
  ks' = Some (<[lk_Name k +:+ ".private" := File (PrivateKeyString (lk_PublicKey k) (lk_PrivateKey k))]>
               (<[lk_Name k +:+ ".key" := File (RR_String (KEY_RR (lk_PublicKey k)) +:+ String "010" "")]> (default ∅ ks))).
Proof.
  unfold ResolveOrCreateKey. case_bool_decide as Hd; [done|].
  assert (Hnone : FindKeysByZone io ks owner = inr NotExist -> ks = None).
  { unfold FindKeysByZone, ListKeysInDirectory, ReadDir. destruct ks; [|done]. destruct (readdir_fails io); [done|]. cbn zeta.
    by destruct (foldl (sort_by_algorithm _) _ _). }
  destruct (FindKeysByZone io ks owner) as [[|first rest]|[]] eqn:E; [|by destruct (LoadKeyFromFile _ _ _)| |done].
  all: destruct (Z.eqb_spec alg 0); [done|]; destruct (GenerateKey _ _ _ _) as [lk|] eqn:Eg; [|done].
  all: destruct (MkdirAll io ks) as [ks1 [[]|]] eqn:Em; [|done]; destruct (SaveToFile io lk ks1) as [ks2 [[]|]] eqn:Es; [|done].
  all: intros [= -> ->]; apply SaveToFile_ok in Es as (d & -> & ->).
  all: assert (d = default ∅ ks) as -> by (unfold MkdirAll in Em; destruct ks; cbn in *; [congruence|destruct (mkdir_fails io); congruence]).
  all: split_and!; try done; first [by right|left; by apply Hnone].
Qed.

Lemma Load_created io owner alg bits k d :
  GenerateKey owner alg 0 bits = Ok k -> string_forallb plain_char owner = true -> HasSuffix owner "." = true ->
  read_fails io (lk_Name k +:+ ".key") = false -> read_fails io (lk_Name k +:+ ".private") = false ->
  LoadKeyFromFile io (Some (<[lk_Name k +:+ ".private" := File (PrivateKeyString (lk_PublicKey k) (lk_PrivateKey k))]>
    (<[lk_Name k +:+ ".key" := File (RR_String (KEY_RR (lk_PublicKey k)) +:+ String "010" "")]> d))) (lk_Name k) = Ok k.
Proof using KL.
  unfold GenerateKey. cbn zeta. destruct (Generate _ _) as [[material priv]|] eqn:E; [|done]. intros [= <-] Hp Ho Hr1 Hr2. cbn [lk_Name lk_PublicKey lk_PrivateKey key_Hdr] in *.
  destruct (read_generated _ _ _ _ _ E Hp Ho) as [Hread Hpriv]. cbn [Flags Protocol Algorithm] in *.
  unfold LoadKeyFromFile, ReadFile. rewrite Hr1, Hr2. cbn [mbind option_bind].
  rewrite lookup_insert_ne, lookup_insert_eq by (intros H; symmetry in H; by apply key_private_ne in H). rewrite Hread. cbn [as_KEY KEY_RR RD Hdr key_Hdr key_Data].
  rewrite lookup_insert_eq, Hpriv. done.
Qed.
End created.

(** A key created for an owner without a final dot is not found again: its file is named
    K<owner>+..., and the search is for K<owner>.+, so that every later call is as if there
    were none. *)
Theorem undotted_owner_not_found {C : Crypto} {L : DnsLib} {K : KeyLib} (io io' : KeystoreIO) (dir owner : string) (alg alg' : Z)
    (ks ks' : Keystore) (k : LoadedKey) :
  HasSuffix owner "." = false -> ResolveOrCreateKey io dir owner alg ks = (ks', Ok (k, true)) -> readdir_fails io' = false ->
  FindKeysByZone io' ks' owner = inl [] /\ forall ks'' k', ResolveOrCreateKey io' dir owner alg' ks' <> (ks'', Ok (k', false)).
Proof.
  intros Hdot H Hr. destruct (created_parts _ _ _ _ _ _ _ H) as (Hdir & _ & Hfresh & Hgen & ->). set (ks' := Some _).
  assert (Hname : exists suffix, lk_Name k = "K" +:+ owner +:+ "+" +:+ suffix).
  { unfold GenerateKey in Hgen. cbn zeta in Hgen. destruct (Generate _ _) as [[material priv]|]; [|done]. injection Hgen as <-. eexists. reflexivity. }
  assert (Hnone : FindKeysByZone io' ks' owner = inl []).
  { destruct (FindKeysByZone io' ks' owner) as [l|] eqn:Ef.
    2:{ exfalso. revert Ef. unfold FindKeysByZone, ListKeysInDirectory, ReadDir, ks'. rewrite Hr. cbn zeta. by destruct (foldl (sort_by_algorithm _) _ _). }
    f_equal. destruct (FindKeys_spec _ _ _ _ Ef) as (_ & _ & _ & _ & _ & _ & Hin & _). destruct l as [|n l]; [done|exfalso].
    destruct (proj1 (Hin n) ltac:(by left)) as [Hp [c Hc]]. unfold zone_prefix in *. rewrite Hdot in *.
    unfold ks' in Hc. cbn [mbind option_bind] in Hc.
    rewrite lookup_insert_ne in Hc by (intros E; symmetry in E; by apply key_private_ne in E).
    apply lookup_insert_Some in Hc as [[E _]|[_ Hc]].
    - apply string_app_inj_r in E as <-. destruct Hname as [suffix Hn]. apply HasPrefix_spec in Hp as [r Hp]. rewrite Hn in Hp. injection Hp as Hp.
      rewrite !string_app_nil_l, !string_app_assoc in Hp. apply string_app_length_inj in Hp as [_ Hp]; [discriminate Hp|done].
    - destruct Hfresh as [->|Hf]; [cbn in Hc; by rewrite lookup_empty in Hc|]. destruct (FindKeys_spec _ _ _ _ Hf) as (_ & _ & _ & _ & _ & _ & Hin' & _).
      unfold zone_prefix in Hin'. rewrite Hdot in Hin'. apply (not_elem_of_nil n), Hin'. split; [done|]. exists c. destruct ks as [d|]; [done|].
      cbn in Hc. by rewrite lookup_empty in Hc. }
  split; [done|]. intros ks'' k'. unfold ResolveOrCreateKey. rewrite (bool_decide_eq_false_2 _ Hdir), Hnone. intros HH. by repeat case_match; simplify_eq.
Qed.

(** [C21] A created key comes back.  When [ResolveOrCreateKey] reports that it created a key,
    none was there for the owner, the key is the owner's, of the algorithm asked for and with
    flags 0, and no other file changed; every later call, whatever algorithm it would create,
    finds exactly this key, private half included, and changes nothing; and if the algorithm is
    Ed25519 or ECDSA, what is signed with it verifies.  The owner is a fully-qualified name of
    letters, digits, hyphens and underscores. *)
Theorem created_key_comes_back {C : Crypto} {CL : CryptoLaws C} {L : DnsLib} {K : KeyLib} {KL : KeyLibLaws L K} {S0 : SIG0Lib} {SL : SIG0LibLaws S0}
    (io : KeystoreIO) (dir owner : string) (alg : Z) (ks ks' : Keystore) (k : LoadedKey) :
  string_forallb plain_char owner = true -> HasSuffix owner "." = true ->
  ResolveOrCreateKey io dir owner alg ks = (ks', Ok (k, true)) ->
  (forall n, has_key ks n -> HasPrefix n ("K" +:+ owner +:+ "+") = false) /\
  Name (key_Hdr (lk_PublicKey k)) = owner /\ Algorithm (key_Data (lk_PublicKey k)) = alg /\ Flags (key_Data (lk_PublicKey k)) = 0 /\
  lk_Name k = KeyFileName k /\
  (forall n, n <> lk_Name k +:+ ".key" -> n <> lk_Name k +:+ ".private" -> ks' ≫= (.!! n) = ks ≫= (.!! n)) /\
  (forall io' alg', readdir_fails io' = false -> (forall n, read_fails io' n = false) ->
     ResolveOrCreateKey io' dir owner alg' ks' = (ks', Ok (k, false))) /\
  (alg = ED25519 \/ is_Some (ecdsaCurve alg) -> forall now now' m m',
     300 <= now -> now + 300 < 2 ^ 32 -> now - 300 <= now' <= now + 300 ->
     sig0_SignMessage now m (lk_PublicKey k) (lk_PrivateKey k) = Ok m' -> sig0_VerifySignature now' m' (lk_PublicKey k) = Ok tt).
Proof.
  intros Hplain Hfq H. destruct (created_parts _ _ _ _ _ _ _ H) as (Hdir & Halg & Hfresh & Hgen & ->).
  assert (Hpre : zone_prefix owner = "K" +:+ owner +:+ "+") by (unfold zone_prefix; by rewrite Hfq).
  assert (Hno : forall n, has_key ks n -> HasPrefix n ("K" +:+ owner +:+ "+") = false).
  { intros n Hk. destruct Hfresh as [->|Hf]; [by destruct Hk|]. destruct (FindKeys_spec _ _ _ _ Hf) as (_ & _ & _ & _ & _ & _ & Hin & _).
    rewrite Hpre in Hin. apply not_true_is_false. intros Hn. by apply (not_elem_of_nil n), Hin. }
  pose proof Hgen as Hk. unfold GenerateKey in Hk. cbn zeta in Hk. destruct (Generate _ _) as [[material priv]|] eqn:Eg; [|done]. injection Hk as <-.
  set (k := mkLoadedKey _ _ _) in *. cbn [lk_PublicKey key_Hdr key_Data Name Algorithm Flags]. split_and!; try done.
  - intros n H1 H2. cbn [mbind option_bind]. rewrite !lookup_insert_ne by done. by destruct ks.
  - intros io' alg' Hr Hread. set (ks' := Some _). unfold ResolveOrCreateKey. rewrite (bool_decide_eq_false_2 _ Hdir).
    assert (Hname : lk_Name k = "K" +:+ owner +:+ "+" +:+ (fmt_pad 3 alg +:+ "+" +:+ fmt_d (KeyTag (mkKeyData 0 3 alg material)))) by done.
    destruct (FindKeysByZone io' ks' owner) as [l|] eqn:Ef.
    2:{ exfalso. revert Ef. unfold FindKeysByZone, ListKeysInDirectory, ReadDir, ks'. rewrite Hr. cbn zeta. by destruct (foldl (sort_by_algorithm _) _ _). }
    destruct (FindKeys_spec _ _ _ _ Ef) as (_ & _ & _ & _ & _ & Hnd & Hin & _). rewrite Hpre in Hin.
    assert (Hl : forall n, n ∈ l <-> n = lk_Name k).
    { intros n. rewrite Hin. split.
      - intros [Hp [c Hc]]. destruct (decide (n = lk_Name k)) as [|Hne]; [done|]. exfalso. rewrite (Hno n) in Hp; [done|].
        unfold ks' in Hc. cbn [mbind option_bind] in Hc. rewrite !lookup_insert_ne in Hc.
        + exists c. destruct ks; [exact Hc|]. cbn in Hc. by rewrite lookup_empty in Hc.
        + intros E. by apply string_app_inj_r in E.
        + intros E. symmetry in E. by apply key_private_ne in E.
      - intros ->. split; [rewrite HasPrefix_spec, Hname; eexists; by rewrite !string_app_assoc|]. eexists. unfold ks'. cbn [mbind option_bind].
        rewrite lookup_insert_ne by (intros E; symmetry in E; by apply key_private_ne in E). by rewrite lookup_insert_eq. }
    assert (l = [lk_Name k]) as -> by by apply NoDup_only. unfold ks'. erewrite Load_created; try done.
  - intros Ha now now' m m' ????. eapply (signed_verifies now now' m m'); try done. cbn. by apply (generate_pair _ _ _ _ _ Eg).
Qed.

(** ** Concrete keystores *)

(** A library that generates one key, for host.example.org. *)
Module DemoKeys.
Definition blank : KEY := mkKEY (mkHeader "host.example.org." ClassINET 0) (mkKeyData 0 3 15 "").
Definition generated : KEY := mkKEY (key_Hdr blank) (mkKeyData 0 3 15 (b64_encode (replicate 32 7))).
Definition is_blank (k : KEY) : bool :=
  bool_decide (Name (key_Hdr k) = "host.example.org.") && (Class (key_Hdr k) =? ClassINET) && (TTL (key_Hdr k) =? 0)
  && (Flags (key_Data k) =? 0) && (Protocol (key_Data k) =? 3) && (Algorithm (key_Data k) =? 15).

Definition lib : @KeyLib DemoSig.crypto := {|
  Read s := if bool_decide (s = RR_String (DnsLib := Demo.lib) (KEY_RR generated) +:+ String "010" "") then Ok (KEY_RR generated) else Err "not a KEY";
  NewPrivate k s := if bool_decide (s = "seven") then Ok DemoSig.priv else Err "not a private key";
  PrivateKeyString k p := "seven";
  Generate k bits := if is_blank k then Ok (b64_encode (replicate 32 7), DemoSig.priv) else Err "not implemented" |}.

Lemma blank_fields k : is_blank k = true -> exists s, k = mkKEY (key_Hdr blank) (mkKeyData 0 3 15 s).
Proof.
  unfold is_blank. rewrite !andb_true_iff, bool_decide_eq_true, !Z.eqb_eq. destruct k as [[n c t] [f p a s]]. cbn.
  intros [[[[[-> ->] ->] ->] ->] ->]. by exists s.
Qed.

Lemma keylib_laws : @KeyLibLaws DemoSig.crypto DemoSig.laws Demo.lib lib.
Proof.
  split; intros hdr data bits material priv; cbn [Generate lib].
  - destruct (is_blank _) eqn:E; [|done]. intros [= <- <-] _ _. apply blank_fields in E as (s & [= -> ->]). cbn [Flags Protocol Algorithm].
    change (mkKEY (mkHeader _ _ _) _) with generated. cbn [Read NewPrivate lib]. by rewrite !bool_decide_true.
  - destruct (is_blank _) eqn:E; [|done]. intros [= <- <-] _. apply blank_fields in E as (s & [= -> ->]). exact DemoSig.pair.
Qed.

Definition create (io : KeystoreIO) (ks : Keystore) : Keystore * result (LoadedKey * bool) :=
  ResolveOrCreateKey (L := Demo.lib) (K := lib) io "keys" "host.example.org." 15 ks.

(** The private half cannot be written. *)
Definition disk_full : KeystoreIO := mkIO false (fun _ => false) false (fun n => if HasSuffix n ".private" then Some None else None).

(** A key of example.org and one of a longer name that begins with the same letters. *)
Definition store : Keystore :=
  Some {[ "Kexample.org.+015+7.key" := File "k"; "Kexample.org.+013+9.key" := File "k"; "Kexample.org.evil.com.+015+7.key" := File "k" ]}.
End DemoKeys.

Lemma keys_of_zone_witness :
  FindKeysByZone io_ok DemoKeys.store "example.org" = inl [key_file_name "example.org." 15 7; key_file_name "example.org." 13 9] /\
  key_file_name "example.org.evil.com." 15 7 ∉ [key_file_name "example.org." 15 7; key_file_name "example.org." 13 9].
Proof.
  assert (H : FindKeysByZone io_ok DemoKeys.store "example.org" = inl [key_file_name "example.org." 15 7; key_file_name "example.org." 13 9])
    by (vm_compute; reflexivity).
  split; [exact H|]. intros Hin.
  apply (proj2 (proj2 (proj2 (keys_of_zone io_ok DemoKeys.store "example.org" _ H)))) in Hin;
    [vm_compute in Hin; discriminate|reflexivity|reflexivity|exists "k"; vm_compute; reflexivity].
Defined.

Lemma created_key_comes_back_witness :
  exists ks k, DemoKeys.create io_ok None = (ks, Ok (k, true)) /\ DemoKeys.create io_ok ks = (ks, Ok (k, false)).
Proof.
  assert (H : exists ks k, DemoKeys.create io_ok None = (ks, Ok (k, true))) by (vm_compute; eauto).
  destruct H as (ks & k & H). exists ks, k. split; [exact H|].
  exact (proj1 (proj2 (proj2 (proj2 (proj2 (proj2 (proj2 (@created_key_comes_back DemoSig.crypto DemoSig.laws Demo.lib DemoKeys.lib DemoKeys.keylib_laws DemoSig.lib DemoSig.lib_laws
    io_ok "keys" "host.example.org." 15 None ks k eq_refl eq_refl H))))))) io_ok 15 eq_refl (fun _ => eq_refl)).
Defined.

(** The public half is written first: when the private half then cannot be written, the owner has
    a key that does not load, and no later call creates another. *)
Example half_saved_key_blocks :
  let ks := (DemoKeys.create DemoKeys.disk_full None).1 in
  is_ok (DemoKeys.create DemoKeys.disk_full None).2 = false /\ DemoKeys.create io_ok ks = (ks, Err "keyrec: load existing key").
Proof. vm_compute. split; reflexivity. Qed.
