(* ===== verification/GoStd.v ===== *)
(** * Text functions of Go's standard library that the configuration uses

    strings.ToLower and ToUpper as far as the code looks at their results, net.SplitHostPort,
    time.ParseDuration with its float64 fractions, strconv.ParseUint and ParseBool. *)

From Stdlib Require Import Ascii String ZArith Lia.
From S2P Require Import Prelude GoQuote SrpTiming.

Local Open Scope Z_scope.

(** ** Case *)

(** [strings.ToLower] and [ToUpper] on ASCII letters and on the four runes that map into ASCII:
    U+0130 to i, U+212A to k, U+0131 to I and U+017F to S.  Every other rune stays outside ASCII
    and is kept here as it is: the results are only compared with ASCII texts. *)
Fixpoint ToLower (s : string) : string :=
  match s with
  | EmptyString => EmptyString
  | String c s1 =>
      let n := byte_of c in
      match s1 with
      | String d s2 =>
          if (n =? 196) && (byte_of d =? 176) then String "i" (ToLower s2)
          else match s2 with
          | String e s3 => if (n =? 226) && (byte_of d =? 132) && (byte_of e =? 170) then String "k" (ToLower s3)
                           else String (if (65 <=? n) && (n <=? 90) then chr (n + 32) else c) (ToLower s1)
          | _ => String (if (65 <=? n) && (n <=? 90) then chr (n + 32) else c) (ToLower s1)
          end
      | _ => String (if (65 <=? n) && (n <=? 90) then chr (n + 32) else c) (ToLower s1)
      end
  end.

Fixpoint ToUpper (s : string) : string :=
  match s with
  | EmptyString => EmptyString
  | String c s1 =>
      let n := byte_of c in
      match s1 with
      | String d s2 =>
          if (n =? 196) && (byte_of d =? 177) then String "I" (ToUpper s2)
          else if (n =? 197) && (byte_of d =? 191) then String "S" (ToUpper s2)
          else String (if (97 <=? n) && (n <=? 122) then chr (n - 32) else c) (ToUpper s1)
      | _ => String (if (97 <=? n) && (n <=? 122) then chr (n - 32) else c) (ToUpper s1)
      end
  end.

(** ** net.SplitHostPort *)

(** [strings.IndexByte] and [LastIndexByte]. *)
Fixpoint IndexByte (c : ascii) (s : string) : option nat :=
  match s with
  | EmptyString => None
  | String x s => if bool_decide (x = c) then Some 0%nat else S <$> IndexByte c s
  end.

Fixpoint LastIndexByte (c : ascii) (s : string) : option nat :=
  match s with
  | EmptyString => None
  | String x s => match LastIndexByte c s with
                  | Some i => Some (S i)
                  | None => if bool_decide (x = c) then Some 0%nat else None
                  end
  end.

Definition SplitHostPort (hostport : string) : result (string * string) :=
  match LastIndexByte ":" hostport with
  | None => Err "missing port in address"
  | Some i =>
      let rest host j k :=
        if bool_decide (is_Some (IndexByte "[" (string_drop j hostport))) then Err "unexpected '[' in address"
        else if bool_decide (is_Some (IndexByte "]" (string_drop k hostport))) then Err "unexpected ']' in address"
        else Ok (host, string_drop (i + 1) hostport) in
      if bool_decide (IndexByte "[" hostport = Some 0%nat) then
        match IndexByte "]" hostport with
        | None => Err "missing ']' in address"
        | Some e =>
            if (e + 1 =? String.length hostport)%nat then Err "missing port in address"
            else if (e + 1 =? i)%nat then rest (string_drop 1 (string_take e hostport)) 1%nat (e + 1)%nat
            else if bool_decide (IndexByte ":" (string_drop (e + 1) hostport) = Some 0%nat) then Err "too many colons in address"
            else Err "missing port in address"
        end
      else
        let host := string_take i hostport in
        if bool_decide (is_Some (IndexByte ":" host)) then Err "too many colons in address" else rest host 0%nat 0%nat
  end.

(** ** time.ParseDuration *)

Definition digit_value (c : ascii) : Z := byte_of c - 48.

(** [leadingInt]; [None] is its overflow error. *)
Fixpoint leadingInt (x : Z) (s : string) : option (Z * string) :=
  match s with
  | EmptyString => Some (x, s)
  | String c s' =>
      if is_digit c then
        if 2 ^ 63 / 10 <? x then None
        else let x := x * 10 + digit_value c in if 2 ^ 63 <? x then None else leadingInt x s'
      else Some (x, s)
  end.

(** [leadingFraction]: the digits as an integer and the power of ten they are divided by, at most
    10^19 and so exact in float64. *)
Fixpoint leadingFraction (x scale : Z) (overflow : bool) (s : string) : Z * Z * string :=
  match s with
  | EmptyString => (x, scale, s)
  | String c s' =>
      if is_digit c then
        if overflow then leadingFraction x scale true s'
        else if (2 ^ 63 - 1) / 10 <? x then leadingFraction x scale true s'
        else let y := x * 10 + digit_value c in
             if 2 ^ 63 <? y then leadingFraction x scale true s' else leadingFraction y (scale * 10) false s'
      else (x, scale, s)
  end.

(** The unit: the text up to a point or a digit. *)
Fixpoint take_unit (s : string) : string * string :=
  match s with
  | EmptyString => ("", s)
  | String c s' => if bool_decide (c = "."%char) || is_digit c then ("", s)
                   else let '(u, rest) := take_unit s' in (String c u, rest)
  end.

Definition unitMap (u : string) : option Z :=
  if bool_decide (u = "ns") then Some 1
  else if bool_decide (u = "us") || bool_decide (u = String "194" (String "181" "s")) || bool_decide (u = String "206" (String "188" "s")) then Some 1000
  else if bool_decide (u = "ms") then Some 1000000
  else if bool_decide (u = "s") then Some Second
  else if bool_decide (u = "m") then Some (60 * Second)
  else if bool_decide (u = "h") then Some (3600 * Second)
  else None.

(** [float64(a) / float64(b)] for positive integers below 2^53 or exact powers: the quotient with
    enough bits and a sticky one, rounded. *)
Definition fl_div (a b : Z) : float64 :=
  let s := 55 + Z.log2 b in
  let q := Z.shiftl a s / b in
  round53 (2 * q + (if Z.shiftl a s mod b =? 0 then 0 else 1)) (- s - 1).

(** [uint64(float64(f) * (float64(unit) / scale))]. *)
Definition fraction (f unit scale : Z) : Z := fl_trunc (fl_mul (fl_of_Z f) (fl_div unit scale)).

(** The loop: [d] so far and the text left.  The fuel is the length of the text, of which each
    round takes at least one byte; [None] is fuel that ran out. *)
Fixpoint parse_duration (fuel : nat) (d : Z) (s : string) : option (result Z) :=
  match s with
  | EmptyString => Some (Ok d)
  | String c _ =>
      if negb (bool_decide (c = "."%char) || is_digit c) then Some (Err "invalid duration")
      else match fuel with
      | O => None
      | S fuel =>
          match leadingInt 0 s with
          | None => Some (Err "invalid duration")
          | Some (v, s1) =>
              let pre := negb (String.length s1 =? String.length s)%nat in
              let '(f, scale, s2, post) :=
                match s1 with
                | String c s1' => if bool_decide (c = "."%char)
                                  then let '(f, scale, s2) := leadingFraction 0 1 false s1' in
                                       (f, scale, s2, negb (String.length s2 =? String.length s1')%nat)
                                  else (0, 1, s1, false)
                | EmptyString => (0, 1, s1, false)
                end in
              if negb pre && negb post then Some (Err "invalid duration")
              else
                let '(u, s3) := take_unit s2 in
                if bool_decide (u = "") then Some (Err "missing unit in duration")
                else match unitMap u with
                | None => Some (Err "unknown unit in duration")
                | Some unit =>
                    if 2 ^ 63 / unit <? v then Some (Err "invalid duration")
                    else
                      let v := v * unit in
                      let v := if 0 <? f then v + fraction f unit scale else v in
                      if (0 <? f) && (2 ^ 63 <? v) then Some (Err "invalid duration")
                      else
                        let d := (d + v) mod 2 ^ 64 in
                        if 2 ^ 63 <? d then Some (Err "invalid duration") else parse_duration fuel d s3
                end
          end
      end
  end.

Definition ParseDuration (s : string) : result Z :=
  let '(neg, s) := match s with
                   | String c s' => if bool_decide (c = "-"%char) then (true, s') else if bool_decide (c = "+"%char) then (false, s') else (false, s)
                   | EmptyString => (false, s)
                   end in
  if bool_decide (s = "0") then Ok 0
  else if bool_decide (s = "") then Err "invalid duration"
  else match parse_duration (String.length s) 0 s with
  | None => Err "out of fuel"
  | Some (Err e) => Err e
  | Some (Ok d) => if neg then Ok (wrap64 (- d)) else if 2 ^ 63 - 1 <? d then Err "invalid duration" else Ok d
  end.

(** ** strconv *)

(** [strconv.ParseUint(s, 10, 32)]. *)
Fixpoint parse_digits (x : Z) (s : string) : option Z :=
  match s with
  | EmptyString => Some x
  | String c s => if is_digit c then let x := x * 10 + digit_value c in if 2 ^ 32 - 1 <? x then None else parse_digits x s else None
  end.

Definition ParseUint (s : string) : option Z := if bool_decide (s = "") then None else parse_digits 0 s.

Definition ParseBool (s : string) : option bool :=
  if bool_decide (s ∈ ["1"; "t"; "T"; "TRUE"; "true"; "True"]) then Some true
  else if bool_decide (s ∈ ["0"; "f"; "F"; "FALSE"; "false"; "False"]) then Some false
  else None.

(** ** Termination and range *)

Lemma leadingInt_shorter s x v s' : leadingInt x s = Some (v, s') -> (String.length s' <= String.length s)%nat.
Proof.
  revert x. induction s as [|c s IH]; intros x; cbn [leadingInt]; [by intros [= _ <-]|]. cbn zeta.
  repeat case_match; try done; [intros ?%IH; simpl; lia|by intros [= _ <-]].
Qed.

Lemma leadingFraction_shorter s x scale b : (String.length (leadingFraction x scale b s).2 <= String.length s)%nat.
Proof.
  revert x scale b. induction s as [|c s IH]; intros x scale b; cbn [leadingFraction]; [done|]. cbn zeta.
  repeat case_match; cbn [snd]; try done; (etrans; [apply IH|simpl; lia]).
Qed.

Lemma take_unit_shorter s : (String.length (take_unit s).1 + String.length (take_unit s).2 = String.length s)%nat.
Proof.
  induction s as [|c s IH]; cbn [take_unit]; [done|]. destruct (_ || _); [done|]. destruct (take_unit s) as [u rest]. cbn in *. lia.
Qed.

(** The loop ends within its fuel, with a sum that fits. *)
Lemma parse_duration_total fuel d s :
  (String.length s <= fuel)%nat -> 0 <= d <= 2 ^ 63 ->
  exists r, parse_duration fuel d s = Some r /\ forall d', r = Ok d' -> 0 <= d' <= 2 ^ 63.
Proof.
  revert d s. induction fuel as [|fuel IH]; intros d s Hf Hd; destruct s as [|c s0]; cbn [parse_duration].
  1, 3: eexists; split; [reflexivity|]; by intros ? [= <-].
  { simpl in Hf. lia. }
  set (s := String c s0) in *. destruct (negb _); [eexists; split; [reflexivity|done]|].
  destruct (leadingInt 0 s) as [[v s1]|] eqn:E1; [|eexists; split; [reflexivity|done]]. apply leadingInt_shorter in E1.
  cbn zeta. set (next := match s1 with EmptyString => _ | String _ _ => _ end).
  assert (Hn : (String.length next.1.2 <= String.length s1)%nat).
  { unfold next. destruct s1 as [|c1 s1']; [done|]. case_bool_decide; [|done].
    pose proof (leadingFraction_shorter s1' 0 1 false). destruct (leadingFraction 0 1 false s1') as [[f scale] s2]. cbn in *. lia. }
  destruct next as [[[f scale] s2] post]. cbn [fst snd] in Hn. destruct (_ && _); [eexists; split; [reflexivity|done]|].
  pose proof (take_unit_shorter s2) as Hu. destruct (take_unit s2) as [u s3]. cbn [fst snd] in Hu.
  case_bool_decide as Hne; [eexists; split; [reflexivity|done]|]. assert (0 < String.length u)%nat by (destruct u; [done|simpl; lia]).
  destruct (unitMap u) as [unit|]; [|eexists; split; [reflexivity|done]]. destruct (2 ^ 63 / unit <? v); [eexists; split; [reflexivity|done]|].
  set (v' := if 0 <? f then _ else _). destruct ((0 <? f) && (2 ^ 63 <? v')); [eexists; split; [reflexivity|done]|].
  destruct (Z.ltb_spec (2 ^ 63) ((d + v') mod 2 ^ 64)); [eexists; split; [reflexivity|done]|].
  apply IH; [lia|]. pose proof (Z.mod_pos_bound (d + v') (2 ^ 64)). lia.
Qed.

Lemma ParseDuration_range s d : ParseDuration s = Ok d -> - 2 ^ 63 <= d < 2 ^ 63.
Proof.
  unfold ParseDuration. set (signed := match s with EmptyString => _ | String _ _ => _ end). destruct signed as [neg t].
  case_bool_decide; [intros [= <-]; lia|]. case_bool_decide; [done|].
  destruct (parse_duration_total (String.length t) 0 t) as (r & -> & Hr); [done|lia|]. destruct r as [d'|]; [|done].
  specialize (Hr d' eq_refl). destruct neg; [|destruct (Z.ltb_spec (2 ^ 63 - 1) d'); [done|]; intros [= <-]; lia].
  intros [= <-]. unfold wrap64. pose proof (Z.mod_pos_bound (- d' + 2 ^ 63) (2 ^ 64) ltac:(lia)). lia.
Qed.

Example durations :
  ParseDuration "30s" = Ok (30 * Second) /\ ParseDuration "1h15m30.918273645s" = Ok 4530918273645 /\ ParseDuration "-1.5h" = Ok (- 5400 * Second) /\
  ParseDuration "0" = Ok 0 /\ ParseDuration ".1us" = Ok 100 /\ ParseDuration "0.3333333333333333333h" = Ok 1200000000000 /\
  is_ok (ParseDuration "30") = false /\ is_ok (ParseDuration "9223372036854775808ns") = false.
Proof. vm_compute. split_and!; reflexivity. Qed.

Lemma ParseUint_range s n : ParseUint s = Some n -> uint32_ok n.
Proof.
  unfold ParseUint. case_bool_decide; [done|].
  assert (G : forall s x, uint32_ok x -> parse_digits x s = Some n -> uint32_ok n).
  { clear. induction s as [|c s IH]; intros x Hx; cbn [parse_digits]; [by intros [= <-]|]. destruct (is_digit c) eqn:Ed; [|done]. cbn zeta.
    destruct (Z.ltb_spec (2 ^ 32 - 1) (x * 10 + digit_value c)); [done|]. apply IH. unfold uint32_ok, digit_value, is_digit in *.
    apply andb_true_iff in Ed as [E1%N.leb_le _]. unfold byte_of in *. lia. }
  apply G. done.
Qed.
