(* ===== verification/HandlerSetup.v ===== *)
(** * Handler setup: from configuration to handlers

    handlers/opcode5_setup.go, handlers/srp_setup.go and the readers of handlers/handlers.go:
    which lease store, upstream server, signing key and options a handler gets from its
    configuration section, and which sections are refused.  The reconciliation ticker that
    Setup starts is modelled by its ticks (Expiry, SrpHandler). *)

From Stdlib Require Import Ascii String ZArith Lia.
From S2P Require Import Prelude DnsName DnsData NodeIdent LeaseStore LeaseTree LeaseInv LeaseSpec LeaseOption LeasePolicy UpdateCore HandlerBase Expiry.
From S2P Require Import UpdateHandler UpdateFootprint UpdateTheorems DnsSd SrpClassify SrpValidate SrpHandler SrpEffects SrpTheorems.
From S2P Require Import GoQuote AtomicFile LeaseSnapshot SrpTiming Sig0Signer KeyFiles GoStd.

Local Open Scope Z_scope.

(** ** What Setup finds outside *)

(** The keystores by path, what their system calls do, the library's table of record types, and
    the faults of the snapshot file; [mkdir_fails] and [stat_fails] as in [NewFileLeaseStore]. *)
Record SetupEnv := mkSetupEnv {
  se_keystore : string -> Keystore;
  se_io : KeystoreIO;
  se_StringToType : string -> option Z;
  se_mkdir_fails : bool;
  se_stat_fails : bool;
  se_faults : Faults;
  se_rand : string;
  se_now : Z }.

Notation ConfigSection := (gmap string Value) (only parsing).

Definition as_string (v : option Value) : option string := match v with Some (VString s) => Some s | _ => None end.
Definition as_bool (v : option Value) : option bool := match v with Some (VBool b) => Some b | _ => None end.

(** [fmt.Errorf("<text>: %w", err)]. *)
Definition wrap_err {A} (text : string) (r : result A) : result A := match r with Err e => Err (text +:+ ": " +:+ e) | Ok a => Ok a end.

(** ** handlers.go *)

Definition parseStringSlice (raw : option Value) : list string :=
  let keep (s : string) := let s := TrimSpace s in if bool_decide (s = "") then None else Some s in
  match raw with
  | Some (VStrings v) => omap keep v
  | Some (VList v) => omap (fun item => match item with VString s => keep s | _ => None end) v
  | _ => []
  end.

Definition buildCoordinatorFromConfig (cfg : ConfigSection) (upstreamZone : string) : result Coordinator :=
  let bootstrapResolvers := parseStringSlice (cfg !! "bootstrap_resolvers") in
  match cfg !! "upstream" with
  | None | Some VNil => Ok (NewCoordinator bootstrapResolvers None)
  | Some (VString addr) =>
      let addr := TrimSpace addr in
      match SplitHostPort addr with
      | Err _ => Err "upstream must be host:port"
      | Ok _ => Ok (NewCoordinator bootstrapResolvers (Some (mkStatic upstreamZone addr)))
      end
  | Some _ => Err "upstream must be a host:port string"
  end.

Record leaseStorageConfig := mkStorage { sc_path : string; sc_saveInterval : Z }.

Definition parseLeaseStorageConfig (storageCfg : ConfigSection) : result leaseStorageConfig :=
  storageType ←
    match storageCfg !! "type" with
    | None => Ok "memory"
    | Some (VString s) =>
        if bool_decide (TrimSpace s = "") then Err "type must be a non-empty string" else Ok (ToLower (TrimSpace s))
    | Some _ => Err "type must be a non-empty string"
    end;
  if bool_decide (storageType = "memory") then Ok (mkStorage "" 0)
  else if bool_decide (storageType = "file") then
    match as_string (storageCfg !! "path") with
    | None => Err "path is required when type is file"
    | Some path =>
        if bool_decide (TrimSpace path = "") then Err "path is required when type is file"
        else match storageCfg !! "save_interval" with
        | None => Ok (mkStorage path (30 * Second))
        | Some (VString s) =>
            match ParseDuration s with
            | Err _ => Err "save_interval is not a valid duration"
            | Ok d => _ ← CheckSaveInterval d; Ok (mkStorage path d)
            end
        | Some _ => Err "save_interval must be a duration string"
        end
    end
  else Err "unrecognized type".

(** An entry that is there and not nil. *)
Definition present (v : option Value) : option Value := match v with Some VNil | None => None | Some v => Some v end.

(** The manager given, and the storage section, if any. *)
Definition selectLeaseStore (cfg : ConfigSection) : result (option Store * option leaseStorageConfig) :=
  match present (cfg !! "lease_manager"), present (cfg !! "storage") with
  | Some _, Some _ => Err "lease_manager and storage are mutually exclusive, got both"
  | Some (VManager lm), None => Ok (Some lm, None)
  | Some _, None => Err "lease_manager must implement lease.LeaseStorage"
  | None, Some (VMap storageCfg) =>
      parsed ← wrap_err "storage" (parseLeaseStorageConfig storageCfg); Ok (None, Some parsed)
  | None, Some _ => Err "storage must be a map"
  | None, None => Ok (None, None)
  end.

Definition LeaseSnapshotPath (cfg : ConfigSection) : result string :=
  match selectLeaseStore cfg with
  | Err e => Err e
  | Ok (_, None) => Ok ""
  | Ok (_, Some storage) => Ok (sc_path storage)
  end.

(** A lease manager: a store in memory, or one that is saved to a file. *)
Inductive Manager := InMemory (st : Store) | OnFile (fl : FileLeaseStore).
Definition manager_store (m : Manager) : Store := match m with InMemory st => st | OnFile fl => fl_store fl end.

Section setup.
Context {L : DnsLib} {W : WireCodec} {T : Unicode} {J : SnapshotJson} {C : Crypto} {K : KeyLib}.
Context (env : SetupEnv).

Definition LeaseStoreFromConfig (cfg : ConfigSection) (readOnly : bool) (fs : FS) : list FS * result Manager :=
  match selectLeaseStore cfg with
  | Err e => ([fs], Err e)
  | Ok (Some given, _) => ([fs], Ok (InMemory given))
  | Ok (None, None) => ([fs], Ok (InMemory NewInMemoryManager))
  | Ok (None, Some storage) =>
      if bool_decide (sc_path storage = "") then ([fs], Ok (InMemory NewInMemoryManager))
      else if readOnly then
        ([fs], '(store, _) ← wrap_err "storage" (ReadSnapshotFile (se_stat_fails env) fs (sc_path storage) (se_now env)); Ok (InMemory store))
      else
        let '(trace, r) := NewFileLeaseStore (se_mkdir_fails env) (se_stat_fails env) (se_faults env) (se_rand env)
                             (sc_path storage) (sc_saveInterval storage) (se_now env) fs in
        (trace, store ← wrap_err "storage" r; Ok (OnFile store))
  end.

(** [updatecore.FindAuthorizedProxyKey] on the keystore of [keystoreDir]. *)
Definition proxy_key (keystoreDir zone : string) : result (KEY * string) :=
  let ks := se_keystore env keystoreDir in
  default (Err "out of fuel")
    (FindAuthorizedProxyKey (fun z => match FindKeysByZone (se_io env) ks z with inl names => names | inr _ => [] end)
       (fun name => match LoadKeyFromFile (se_io env) ks name with Ok k => Some (lk_PublicKey k) | Err _ => None end) zone).

(** ** opcode5_setup.go *)

(** The record types of one blacklist entry. *)
Definition blacklist_entry (typeName : string) : option Z := se_StringToType env (TrimSpace (ToUpper typeName)).

Definition parseBlacklist (raw : option Value) : list Z :=
  match raw with
  | Some (VStrings v) => omap blacklist_entry v
  | Some (VList v) => omap (fun item => match item with VString s => blacklist_entry s | _ => None end) v
  | _ => []
  end.

(** What the first part of both Setups reads: the zone, trimmed, and the proxy's key for it. *)
Definition setup_zone (cfg : ConfigSection) : result (string * KEY) :=
  let zone := TrimSpace (default "" (as_string (cfg !! "upstream_zone"))) in
  if bool_decide (zone = "") then Err "upstream_zone is required in config"
  else match as_string (cfg !! "keystore_dir") with
  | None => Err "keystore_dir is required in config"
  | Some keystoreDir =>
      if bool_decide (keystoreDir = "") then Err "keystore_dir is required in config"
      else match proxy_key keystoreDir zone with
      | Err _ => Err "failed to resolve upstream signing key for zone"
      | Ok (k, _) => Ok (zone, k)
      end
  end.

(** The lease policy: none is the zero policy. *)
Definition setup_policy (cfg : ConfigSection) : result LeasePolicy :=
  match cfg !! "lease_policy" with None => Ok (mkLeasePolicy 0 0 0 0) | Some raw => parseLeasePolicy raw end.

Definition set_manager_hook (m : Manager) : Manager :=
  match m with
  | InMemory st => InMemory (SetPersistenceHook true st)
  | OnFile fl => OnFile (mkFileStore (SetPersistenceHook true (fl_store fl)) (fl_path fl) (fl_saveInterval fl) (fl_stopped fl) (fl_errors fl))
  end.

(** [UpdateHandler.Setup] of a new handler: the handler, its coordinator and its lease store. *)
Definition UpdateHandler_Setup (cfg : ConfigSection) (fs : FS) : list FS * result (UpdateHandler * Coordinator * Manager) :=
  match setup_zone cfg with
  | Err e => ([fs], Err e)
  | Ok (zone, upstreamKey) =>
      match LeaseStoreFromConfig cfg false fs with
      | (trace, Err e) => (trace, Err ("update handler config: " +:+ e))
      | (trace, Ok leaseManager) =>
          (trace,
           let leaseManager := match cfg !! "persistence_hook" with Some VHook => set_manager_hook leaseManager | _ => leaseManager end in
           policy ← setup_policy cfg;
           recordTTL ← parseRecordTTL cfg;
           coordinator ← wrap_err "update handler config" (buildCoordinatorFromConfig cfg zone);
           Ok (mkUpdateHandler zone (Some upstreamKey) policy recordTTL (default false (as_bool (cfg !! "prefer_4byte_variant")))
                 (default false (as_bool (cfg !! "allow_online_key_registration"))) (parseBlacklist (cfg !! "blacklisted_types")),
               coordinator, leaseManager))
      end
  end.

(** ** srp_setup.go *)

Definition SRPHandler_Setup (cfg : ConfigSection) (fs : FS) : list FS * result (SRPHandler * Coordinator * Manager) :=
  match
    ('(zone, upstreamKey) ← setup_zone cfg;
     coordinator ← wrap_err "srp handler config" (buildCoordinatorFromConfig cfg zone);
     policy ← setup_policy cfg;
     recordTTL ← parseRecordTTL cfg;
     Ok (mkSRPHandler zone (Some upstreamKey) (default false (as_bool (cfg !! "allow_udp"))) (default true (as_bool (cfg !! "refuse_on_foreign_data")))
           (default false (as_bool (cfg !! "rewrite_default_service_arpa"))) policy recordTTL
           (default false (as_bool (cfg !! "advertise_registration_domain"))), coordinator))
  with
  | Err e => ([fs], Err e)
  | Ok (h, coordinator) =>
      match LeaseStoreFromConfig cfg false fs with
      | (trace, Err e) => (trace, Err ("srp handler config: " +:+ e))
      | (trace, Ok leaseManager) => (trace, Ok (h, coordinator, leaseManager))
      end
  end.
End setup.

(** ** Lemmas *)

Lemma wrap_err_ok {A} text (r : result A) a : wrap_err text r = Ok a <-> r = Ok a.
Proof. by destruct r. Qed.

Lemma present_Some v x : present v = Some x <-> v = Some x /\ x <> VNil.
Proof. destruct v as [[]|]; cbn; naive_solver. Qed.

(** A storage section that asks for a file: which one, and how often it is saved. *)
Record file_section (sec : ConfigSection) (path : string) (interval : Z) : Prop := {
  fs_type : exists s, sec !! "type" = Some (VString s) /\ ToLower (TrimSpace s) = "file";
  fs_path : sec !! "path" = Some (VString path) /\ TrimSpace path <> "";
  fs_interval : 0 < interval < 2 ^ 63 /\
    match sec !! "save_interval" with
    | None => interval = 30 * Second
    | Some v => exists s, v = VString s /\ ParseDuration s = Ok interval
    end }.

Definition memory_section (sec : ConfigSection) : Prop :=
  sec !! "type" = None \/ exists s, sec !! "type" = Some (VString s) /\ ToLower (TrimSpace s) = "memory".

Lemma TrimSpace_nil : TrimSpace "" = "".
Proof. done. Qed.

Lemma parseLeaseStorageConfig_ok sec sc :
  parseLeaseStorageConfig sec = Ok sc ->
  memory_section sec /\ sc = mkStorage "" 0 \/ file_section sec (sc_path sc) (sc_saveInterval sc) /\ sc_path sc <> "".
Proof.
  unfold parseLeaseStorageConfig. intros (ty & Hty & H)%bind_ok.
  assert (Ht : sec !! "type" = None /\ ty = "memory" \/ exists s, sec !! "type" = Some (VString s) /\ ty = ToLower (TrimSpace s)).
  { clear H. destruct (sec !! "type") as [[]|]; try done; [|by left; injection Hty as <-]. right. case_bool_decide; [done|]. injection Hty as <-. eauto. }
  clear Hty. case_bool_decide as Hm; [|case_bool_decide as Hf; [|done]].
  - injection H as <-. left. split; [|done]. subst ty. destruct Ht as [[? _]|(s & ? & ?)]; [by left|right; eauto].
  - right. subst ty. destruct Ht as [[_ ?]|(s & Hs & Ht)]; [done|]. destruct (as_string (sec !! "path")) as [path|] eqn:Ep; [|done].
    assert (Hp : sec !! "path" = Some (VString path)) by (destruct (sec !! "path") as [[]|]; cbn in Ep; congruence).
    case_bool_decide as Hb; [done|]. assert (path <> "") by (intros ->; by rewrite TrimSpace_nil in Hb).
    destruct (sec !! "save_interval") as [v|] eqn:Ei.
    + destruct v; try done. destruct (ParseDuration s0) as [d|] eqn:Ed; [|done]. apply bind_ok in H as ([] & Hc & [= <-]).
      unfold CheckSaveInterval in Hc. destruct (Z.leb_spec d 0); [done|]. pose proof (ParseDuration_range _ _ Ed). cbn. split; [|done].
      split; [eauto|done|]. rewrite Ei. split; [lia|]. eauto.
    + injection H as <-. cbn. split; [|done]. split; [eauto|done|]. rewrite Ei. split; [unfold Second; lia|done].
Qed.

Lemma selectLeaseStore_ok cfg given storage :
  selectLeaseStore cfg = Ok (given, storage) ->
  match given, storage with
  | Some lm, st => cfg !! "lease_manager" = Some (VManager lm) /\ present (cfg !! "storage") = None /\ st = None
  | None, None => present (cfg !! "lease_manager") = None /\ present (cfg !! "storage") = None
  | None, Some sc => present (cfg !! "lease_manager") = None /\ exists sec, cfg !! "storage" = Some (VMap sec) /\ parseLeaseStorageConfig sec = Ok sc
  end.
Proof.
  unfold selectLeaseStore. destruct (present (cfg !! "lease_manager")) as [lm|] eqn:El, (present (cfg !! "storage")) as [sto|] eqn:Es; [by destruct lm|..].
  - apply present_Some in El as [El _]. destruct lm; try done. intros [= <- <-]. done.
  - apply present_Some in Es as [Es _]. destruct sto; try done. intros (sc & Hp%wrap_err_ok & [= <- <-])%bind_ok. eauto.
  - intros [= <- <-]. done.
Qed.

Section theorems.
Context {L : DnsLib} {W : WireCodec} {T : Unicode} {J : SnapshotJson} {C : Crypto} {K : KeyLib}.
Context (env : SetupEnv).

Lemma NewFileLeaseStore_ok mk stf F rand path interval now fs trace fl :
  NewFileLeaseStore mk stf F rand path interval now fs = (trace, Ok fl) ->
  fl_path fl = path /\ fl_saveInterval fl = interval /\ exists b, ReadSnapshotFile stf fs path now = Ok (fl_store fl, b).
Proof.
  unfold NewFileLeaseStore. case_bool_decide; [done|]. destruct (CheckSaveInterval interval); [|done]. destruct mk; [done|].
  destruct (ReadSnapshotFile stf fs path now) as [[inner b]|] eqn:E; [|done].
  destruct (SaveSnapshot F rand path now inner fs) as [tr [?|?]]; [|done]. intros [= <- <-]. cbn. eauto.
Qed.

(** Where a lease store comes from. *)
Definition store_of_config (cfg : ConfigSection) (fs : FS) (m : Manager) : Prop :=
  match m with
  | OnFile fl => exists sec, cfg !! "storage" = Some (VMap sec) /\ present (cfg !! "lease_manager") = None /\
      file_section sec (fl_path fl) (fl_saveInterval fl) /\
      exists b, ReadSnapshotFile (se_stat_fails env) fs (fl_path fl) (se_now env) = Ok (fl_store fl, b)
  | InMemory st =>
      cfg !! "lease_manager" = Some (VManager st) /\ present (cfg !! "storage") = None \/
      st = NewInMemoryManager /\ present (cfg !! "lease_manager") = None /\
        (present (cfg !! "storage") = None \/ exists sec, cfg !! "storage" = Some (VMap sec) /\ memory_section sec)
  end.

Lemma LeaseStoreFromConfig_ok cfg fs trace m :
  LeaseStoreFromConfig env cfg false fs = (trace, Ok m) -> store_of_config cfg fs m.
Proof.
  unfold LeaseStoreFromConfig. destruct (selectLeaseStore cfg) as [[given storage]|] eqn:E; [|done]. apply selectLeaseStore_ok in E.
  destruct given as [lm|]; [destruct E as (E1 & E2 & ->); intros [= _ <-]; by left|].
  destruct storage as [sc|]; [|destruct E; intros [= _ <-]; right; eauto]. destruct E as (Hl & sec & Hs & Hp).
  apply parseLeaseStorageConfig_ok in Hp as [[Hm ->]|[Hf Hne]].
  - cbn. intros [= _ <-]. right. eauto 6.
  - rewrite (bool_decide_eq_false_2 _ Hne).
    destruct (NewFileLeaseStore _ _ _ _ _ _ _ fs) as [tr r] eqn:En. intros [= _ (fl & ->%wrap_err_ok & [= <-])%bind_ok].
    apply NewFileLeaseStore_ok in En as (E1 & E2 & Hr). exists sec. rewrite E1, E2. done.
Qed.

(** The strings of a list, of either kind. *)
Definition list_of_config (v : option Value) (names : list Value) : Prop :=
  v = Some (VList names) \/ exists l, v = Some (VStrings l) /\ names = map VString l.

(** The resolvers and the upstream of a configured handler. *)
Definition upstream_of_config (cfg : ConfigSection) (zone : string) (c : Coordinator) : Prop :=
  (bootstrapResolvers c = parseStringSlice (cfg !! "bootstrap_resolvers") \/
   parseStringSlice (cfg !! "bootstrap_resolvers") = [] /\ bootstrapResolvers c = defaultBootstrapResolvers) /\
  match present (cfg !! "upstream") with
  | None => static c = None
  | Some v => exists s, v = VString s /\ is_ok (SplitHostPort (TrimSpace s)) = true /\
      su_Addr <$> static c = Some (TrimSpace s) /\ forall name, covers c name = IsAtOrBelow name zone
  end.

Lemma IsAtOrBelow_dot name z : HasSuffix z "." = false -> IsAtOrBelow name (z +:+ ".") = IsAtOrBelow name z.
Proof. intros H. unfold IsAtOrBelow. pose proof (Normalize_fqdn z) as E. rewrite H in E. by rewrite E. Qed.

Lemma buildCoordinator_ok cfg zone c : buildCoordinatorFromConfig cfg zone = Ok c -> upstream_of_config cfg zone c.
Proof.
  intros H. split.
  { revert H. unfold buildCoordinatorFromConfig. destruct (cfg !! "upstream") as [[]|]; try done; [destruct (SplitHostPort _); [|done]|..];
      intros [= <-]; cbn; destruct (parseStringSlice _); auto. }
  revert H. unfold buildCoordinatorFromConfig. destruct (cfg !! "upstream") as [v|]; [|by intros [= <-]].
  destruct v; try done; [|by intros [= <-]]. cbn [present]. destruct (SplitHostPort (TrimSpace s)) eqn:E; [|done]. intros [= <-].
  exists s. split; [done|]. rewrite E. split; [done|]. unfold NewCoordinator, covers. cbn. destruct (HasSuffix zone ".") eqn:Hz; cbn; [done|].
  split; [done|]. intros name. by apply IsAtOrBelow_dot.
Qed.

(** A number read from the configuration as its type allows. *)
Definition num_ok (v : Value) : Prop := match v with VUint32 n => uint32_ok n | VFloat64 _ n => uint32_ok n | _ => True end.
Definition numbers_ok (cfg : ConfigSection) : Prop :=
  (forall v, cfg !! "record_ttl_sec" = Some v -> num_ok v) /\
  forall m k v, cfg !! "lease_policy" = Some (VMap m) -> m !! k = Some v -> num_ok v.

Lemma toUint32_range v n : (forall x, v = Some x -> num_ok x) -> toUint32 v = Some n -> uint32_ok n.
Proof.
  intros Hv. destruct v as [x|]; [|done]. specialize (Hv x eq_refl). destruct x; try done; cbn in *; repeat case_match; try done;
    intros [= <-]; try done; apply wrap32_range.
Qed.

(** The number an entry gives, if any; a wider one is cut to 32 bits. *)
Definition number_given (v : option Value) (n : Z) : Prop :=
  match v with
  | Some (VInt k) | Some (VInt64 k) => 0 <= k /\ n = k mod 2 ^ 32
  | Some (VUint64 k) => n = k mod 2 ^ 32
  | Some (VUint32 k) => n = k
  | Some (VFloat64 negative k) => negative = false /\ n = k
  | _ => False
  end.

Lemma toUint32_given v n : toUint32 v = Some n <-> number_given v n.
Proof.
  destruct v as [[]|]; cbn; try done; unfold wrap32; try destruct (Z.ltb_spec n0 0); try destruct negative; split; try done; try congruence; try lia.
  all: try (intros [= <-]; done); try (intros [? ->]; done); intuition (try lia; try congruence).
Qed.

(** A field of the lease policy: the number its entry gives, or 0. *)
Definition policy_field (m : ConfigSection) (key : string) (n : Z) : Prop :=
  number_given (m !! key) n \/ n = 0 /\ forall n', ~ number_given (m !! key) n'.

Definition policy_of_config (cfg : ConfigSection) (p : LeasePolicy) : Prop :=
  match cfg !! "lease_policy" with
  | None => p = mkLeasePolicy 0 0 0 0
  | Some (VMap m) => policy_field m "min_key_lease_sec" (MinKeyLease p) /\ policy_field m "max_key_lease_sec" (MaxKeyLease p) /\
      policy_field m "min_rr_lease_sec" (MinRRLease p) /\ policy_field m "max_rr_lease_sec" (MaxRRLease p)
  | Some _ => False
  end.

Lemma policy_field_default m key : policy_field m key (default 0 (toUint32 (m !! key))).
Proof.
  destruct (toUint32 (m !! key)) as [n|] eqn:E; [left; by apply toUint32_given|right]. split; [done|]. intros n' Hn%toUint32_given. congruence.
Qed.

Lemma setup_policy_of_config cfg p : setup_policy cfg = Ok p -> policy_of_config cfg p.
Proof.
  unfold setup_policy, policy_of_config. destruct (cfg !! "lease_policy") as [raw|]; [|by intros [= <-]].
  destruct raw; try done. unfold parseLeasePolicy. intros ([] & _ & [= <-])%bind_ok. split_and!; apply policy_field_default.
Qed.

(** The TTL of the records sent upstream. *)
Definition ttl_of_config (cfg : ConfigSection) (ttl : Z) : Prop :=
  match cfg !! "record_ttl_sec" with None => ttl = 300 | v => number_given v ttl end.

Lemma parseRecordTTL_of_config cfg ttl : parseRecordTTL cfg = Ok ttl -> ttl_of_config cfg ttl.
Proof.
  unfold parseRecordTTL, ttl_of_config. destruct (cfg !! "record_ttl_sec") as [raw|]; [|by intros [= <-]].
  destruct (toUint32 (Some raw)) as [n|] eqn:En; [|done]. destruct (_ || _); [done|]. intros [= <-]. by apply toUint32_given.
Qed.

Lemma setup_policy_ok cfg p : numbers_ok cfg -> setup_policy cfg = Ok p -> policy_uint32 p /\ policy_validate p = Ok tt.
Proof.
  intros [_ Hn]. unfold setup_policy. destruct (cfg !! "lease_policy") as [raw|] eqn:E; [|intros [= <-]; by vm_compute].
  destruct raw; try done. unfold parseLeasePolicy. intros ([] & Hv & [= <-])%bind_ok. split; [|done].
  assert (G : forall k, uint32_ok (default 0 (toUint32 (m !! k)))).
  { intros k. destruct (toUint32 (m !! k)) as [n|] eqn:En; [|done]. eapply toUint32_range; [|exact En]. eauto. }
  split_and!; apply G.
Qed.

Lemma parseRecordTTL_range cfg ttl : numbers_ok cfg -> parseRecordTTL cfg = Ok ttl -> 0 < ttl < 2 ^ 31.
Proof.
  intros [Hn _]. unfold parseRecordTTL. destruct (cfg !! "record_ttl_sec") as [raw|] eqn:E; [|intros [= <-]; by vm_compute].
  destruct (toUint32 (Some raw)) as [n|] eqn:En; [|done]. apply toUint32_range in En; [|naive_solver]. unfold uint32_ok in En.
  destruct (_ || _) eqn:Hb; [done|]. intros [= <-]. zb. lia.
Qed.

(** The key both handlers sign with: the only one of the nearest enclosing zone that has any. *)
Definition key_of_config (cfg : ConfigSection) (zone : string) (k : KEY) : Prop :=
  exists dir n name lk, let ks := se_keystore env dir in let kz := Nat.iter n parentZone (Normalize zone) +:+ "." in
    cfg !! "keystore_dir" = Some (VString dir) /\ dir <> "" /\
    FindKeysByZone (se_io env) ks kz = inl [name] /\ LoadKeyFromFile (se_io env) ks name = Ok lk /\ lk_PublicKey lk = k /\
    forall m l, (m < n)%nat -> FindKeysByZone (se_io env) ks (Nat.iter m parentZone (Normalize zone) +:+ ".") = inl l -> l = [].

Lemma setup_zone_ok cfg zone k :
  setup_zone env cfg = Ok (zone, k) ->
  (exists s, cfg !! "upstream_zone" = Some (VString s) /\ zone = TrimSpace s) /\ zone <> "" /\ key_of_config cfg zone k.
Proof.
  unfold setup_zone. cbn zeta. case_bool_decide as Hz; [done|]. destruct (as_string (cfg !! "keystore_dir")) as [dir|] eqn:Ed; [|done].
  case_bool_decide as Hd; [done|]. destruct (proxy_key env dir _) as [[k' kz]|] eqn:Ek; [|done]. intros [= <- <-]. split_and!; [|done|].
  - destruct (cfg !! "upstream_zone") as [[]|]; cbn in Hz |- *; eauto; exfalso; by apply Hz.
  - unfold proxy_key in Ek. cbn zeta in Ek. set (zone := TrimSpace _) in *.
    match type of Ek with default _ (FindAuthorizedProxyKey ?f ?g zone) = _ => destruct (proxy_key_nearest_zone f g zone) as (r & Hr & Hspec); rewrite Hr in Ek end.
    cbn in Ek. destruct (Hspec _ _ Ek) as (n & name & -> & _ & Hf & Hl & Hm). cbn zeta in *.
    destruct (FindKeysByZone _ _ _) as [names|] eqn:Ef in Hf; [|done]. subst names.
    destruct (LoadKeyFromFile _ _ _) as [lk|] eqn:El in Hl; [|done]. injection Hl as <-.
    exists dir, n, name, lk. split_and!; try done.
    + destruct (cfg !! "keystore_dir") as [[]|]; cbn in Ed; congruence.
    + intros m l Hlt E. specialize (Hm m Hlt). by rewrite E in Hm.
Qed.

(** What both Setups give a handler of its section. *)
Record set_up (cfg : ConfigSection) (fs : FS) (zone : string) (key : option KEY) (policy : LeasePolicy) (ttl : Z)
    (c : Coordinator) (m : Manager) : Prop := {
  su_zone : (exists s, cfg !! "upstream_zone" = Some (VString s) /\ zone = TrimSpace s) /\ zone <> "";
  su_key : exists k, key = Some k /\ key_of_config cfg zone k;
  su_policy : policy_of_config cfg policy /\ policy_uint32 policy /\ policy_validate policy = Ok tt;
  su_ttl : ttl_of_config cfg ttl /\ 0 < ttl < 2 ^ 31;
  su_upstream : upstream_of_config cfg zone c;
  su_store : store_of_config cfg fs m }.

Lemma as_bool_Some v b : as_bool v = Some b <-> v = Some (VBool b).
Proof. destruct v as [[]|]; cbn; naive_solver. Qed.

(** An option that is off unless the section turns it on, and one that is on unless it turns it off. *)
Lemma off_by_default v : default false (as_bool v) = true <-> v = Some (VBool true).
Proof. rewrite <- as_bool_Some. by destruct (as_bool v) as [[]|]. Qed.

Lemma on_by_default v : default true (as_bool v) = false <-> v = Some (VBool false).
Proof. rewrite <- as_bool_Some. by destruct (as_bool v) as [[]|]. Qed.

(** A blacklist has the types of its entries that the library knows, and no others. *)
Lemma parseBlacklist_spec v t :
  t ∈ parseBlacklist env v <-> exists names s, list_of_config v names /\ VString s ∈ names /\ se_StringToType env (TrimSpace (ToUpper s)) = Some t.
Proof.
  unfold parseBlacklist, list_of_config. split.
  - destruct v as [[]|]; intros H; try by apply not_elem_of_nil in H.
    + apply list_elem_of_omap in H as (s & Hs & Ht). exists (map VString l), s. split_and!; [right; eauto|by apply list_elem_of_fmap_2|done].
    + apply list_elem_of_omap in H as ([] & Hs & Ht); try done. exists l, s. split_and!; [by left|done..].
  - intros (names & s & [->|(l & -> & ->)] & Hin & Ht); apply list_elem_of_omap; [by exists (VString s)|].
    apply list_elem_of_fmap in Hin as (s' & [= ->] & Hin). by exists s'.
Qed.

Lemma update_set_up cfg fs trace h c m :
  numbers_ok cfg -> UpdateHandler_Setup env cfg fs = (trace, Ok (h, c, m)) ->
  exists m0, set_up cfg fs (h_upstreamZone h) (h_upstreamKey h) (h_LeasePolicy h) (h_recordTTL h) c m0 /\
    (cfg !! "persistence_hook" <> Some VHook /\ m = m0 \/ cfg !! "persistence_hook" = Some VHook /\ m = set_manager_hook m0) /\
    h_prefer4ByteVariant h = default false (as_bool (cfg !! "prefer_4byte_variant")) /\
    h_AllowOnlineKeyRegistration h = default false (as_bool (cfg !! "allow_online_key_registration")) /\
    h_blacklistedTypes h = parseBlacklist env (cfg !! "blacklisted_types").
Proof.
  intros Hn. unfold UpdateHandler_Setup. destruct (setup_zone env cfg) as [[zone k]|] eqn:Ez; [|done].
  destruct (LeaseStoreFromConfig env cfg false fs) as [tr [m0|]] eqn:El; [|done].
  intros [= _ (policy & Hp & (ttl & Ht & (c' & Hc%wrap_err_ok & [= <- <- <-])%bind_ok)%bind_ok)%bind_ok].
  apply setup_zone_ok in Ez as (Hz & Hne & Hk). exists m0. split; [|split_and!; try done].
  - split; cbn; [done|eauto|split; [by apply setup_policy_of_config|by eapply setup_policy_ok]|
      split; [by apply parseRecordTTL_of_config|by eapply parseRecordTTL_range]|by apply buildCoordinator_ok|by eapply LeaseStoreFromConfig_ok].
  - destruct (cfg !! "persistence_hook") as [[]|]; auto.
Qed.

Lemma srp_set_up cfg fs trace h c m :
  numbers_ok cfg -> SRPHandler_Setup env cfg fs = (trace, Ok (h, c, m)) ->
  set_up cfg fs (s_upstreamZone h) (s_upstreamKey h) (s_LeasePolicy h) (s_recordTTL h) c m /\
  s_allowUDP h = default false (as_bool (cfg !! "allow_udp")) /\
  s_refuseOnForeignData h = default true (as_bool (cfg !! "refuse_on_foreign_data")) /\
  s_rewriteDefaultServiceARPA h = default false (as_bool (cfg !! "rewrite_default_service_arpa")) /\
  s_advertiseRegistrationDomain h = default false (as_bool (cfg !! "advertise_registration_domain")).
Proof.
  intros Hn. unfold SRPHandler_Setup. destruct (setup_zone env cfg ≫= _) as [[h' c']|] eqn:E; [|done].
  destruct (LeaseStoreFromConfig env cfg false fs) as [tr [m0|]] eqn:El; [|done]. intros [= _ <- <- <-].
  apply bind_ok in E as ([zone k] & Ez & (c0 & Hc%wrap_err_ok & (policy & Hp & (ttl & Ht & [= <- <-])%bind_ok)%bind_ok)%bind_ok).
  apply setup_zone_ok in Ez as (Hz & Hne & Hk). split; [|split_and!; done].
  split; cbn; [done|eauto|split; [by apply setup_policy_of_config|by eapply setup_policy_ok]|
    split; [by apply parseRecordTTL_of_config|by eapply parseRecordTTL_range]|by apply buildCoordinator_ok|by eapply LeaseStoreFromConfig_ok].
Qed.
End theorems.

(** [C19] A handler is what its configuration section says.  A Setup that succeeds leaves the
    handler with a non-empty zone, the trimmed one of the section; the signing key that is the
    only one of the nearest enclosing zone with keys; the policy of the section, each limit the
    number given for it or 0 (numbers cut to 32 bits), which was validated; the TTL of the
    section, or 300 without one, in 1 .. 2^31-1; the section's resolvers or the default ones; its
    configured upstream for exactly the names at or below the zone, or none; the lease store the
    section names: the one it is given, a new one in memory, or one on a file exactly when it
    says so, at that path, with what was read from it, and its positive save interval; and each
    option exactly as the section sets it, with its default otherwise.  The update handler's
    blacklist has exactly the types of the entries whose name is known. *)
Theorem setup_establishes {L : DnsLib} {W : WireCodec} {T : Unicode} {J : SnapshotJson} {C : Crypto} {K : KeyLib}
    (env : SetupEnv) (cfg : ConfigSection) (fs : FS) (trace : list FS) (c : Coordinator) (m : Manager) :
  numbers_ok cfg ->
  (forall h, UpdateHandler_Setup env cfg fs = (trace, Ok (h, c, m)) ->
    exists m0, set_up env cfg fs (h_upstreamZone h) (h_upstreamKey h) (h_LeasePolicy h) (h_recordTTL h) c m0 /\
      (cfg !! "persistence_hook" <> Some VHook /\ m = m0 \/ cfg !! "persistence_hook" = Some VHook /\ m = set_manager_hook m0) /\
      (h_prefer4ByteVariant h = true <-> cfg !! "prefer_4byte_variant" = Some (VBool true)) /\
      (h_AllowOnlineKeyRegistration h = true <-> cfg !! "allow_online_key_registration" = Some (VBool true)) /\
      forall t, t ∈ h_blacklistedTypes h <->
        exists names s, list_of_config (cfg !! "blacklisted_types") names /\ VString s ∈ names /\ se_StringToType env (TrimSpace (ToUpper s)) = Some t) /\
  (forall h, SRPHandler_Setup env cfg fs = (trace, Ok (h, c, m)) ->
    set_up env cfg fs (s_upstreamZone h) (s_upstreamKey h) (s_LeasePolicy h) (s_recordTTL h) c m /\
    (s_allowUDP h = true <-> cfg !! "allow_udp" = Some (VBool true)) /\
    (s_refuseOnForeignData h = false <-> cfg !! "refuse_on_foreign_data" = Some (VBool false)) /\
    (s_rewriteDefaultServiceARPA h = true <-> cfg !! "rewrite_default_service_arpa" = Some (VBool true)) /\
    (s_advertiseRegistrationDomain h = true <-> cfg !! "advertise_registration_domain" = Some (VBool true))).
Proof.
  intros Hn. split; intros h H.
  - destruct (update_set_up _ _ _ _ _ _ _ Hn H) as (m0 & Hs & Hm & H4 & Ha & Hb). exists m0. rewrite H4, Ha, Hb.
    split; [done|]. split; [done|]. split; [apply off_by_default|]. split; [apply off_by_default|]. apply parseBlacklist_spec.
  - destruct (srp_set_up _ _ _ _ _ _ _ Hn H) as (Hs & -> & -> & -> & ->).
    split; [done|]. split; [apply off_by_default|]. split; [apply on_by_default|]. split; apply off_by_default.
Qed.

Section restart.
Context {L : DnsLib} {W : WireCodec} {T : Unicode} {J : SnapshotJson}.

(** A Stop that reports no error wrote the tree. *)
Lemma stopped_saved F rand now fl fl' fs trace :
  fl_stopped fl = false -> Stop F rand now fl fs = (trace, fl') -> fl_errors fl' = fl_errors fl ->
  exists tr, SaveSnapshot F rand (fl_path fl) now (fl_store fl) fs = (tr, Ok tt) /\ trace = tr.
Proof.
  intros Hs. unfold Stop, save_reporting. rewrite Hs. destruct (SaveSnapshot _ _ _ _ _ fs) as [tr [[]|e]]; intros [= <- <-]; cbn; [eauto|].
  intros He%(f_equal length). rewrite length_app in He. cbn in He. lia.
Qed.

(** The store a section opens on the file its predecessor left. *)
Lemma reopened_store env cfg sec path interval fs m d st :
  store_of_config env cfg fs m -> cfg !! "storage" = Some (VMap sec) -> file_section sec path interval ->
  read fs path = Some d -> load_content (se_now env) d NewInMemoryManager = Ok st -> manager_store m = st.
Proof.
  intros Hst Hsto [(s & Hty & Hlow) [Hp _] _] Hr Hl. destruct m as [st'|fl]; cbn in Hst.
  - exfalso. rewrite Hsto in Hst. destruct Hst as [[_ ?]|(_ & _ & [?|(sec' & [= <-] & Hmem)])]; [done..|].
    destruct Hmem as [Hmem|(s' & Hmem & Hlow')]; rewrite Hty in Hmem; [done|]. injection Hmem as <-. congruence.
  - destruct Hst as (sec' & Hsto' & _ & [_ [Hp' _] _] & b & Hrd). rewrite Hsto in Hsto'. injection Hsto' as <-.
    rewrite Hp in Hp'. injection Hp' as Ep. rewrite <- Ep in Hrd. unfold ReadSnapshotFile in Hrd. destruct (se_stat_fails env); [done|].
    rewrite Hr, (load_of_read _ _ _ _ _ Hr), Hl in Hrd. by injection Hrd.
Qed.

Lemma WF_set_hook b st : WF st -> WF (SetPersistenceHook b st).
Proof. intros H. split; apply H. Qed.
End restart.

(** [C20] A file store that was stopped comes back.  Stop of the file store, which the update
    handler's Shutdown calls (the SRP handler has none), reported no error, and its leases were
    recoverable; when a handler, of either kind, is then set up from a section that names that
    file, even after a crash, or on Windows without a power loss, and Setup succeeds, its lease
    store is well formed and holds exactly the stopped store's leases and records. *)
Theorem restart_keeps_leases {L : DnsLib} {W : WireCodec} {T : Unicode} {J : SnapshotJson} {C : Crypto} {K : KeyLib}
    {WL : WireCodecLaws W} {TL : UnicodeLaws T} {JL : SnapshotJsonLaws J}
    (env : SetupEnv) (cfg sec : ConfigSection) (F : Faults) (rand : string) (now : Z) (fl fl' : FileLeaseStore)
    (fs fs' : FS) (trace trace' : list FS) (c : Coordinator) (m : Manager) :
  numbers_ok cfg -> cfg !! "storage" = Some (VMap sec) -> file_section sec (fl_path fl) (fl_saveInterval fl) ->
  fs_wf fs -> recoverable (fl_store fl) -> fl_stopped fl = false ->
  Stop F rand now fl fs = (trace, fl') -> fl_errors fl' = fl_errors fl -> found_again (on_windows F) (final fs trace) fs' ->
  (exists h, UpdateHandler_Setup env cfg fs' = (trace', Ok (h, c, m))) \/ (exists h, SRPHandler_Setup env cfg fs' = (trace', Ok (h, c, m))) ->
  WF (manager_store m) /\ exists st, same_store (fl_store fl) st /\ (manager_store m = st \/ manager_store m = SetPersistenceHook true st).
Proof.
  intros Hn Hsto Hsec Wfs R Hs HS He Hc Hset.
  assert (Hm : exists m0, store_of_config env cfg fs' m0 /\ (m = m0 \/ m = set_manager_hook m0)).
  { destruct Hset as [[h H]|[h H]].
    - destruct (update_set_up _ _ _ _ _ _ _ Hn H) as (m0 & HU & Hm & _). exists m0. split; [apply HU|naive_solver].
    - destruct (srp_set_up _ _ _ _ _ _ _ Hn H) as [HU _]. exists m. split; [apply HU|by left]. }
  destruct Hm as (m0 & Hst & Hm). destruct (stopped_saved F rand now fl fl' fs trace Hs HS He) as (tr & ES & ->).
  destruct (saved_recovered _ _ _ _ (se_now env) _ _ _ fs' NewInMemoryManager R Wfs ES Hc) as (d & st & Hr & Hl & Hss & W').
  assert (Hm0 : manager_store m0 = st) by (by eapply reopened_store).
  destruct Hm as [-> | ->]; [rewrite Hm0; eauto|]. assert (E : manager_store (set_manager_hook m0) = SetPersistenceHook true st) by (subst st; by destruct m0).
  rewrite E. split; [|eauto]. by apply WF_set_hook.
Qed.

(** ** A concrete handler: a zone below the demo key's, and the leases of [ex_fl] on disk *)
Module DemoSetup.
Global Instance node_eq_dec : EqDecision NodeSnapshot.
Proof. solve_decision. Defined.
Global Instance snapshot_eq_dec : EqDecision LeaseTreeSnapshot.
Proof. solve_decision. Defined.

(** A JSON codec for one snapshot, the one of [ex_store]. *)
Definition saved : LeaseTreeSnapshot :=
  match ExportSnapshot (L := Demo.lib) (C := DemoCodec.wire) (T := demo_unicode) second ex_store with Ok s => s | Err _ => mkSnapshot 0 0 [] end.
Definition json : SnapshotJson := {|
  MarshalIndent s := if bool_decide (s = saved) then Ok "saved" else Err "not supported";
  UnmarshalFile f := if bool_decide (f = file_head "00" +:+ "saved" +:+ nl +:+ "}" +:+ nl) then Ok ("00", "saved") else Err "malformed";
  UnmarshalSnapshot b := if bool_decide (b = "saved") then Ok saved else Err "malformed";
  sha256_hex b := "00" |}.

Lemma json_one_laws : SnapshotJsonLaws json.
Proof.
  split.
  - intros s body. cbn. case_bool_decide as E; [|done]. intros [= <-] _. subst s. exists saved. split; [done|]. split_and!; try done.
    apply Forall2_same_length_lookup_2; [done|]. intros i x y Hx Hy. rewrite Hx in Hy. injection Hy as <-. by destruct x.
  - intros s body. cbn. case_bool_decide; [|done]. intros [= <-]. split; [done|]. by rewrite bool_decide_true.
  - done.
Qed.

Definition stop : list FS * FileLeaseStore :=
  Stop (L := Demo.lib) (C := DemoCodec.wire) (T := demo_unicode) (J := json) no_faults "42" second ex_fl ex_fs.

Definition keys : Keystore := (DemoKeys.create io_ok None).1.
Definition env : SetupEnv :=
  mkSetupEnv (fun _ => keys) io_ok (fun s => if bool_decide (s = "TXT") then Some 16 else None) false false no_faults "43" second.
Definition section : ConfigSection := {[ "type" := VString "FILE"; "path" := VString "leases.json"; "save_interval" := VString "1m" ]}.
Definition cfg : ConfigSection :=
  {[ "upstream_zone" := VString " dev.host.example.org"; "keystore_dir" := VString "keys"; "upstream" := VString "192.0.2.1:53";
     "blacklisted_types" := VList [VString "txt"]; "storage" := VMap section ]}.
Definition disk : FS := final ex_fs stop.1.
Definition start : list FS * result (UpdateHandler * Coordinator * Manager) :=
  UpdateHandler_Setup (L := Demo.lib) (W := DemoCodec.wire) (T := demo_unicode) (J := json) (C := DemoSig.crypto) (K := DemoKeys.lib) env cfg disk.

Lemma numbers : numbers_ok cfg.
Proof.
  assert (H1 : cfg !! "record_ttl_sec" = None) by (vm_compute; reflexivity). assert (H2 : cfg !! "lease_policy" = None) by (vm_compute; reflexivity).
  split; [intros v H|intros m k v H]; congruence.
Qed.

Lemma crashed_refl fs : fs_wf fs -> crashed fs fs.
Proof.
  intros Wf p. left. unfold entry_holds, read. destruct (fs_dir fs !! p) as [i|] eqn:E; [|done]. cbn [mbind option_bind].
  destruct (Wf p i (or_introl E)) as [n ->]. cbn. destruct (i_synced n); [done|by eexists].
Qed.

Lemma disk_wf : fs_wf disk.
Proof.
  assert (Hd : map_Forall (fun _ i => is_Some (fs_inodes disk !! i)) (fs_dir disk)) by (refine (bool_decide_eq_true_1 _ _); vm_compute; reflexivity).
  assert (Hk : map_Forall (fun _ i => is_Some (fs_inodes disk !! i)) (fs_disk disk)) by (refine (bool_decide_eq_true_1 _ _); vm_compute; reflexivity).
  intros p i [H|H]; [exact (Hd p i H)|exact (Hk p i H)].
Qed.

Lemma section_file : file_section section (fl_path ex_fl) (fl_saveInterval ex_fl).
Proof.
  split.
  - exists "FILE". split; [reflexivity|vm_compute; reflexivity].
  - split; [reflexivity|vm_compute; discriminate].
  - change (section !! "save_interval") with (Some (VString "1m")). split; [vm_compute; split; reflexivity|]. exists "1m". split; [done|].
    vm_compute. reflexivity.
Qed.

Lemma started : exists h c m, start = (start.1, Ok (h, c, m)).
Proof.
  assert (Hok : is_ok start.2 = true) by (vm_compute; reflexivity).
  destruct start as [tr [[[h c] m]|e]]; [by eexists h, c, m|done].
Qed.
End DemoSetup.

Lemma setup_establishes_witness :
  exists h c m, DemoSetup.start = (DemoSetup.start.1, Ok (h, c, m)) /\ requireUpstream h = true /\ h_upstreamZone h = "dev.host.example.org" /\
    16 ∈ h_blacklistedTypes h /\ covers c "printer.DEV.host.example.org." = true /\ h_AllowOnlineKeyRegistration h = false.
Proof.
  destruct DemoSetup.started as (h & c & m & H). exists h, c, m. split; [exact H|].
  destruct (setup_establishes (L := Demo.lib) (W := DemoCodec.wire) (T := demo_unicode) (J := DemoSetup.json) (C := DemoSig.crypto) (K := DemoKeys.lib)
    DemoSetup.env DemoSetup.cfg DemoSetup.disk DemoSetup.start.1 c m DemoSetup.numbers) as [HU _].
  destruct (HU h H) as (m0 & [[(s & Hs & Hz) _] (k & Hk & _) _ _ Hup _] & _ & _ & Ha & Hb). split_and!.
  - unfold requireUpstream. rewrite Hk. done.
  - rewrite Hz. assert (E : DemoSetup.cfg !! "upstream_zone" = Some (VString " dev.host.example.org")) by (vm_compute; reflexivity).
    rewrite E in Hs. injection Hs as <-. vm_compute. reflexivity.
  - apply Hb. exists [VString "txt"], "txt". split; [left; vm_compute; reflexivity|]. split; [by left|vm_compute; reflexivity].
  - unfold upstream_of_config in Hup. assert (E : present (DemoSetup.cfg !! "upstream") = Some (VString "192.0.2.1:53")) by (vm_compute; reflexivity).
    rewrite E in Hup. destruct Hup as (_ & s' & _ & _ & _ & Hc). rewrite Hc, Hz.
    assert (E' : DemoSetup.cfg !! "upstream_zone" = Some (VString " dev.host.example.org")) by (vm_compute; reflexivity).
    rewrite E' in Hs. injection Hs as <-. vm_compute. reflexivity.
  - destruct (h_AllowOnlineKeyRegistration h) eqn:E; [|done]. destruct Ha as [Ha _]. specialize (Ha eq_refl). vm_compute in Ha. discriminate Ha.
Defined.

Lemma restart_keeps_leases_witness :
  exists h c m st, DemoSetup.start = (DemoSetup.start.1, Ok (h, c, m)) /\
    same_store ex_store st /\ (manager_store m = st \/ manager_store m = SetPersistenceHook true st).
Proof.
  destruct DemoSetup.started as (h & c & m & H).
  destruct (restart_keeps_leases (L := Demo.lib) (W := DemoCodec.wire) (T := demo_unicode) (J := DemoSetup.json) (C := DemoSig.crypto) (K := DemoKeys.lib)
    (WL := DemoCodec.wire_laws) (TL := demo_unicode_laws) (JL := DemoSetup.json_one_laws)
    DemoSetup.env DemoSetup.cfg DemoSetup.section no_faults "42" second ex_fl DemoSetup.stop.2 ex_fs DemoSetup.disk DemoSetup.stop.1 DemoSetup.start.1 c m
    DemoSetup.numbers ltac:(vm_compute; reflexivity) DemoSetup.section_file ex_fs_wf ex_recoverable eq_refl ltac:(vm_compute; reflexivity)
    ltac:(vm_compute; reflexivity) (DemoSetup.crashed_refl _ DemoSetup.disk_wf) (or_introl (ex_intro _ h H))) as (_ & st & Hst & Hm).
  exists h, c, m, st. split; [exact H|split; [exact Hst|exact Hm]].
Defined.
