(* ===== verification/Forward.v ===== *)
(** * Forwarding to the upstream resolvers

    forward/forward.go.  A query goes to every configured server at once, and the first answer
    is taken.  The goroutines and timers are the order in which their results arrive; the
    exchange with one server is the library's, a parameter. *)

From Stdlib Require Import String ZArith Lia.
From S2P Require Import Prelude DnsData SrpTiming.

Local Open Scope Z_scope.

Record Resolver := mkResolver { rv_servers : list string; rv_protocol : string; rv_timeout : Z }.

Definition NewResolver (servers : list string) (protocol : string) (timeout : Z) : result Resolver :=
  match servers with
  | [] => Err "at least one upstream server required"
  | _ => Ok (mkResolver servers (if bool_decide (protocol = "") then "udp" else protocol) (if timeout <=? 0 then 5 * Second else timeout))
  end.

Section query.
(** [dns.Exchange(ctx, msg, network, server)]; [None] is a nil response. *)
Context (dns_Exchange : Msg -> string -> string -> result (option Msg)).

Definition exchange (r : Resolver) (server : string) (msg : Msg) : result (option Msg) :=
  let network := if bool_decide (rv_protocol r = "") then "udp" else rv_protocol r in
  match dns_Exchange msg network server with
  | Err _ => Err "exchange failed"
  | Ok resp => Ok resp
  end.

(** How one server's goroutine ends: the exchange finished first, or the context or its own
    timer did. *)
Inductive Ending := Done | Cancelled | TimedOut.

Definition exchangeWithContext (r : Resolver) (e : Ending) (msg : Msg) (server : string) : result (option Msg) :=
  match e with
  | Done => exchange r server msg
  | Cancelled => Err "context canceled"
  | TimedOut => Err "query timeout to server"
  end.

(** What the select of the collecting loop sees next. *)
Inductive Event := Arrive (i : nat) (e : Ending) | Timeout | CtxDone.

(** The loop, with [n] results still to come; [None] when it waits for more events. *)
Fixpoint collect (r : Resolver) (msg : Msg) (n : nat) (events : list Event) : option (result Msg) :=
  match n with
  | O => Some (Err "all upstreams failed")
  | S n =>
      match events with
      | [] => None
      | Arrive i e :: events =>
          server ← rv_servers r !! i;
          match exchangeWithContext r e msg server with
          | Ok (Some resp) => Some (Ok resp)
          | _ => collect r msg n events
          end
      | Timeout :: _ => Some (Err "query timeout")
      | CtxDone :: _ => Some (Err "context canceled")
      end
  end.

Definition Query (r : Resolver) (msg : Msg) (events : list Event) : option (result Msg) :=
  collect r msg (length (rv_servers r)) events.

(** ** Schedules *)

Definition arrived (events : list Event) : list nat := omap (fun ev => match ev with Arrive i _ => Some i | _ => None end) events.

(** Each server's result arrives at most once; and either all arrive or the query's own timer or
    context ends it. *)
Definition arrival_schedule (r : Resolver) (events : list Event) : Prop :=
  NoDup (arrived events) /\ (forall i, i ∈ arrived events -> (i < length (rv_servers r))%nat) /\
  (Timeout ∈ events \/ CtxDone ∈ events \/ forall i, (i < length (rv_servers r))%nat -> i ∈ arrived events).

Lemma collect_ends r msg n events :
  (forall i, i ∈ arrived events -> (i < length (rv_servers r))%nat) ->
  Timeout ∈ events \/ CtxDone ∈ events \/ (n <= length (arrived events))%nat ->
  is_Some (collect r msg n events).
Proof.
  revert events. induction n as [|n IH]; intros [|ev events] Hin Hend; cbn [collect]; [by eexists..| |].
  { cbn in Hend. exfalso. destruct Hend as [?|[?|?]]; [set_solver|set_solver|lia]. }
  destruct ev as [i e| |]; [|by eexists..]. destruct (lookup_lt_is_Some_2 (rv_servers r) i) as [server ->]; [apply Hin; by left|].
  cbn [mbind option_bind]. assert (G : is_Some (collect r msg n events)).
  { change (arrived (Arrive i e :: events)) with (i :: arrived events) in *. cbn [length] in Hend.
    apply IH; [intros j Hj; apply Hin; by right|]. destruct Hend as [?|[?|?]]; [set_solver|set_solver|right; right; lia]. }
  by destruct (exchangeWithContext r e msg server) as [[resp|]|]; [by eexists|..].
Qed.

(** An answer is one server's, and "all failed" means that every result that arrived failed. *)
Lemma collect_result r msg n events res :
  collect r msg n events = Some res ->
  match res with
  | Ok resp => exists i e server, Arrive i e ∈ events /\ rv_servers r !! i = Some server /\ exchangeWithContext r e msg server = Ok (Some resp)
  | Err _ => Timeout ∈ events \/ CtxDone ∈ events \/
      exists pre, pre `prefix_of` events /\ length pre = n /\ forall ev, ev ∈ pre -> exists i e server, ev = Arrive i e /\ rv_servers r !! i = Some server /\
        forall resp, exchangeWithContext r e msg server <> Ok (Some resp)
  end.
Proof.
  revert events. induction n as [|n IH]; intros events; cbn [collect].
  { intros [= <-]. right; right. exists []. split_and!; [by exists events|done|set_solver]. }
  destruct events as [|[i e| |] events]; [done| |intros [= <-]; left; by left|intros [= <-]; right; left; by left].
  intros (server & Hs & H)%bind_Some.
  assert (G : forall (Hf : forall resp, exchangeWithContext r e msg server <> Ok (Some resp)), collect r msg n events = Some res ->
    match res with
    | Ok resp => exists i' e' server', Arrive i' e' ∈ Arrive i e :: events /\ rv_servers r !! i' = Some server' /\ exchangeWithContext r e' msg server' = Ok (Some resp)
    | Err _ => Timeout ∈ Arrive i e :: events \/ CtxDone ∈ Arrive i e :: events \/
        exists pre, pre `prefix_of` Arrive i e :: events /\ length pre = S n /\ forall ev, ev ∈ pre -> exists i' e' server', ev = Arrive i' e' /\
          rv_servers r !! i' = Some server' /\ forall resp, exchangeWithContext r e' msg server' <> Ok (Some resp)
    end).
  { intros Hf Hc. specialize (IH _ Hc). destruct res as [resp|err].
    - destruct IH as (i' & e' & server' & ? & ? & ?). exists i', e', server'. split_and!; [by right|done..].
    - destruct IH as [?|[?|(pre & Hp & Hl & Ha)]]; [left; by right|right; left; by right|]. right; right. exists (Arrive i e :: pre).
      split_and!; [by apply prefix_cons|cbn; lia|]. intros ev [->|?]%elem_of_cons; eauto 6. }
  destruct (exchangeWithContext r e msg server) as [[resp|]|] eqn:E.
  - injection H as <-. exists i, e, server. split_and!; [by left|done..].
  - apply G; [done|exact H].
  - apply G; [done|exact H].
Qed.

(** Forwarding takes the first answer.  Whatever the order in which the servers' results,
    their timers and the query's own timer arrive, a query ends; an answer it returns is one that
    a configured server gave to this message; and it fails only when the query's timer or context
    ended it or every server failed, so one server that answers in time is enough. *)
Theorem forward_first_answer (r : Resolver) (msg : Msg) (events : list Event) :
  arrival_schedule r events ->
  exists res, Query r msg events = Some res /\
    (forall resp, res = Ok resp -> exists server, server ∈ rv_servers r /\ exchange r server msg = Ok (Some resp)) /\
    (forall err, res = Err err -> Timeout ∈ events \/ CtxDone ∈ events \/
       forall i server resp, Arrive i Done ∈ events -> rv_servers r !! i = Some server -> exchange r server msg <> Ok (Some resp)).
Proof.
  intros (Hnd & Hin & Hend). destruct (collect_ends r msg (length (rv_servers r)) events Hin) as [res Hres].
  { destruct Hend as [?|[?|Hall]]; [by left|right; by left|]. right; right. rewrite <- (length_seq (length (rv_servers r)) 0).
    apply submseteq_length, NoDup_submseteq; [apply NoDup_ListNoDup, seq_NoDup|]. intros i [? ?]%elem_of_seq. apply Hall. lia. }
  exists res. split; [exact Hres|]. pose proof (collect_result _ _ _ _ _ Hres) as H. split.
  - intros resp ->. destruct H as (i & e & server & _ & Hs & He). exists server. split; [by eapply list_elem_of_lookup_2|]. by destruct e.
  - intros err ->. destruct H as [?|[?|(pre & [post ->] & Hl & Hf)]]; [by left|right; by left|]. right; right.
    intros i server resp Hi Hs He. assert (Harr : arrived post = []).
    { assert (Hpre : length (arrived pre) = length pre).
      { clear -Hf. induction pre as [|ev pre IH]; [done|]. destruct (Hf ev) as (j & e & s & -> & _); [by left|].
        change (arrived (Arrive j e :: pre)) with (j :: arrived pre). cbn [length]. f_equal. apply IH. intros ev' ?. apply Hf. by right. }
      unfold arrived in Hnd, Hin, Hpre |- *. rewrite omap_app in Hnd, Hin. apply nil_length_inv.
      assert (length (omap (fun ev => match ev with Arrive i _ => Some i | _ => None end) pre ++
        omap (fun ev => match ev with Arrive i _ => Some i | _ => None end) post) <= length (rv_servers r))%nat; [|rewrite length_app in *; lia].
      rewrite <- (length_seq (length (rv_servers r)) 0). apply submseteq_length, NoDup_submseteq; [done|].
      intros j Hj. apply elem_of_seq. specialize (Hin j Hj). lia. }
    apply elem_of_app in Hi as [Hi|Hi].
    + destruct (Hf _ Hi) as (j & e & s & [= <- <-] & Hj & Hno). rewrite Hs in Hj. injection Hj as <-. by apply (Hno resp).
    + assert (i ∈ arrived post) by (apply list_elem_of_omap; exists (Arrive i Done); done). rewrite Harr in *. set_solver.
Qed.
End query.

(** A server that never answers and one that does. *)
Definition ex_resolver : Resolver := mkResolver ["192.0.2.1:53"; "192.0.2.2:53"] "udp" (5 * Second).
Definition ex_query : Msg := new_update "example.org.".
Definition ex_exchange (m : Msg) (network server : string) : result (option Msg) :=
  if bool_decide (server = "192.0.2.2:53") then Ok (Some m) else Err "refused".

Lemma forward_first_answer_witness :
  arrival_schedule ex_resolver [Arrive 0 TimedOut; Arrive 1 Done] /\
  exists resp, Query ex_exchange ex_resolver ex_query [Arrive 0 TimedOut; Arrive 1 Done] = Some (Ok resp) /\
    exists server, server ∈ rv_servers ex_resolver /\ exchange ex_exchange ex_resolver server ex_query = Ok (Some resp).
Proof.
  assert (S : arrival_schedule ex_resolver [Arrive 0 TimedOut; Arrive 1 Done]).
  { split_and!; [repeat constructor; set_solver|cbn; set_solver by lia|]. right; right. intros [|[|i]] Hi; cbn in *; [set_solver|set_solver|lia]. }
  split; [exact S|]. destruct (forward_first_answer ex_exchange ex_resolver ex_query [Arrive 0 TimedOut; Arrive 1 Done] S) as (res & Hq & Hok & _).
  vm_compute in Hq. injection Hq as <-. eexists. split; [vm_compute; reflexivity|]. by apply Hok.
Defined.
