(* ===== verification/ProxyConfig.v ===== *)
(** * The proxy's configuration file

    config/config.go: the configuration, its defaults, its validation and the opcode routing it
    describes.  YAML is a parameter: what [yaml.Unmarshal] makes of a text and the defaults. *)

From Stdlib Require Import Ascii String ZArith Lia.
From S2P Require Import Prelude DnsName DnsData LeaseStore LeasePolicy SrpTiming GoStd HandlerSetup.

Local Open Scope Z_scope.

Record ProcessingConfig := mkProcessing { pc_Opcode : Z; pc_Modules : list string }.
Record UpstreamConfig := mkUpstream { uc_Address : string; uc_Protocol : string; uc_Timeout : Z }.
Record TLSConfig := mkTLS { tc_Address : string; tc_Cert : string; tc_Key : string }.
Record ServerConfig := mkServerConfig {
  svc_Address : string; svc_Networks : list string; svc_TLS : option TLSConfig; svc_RequestTimeout : Z }.

Record ProxyConfig := mkProxyConfig {
  pc_Server : ServerConfig;
  pc_Upstreams : list UpstreamConfig;
  pc_ProcessingRules : list ProcessingConfig;
  pc_Handlers : gmap string ConfigSection;
  pc_MaxInflightUpdates : Z }.

Definition NewDefaultConfig : ProxyConfig :=
  mkProxyConfig (mkServerConfig ":8053" ["udp"; "tcp"] None (15 * Second))
    [mkUpstream "8.8.8.8:53" "udp" (5 * Second); mkUpstream "1.1.1.1:53" "udp" (5 * Second)] [] ∅ 1.

(** The loop over the networks: the first "tls" decides. *)
Fixpoint check_networks (tls : option TLSConfig) (networks : list string) : result unit :=
  match networks with
  | [] => Ok tt
  | network :: networks =>
      if negb (bool_decide (network = "tls")) then check_networks tls networks
      else match tls with
      | None => Err "server.networks includes tls but server.tls is not configured"
      | Some t =>
          if bool_decide (tc_Address t = "") then Err "server.tls.address cannot be empty"
          else match SplitHostPort (tc_Address t) with
          | Err _ => Err "invalid server.tls.address"
          | Ok _ => if bool_decide (tc_Cert t = "") || bool_decide (tc_Key t = "")
                    then Err "server.tls.cert and server.tls.key are both required" else Ok tt
          end
      end
  end.

Definition check_rule (rule : ProcessingConfig) : result unit :=
  if 15 <? pc_Opcode rule then Err "opcode must be between 0-15"
  else match pc_Modules rule with
  | [] => Err "modules list cannot be empty"
  | modules => seqM (fun name => if bool_decide (name = "") then Err "name cannot be empty" else Ok tt) modules
  end.

(** The loop over the upstreams, which fills in their timeouts. *)
Fixpoint check_upstreams (upstreams : list UpstreamConfig) : result (list UpstreamConfig) :=
  match upstreams with
  | [] => Ok []
  | u :: rest =>
      if bool_decide (uc_Address u = "") then Err "address cannot be empty"
      else
        let u := if uc_Timeout u <=? 0 then mkUpstream (uc_Address u) (uc_Protocol u) (5 * Second) else u in
        rest ← check_upstreams rest; Ok (u :: rest)
  end.

(** [Validate]; it returns the configuration it may have changed. *)
Definition config_Validate (c : ProxyConfig) : result ProxyConfig :=
  let s := pc_Server c in
  if bool_decide (svc_Address s = "") then Err "server address cannot be empty"
  else match SplitHostPort (svc_Address s) with
  | Err _ => Err "invalid server address"
  | Ok _ =>
      match pc_Upstreams c with
      | [] => Err "at least one upstream must be configured"
      | upstreams =>
          if svc_RequestTimeout s <=? 0 then Err "server.request_timeout must be positive"
          else
            _ ← check_networks (svc_TLS s) (svc_Networks s);
            _ ← seqM check_rule (pc_ProcessingRules c);
            upstreams ← check_upstreams upstreams;
            if pc_MaxInflightUpdates c <? 0 then Err "authoritative.max_inflight_updates must be 0 (no limit) or more"
            else Ok (mkProxyConfig s upstreams (pc_ProcessingRules c) (pc_Handlers c) (pc_MaxInflightUpdates c))
      end
  end.

(** [LoadConfig]: the file's text, [Ok None] when it cannot be examined ([os.Stat] fails), and
    [Err] when it then cannot be read. *)
Definition LoadConfig (unmarshal : string -> ProxyConfig -> result ProxyConfig) (file : result (option string)) : result ProxyConfig :=
  match file with
  | Ok None => config_Validate NewDefaultConfig
  | Err _ => Err "read config"
  | Ok (Some data) =>
      match unmarshal data NewDefaultConfig with
      | Err _ => Err "parse config"
      | Ok cfg => config_Validate cfg
      end
  end.

Definition GetOpcodeMap (c : ProxyConfig) : gmap Z (list string) :=
  foldl (fun opcodeMap rule => <[pc_Opcode rule := pc_Modules rule]> opcodeMap) ∅ (pc_ProcessingRules c).

Definition GetKeystoreDir (c : ProxyConfig) : string :=
  match pc_Handlers c !! "update" with
  | None => ""
  | Some section => default "" (as_string (section !! "keystore_dir"))
  end.

Definition Use4ByteVariant (c : ProxyConfig) : bool :=
  match pc_Handlers c !! "update" with
  | None => false
  | Some section => default false (as_bool (section !! "prefer_4byte_variant"))
  end.

(** ** What validation promises *)

Record valid_config (c : ProxyConfig) : Prop := {
  vc_address : is_ok (SplitHostPort (svc_Address (pc_Server c))) = true;
  vc_timeout : 0 < svc_RequestTimeout (pc_Server c);
  vc_tls : "tls" ∈ svc_Networks (pc_Server c) -> exists t, svc_TLS (pc_Server c) = Some t /\
    is_ok (SplitHostPort (tc_Address t)) = true /\ tc_Cert t <> "" /\ tc_Key t <> "";
  vc_rules : Forall (fun rule => pc_Opcode rule <= 15 /\ pc_Modules rule <> [] /\ "" ∉ pc_Modules rule) (pc_ProcessingRules c);
  vc_upstreams : pc_Upstreams c <> [] /\ Forall (fun u => uc_Address u <> "" /\ 0 < uc_Timeout u) (pc_Upstreams c);
  vc_inflight : 0 <= pc_MaxInflightUpdates c }.

Lemma check_networks_ok tls networks :
  check_networks tls networks = Ok tt -> "tls" ∈ networks ->
  exists t, tls = Some t /\ is_ok (SplitHostPort (tc_Address t)) = true /\ tc_Cert t <> "" /\ tc_Key t <> "".
Proof.
  induction networks as [|network networks IH]; cbn [check_networks]; [set_solver|]. case_bool_decide as E; cbn [negb].
  - intros H _. destruct tls as [t|]; [|done]. case_bool_decide; [done|]. destruct (SplitHostPort (tc_Address t)) eqn:Es; [|done].
    destruct (_ || _) eqn:Hb; [done|]. rewrite orb_false_iff, !bool_decide_eq_false in Hb. exists t. rewrite Es. naive_solver.
  - intros H [?|?]%elem_of_cons; [congruence|auto].
Qed.

Lemma check_upstreams_ok us us' : check_upstreams us = Ok us' ->
  map uc_Address us' = map uc_Address us /\ map uc_Protocol us' = map uc_Protocol us /\ Forall (fun u => uc_Address u <> "" /\ 0 < uc_Timeout u) us'.
Proof.
  revert us'. induction us as [|u us IH]; intros us'; cbn [check_upstreams]; [by intros [= <-]|].
  case_bool_decide as E; [done|]. cbn zeta. intros (rest & Hr & [= <-])%bind_ok. destruct (IH _ Hr) as (Ha & Hp & Hf). cbn [map].
  destruct (Z.leb_spec (uc_Timeout u) 0); cbn; rewrite Ha, Hp; (split_and!; [done..|]); constructor; try done; cbn; split; try done.
Qed.

Lemma config_Validate_ok c c' : config_Validate c = Ok c' ->
  valid_config c' /\ pc_Server c' = pc_Server c /\ pc_ProcessingRules c' = pc_ProcessingRules c /\ pc_Handlers c' = pc_Handlers c /\
  pc_MaxInflightUpdates c' = pc_MaxInflightUpdates c /\ map uc_Address (pc_Upstreams c') = map uc_Address (pc_Upstreams c).
Proof.
  unfold config_Validate. cbn zeta. case_bool_decide; [done|]. destruct (SplitHostPort (svc_Address (pc_Server c))) as [hp|] eqn:Es; [|done].
  destruct (pc_Upstreams c) as [|u0 us] eqn:Eu; [done|]. destruct (Z.leb_spec (svc_RequestTimeout (pc_Server c)) 0); [done|].
  intros ([] & Hn & ([] & Hr & (us' & Hu & H')%bind_ok)%bind_ok)%bind_ok. destruct (Z.ltb_spec (pc_MaxInflightUpdates c) 0); [done|].
  injection H' as <-. destruct (check_upstreams_ok _ _ Hu) as (Ha & _ & Hf). cbn. split_and!; try done. split; cbn; try done.
  - by rewrite Es.
  - apply check_networks_ok. exact Hn.
  - apply Forall_forall. intros rule Hrule. pose proof (proj1 (foldM_ok_each _ _) Hr rule Hrule) as Hc. revert Hc. unfold check_rule. destruct (Z.ltb_spec 15 (pc_Opcode rule)); [done|].
    destruct (pc_Modules rule) as [|m ms] eqn:Em; [done|]. intros Hm. split_and!; [done..|]. intros Hin.
    pose proof (proj1 (foldM_ok_each _ _) Hm _ Hin) as He. cbn beta in He. by rewrite bool_decide_true in He.
  - split; [|done]. intros ->. by cbn in Ha.
Qed.
