(* ===== verification/ProxyMain.v ===== *)
(** * Starting the proxy

    cmd/sig0lease/main.go and server.New of server/server.go: environment overrides, the check
    that the handlers' lease stores are separate files, and the set-up of the server and of each
    enabled handler, in the order of main.  The exit of the process is an error here. *)

From Stdlib Require Import Ascii String ZArith Lia.
From S2P Require Import Prelude DnsName DnsData NodeIdent LeaseStore LeaseTree LeaseInv LeaseSpec LeaseOption LeasePolicy UpdateCore HandlerBase Expiry.
From S2P Require Import UpdateHandler UpdateFootprint UpdateTheorems DnsSd SrpClassify SrpValidate SrpHandler SrpEffects SrpTheorems.
From S2P Require Import GoQuote AtomicFile LeaseSnapshot Inflight Router SrpTiming Sig0Signer KeyFiles GoStd HandlerSetup Forward ProxyConfig.

Local Open Scope Z_scope.

(** ** Environment overrides *)

Section overrides.
(** [os.Getenv]. *)
Context (getenv : string -> string).

Definition setUintEnv (envName field : string) (dst : ConfigSection) : ConfigSection :=
  if bool_decide (getenv envName = "") then dst
  else match ParseUint (getenv envName) with Some n => <[field := VUint32 n]> dst | None => dst end.

(** The nested policy map of the section is written in place; its new value is all that is read
    of it afterwards. *)
Definition applyUpdateHandlerEnvOverrides (cfg : ConfigSection) : ConfigSection :=
  let out := cfg in
  let out := if bool_decide (getenv "UPSTREAM_ZONE" = "") then out else <["upstream_zone" := VString (getenv "UPSTREAM_ZONE")]> out in
  let out := if bool_decide (getenv "KEYSTORE_DIR" = "") then out else <["keystore_dir" := VString (getenv "KEYSTORE_DIR")]> out in
  let out := if bool_decide (getenv "ALLOW_ONLINE_KEY_REGISTRATION" = "") then out
             else match ParseBool (getenv "ALLOW_ONLINE_KEY_REGISTRATION") with
             | Some b => <["allow_online_key_registration" := VBool b]> out
             | None => out
             end in
  let rawPolicy := match out !! "lease_policy" with Some (VMap m) => m | _ => ∅ end in
  let rawPolicy := setUintEnv "POLICY_MIN_KEY_LEASE" "min_key_lease_sec" rawPolicy in
  let rawPolicy := setUintEnv "POLICY_MAX_KEY_LEASE" "max_key_lease_sec" rawPolicy in
  let rawPolicy := setUintEnv "POLICY_MIN_RR_LEASE" "min_rr_lease_sec" rawPolicy in
  let rawPolicy := setUintEnv "POLICY_MAX_RR_LEASE" "max_rr_lease_sec" rawPolicy in
  if bool_decide (rawPolicy = ∅) then out else <["lease_policy" := VMap rawPolicy]> out.

Definition withBootstrapResolvers (handlerCfg : ConfigSection) (appCfg : ProxyConfig) : ConfigSection :=
  match handlerCfg !! "bootstrap_resolvers" with
  | Some _ => handlerCfg
  | None =>
      match filter (fun a => a <> "") (map uc_Address (pc_Upstreams appCfg)) with
      | [] => handlerCfg
      | addrs => <["bootstrap_resolvers" := VStrings addrs]> handlerCfg
      end
  end.

(** ** Modules *)

(** [slices.Compact] of a sorted list. *)
Fixpoint Compact (l : list string) : list string :=
  match l with
  | x :: (y :: _) as rest => if bool_decide (x = y) then Compact rest else x :: Compact rest
  | _ => l
  end.

Definition enabledModules (cfg : ProxyConfig) : list string :=
  Compact (merge_sort String.le (concat (map snd (map_to_list (GetOpcodeMap cfg))))).

Inductive Module_ := ModUpdate | ModSRP.

Definition section_of (cfg : ProxyConfig) (name : string) : ConfigSection := default ∅ (pc_Handlers cfg !! name).

Definition newHandler (moduleName : string) (cfg : ProxyConfig) : option (Module_ * ConfigSection) :=
  if bool_decide (moduleName = "update_handler")
  then Some (ModUpdate, withBootstrapResolvers (applyUpdateHandlerEnvOverrides (section_of cfg "update")) cfg)
  else if bool_decide (moduleName = "srp_handler")
  then Some (ModSRP, withBootstrapResolvers (section_of cfg "srp_handler") cfg)
  else None.
End overrides.

(** ** Separate lease stores *)

(** [filepath.Abs] on Unix, with the working directory: the path's components without empty ones
    and dots, and with each ".." taking away the one before it. *)
Fixpoint SplitSlash (s : string) : list string :=
  match s with
  | EmptyString => [""]
  | String c s =>
      if bool_decide (c = "/"%char) then "" :: SplitSlash s
      else match SplitSlash s with x :: l => String c x :: l | [] => [String c ""] end
  end.

Definition clean_component (stack : list string) (c : string) : list string :=
  if bool_decide (c = "") || bool_decide (c = ".") then stack
  else if bool_decide (c = "..") then tail stack
  else c :: stack.

Definition Abs (cwd : option string) (path : string) : result string :=
  let clean p := Ok ("/" +:+ String.concat "/" (rev (foldl clean_component [] (SplitSlash p)))) in
  if HasPrefix path "/" then clean path
  else match cwd with
  | None => Err "getwd"
  | Some d => clean (d +:+ "/" +:+ path)
  end.

(** [os.Stat]: which file a path leads to. *)
Inductive Stat := StatFile (id : Z) | StatNotExist | StatError.

Section files.
Context (cwd : option string) (stat : string -> Stat).

Definition sameFile (a b : string) : result bool :=
  absA ← Abs cwd a;
  absB ← Abs cwd b;
  if bool_decide (absA = absB) then Ok true
  else match stat absA with
  | StatNotExist => Ok false
  | StatError => Err "stat"
  | StatFile idA =>
      match stat absB with
      | StatNotExist => Ok false
      | StatError => Err "stat"
      | StatFile idB => Ok (idA =? idB)
      end
  end.

Definition checkSeparateLeaseStores (cfg : ProxyConfig) : result unit :=
  let enabled := enabledModules cfg in
  if negb (bool_decide ("update_handler" ∈ enabled)) || negb (bool_decide ("srp_handler" ∈ enabled)) then Ok tt
  else
    updatePath ← wrap_err "handlers.update" (LeaseSnapshotPath (section_of cfg "update"));
    srpPath ← wrap_err "handlers.srp_handler" (LeaseSnapshotPath (section_of cfg "srp_handler"));
    if bool_decide (updatePath = "") || bool_decide (srpPath = "") then Ok tt
    else
      same ← sameFile updatePath srpPath;
      if (same : bool) then Err "update_handler and srp_handler must each have their own lease store" else Ok tt.
End files.

(** ** The server *)

Record Server := mkServer { sv_resolver : Resolver; sv_opcodeMap : gmap Z (list string); sv_requestTimeout : Z; sv_address : string; sv_networks : list string }.

(** [server.New]; the router it makes is [NewRouter] of these. *)
Definition server_New (cfg : ProxyConfig) : result Server :=
  match pc_Upstreams cfg with
  | [] => Err "at least one upstream server required in config"
  | first :: _ =>
      let fwdServers := filter (fun a => a <> "") (map uc_Address (pc_Upstreams cfg)) in
      resolver ← wrap_err "create resolver" (NewResolver fwdServers (uc_Protocol first) (uc_Timeout first));
      _ ← wrap_err "create router" (NewRouter (St := unit) (GetOpcodeMap cfg) None (svc_RequestTimeout (pc_Server cfg)));
      Ok (mkServer resolver (GetOpcodeMap cfg) (svc_RequestTimeout (pc_Server cfg)) (svc_Address (pc_Server cfg)) (svc_Networks (pc_Server cfg)))
  end.

(** ** main *)

(** The registered handlers, each with its coordinator and its lease store. *)
Record Modules := mkModules {
  md_update : option (UpdateHandler * Coordinator * Manager);
  md_srp : option (SRPHandler * Coordinator * Manager) }.

Record Running := mkRunning { rn_server : Server; rn_limiter : inflightLimiter; rn_modules : Modules }.

Section main.
Context {L : DnsLib} {W : WireCodec} {T : Unicode} {J : SnapshotJson} {C : Crypto} {K : KeyLib}.
(** What each module's Setup finds outside. *)
Context (env : Module_ -> SetupEnv) (getenv : string -> string) (cwd : option string) (stat : string -> Stat).

(** The registration loop over the module names of all opcodes. *)
Fixpoint register_modules (cfg : ProxyConfig) (names : list string) (registered : gset string) (ms : Modules) (fs : FS) : list FS * result Modules :=
  match names with
  | [] => ([fs], Ok ms)
  | moduleName :: names =>
      if bool_decide (moduleName ∈ registered) then register_modules cfg names registered ms fs
      else match newHandler getenv moduleName cfg with
      | None => register_modules cfg names registered ms fs
      | Some (ModUpdate, handlerCfg) =>
          match UpdateHandler_Setup (env ModUpdate) handlerCfg fs with
          | (trace, Err _) => (trace, Err "Failed to setup update_handler")
          | (trace, Ok h) =>
              let '(rest, r) := register_modules cfg names ({[moduleName]} ∪ registered) (mkModules (Some h) (md_srp ms)) (final fs trace) in
              (trace ++ rest, r)
          end
      | Some (ModSRP, handlerCfg) =>
          match SRPHandler_Setup (env ModSRP) handlerCfg fs with
          | (trace, Err _) => (trace, Err "Failed to setup srp_handler")
          | (trace, Ok h) =>
              let '(rest, r) := register_modules cfg names ({[moduleName]} ∪ registered) (mkModules (md_update ms) (Some h)) (final fs trace) in
              (trace ++ rest, r)
          end
      end
  end.

Definition set_address (address : string) (cfg : ProxyConfig) : ProxyConfig :=
  let s := pc_Server cfg in
  mkProxyConfig (mkServerConfig address (svc_Networks s) (svc_TLS s) (svc_RequestTimeout s)) (pc_Upstreams cfg) (pc_ProcessingRules cfg)
    (pc_Handlers cfg) (pc_MaxInflightUpdates cfg).

(** The part before the server: nothing is set up yet. *)
Definition main_checks (cfg : ProxyConfig) : result inflightLimiter :=
  limiter ← wrap_err "Error applying authoritative.max_inflight_updates" (SetMaxInflightUpdates (pc_MaxInflightUpdates cfg) (newInflightLimiter DefaultMaxInflightUpdates));
  _ ← wrap_err "Error in lease storage configuration" (checkSeparateLeaseStores cwd stat cfg);
  Ok limiter.

(** [main] up to Serve, for a loaded configuration. *)
Definition proxy_main (config : result ProxyConfig) (fs : FS) : list FS * result Running :=
  match config with
  | Err _ => ([fs], Err "Error loading config")
  | Ok cfg =>
      match main_checks cfg with
      | Err e => ([fs], Err e)
      | Ok limiter =>
          let cfg := if bool_decide (getenv "SERVER_ADDRESS" = "") then cfg else set_address (getenv "SERVER_ADDRESS") cfg in
          match server_New cfg with
          | Err _ => ([fs], Err "Error creating server")
          | Ok srv =>
              let '(trace, r) := register_modules cfg (concat (map snd (map_to_list (GetOpcodeMap cfg)))) ∅ (mkModules None None) fs in
              (trace, ms ← r; Ok (mkRunning srv limiter ms))
          end
      end
  end.
End main.

(** ** Overrides keep the rest *)

Definition override_keys : list string := ["upstream_zone"; "keystore_dir"; "allow_online_key_registration"; "lease_policy"].

Lemma overrides_frame getenv cfg k : k ∉ override_keys -> applyUpdateHandlerEnvOverrides getenv cfg !! k = cfg !! k.
Proof.
  intros Hk. unfold override_keys in Hk. rewrite !not_elem_of_cons in Hk. destruct Hk as (? & ? & ? & ? & _).
  unfold applyUpdateHandlerEnvOverrides. cbn zeta. repeat case_bool_decide; repeat (destruct (ParseBool _)); by simplify_map_eq.
Qed.

Lemma resolvers_frame cfg app k : k <> "bootstrap_resolvers" -> withBootstrapResolvers cfg app !! k = cfg !! k.
Proof. intros Hk. unfold withBootstrapResolvers. repeat case_match; by simplify_map_eq. Qed.

Lemma setUintEnv_num getenv envName field m k v :
  setUintEnv getenv envName field m !! k = Some v -> (forall v, m !! k = Some v -> num_ok v) -> num_ok v.
Proof.
  unfold setUintEnv. case_bool_decide; [eauto|]. destruct (ParseUint _) as [n|] eqn:E; [|eauto]. intros Hl Hm.
  apply lookup_insert_Some in Hl as [[_ <-]|[_ Hl]]; [|eauto]. by apply ParseUint_range in E.
Qed.

Lemma overrides_numbers getenv cfg : numbers_ok cfg -> numbers_ok (applyUpdateHandlerEnvOverrides getenv cfg).
Proof.
  intros [Ht Hp]. split; [rewrite overrides_frame by set_solver; done|].
  unfold applyUpdateHandlerEnvOverrides. cbn zeta. set (out := if bool_decide (getenv "ALLOW_ONLINE_KEY_REGISTRATION" = "") then _ else _).
  assert (Hout : out !! "lease_policy" = cfg !! "lease_policy").
  { unfold out. repeat case_bool_decide; repeat (destruct (ParseBool _)); by simplify_map_eq. }
  set (m0 := match out !! "lease_policy" with Some (VMap m) => m | _ => ∅ end).
  assert (Hm0 : forall k v, m0 !! k = Some v -> num_ok v).
  { unfold m0. rewrite Hout. intros k v. destruct (cfg !! "lease_policy") as [[]|] eqn:E; try (by rewrite lookup_empty). by apply Hp. }
  intros m k v. case_bool_decide; [rewrite Hout; apply Hp|]. rewrite lookup_insert_eq. intros [= <-].
  intros Hv. do 4 (eapply setUintEnv_num; [exact Hv|]; clear Hv; intros ? Hv). by eapply Hm0.
Qed.

Lemma resolvers_numbers cfg app : numbers_ok cfg -> numbers_ok (withBootstrapResolvers cfg app).
Proof. intros [Ht Hp]. split; [by rewrite resolvers_frame|]. by setoid_rewrite resolvers_frame. Qed.

(** ** Modules *)

Lemma Compact_cons a b l : Compact (a :: b :: l) = if bool_decide (a = b) then Compact (b :: l) else a :: Compact (b :: l).
Proof. done. Qed.

Lemma elem_of_Compact x l : x ∈ Compact l <-> x ∈ l.
Proof.
  induction l as [|a [|b l] IH]; [done..|]. rewrite Compact_cons. case_bool_decide as E.
  - rewrite IH. set_solver.
  - by rewrite !(elem_of_cons _ _ a), IH.
Qed.

Definition module_names (cfg : ProxyConfig) : list string := concat (map snd (map_to_list (GetOpcodeMap cfg))).

Lemma elem_of_enabled x cfg : x ∈ enabledModules cfg <-> x ∈ module_names cfg.
Proof. unfold enabledModules, module_names. by rewrite elem_of_Compact, merge_sort_Permutation. Qed.

Section main_theorems.
Context {L : DnsLib} {W : WireCodec} {T : Unicode} {J : SnapshotJson} {C : Crypto} {K : KeyLib}.
Context (env : Module_ -> SetupEnv) (getenv : string -> string) (cwd : option string) (stat : string -> Stat).

Definition update_section (cfg : ProxyConfig) : ConfigSection :=
  withBootstrapResolvers (applyUpdateHandlerEnvOverrides getenv (section_of cfg "update")) cfg.
Definition srp_section (cfg : ProxyConfig) : ConfigSection := withBootstrapResolvers (section_of cfg "srp_handler") cfg.

(** A module was set up from its section, once, on the disk as it was then. *)
Definition update_set (cfg : ProxyConfig) (h : UpdateHandler * Coordinator * Manager) : Prop :=
  exists fs trace, UpdateHandler_Setup (env ModUpdate) (update_section cfg) fs = (trace, Ok h).
Definition srp_set (cfg : ProxyConfig) (h : SRPHandler * Coordinator * Manager) : Prop :=
  exists fs trace, SRPHandler_Setup (env ModSRP) (srp_section cfg) fs = (trace, Ok h).

Lemma not_this x n names (reg : gset string) :
  n ∈ reg \/ n <> x -> bool_decide (x ∈ n :: names /\ x ∉ reg) = bool_decide (x ∈ names /\ x ∉ reg).
Proof. intros H. apply bool_decide_ext. rewrite elem_of_cons. destruct H as [H|H]; naive_solver. Qed.

Lemma register_modules_spec cfg names registered ms fs trace ms' :
  register_modules env getenv cfg names registered ms fs = (trace, Ok ms') ->
  (if bool_decide ("update_handler" ∈ names /\ "update_handler" ∉ registered)
   then exists h, md_update ms' = Some h /\ update_set cfg h else md_update ms' = md_update ms) /\
  (if bool_decide ("srp_handler" ∈ names /\ "srp_handler" ∉ registered)
   then exists h, md_srp ms' = Some h /\ srp_set cfg h else md_srp ms' = md_srp ms).
Proof.
  revert registered ms fs trace. induction names as [|n names IH]; intros registered ms fs trace; cbn [register_modules].
  { intros [= _ <-]. rewrite !bool_decide_false by set_solver. done. }
  case_bool_decide as Hreg.
  { intros H. rewrite !not_this by auto. by eapply IH. }
  unfold newHandler. case_bool_decide as Hu; [|case_bool_decide as Hs].
  - subst n. fold (update_section cfg). destruct (UpdateHandler_Setup (env ModUpdate) (update_section cfg) fs) as [tr [h|]] eqn:E; [|done].
    destruct (register_modules _ _ _ _ _ _ _) as [rest r] eqn:Er. intros [= <- ->]. destruct (IH _ _ _ _ Er) as [H1 H2].
    rewrite bool_decide_false in H1 by set_solver. rewrite (bool_decide_true ("update_handler" ∈ _ /\ _)) by set_solver. split.
    + exists h. split; [done|]. by exists fs, tr.
    + rewrite (bool_decide_ext ("srp_handler" ∈ "update_handler" :: names /\ _) ("srp_handler" ∈ names /\ "srp_handler" ∉ {["update_handler"]} ∪ registered))
        by (rewrite elem_of_cons, not_elem_of_union, not_elem_of_singleton; naive_solver). done.
  - subst n. fold (srp_section cfg). destruct (SRPHandler_Setup (env ModSRP) (srp_section cfg) fs) as [tr [h|]] eqn:E; [|done].
    destruct (register_modules _ _ _ _ _ _ _) as [rest r] eqn:Er. intros [= <- ->]. destruct (IH _ _ _ _ Er) as [H1 H2].
    rewrite bool_decide_false in H2 by set_solver. rewrite (bool_decide_true ("srp_handler" ∈ _ /\ _)) by set_solver. split.
    + rewrite (bool_decide_ext ("update_handler" ∈ "srp_handler" :: names /\ _) ("update_handler" ∈ names /\ "update_handler" ∉ {["srp_handler"]} ∪ registered))
        by (rewrite elem_of_cons, not_elem_of_union, not_elem_of_singleton; naive_solver). done.
    + exists h. split; [done|]. by exists fs, tr.
  - intros H. rewrite !not_this by auto. by eapply IH.
Qed.

Lemma sameFile_false a b : sameFile cwd stat a b = Ok false ->
  exists x y, Abs cwd a = Ok x /\ Abs cwd b = Ok y /\ x <> y /\ forall i j, stat x = StatFile i -> stat y = StatFile j -> i <> j.
Proof.
  unfold sameFile. intros (x & Hx & (y & Hy & H)%bind_ok)%bind_ok. case_bool_decide as Hne; [done|]. exists x, y. split_and!; [done..|].
  intros i j Ei Ej. rewrite Ei, Ej in H. injection H as H. lia.
Qed.

Lemma LeaseSnapshotPath_frame cfg cfg' :
  cfg' !! "storage" = cfg !! "storage" -> cfg' !! "lease_manager" = cfg !! "lease_manager" -> LeaseSnapshotPath cfg' = LeaseSnapshotPath cfg.
Proof. intros H1 H2. unfold LeaseSnapshotPath, selectLeaseStore. by rewrite H1, H2. Qed.

(** The file a handler was given is the one the check looked at. *)
Lemma file_store_path e cfg fs fl p :
  store_of_config e cfg fs (OnFile fl) -> LeaseSnapshotPath cfg = Ok p -> p = fl_path fl /\ p <> "".
Proof.
  intros (sec & Hs & Hl & [(s & Hty & Hlow) [Hp Hne] _] & _). unfold LeaseSnapshotPath, selectLeaseStore. rewrite Hl, Hs. cbn [present].
  destruct (wrap_err "storage" (parseLeaseStorageConfig sec)) as [sc|] eqn:E; [|done]. cbn. intros [= <-]. apply wrap_err_ok, parseLeaseStorageConfig_ok in E.
  destruct E as [[[E|(s' & E & Hlow')] _]|[[_ [Hp' _] _] Hne']].
  - congruence.
  - rewrite Hty in E. injection E as <-. congruence.
  - split; [congruence|done].
Qed.

Lemma separate_stores cfg pu ps :
  checkSeparateLeaseStores cwd stat cfg = Ok tt -> "update_handler" ∈ module_names cfg -> "srp_handler" ∈ module_names cfg ->
  exists pu' ps', LeaseSnapshotPath (section_of cfg "update") = Ok pu' /\ LeaseSnapshotPath (section_of cfg "srp_handler") = Ok ps' /\
    (pu' = pu -> ps' = ps -> pu <> "" -> ps <> "" -> sameFile cwd stat pu ps = Ok false).
Proof.
  unfold checkSeparateLeaseStores. cbn zeta. intros H Hu Hs. rewrite <- elem_of_enabled in Hu, Hs. rewrite !bool_decide_true in H by done. cbn [negb orb] in H.
  apply bind_ok in H as (pu' & Hpu%wrap_err_ok & (ps' & Hps%wrap_err_ok & H)%bind_ok). exists pu', ps'. split_and!; [done..|].
  intros -> -> Hnu Hns. rewrite !bool_decide_false in H by done. cbn [orb] in H. apply bind_ok in H as (same & Hsame & H).
  by destruct same.
Qed.

Lemma hook_keeps_file m fl : set_manager_hook m = OnFile fl -> exists fl0, m = OnFile fl0 /\ fl_path fl0 = fl_path fl.
Proof. destruct m as [|fl0]; [done|]. intros [= <-]. by exists fl0. Qed.

Lemma main_parts cfg fs trace run :
  proxy_main env getenv cwd stat (Ok cfg) fs = (trace, Ok run) ->
  main_checks cwd stat cfg = Ok (rn_limiter run) /\
  sv_requestTimeout (rn_server run) = svc_RequestTimeout (pc_Server cfg) /\
  (if bool_decide ("update_handler" ∈ module_names cfg) then exists h, md_update (rn_modules run) = Some h /\ update_set cfg h
   else md_update (rn_modules run) = None) /\
  (if bool_decide ("srp_handler" ∈ module_names cfg) then exists h, md_srp (rn_modules run) = Some h /\ srp_set cfg h
   else md_srp (rn_modules run) = None).
Proof.
  unfold proxy_main. destruct (main_checks cwd stat cfg) as [limiter|]; [|done]. set (cfg' := if bool_decide _ then cfg else _).
  assert (Hc : pc_Handlers cfg' = pc_Handlers cfg /\ pc_Upstreams cfg' = pc_Upstreams cfg /\ GetOpcodeMap cfg' = GetOpcodeMap cfg /\
    svc_RequestTimeout (pc_Server cfg') = svc_RequestTimeout (pc_Server cfg)) by (unfold cfg'; by case_bool_decide).
  destruct Hc as (Hh & Hup & Ho & Ht). destruct (server_New cfg') as [srv|] eqn:Esrv; [|done].
  fold (module_names cfg'). assert (Hn : module_names cfg' = module_names cfg) by (unfold module_names; by rewrite Ho). rewrite Hn.
  destruct (register_modules _ _ _ _ _ _ _) as [tr r] eqn:Er. intros [= <- Hr]. apply bind_ok in Hr as (ms & -> & [= <-]). cbn.
  apply register_modules_spec in Er as [H1 H2]. cbn in H1, H2.
  assert (Hus : update_section cfg' = update_section cfg) by (unfold update_section, withBootstrapResolvers, section_of; by rewrite Hh, Hup).
  assert (Hss : srp_section cfg' = srp_section cfg) by (unfold srp_section, withBootstrapResolvers, section_of; by rewrite Hh, Hup).
  unfold update_set, srp_set in *. rewrite Hus in H1. rewrite Hss in H2. split_and!; [done| | |].
  - revert Esrv. unfold server_New. destruct (pc_Upstreams cfg'); [done|]. cbn zeta. intros (rv & _ & (? & _ & [= <-])%bind_ok)%bind_ok. done.
  - revert H1. repeat case_bool_decide; try done; exfalso; set_solver.
  - revert H2. repeat case_bool_decide; try done; exfalso; set_solver.
Qed.

Lemma registered_iff {A} (b : Prop) `{Decision b} (o : option A) (P : A -> Prop) :
  (if bool_decide b then exists h, o = Some h /\ P h else o = None) -> (b <-> is_Some o) /\ forall h, o = Some h -> b /\ P h.
Proof. case_bool_decide; [intros (h & -> & Hh); split; [by split; eauto|by intros ? [= <-]]|intros ->; split; [by split; [|intros []]|done]]. Qed.

Lemma update_set_parts cfg h c m : numbers_ok (section_of cfg "update") -> update_set cfg (h, c, m) -> exists fs0 m0,
  set_up (env ModUpdate) (update_section cfg) fs0 (h_upstreamZone h) (h_upstreamKey h) (h_LeasePolicy h) (h_recordTTL h) c m0 /\
  (m = m0 \/ m = set_manager_hook m0).
Proof.
  intros N (fs0 & tr & H). apply update_set_up in H as (m0 & ? & ? & _); [|by apply resolvers_numbers, overrides_numbers].
  exists fs0, m0. split; [done|naive_solver].
Qed.

Lemma srp_set_parts cfg h c m : numbers_ok (section_of cfg "srp_handler") -> srp_set cfg (h, c, m) -> exists fs0,
  set_up (env ModSRP) (srp_section cfg) fs0 (s_upstreamZone h) (s_upstreamKey h) (s_LeasePolicy h) (s_recordTTL h) c m.
Proof. intros N (fs0 & tr & H). apply srp_set_up in H as [? _]; [|by apply resolvers_numbers]. eauto. Qed.

(** The stores of two registered handlers, when both are on files. *)
Lemma different_files cfg e e' fs fs' m fu fls :
  checkSeparateLeaseStores cwd stat cfg = Ok tt -> "update_handler" ∈ module_names cfg -> "srp_handler" ∈ module_names cfg ->
  store_of_config e (update_section cfg) fs m -> OnFile fu = m \/ OnFile fu = set_manager_hook m ->
  store_of_config e' (srp_section cfg) fs' (OnFile fls) ->
  exists a b, Abs cwd (fl_path fu) = Ok a /\ Abs cwd (fl_path fls) = Ok b /\ a <> b /\ forall i j, stat a = StatFile i -> stat b = StatFile j -> i <> j.
Proof.
  intros Hsep Hinu Hins SU Hm SS. assert (Hfu : exists fl0, m = OnFile fl0 /\ fl_path fl0 = fl_path fu).
  { destruct Hm as [<- | Hm]; [by exists fu|]. symmetry in Hm. by apply hook_keeps_file in Hm. }
  destruct Hfu as (fl0 & -> & Hpath). destruct (separate_stores cfg (fl_path fu) (fl_path fls) Hsep Hinu Hins) as (pu & ps & Hpu & Hps & Hsame).
  assert (Hpu' : LeaseSnapshotPath (update_section cfg) = Ok pu).
  { rewrite <- Hpu. apply LeaseSnapshotPath_frame; unfold update_section; rewrite resolvers_frame, overrides_frame by (done || set_solver); done. }
  assert (Hps' : LeaseSnapshotPath (srp_section cfg) = Ok ps).
  { rewrite <- Hps. apply LeaseSnapshotPath_frame; unfold srp_section; by rewrite resolvers_frame. }
  destruct (file_store_path _ _ _ _ _ SU Hpu') as [-> Hn1]. destruct (file_store_path _ _ _ _ _ SS Hps') as [-> Hn2]. rewrite Hpath in *.
  apply sameFile_false. by apply Hsame.
Qed.
End main_theorems.

Lemma filter_keeps {A} (keep : A -> Prop) `{!forall a, Decision (keep a)} all : Forall keep all -> filter keep all = all.
Proof. induction 1 as [|a rest Ha _ IH]; [done|]. rewrite filter_cons_True by done. by f_equal. Qed.

(** [C22] A configuration that loads can be served.  What [LoadConfig] returns has a positive
    request timeout, complete TLS settings if TLS is on, opcodes and modules the router can use
    and upstreams with addresses and positive timeouts; with it the limit of UPDATEs in flight is
    accepted and the server is created, forwarding to the configured addresses; and without a
    file the defaults load. *)
Theorem loaded_config_serves (unmarshal : string -> ProxyConfig -> result ProxyConfig) (file : result (option string)) (cfg : ProxyConfig) :
  LoadConfig unmarshal file = Ok cfg ->
  valid_config cfg /\
  (exists l, SetMaxInflightUpdates (pc_MaxInflightUpdates cfg) (newInflightLimiter DefaultMaxInflightUpdates) = Ok l /\ l_max l = Z.to_nat (pc_MaxInflightUpdates cfg)) /\
  (exists srv, server_New cfg = Ok srv /\ rv_servers (sv_resolver srv) = map uc_Address (pc_Upstreams cfg) /\ 0 < rv_timeout (sv_resolver srv)) /\
  is_ok (LoadConfig unmarshal (Ok None)) = true.
Proof.
  intros H. assert (V : valid_config cfg).
  { unfold LoadConfig in H. destruct file as [[data|]|]; [destruct (unmarshal data _); [|done]| |done]; by apply config_Validate_ok in H as [H _]. }
  split; [done|]. split; [|split; [|vm_compute; reflexivity]].
  - unfold SetMaxInflightUpdates. pose proof (vc_inflight _ V). destruct (Z.ltb_spec (pc_MaxInflightUpdates cfg) 0); [lia|]. by eexists.
  - destruct (vc_upstreams _ V) as [Hne Hall]. unfold server_New. destruct (pc_Upstreams cfg) as [|u us] eqn:E; [done|]. cbn zeta.
    assert (Hf : filter (fun a => a <> "") (map uc_Address (u :: us)) = map uc_Address (u :: us)).
    { apply filter_keeps, Forall_map. eapply Forall_impl; [exact Hall|]. by intros ? [? _]. }
    rewrite Hf. cbn [NewResolver map wrap_err mbind result_bind]. unfold NewRouter. pose proof (vc_timeout _ V).
    destruct (Z.leb_spec (svc_RequestTimeout (pc_Server cfg)) 0); [lia|]. cbn. eexists. split; [done|]. cbn. split; [done|].
    apply Forall_cons in Hall as [[_ ?] _]. destruct (Z.leb_spec (uc_Timeout u) 0); [lia|done].
Qed.


(** ** A concrete start: both handlers below the demo key's zone *)
Module DemoMain.
Definition srp_cfg : ConfigSection :=
  {[ "upstream_zone" := VString "srp.host.example.org."; "keystore_dir" := VString "keys"; "allow_udp" := VBool true ]}.
Definition config : ProxyConfig :=
  mkProxyConfig (pc_Server NewDefaultConfig) (pc_Upstreams NewDefaultConfig) [mkProcessing 5 ["srp_handler"; "update_handler"]]
    {[ "update" := DemoSetup.cfg; "srp_handler" := srp_cfg ]} 1.
Definition getenv (name : string) : string := if bool_decide (name = "POLICY_MAX_RR_LEASE") then "7200" else "".
Definition start : list FS * result Running :=
  proxy_main (L := Demo.lib) (W := DemoCodec.wire) (T := demo_unicode) (J := DemoSetup.json) (C := DemoSig.crypto) (K := DemoKeys.lib)
    (fun _ => DemoSetup.env) getenv (Some "/") (fun _ => StatNotExist) (Ok config) DemoSetup.disk.

Lemma main_started : exists run, start = (start.1, Ok run).
Proof.
  assert (Hok : is_ok start.2 = true) by (vm_compute; reflexivity). destruct start as [tr [run|]]; [by exists run|done].
Qed.

Lemma numbers_both : numbers_ok (section_of config "update") /\ numbers_ok (section_of config "srp_handler").
Proof.
  assert (E : section_of config "update" = DemoSetup.cfg) by reflexivity. rewrite E. split; [exact DemoSetup.numbers|].
  assert (H1 : section_of config "srp_handler" !! "record_ttl_sec" = None) by (vm_compute; reflexivity).
  assert (H2 : section_of config "srp_handler" !! "lease_policy" = None) by (vm_compute; reflexivity).
  split; [intros v H|intros m k v H]; congruence.
Qed.

Lemma names_both : module_names config = ["srp_handler"; "update_handler"].
Proof. vm_compute. reflexivity. Qed.
End DemoMain.

Lemma loaded_config_serves_witness :
  exists srv, server_New NewDefaultConfig = Ok srv /\ rv_servers (sv_resolver srv) = ["8.8.8.8:53"; "1.1.1.1:53"] /\ 0 < rv_timeout (sv_resolver srv).
Proof.
  destruct (loaded_config_serves (fun _ c => Ok c) (Ok None) NewDefaultConfig ltac:(vm_compute; reflexivity)) as (_ & _ & H & _). exact H.
Defined.


(** A zone without its final dot is accepted, and with the rewrite of default.service.arpa. on, the
    names of a client's update lose theirs. *)
Example undotted_zone_rewritten :
  is_ok (SRPHandler_Setup (L := Demo.lib) (W := DemoCodec.wire) (T := demo_unicode) (J := DemoSetup.json) (C := DemoSig.crypto) (K := DemoKeys.lib) DemoSetup.env
    {[ "upstream_zone" := VString "srp.host.example.org"; "keystore_dir" := VString "keys"; "rewrite_default_service_arpa" := VBool true ]}
    DemoSetup.disk).2 = true /\
  rewriteZoneSuffix "printer.default.service.arpa." "srp.host.example.org" = "printer.srp.host.example.org".
Proof. vm_compute. split; reflexivity. Qed.
