(* ===== verification/LeaseClient.v ===== *)
(** * The RFC 9664 command line client

    cmd/sig0lease-client/main.go, pkg/dnsmsg/update.go and client/client.go: the flags and
    arguments of register and refresh, the key they name, the request built and signed from
    them, its exchange with the proxy and what is read from the answer.  A fatal error (a
    message and os.Exit(1)) is [Err]; what is printed on the way is left out.  The parser of
    records (dns.New), packing and the sockets are parameters. *)

From Stdlib Require Import Ascii String ZArith Lia.
From S2P Require Import Prelude DnsName DnsData LeaseOption LeasePolicy LeaseStore NodeIdent UpdateCore HandlerBase Expiry UpdateHandler.
From S2P Require Import GoQuote Sig0Signer KeyFiles GoStd SrpRequest SrpTiming SrpEndToEnd.

Local Open Scope Z_scope.

(** ** pkg/dnsmsg/update.go *)

Section dnsmsg.
Context {L : DnsLib}.

Definition NewLeaseUpdate (zone : string) (keyRRs : list KEY) (additional : list RR) (leaseDuration keyLeaseDuration : Z) : result Msg :=
  if all_space zone then Err "zone cannot be empty"
  else
    let msg := new_update zone in
    if bool_decide (keyRRs = []) && negb (keyLeaseDuration =? 0) then Err "keyRRs not present but keyLeaseDuration != 0"
    else
      let leaseOpt := Encode8Byte leaseDuration keyLeaseDuration in
      _ ← Validate leaseOpt;
      options ← Encode leaseOpt [];
      let opt := mkRR (mkHeader "." (DefaultMsgSize mod 2 ^ 16) 0) (RD_OPT options) in
      Ok (mkMsg (MsgHdr msg) (Question msg) (Answer msg) (Ns msg ++ map KEY_RR keyRRs ++ additional) (Extra msg ++ [opt]) (Pseudo msg) (Data msg)).

(** [dns.New] is the parameter: an error, or a record unless there is none in the text. *)
Definition ParseAdditionalRRSpec (New : string -> result (option RR)) (spec : string) : result RR :=
  let spec := TrimSpace spec in
  if bool_decide (spec = "") then Err "rr spec cannot be empty"
  else match New spec with
  | Err _ => Err "invalid rr spec: expected full RR presentation (owner ttl class type rdata)"
  | Ok None => Err "invalid rr spec: parser returned nil RR"
  | Ok (Some rr) => Ok rr
  end.
End dnsmsg.

(** ** client/client.go *)

Record DnsClient := mkDnsClient { dc_server : string; dc_protocol : string; dc_timeout : Z }.

Definition client_New (server protocol : string) (timeout : Z) : DnsClient :=
  mkDnsClient server (if bool_decide (protocol = "") then "udp" else protocol) (if timeout <=? 0 then 5 * Second else timeout).

(** The library's codec and the sockets: a UDP exchange gives the datagram read, a TCP one, with
    TLS or without, the library's message. *)
Record ClientNet := mkClientNet {
  cn_Pack : Msg -> result bytes;
  cn_Unpack : bytes -> result Msg;
  cn_udp : string -> bytes -> result bytes;
  cn_tcp : bool -> string -> Msg -> result Msg }.

Definition JoinHostPort (host port : string) : string :=
  if bool_decide (is_Some (IndexByte ":" host)) then "[" +:+ host +:+ "]:" +:+ port else host +:+ ":" +:+ port.

Definition MaxMsgSize : nat := Z.to_nat 65535.

Definition queryUDP (net : ClientNet) (c : DnsClient) (msg : Msg) : result Msg :=
  match SplitHostPort (dc_server c) with
  | Err _ => Err "invalid server address"
  | Ok (host, port) =>
      let host := if bool_decide (port = "") then JoinHostPort host "53" else JoinHostPort host port in
      match cn_Pack net msg with
      | Err _ => Err "pack error"
      | Ok data =>
          match cn_udp net host data with
          | Err e => Err e
          | Ok buf => match cn_Unpack net (take MaxMsgSize buf) with Err _ => Err "unpack error" | Ok resp => Ok resp end
          end
      end
  end.

Definition queryTCP (net : ClientNet) (c : DnsClient) (msg : Msg) : result Msg :=
  cn_tcp net (bool_decide (dc_protocol c = "tls")) (dc_server c) msg.

Definition client_Query (net : ClientNet) (c : DnsClient) (msg : Msg) : result Msg :=
  if bool_decide (dc_protocol c = "tcp") || bool_decide (dc_protocol c = "tls") then queryTCP net c msg
  else if bool_decide (dc_protocol c = "udp") then queryUDP net c msg
  else Err "unsupported protocol".

(** ** The flags of main.go

    Each function takes its flag out of the arguments, wherever it stands. *)

Definition extractKeystoreFlag (args : list string) : list string * string :=
  foldl (fun '(out, dir) a => match CutPrefix a "--keystore=" with Some v => (out, v) | None => (out ++ [a], dir) end) ([], "") args.

Definition resolveKeystoreDir (getenv : string -> string) (flagValue : string) : result string :=
  if negb (bool_decide (flagValue = "")) then Ok flagValue
  else if negb (bool_decide (getenv "CLIENT_KEYSTORE_DIR" = "")) then Ok (getenv "CLIENT_KEYSTORE_DIR")
  else Err "keystore directory is required".

Definition signerLocationAuto : string := "auto".
Definition signerLocationUpdate : string := "update".
Definition signerLocationAdditional : string := "additional".
Definition signerLocationNone : string := "none".

Definition extractSignerLocationFlag (args : list string) : list string * string :=
  foldl (fun '(out, location) a => match CutPrefix a "--signer=" with Some v => (out, v) | None => (out ++ [a], location) end)
    ([], signerLocationAuto) args.

Definition extractSameKeyFlag (args : list string) : list string * bool :=
  foldl (fun '(out, sameKey) a => if bool_decide (a = "--same-key") then (out, true) else (out ++ [a], sameKey)) ([], false) args.

(** [strconv.ParseUint(s, 10, 8)]. *)
Definition ParseUint8 (s : string) : option Z := n ← ParseUint s; if n <? 2 ^ 8 then Some n else None.

Definition extractKeyAlgFlag (args : list string) : result (list string * (Z * bool)) :=
  foldM (fun '(out, (alg, provided)) a =>
           match CutPrefix a "--k=" with
           | Some v => match ParseUint8 v with Some n => Ok (out, (n, true)) | None => Err "invalid --k" end
           | None => Ok (out ++ [a], (alg, provided))
           end) ([], (0, false)) args.

Definition defaultKeyTTL : Z := 300.

Definition extractTTLFlag (args : list string) : result (list string * Z) :=
  foldM (fun '(out, ttl) a =>
           match CutPrefix a "--ttl=" with
           | Some v => match ParseUint v with Some n => if n =? 0 then Err "invalid --ttl" else Ok (out, n) | None => Err "invalid --ttl" end
           | None => Ok (out ++ [a], ttl)
           end) ([], defaultKeyTTL) args.

Definition extractProtocolFlag (args : list string) : result (list string * string) :=
  foldM (fun '(out, protocol) a =>
           match (if bool_decide (a = "--tcp") then Some "tcp" else if bool_decide (a = "--tls") then Some "tls" else None) with
           | None => Ok (out ++ [a], protocol)
           | Some p =>
               if negb (bool_decide (protocol = "udp")) && negb (bool_decide (protocol = p)) then Err "--tcp and --tls are mutually exclusive"
               else Ok (out, p)
           end) ([], "udp") args.

(** What the flags of register and refresh say. *)
Record Options := mkOptions {
  o_signerLocation : string; o_sameKey : bool; o_protocol : string; o_keyAlg : Z; o_keyAlgProvided : bool; o_keyTTL : Z }.

Definition parse_options (args : list string) : result (list string * Options) :=
  let '(args, signerLocation) := extractSignerLocationFlag args in
  if negb (bool_decide (signerLocation ∈ [signerLocationAuto; signerLocationUpdate; signerLocationAdditional; signerLocationNone]))
  then Err "invalid --signer"
  else
    let '(args, sameKey) := extractSameKeyFlag args in
    '(args, protocol) ← extractProtocolFlag args;
    '(args, (keyAlg, keyAlgProvided)) ← extractKeyAlgFlag args;
    '(args, keyTTL) ← extractTTLFlag args;
    Ok (args, mkOptions signerLocation sameKey protocol keyAlg keyAlgProvided keyTTL).

(** ** The request *)

Section client.
Context {C : Crypto} {L : DnsLib} {K : KeyLib} {S0 : SIG0Lib}.

(** The rr-specs, KEYs apart from other records. *)
Definition parse_rr_specs (New : string -> result (option RR)) (rrSpecs : list string) : result (list KEY * list RR) :=
  foldM (fun '(updateKeyRRs, updateOtherRRs) spec =>
           match ParseAdditionalRRSpec New spec with
           | Err _ => Err "Invalid rr-spec"
           | Ok rr =>
               match as_KEY rr with
               | Some keyRR =>
                   if incomplete_KEY (key_Data keyRR) then Err "Invalid KEY rr-spec: full KEY RDATA is required"
                   else Ok (updateKeyRRs ++ [keyRR], updateOtherRRs)
               | None => Ok (updateKeyRRs, updateOtherRRs ++ [rr])
               end
           end) ([], []) rrSpecs.

Definition KeyName (lk : LoadedKey) : string := Name (key_Hdr (lk_PublicKey lk)).

Definition keyRRFromClientKey (clientKey : LoadedKey) (ttl : Z) : KEY :=
  let pub := key_Data (lk_PublicKey clientKey) in
  mkKEY (mkHeader (KeyName clientKey) ClassINET ttl) (mkKeyData (Flags pub) (Protocol pub) (Algorithm pub) (PublicKey pub)).

Definition addSignerKeyToAdditional (msg : Msg) (clientKey : LoadedKey) (ttl : Z) : Msg :=
  mkMsg (MsgHdr msg) (Question msg) (Answer msg) (Ns msg) (Extra msg ++ [KEY_RR (keyRRFromClientKey clientKey ttl)]) (Pseudo msg) (Data msg).

(** The signing key: by file name, or with --k found or created for an owner name. *)
Definition load_client_key (io : KeystoreIO) (dir keyname : string) (o : Options) (ks : Keystore) : Keystore * result LoadedKey :=
  if o_keyAlgProvided o then
    match ResolveOrCreateKey io dir keyname (o_keyAlg o) ks with
    | (ks, Err e) => (ks, Err e)
    | (ks, Ok (k, _)) => (ks, Ok k)
    end
  else
    (ks, match KeyExists io ks keyname with
         | Err _ => Err "Could not find client key"
         | Ok _ => match LoadKeyFromFile io ks keyname with Err _ => Err "Failed to load client key" | Ok k => Ok k end
         end).

(** --same-key: the signing key among the KEYs to lease. *)
Definition same_key (clientKey : LoadedKey) (o : Options) (updateKeyRRs : list KEY) : result (list KEY) :=
  if o_sameKey o then
    if existsb (fun rr => EqualFold (Name (key_Hdr rr)) (KeyName clientKey)) updateKeyRRs
    then Err "--same-key conflicts with an explicit KEY rr-spec"
    else if bool_decide (o_signerLocation o = signerLocationNone) then Err "--same-key conflicts with --signer=none"
    else Ok (updateKeyRRs ++ [keyRRFromClientKey clientKey (o_keyTTL o)])
  else Ok updateKeyRRs.

Definition is_signer_key (clientKey : LoadedKey) (rr : KEY) : bool :=
  let pub := key_Data (lk_PublicKey clientKey) in
  EqualFold (Name (key_Hdr rr)) (KeyName clientKey) && (Flags (key_Data rr) =? Flags pub) && (Protocol (key_Data rr) =? Protocol pub)
  && (Algorithm (key_Data rr) =? Algorithm pub) && bool_decide (TrimSpace (PublicKey (key_Data rr)) = TrimSpace (PublicKey pub)).

(** Where the signer's KEY goes. *)
Definition place_signer (clientKey : LoadedKey) (o : Options) (updateKeyRRs : list KEY) (msg : Msg) : result Msg :=
  let signerKeyInUpdate := existsb (is_signer_key clientKey) updateKeyRRs in
  if bool_decide (o_signerLocation o = signerLocationUpdate) then
    if negb signerKeyInUpdate then Err "--signer=update requires a KEY rr-spec" else Ok msg
  else if bool_decide (o_signerLocation o = signerLocationAdditional) then Ok (addSignerKeyToAdditional msg clientKey (o_keyTTL o))
  else if bool_decide (o_signerLocation o = signerLocationNone) then
    if signerKeyInUpdate then Err "--signer=none conflicts with a KEY rr-spec" else Ok msg
  else if bool_decide (o_signerLocation o = signerLocationAuto) then
    if signerKeyInUpdate then Ok msg else Ok (addSignerKeyToAdditional msg clientKey (o_keyTTL o))
  else Ok msg.

(** ** Tampering *)

Definition flip_key (key : KEY) : result KEY :=
  let d := key_Data key in
  match b64_decode (PublicKey d) with
  | None => Err "decode KEY public key"
  | Some [] => Err "empty KEY public key"
  | Some (b :: pub) => Ok (mkKEY (key_Hdr key) (mkKeyData (Flags d) (Protocol d) (Algorithm d) (b64_encode (Z.lxor b 1 :: pub))))
  end.

(** The loop over a section: [None] when it holds no KEY. *)
Fixpoint flip_first (rrs : list RR) : option (result (list RR)) :=
  match rrs with
  | [] => None
  | rr :: rrs =>
      match as_KEY rr with
      | Some key => Some (key ← flip_key key; Ok (KEY_RR key :: rrs))
      | None => match flip_first rrs with None => None | Some r => Some (rrs ← r; Ok (rr :: rrs)) end
      end
  end.

Definition flipOnePayloadBit (msg : Msg) : result Msg :=
  match flip_first (Ns msg) with
  | Some r => ns ← r; Ok (set_Ns ns msg)
  | None =>
      match flip_first (Extra msg) with
      | Some r => extra ← r; Ok (mkMsg (MsgHdr msg) (Question msg) (Answer msg) (Ns msg) extra (Pseudo msg) (Data msg))
      | None => Err "no KEY RR found in update or additional payload"
      end
  end.

(** ** register, refresh and register-tamper *)

(** What is known of a run when its request is ready. *)
Record Prepared := mkPrepared {
  pr_options : Options; pr_key : LoadedKey; pr_lease : Z; pr_keyLease : Z; pr_keys : list KEY; pr_others : list RR; pr_msg : Msg }.

(** Everything before the request is signed. *)
Definition prepare (New : string -> result (option RR)) (io : KeystoreIO) (dir : string) (args : list string) (ks : Keystore)
    : Keystore * result Prepared :=
  match
    ('(args, o) ← parse_options args;
     match args with
     | keyname :: lease :: keyLease :: rrSpecs =>
         match ParseUint lease with
         | None => Err "Invalid lease duration"
         | Some leaseDuration =>
             match ParseUint keyLease with
             | None => Err "Invalid key-lease duration"
             | Some keyLeaseDuration =>
                 '(updateKeyRRs, updateOtherRRs) ← parse_rr_specs New rrSpecs;
                 Ok (o, keyname, leaseDuration, keyLeaseDuration, updateKeyRRs, updateOtherRRs)
             end
         end
     | _ => Err "Usage: sig0lease-client <proxy> register|register-tamper|refresh <keyname> [lease] [key-lease] [rr-spec...]"
     end)
  with
  | Err e => (ks, Err e)
  | Ok (o, keyname, leaseDuration, keyLeaseDuration, updateKeyRRs, updateOtherRRs) =>
      match load_client_key io dir keyname o ks with
      | (ks, Err e) => (ks, Err e)
      | (ks, Ok clientKey) =>
          (ks,
           updateKeyRRs ← same_key clientKey o updateKeyRRs;
           msg ← NewLeaseUpdate (KeyName clientKey) updateKeyRRs updateOtherRRs leaseDuration keyLeaseDuration;
           msg ← place_signer clientKey o updateKeyRRs msg;
           Ok (mkPrepared o clientKey leaseDuration keyLeaseDuration updateKeyRRs updateOtherRRs msg))
      end
  end.

Definition sign_request (now : Z) (tamper : bool) (p : Prepared) : result Msg :=
  signedMsg ← sig0_SignMessage now (pr_msg p) (lk_PublicKey (pr_key p)) (lk_PrivateKey (pr_key p));
  if tamper then flipOnePayloadBit signedMsg else Ok signedMsg.

(** What a successful command reports: the effective durations, when they end and the notes. *)
Record Report := mkReport { rp_lease : Z; rp_keyLease : Z; rp_expiry : Z * Z; rp_notes : list string }.

Definition cmdRegRefWithMode (New : string -> result (option RR)) (io : KeystoreIO) (net : ClientNet) (now now' : Z) (dir proxyAddr : string)
    (args : list string) (tamper : bool) (ks : Keystore) : Keystore * result Report :=
  match prepare New io dir args ks with
  | (ks, Err e) => (ks, Err e)
  | (ks, Ok p) =>
      (ks,
       signedMsg ← sign_request now tamper p;
       _ ← cn_Pack net signedMsg;
       resp ← client_Query net (client_New proxyAddr (o_protocol (pr_options p)) (20 * Second)) signedMsg;
       if Rcode (MsgHdr resp) =? RcodeSuccess then
         let '(effectiveLease, effectiveKeyLease) := EffectiveLeaseDuration resp (pr_lease p) (pr_keyLease p) in
         Ok (mkReport effectiveLease effectiveKeyLease (ExpiryFromResponse now' (pr_lease p) (pr_keyLease p) resp) (StatusNotes resp))
       else Err "FAILED")
  end.

Definition OpcodeQuery : Z := 0.

(** The query of verify, and the answer section it prints. *)
Definition cmdVerify (net : ClientNet) (proxyAddr : string) (args : list string) : result (Z * list RR) :=
  '(args, protocol) ← extractProtocolFlag args;
  match args with
  | [] => Err "Usage: sig0lease-client <proxy> verify <zone> [--tcp|--tls]"
  | zone :: _ =>
      let msg := mkMsg (mkMsgHeader 0 OpcodeQuery false false false true RcodeSuccess 0) [mkQuest zone ClassINET TypeKEY] [] [] [] [] [] in
      match client_Query net (client_New proxyAddr protocol (20 * Second)) msg with
      | Err _ => Err "Query failed"
      | Ok resp => Ok (Rcode (MsgHdr resp), Answer resp)
      end
  end.

(** The keys list-keys prints, with whether each loads; nothing for a directory it cannot read. *)
Definition cmdListKeys (io : KeystoreIO) (ks : Keystore) : list (string * result LoadedKey) :=
  match ListKeysInDirectory io ks with
  | inr _ => []
  | inl keyFiles => map (fun keyName => (keyName, LoadKeyFromFile io ks keyName)) keyFiles
  end.

(** [main], for the commands that send a request. *)
Definition client_main (New : string -> result (option RR)) (io : KeystoreIO) (net : ClientNet) (getenv : string -> string) (keystores : string -> Keystore)
    (now now' : Z) (proxyAddr command : string) (rest : list string) : option (string * (Keystore * result Report)) :=
  let '(args, keystoreFlag) := extractKeystoreFlag rest in
  let run tamper :=
    match resolveKeystoreDir getenv keystoreFlag with
    | Err _ => None
    | Ok dir => Some (dir, cmdRegRefWithMode New io net now now' dir proxyAddr args tamper (keystores dir))
    end in
  if bool_decide (command = "register") || bool_decide (command = "refresh") then run false
  else if bool_decide (command = "register-tamper") then run true
  else None.
End client.

(** ** From the command line to the update handler *)

(** The records of an Update section of complete KEYs and records of other, allowed types. *)
Lemma extract_update keys others blacklisted msg :
  Ns msg = map KEY_RR keys ++ others -> Forall (fun k => incomplete_KEY (key_Data k) = false) keys ->
  Forall (fun rr => as_KEY rr = None /\ RRToType rr ∉ blacklisted) others ->
  extractUpdateRecords msg blacklisted = Ok (keys, others).
Proof.
  intros Hns Hk Ho. unfold extractUpdateRecords. rewrite Hns. match goal with |- foldM ?F _ _ = _ => set (f := F) end.
  assert (F1 : forall acc acc' k, incomplete_KEY (key_Data k) = false -> f (acc, acc') (KEY_RR k) = Ok (acc ++ [k], acc')) by (intros ?? [hd d] Hc; cbn in *; by rewrite Hc).
  assert (F2 : forall acc acc' rr, as_KEY rr = None /\ RRToType rr ∉ blacklisted -> f (acc, acc') rr = Ok (acc, acc' ++ [rr])).
  { intros acc acc' rr [Hn Hb]. unfold f. cbn beta iota. by rewrite Hn, (bool_decide_eq_false_2 _ Hb). }
  clearbody f. clear Hns.
  assert (G1 : forall acc acc', foldM f (acc, acc') (map KEY_RR keys) = Ok (acc ++ keys, acc')).
  { induction Hk as [|k keys Hc Hk IH]; intros acc acc'; cbn [foldM map]; [by rewrite app_nil_r|]. rewrite (F1 _ _ _ Hc). cbn. by rewrite IH, <- app_assoc. }
  assert (G2 : forall acc acc', foldM f (acc, acc') others = Ok (acc, acc' ++ others)).
  { induction Ho as [|rr others Hr Ho IH]; intros acc acc'; cbn [foldM]; [by rewrite app_nil_r|]. rewrite (F2 _ _ _ Hr). cbn. by rewrite IH, <- app_assoc. }
  rewrite foldM_app, G1. cbn [mbind result_bind]. apply G2.
Qed.

Lemma extract_additional opt keys msg :
  Extra msg = opt :: map KEY_RR keys -> as_KEY opt = None -> Forall (fun k => incomplete_KEY (key_Data k) = false) keys ->
  extractAdditionalSigningKeys msg = Ok keys.
Proof.
  intros He Ho Hk. unfold extractAdditionalSigningKeys. rewrite He. cbn [foldM]. rewrite Ho. cbn [mbind result_bind]. clear He.
  match goal with |- foldM ?F _ _ = _ => set (f := F) end.
  assert (F1 : forall acc k, incomplete_KEY (key_Data k) = false -> f acc (KEY_RR k) = Ok (acc ++ [k])) by (intros ? [hd d] Hc; cbn in *; by rewrite Hc).
  clearbody f. assert (G : forall acc, foldM f acc (map KEY_RR keys) = Ok (acc ++ keys)); [|apply G].
  induction Hk as [|k keys Hc Hk IH]; intros acc; cbn [foldM map]; [by rewrite app_nil_r|]. rewrite (F1 _ _ Hc). cbn. by rewrite IH, <- app_assoc.
Qed.

(** The lease option of a request is found behind its SIG and before its KEYs. *)
Lemma option_found {L : DnsLib} lease keyLease opt msg hdr sig rest :
  uint32_ok lease -> uint32_ok keyLease -> leaseOPT lease keyLease = Ok opt -> Pseudo msg = [mkRR hdr (RD_SIG sig)] -> Extra msg = opt :: rest ->
  FindAndDecode msg = Ok (mkLeaseOption lease (Some keyLease)).
Proof.
  intros Hl Hk Hopt Hp He. pose proof (leaseOPT_found lease keyLease opt Hl Hk Hopt (mkMsg (MsgHdr msg) [] [] [] [opt] [] []) eq_refl eq_refl) as HF.
  unfold FindAndDecode, FindOption in *. rewrite Hp, He. cbn [Pseudo Extra FindOption_scan RD] in *. destruct (match RD opt with RD_EDNS0 o => _ | _ => _ end); [exact HF|done].
Qed.

(** What rr-specs give: complete KEYs, and records that are none. *)
Lemma parse_rr_specs_ok New specs keys others :
  parse_rr_specs New specs = Ok (keys, others) ->
  Forall (fun k => incomplete_KEY (key_Data k) = false /\ exists s, New s = Ok (Some (KEY_RR k))) keys /\
  Forall (fun rr => as_KEY rr = None /\ exists s, New s = Ok (Some rr)) others.
Proof.
  unfold parse_rr_specs. apply (foldM_inv (fun r : list KEY * list RR =>
    Forall (fun k => incomplete_KEY (key_Data k) = false /\ exists s, New s = Ok (Some (KEY_RR k))) r.1 /\
    Forall (fun rr => as_KEY rr = None /\ exists s, New s = Ok (Some rr)) r.2)); [|done].
  intros [ks os] spec [ks' os'] _ [Hk Ho]. cbn [fst snd] in *. destruct (ParseAdditionalRRSpec New spec) as [rr|] eqn:E; [|done].
  assert (HN : exists s, New s = Ok (Some rr)).
  { unfold ParseAdditionalRRSpec in E. case_bool_decide; [done|]. destruct (New _) as [[rr'|]|] eqn:En; try done. injection E as <-. eauto. }
  destruct (as_KEY rr) as [k|] eqn:Ek.
  - destruct (incomplete_KEY _) eqn:Ei; [done|]. intros [= <- <-]. split; [|done]. apply Forall_app. split; [done|]. apply Forall_singleton.
    split; [done|]. destruct rr as [hd []]; try done. cbn in Ek. injection Ek as <-. exact HN.
  - intros [= <- <-]. split; [done|]. apply Forall_app. split; [done|]. by apply Forall_singleton.
Qed.

Section authenticates.
Context {C : Crypto} {CL : CryptoLaws C} {L : DnsLib} {K : KeyLib} {S0 : SIG0Lib} {SL : SIG0LibLaws S0} {U : UpstreamCoordinator}.

Lemma verify_some (SG : Sig0) msg candidates lastErr k :
  k ∈ candidates -> VerifySignature msg k = Ok tt ->
  exists k', verifyFromCandidates msg candidates lastErr = Ok (Some k') /\ k' ∈ candidates /\ VerifySignature msg k' = Ok tt.
Proof.
  intros Hin Hv. revert lastErr. induction candidates as [|c rest IH]; intros lastErr; [by apply elem_of_nil in Hin|]. cbn [verifyFromCandidates].
  destruct (VerifySignature msg c) as [[]|] eqn:E; [exists c; split_and!; [done|by left|done]|].
  apply elem_of_cons in Hin as [-> |Hin]; [congruence|]. destruct (IH Hin true) as (k' & -> & Hk & Hv'). exists k'. split_and!; [done|by right|done].
Qed.

(** The same KEY, up to its TTL and the case of its name. *)
Definition same_identity (k k' : KEY) : Prop := Normalize (Name (key_Hdr k')) = Normalize (Name (key_Hdr k)) /\ key_Data k' = key_Data k.

Definition trimmed (k : KEY) : Prop := TrimSpace (PublicKey (key_Data k)) = PublicKey (key_Data k).

Lemma is_signer_key_same lk k : is_signer_key lk k = true -> trimmed k -> trimmed (lk_PublicKey lk) -> same_identity (lk_PublicKey lk) k.
Proof.
  unfold is_signer_key, trimmed. intros H Hk Hl. repeat (apply andb_true_iff in H as [H ?]). apply EqualFold_iff in H.
  split; [rewrite <- (Normalize_Fold (Name (key_Hdr k))), H; apply Normalize_Fold|].
  apply bool_decide_eq_true in H0. rewrite Hk, Hl in H0. destruct (key_Data k), (key_Data (lk_PublicKey lk)). cbn in *.
  repeat match goal with H : (_ =? _) = true |- _ => apply Z.eqb_eq in H end. congruence.
Qed.

Lemma from_client_key_same lk ttl : same_identity (lk_PublicKey lk) (keyRRFromClientKey lk ttl).
Proof. split; [done|]. unfold keyRRFromClientKey. cbn. by destruct (key_Data (lk_PublicKey lk)). Qed.

(** The KEYs of the request besides the leased ones, and that the signer is among them all
    unless --signer=none keeps it out. *)
Lemma place_signer_ok lk o keys msg msg' :
  place_signer lk o keys msg = Ok msg' -> Forall trimmed keys -> trimmed (lk_PublicKey lk) ->
  exists extra, Ns msg' = Ns msg /\ Question msg' = Question msg /\ Pseudo msg' = Pseudo msg /\ Extra msg' = Extra msg ++ map KEY_RR extra /\
    Forall (fun k => k = keyRRFromClientKey lk (o_keyTTL o)) extra /\
    (o_signerLocation o <> signerLocationNone -> o_signerLocation o ∈ [signerLocationAuto; signerLocationUpdate; signerLocationAdditional] ->
       exists k, k ∈ extra ++ keys /\ same_identity (lk_PublicKey lk) k) /\
    (o_signerLocation o = signerLocationNone -> extra = []).
Proof.
  intros H Hk Hl. assert (Hin : existsb (is_signer_key lk) keys = true -> exists k, k ∈ keys /\ same_identity (lk_PublicKey lk) k).
  { intros (k & Hin%list_elem_of_In & Hs)%existsb_exists. exists k. split; [done|]. apply is_signer_key_same; [done| |done].
    rewrite Forall_forall in Hk. by apply Hk. }
  assert (Hadd : Ok msg' = Ok (addSignerKeyToAdditional msg lk (o_keyTTL o)) -> o_signerLocation o <> signerLocationNone ->
    exists extra, Ns msg' = Ns msg /\ Question msg' = Question msg /\ Pseudo msg' = Pseudo msg /\ Extra msg' = Extra msg ++ map KEY_RR extra /\
      Forall (fun k => k = keyRRFromClientKey lk (o_keyTTL o)) extra /\
      (o_signerLocation o <> signerLocationNone -> o_signerLocation o ∈ [signerLocationAuto; signerLocationUpdate; signerLocationAdditional] ->
         exists k, k ∈ extra ++ keys /\ same_identity (lk_PublicKey lk) k) /\
      (o_signerLocation o = signerLocationNone -> extra = [])).
  { intros [= ->] Hno. exists [keyRRFromClientKey lk (o_keyTTL o)]. split_and!; try done; [by apply Forall_singleton|].
    intros _ _. eexists. split; [left|apply from_client_key_same]. }
  unfold place_signer in H. cbn zeta in H. destruct (existsb _ keys) eqn:E; cbn [negb] in H; repeat case_bool_decide; try done; try injection H as <-.
  all: unfold signerLocationNone, signerLocationAuto, signerLocationAdditional, signerLocationUpdate in *.
  all: try (apply Hadd; [done|congruence]).
  all: exists []; cbn [map app]; rewrite app_nil_r; do 4 (split; [done|]); (split; [constructor|split; [intros Hno Hloc|done]]).
  all: first [exact (Hin eq_refl)|congruence|set_solver].
Qed.

(** The KEYs to lease are complete and their key text has no space around it. *)
Lemma same_key_ready lk o keys keys' :
  same_key lk o keys = Ok keys' -> Forall (fun k => incomplete_KEY (key_Data k) = false /\ trimmed k) keys ->
  incomplete_KEY (key_Data (lk_PublicKey lk)) = false -> trimmed (lk_PublicKey lk) ->
  Forall (fun k => incomplete_KEY (key_Data k) = false /\ trimmed k) keys'.
Proof.
  unfold same_key. intros H Hk Hc Ht. destruct (o_sameKey o); [|by injection H as <-]. destruct (existsb _ _); [done|]. case_bool_decide; [done|].
  injection H as <-. apply Forall_app. split; [done|]. apply Forall_singleton. destruct (from_client_key_same lk (o_keyTTL o)) as [_ E].
  unfold trimmed. rewrite E. done.
Qed.

Lemma parse_options_location args pos o : parse_options args = Ok (pos, o) ->
  o_signerLocation o ∈ [signerLocationAuto; signerLocationUpdate; signerLocationAdditional; signerLocationNone].
Proof.
  unfold parse_options. destruct (extractSignerLocationFlag args) as [a1 loc]. case_bool_decide as Hl; [|done]. cbn [negb].
  destruct (extractSameKeyFlag a1) as [a2 same]. intros ([a3 pr] & _ & ([a4 [alg b]] & _ & ([a5 ttl] & _ & [= <- <-])%bind_ok)%bind_ok)%bind_ok. exact Hl.
Qed.

(** What the handler must be configured to admit. *)
Record admissible (h : UpdateHandler) (p : Prepared) : Prop := {
  ad_min : (pr_lease p <> 0 -> MinRRLease (h_LeasePolicy h) <= pr_lease p) /\ (pr_keyLease p <> 0 -> MinKeyLease (h_LeasePolicy h) <= pr_keyLease p);
  ad_order : pr_lease p <> 0 -> pr_keyLease p <> 0 -> pr_lease p <= pr_keyLease p;
  ad_types : Forall (fun rr => RRToType rr ∉ h_blacklistedTypes h) (pr_others p);
  ad_below : Forall (fun rr => IsAtOrBelow (Normalize (Name (Hdr rr))) (Normalize (KeyName (pr_key p))) = true) (map KEY_RR (pr_keys p) ++ pr_others p);
  ad_named : Forall (fun k => Name (key_Hdr k) <> "") (pr_keys p) }.

Lemma prepare_ok New io dir args ks ks' p : prepare New io dir args ks = (ks', Ok p) ->
  exists keyname l k specs keys msg,
    parse_options args = Ok (keyname :: l :: k :: specs, pr_options p) /\ ParseUint l = Some (pr_lease p) /\ ParseUint k = Some (pr_keyLease p) /\
    parse_rr_specs New specs = Ok (keys, pr_others p) /\ load_client_key io dir keyname (pr_options p) ks = (ks', Ok (pr_key p)) /\
    same_key (pr_key p) (pr_options p) keys = Ok (pr_keys p) /\
    NewLeaseUpdate (KeyName (pr_key p)) (pr_keys p) (pr_others p) (pr_lease p) (pr_keyLease p) = Ok msg /\
    place_signer (pr_key p) (pr_options p) (pr_keys p) msg = Ok (pr_msg p).
Proof.
  unfold prepare. intros H. destruct (parse_options args) as [[pos o]|] eqn:Eo; [|done]. cbn [mbind result_bind] in H.
  destruct pos as [|keyname [|l [|k specs]]]; [done..|]. destruct (ParseUint l) as [lv|] eqn:El; [|done]. destruct (ParseUint k) as [kv|] eqn:Ek; [|done].
  destruct (parse_rr_specs New specs) as [[keys others]|] eqn:Es; [|done]. cbn [mbind result_bind] in H.
  destruct (load_client_key io dir keyname o ks) as [ks1 [lk|]] eqn:Ec; [|done]. injection H as -> H.
  apply bind_ok in H as (keys' & Hsame & (msg & Hn & (msg' & Hp & [= <-])%bind_ok)%bind_ok). by exists keyname, l, k, specs, keys, msg.
Qed.

(** The shape of the request before it is signed. *)
Lemma NewLeaseUpdate_ok zone keys others lease keyLease msg :
  NewLeaseUpdate zone keys others lease keyLease = Ok msg ->
  Question msg = [mkQuest zone ClassINET TypeSOA] /\ Ns msg = map KEY_RR keys ++ others /\ Pseudo msg = [] /\ (keyLease <> 0 -> keys <> []) /\
  exists opt, Extra msg = [opt] /\ leaseOPT lease keyLease = Ok opt /\ as_KEY opt = None /\ as_SIG opt = None.
Proof.
  unfold NewLeaseUpdate. destruct (all_space zone); [done|]. cbn zeta. destruct (_ && _) eqn:E; [done|].
  intros (? & HV & (os & HE & [= <-])%bind_ok)%bind_ok. cbn -[leaseOPT]. split_and!; try done.
  - intros Hk ->. destruct (Z.eqb_spec keyLease 0); done.
  - eexists. split; [done|]. unfold leaseOPT. by rewrite HE.
Qed.

(** The durations of a request the policy admits are read as they were given. *)
Lemma parse_admissible policy prefer lease keyLease msg :
  0 <= lease -> 0 <= keyLease -> FindAndDecode msg = Ok (mkLeaseOption lease (Some keyLease)) ->
  (lease <> 0 -> MinRRLease policy <= lease) -> (keyLease <> 0 -> MinKeyLease policy <= keyLease) -> (lease <> 0 -> keyLease <> 0 -> lease <= keyLease) ->
  hasUpdateLeaseOption msg = true /\ parseLease policy prefer msg = Ok (lease, keyLease).
Proof.
  intros Hl Hk HF H1 H2 H3. unfold FindAndDecode in HF. unfold hasUpdateLeaseOption, parseLease. destruct (FindOption msg) as [d|]; [|done].
  rewrite HF. split; [done|]. cbn. destruct (Z.eqb_spec lease 0), (Z.eqb_spec keyLease 0); cbn [negb andb];
    repeat match goal with |- context [?a <? ?b] => destruct (Z.ltb_spec a b); cbn [andb] end; try done; lia.
Qed.

(** Keys and records at or below the signer, whatever their TTLs. *)
Lemma hierarchy_ok signer keys others (f : KEY -> KEY) (g : RR -> RR) :
  Normalize signer <> "" -> (forall k, Name (key_Hdr (f k)) = Name (key_Hdr k)) -> (forall rr, Name (Hdr (g rr)) = Name (Hdr rr)) ->
  Forall (fun k => Name (key_Hdr k) <> "") keys ->
  Forall (fun rr => IsAtOrBelow (Normalize (Name (Hdr rr))) (Normalize signer) = true) (map KEY_RR keys ++ others) ->
  validateSignerHierarchyForUpdateRecords signer (map f keys) (map g others) = Ok tt.
Proof.
  intros Hs Hf Hg Hn [Hk Ho]%Forall_app. unfold validateSignerHierarchyForUpdateRecords. rewrite (bool_decide_eq_false_2 _ Hs). rewrite !Forall_forall in *.
  match goal with |- (seqM ?F _ ≫= _) = _ => assert (HF : seqM F (map f keys) = Ok tt) end.
  { apply foldM_ok_each. intros k (k0 & -> & Hin)%list_elem_of_fmap. rewrite Hf, (bool_decide_eq_false_2 _ (Hn _ Hin)). cbn zeta.
    case_bool_decide; [done|]. pose proof (Hk (KEY_RR k0) (list_elem_of_fmap_2 _ _ _ Hin)) as Hb. cbn [KEY_RR Hdr] in Hb. by rewrite Hb. }
  rewrite HF. cbn [mbind result_bind]. apply foldM_ok_each. intros rr (rr0 & -> & Hin)%list_elem_of_fmap. cbn zeta. by rewrite Hg, (Ho _ Hin).
Qed.

(** The store holds the signing key, and no leased KEY could be taken for it. *)
Definition known_signer (st : Store) (now : Z) (key : KEY) (keys : list KEY) : Prop :=
  (forall k, k ∈ keys -> ~ (Normalize (Name (key_Hdr k)) = Normalize (Name (key_Hdr key)) /\ KeyTag (key_Data k) = KeyTag (key_Data key) /\
     Algorithm (key_Data k) = Algorithm (key_Data key))) /\
  exists rec, LookupBySIG now (Name (key_Hdr key)) (Algorithm (key_Data key)) (KeyTag (key_Data key)) st = Some rec /\ same_identity key (KeyRR rec).

(** A message whose signature verifies with the signer's KEY is attributed to it, from the
    request or from the lease store. *)
Lemma signer_found (SG : Sig0) st now msg (key : KEY) extra keys sig :
  extractSig0 msg = Ok sig -> SignerName sig = Name (key_Hdr key) -> names_key sig key -> Normalize (Name (key_Hdr key)) <> "" ->
  (forall k, same_identity key k -> VerifySignature msg k = Ok tt) ->
  (exists k, k ∈ extra ++ keys /\ same_identity key k) \/ (extra = [] /\ known_signer st now key keys) ->
  exists k src, extractAndValidateSig0 st now msg (Name (key_Hdr key)) extra keys = Ok (sig, k, src) /\ VerifySignature msg k = Ok tt /\
    ((exists k', k' ∈ extra ++ keys /\ same_identity key k') -> src = signerKeySourceRequest).
Proof.
  intros Hsig Hsn (_ & Ht & Ha) Hne Hver Hwhere. unfold extractAndValidateSig0. rewrite Hsig. cbn [mbind result_bind]. rewrite Hsn, (bool_decide_eq_false_2 _ Hne).
  rewrite IsAtOrBelow_refl. cbn [negb].
  assert (Hm : forall k, matches_signer (Normalize (Name (key_Hdr key))) sig k = true <->
    Normalize (Name (key_Hdr k)) = Normalize (Name (key_Hdr key)) /\ KeyTag (key_Data k) = KeyTag (key_Data key) /\ Algorithm (key_Data k) = Algorithm (key_Data key)).
  { intros k. unfold matches_signer. rewrite Ht, Ha, !andb_true_iff, bool_decide_eq_true, !Z.eqb_eq. tauto. }
  assert (Hsame : forall k, same_identity key k -> matches_signer (Normalize (Name (key_Hdr key))) sig k = true).
  { intros k [Hn Hd]. apply Hm. by rewrite Hn, Hd. }
  destruct Hwhere as [(k & Hin & Hk)|[-> [Hno (rec & Hl & Hrec)]]].
  - destruct (verify_some SG msg (filter (fun k => matches_signer (Normalize (Name (key_Hdr key))) sig k = true) (extra ++ keys)) false k) as (k' & -> & Hin' & Hv').
    { apply list_elem_of_filter. auto. } { auto. }
    cbn [mbind result_bind]. by exists k', signerKeySourceRequest.
  - assert (filter (fun k => matches_signer (Normalize (Name (key_Hdr key))) sig k = true) ([] ++ keys) = []) as ->.
    { apply elem_of_nil_inv. intros k Hk. apply list_elem_of_filter in Hk as [H Hin]. apply Hm in H. by apply (Hno k). }
    cbn [verifyFromCandidates mbind result_bind]. rewrite Ha, Ht, Hl. rewrite (Hsame _ Hrec). cbn [verifyFromCandidates]. rewrite (Hver _ Hrec).
    cbn [mbind result_bind]. exists (KeyRR rec), signerKeySourceLeaseStore. split_and!; [done|by apply Hver|].
    intros (k & Hin & Hk%Hsame%Hm). by destruct (Hno k).
Qed.
End authenticates.


(** ** The flags stand anywhere *)

Definition is_protocol (a : string) : bool := bool_decide (a = "--tcp") || bool_decide (a = "--tls").
Definition option_flag (a : string) : bool :=
  HasPrefix a "--signer=" || bool_decide (a = "--same-key") || is_protocol a || HasPrefix a "--k=" || HasPrefix a "--ttl=".

(** A loop that keeps what is not its flag and folds its flags. *)
Lemma extract_split {V} (is_flag : string -> bool) (step : list string * V -> string -> result (list string * V)) (g : V -> string -> result V) :
  (forall out v a, step (out, v) a = if is_flag a then v' ← g v a; Ok (out, v') else Ok (out ++ [a], v)) ->
  forall args out v, foldM step (out, v) args =
    (v' ← foldM g v (filter (fun a => is_flag a = true) args); Ok (out ++ filter (fun a => is_flag a = false) args, v')).
Proof.
  intros Hs. induction args as [|a args IH]; intros out v; cbn [foldM]; [by rewrite app_nil_r|]. rewrite Hs, !filter_cons.
  destruct (is_flag a) eqn:E; repeat (case_decide; try done); cbn [foldM].
  - destruct (g v a) as [v'|]; cbn [mbind result_bind]; [apply IH|done].
  - cbn [mbind result_bind]. rewrite IH. destruct (foldM g v _); cbn [mbind result_bind]; [|done]. by rewrite <- app_assoc.
Qed.

Lemma extract_split_pure {V} (is_flag : string -> bool) (step : list string * V -> string -> list string * V) (g : V -> string -> V) :
  (forall out v a, step (out, v) a = if is_flag a then (out, g v a) else (out ++ [a], v)) ->
  forall args out v, foldl step (out, v) args =
    (out ++ filter (fun a => is_flag a = false) args, foldl g v (filter (fun a => is_flag a = true) args)).
Proof.
  intros Hs. induction args as [|a args IH]; intros out v; cbn [foldl]; [by rewrite app_nil_r|]. rewrite Hs, !filter_cons.
  destruct (is_flag a) eqn:E; repeat (case_decide; try done); cbn [foldl]; rewrite IH, <- ?app_assoc; done.
Qed.

(** ** The reading of the flags, one by one *)

Definition protocol_flag (protocol a : string) : result string :=
  let p := if bool_decide (a = "--tcp") then "tcp" else "tls" in
  if negb (bool_decide (protocol = "udp")) && negb (bool_decide (protocol = p)) then Err "--tcp and --tls are mutually exclusive" else Ok p.
Definition alg_flag (_ : Z * bool) (a : string) : result (Z * bool) :=
  match CutPrefix a "--k=" ≫= ParseUint8 with Some n => Ok (n, true) | None => Err "invalid --k" end.
Definition ttl_flag (_ : Z) (a : string) : result Z :=
  match CutPrefix a "--ttl=" ≫= ParseUint with Some n => if n =? 0 then Err "invalid --ttl" else Ok n | None => Err "invalid --ttl" end.
Definition only (is_flag : string -> bool) (args : list string) : list string := filter (fun a => is_flag a = true) args.

(** What the flags mean, each read on its own: the last --signer, --k and --ttl count, --tcp and
    --tls exclude each other, and the rest is positional. *)
Definition options_spec (args : list string) : result (list string * Options) :=
  let location := foldl (fun _ a => default "" (CutPrefix a "--signer=")) signerLocationAuto (only (fun a => HasPrefix a "--signer=") args) in
  if negb (bool_decide (location ∈ [signerLocationAuto; signerLocationUpdate; signerLocationAdditional; signerLocationNone])) then Err "invalid --signer"
  else
    protocol ← foldM protocol_flag "udp" (only is_protocol args);
    '(alg, provided) ← foldM alg_flag (0, false) (only (fun a => HasPrefix a "--k=") args);
    ttl ← foldM ttl_flag defaultKeyTTL (only (fun a => HasPrefix a "--ttl=") args);
    Ok (filter (fun a => option_flag a = false) args,
        mkOptions location (bool_decide ("--same-key" ∈ args)) protocol alg provided ttl).

Lemma only_only p q args : (forall a, p a = true -> q a = false) -> only p (filter (fun a => q a = false) args) = only p args.
Proof.
  intros H. unfold only. induction args as [|a args IH]; [done|]. rewrite !filter_cons. destruct (p a) eqn:Ep, (q a) eqn:Eq; repeat case_decide; try done.
  - rewrite (H a Ep) in Eq. done.
  - rewrite filter_cons, decide_True by done. by rewrite IH.
  - by rewrite filter_cons, decide_False, IH by congruence.
Qed.

Lemma filter_twice (p q : string -> bool) (args : list string) :
  filter (fun a => p a = false) (filter (fun a => q a = false) args) = filter (fun a => q a || p a = false) args.
Proof.
  induction args as [|a args IH]; [done|]. rewrite !filter_cons. destruct (q a) eqn:Eq; cbn [orb]; repeat case_decide; try done.
  - rewrite filter_cons, decide_True by done. by rewrite IH.
  - by rewrite filter_cons, decide_False, IH by done.
Qed.

(** Flags that begin differently are different. *)
Lemma prefix_conflict a p q : HasPrefix a p = true -> HasPrefix p q = false -> HasPrefix q p = false -> HasPrefix a q = false.
Proof.
  intros Hp H1 H2. apply not_true_is_false. intros Hq. revert a q Hp H1 H2 Hq. induction p as [|c p IH]; intros a q Hp H1 H2 Hq.
  - apply (f_equal negb) in H2. revert H2. by rewrite (proj2 (HasPrefix_spec q "")) by (by exists q).
  - apply HasPrefix_spec in Hp as [r ->]. destruct q as [|d q].
    + revert H1. by rewrite (proj2 (HasPrefix_spec _ "")) by (by exists (String c p)).
    + apply HasPrefix_spec in Hq as [r' Hr]. cbn in Hr. injection Hr as <- Hr. apply (IH (p +:+ r) q).
      * apply HasPrefix_spec. eauto.
      * revert H1. unfold HasPrefix. cbn [CutPrefix]. by rewrite (bool_decide_eq_true_2 (c = c)).
      * revert H2. unfold HasPrefix. cbn [CutPrefix]. by rewrite (bool_decide_eq_true_2 (c = c)).
      * apply HasPrefix_spec. eauto.
Qed.

Lemma HasPrefix_cut {A} a p (f : string -> A) (x : A) :
  match CutPrefix a p with Some v => f v | None => x end = if HasPrefix a p then f (default "" (CutPrefix a p)) else x.
Proof. unfold HasPrefix. by destruct (CutPrefix a p). Qed.

Lemma signer_flag args : extractSignerLocationFlag args =
  (filter (fun a => HasPrefix a "--signer=" = false) args, foldl (fun _ a => default "" (CutPrefix a "--signer=")) signerLocationAuto (only (fun a => HasPrefix a "--signer=") args)).
Proof. unfold extractSignerLocationFlag. rewrite (extract_split_pure (fun a => HasPrefix a "--signer=") _ (fun _ a => default "" (CutPrefix a "--signer="))); [done|]. intros. apply HasPrefix_cut. Qed.

Lemma same_key_flag args : extractSameKeyFlag args = (filter (fun a => bool_decide (a = "--same-key") = false) args, bool_decide ("--same-key" ∈ args)).
Proof.
  unfold extractSameKeyFlag. rewrite (extract_split_pure (fun a => bool_decide (a = "--same-key")) _ (fun _ _ => true)) by done. cbn [app]. f_equal.
  assert (G : forall l v, foldl (fun (_ : bool) (_ : string) => true) v l = bool_decide (l <> []) || v).
  { induction l as [|x l IH]; intros v; [done|]. cbn [foldl]. rewrite IH. by rewrite orb_true_r. }
  rewrite G, orb_false_r. apply bool_decide_ext. split.
  - intros H. destruct (filter _ args) as [|x l] eqn:E; [done|]. assert (Hx : x ∈ x :: l) by left. rewrite <- E in Hx.
    apply list_elem_of_filter in Hx as [->%bool_decide_eq_true ?]. done.
  - intros Hin. apply (elem_of_not_nil "--same-key"), list_elem_of_filter. by rewrite bool_decide_eq_true.
Qed.

Lemma protocol_flags args : extractProtocolFlag args =
  (v ← foldM protocol_flag "udp" (only is_protocol args); Ok (filter (fun a => is_protocol a = false) args, v)).
Proof.
  unfold extractProtocolFlag. rewrite (extract_split is_protocol _ protocol_flag); [done|]. intros out v a. unfold is_protocol, protocol_flag.
  case_bool_decide as H1; cbn [orb]; [|case_bool_decide as H2; [|done]]; cbn zeta; by destruct (_ && _).
Qed.

Lemma alg_flags args : extractKeyAlgFlag args =
  (v ← foldM alg_flag (0, false) (only (fun a => HasPrefix a "--k=") args); Ok (filter (fun a => HasPrefix a "--k=" = false) args, v)).
Proof.
  unfold extractKeyAlgFlag. rewrite (extract_split (fun a => HasPrefix a "--k=") _ alg_flag); [done|]. intros out [alg b] a. unfold alg_flag, HasPrefix.
  destruct (CutPrefix a "--k=") as [v|]; [|done]. cbn. by destruct (ParseUint8 v).
Qed.

Lemma ttl_flags args : extractTTLFlag args =
  (v ← foldM ttl_flag defaultKeyTTL (only (fun a => HasPrefix a "--ttl=") args); Ok (filter (fun a => HasPrefix a "--ttl=" = false) args, v)).
Proof.
  unfold extractTTLFlag. rewrite (extract_split (fun a => HasPrefix a "--ttl=") _ ttl_flag); [done|]. intros out ttl a. unfold ttl_flag, HasPrefix.
  destruct (CutPrefix a "--ttl=") as [v|]; [|done]. cbn. destruct (ParseUint v) as [n|]; [|done]. by destruct (n =? 0).
Qed.

(** No argument is two flags. *)
Ltac flag_conflict :=
  intros a H; unfold is_protocol in *; repeat case_bool_decide; subst; try done; (eapply prefix_conflict; [exact H|reflexivity..]).

Lemma parse_options_spec args : parse_options args = options_spec args.
Proof.
  unfold parse_options, options_spec. rewrite signer_flag. destruct (negb _); [done|]. rewrite same_key_flag, protocol_flags. set (args1 := filter _ args).
  assert (bool_decide ("--same-key" ∈ args1) = bool_decide ("--same-key" ∈ args)) as -> .
  { apply bool_decide_ext. unfold args1. rewrite list_elem_of_filter. split; [by intros [_ ?]|]. by intros ?. }
  assert (only is_protocol (filter (fun a => bool_decide (a = "--same-key") = false) args1) = only is_protocol args) as -> .
  { unfold args1. by rewrite !only_only by flag_conflict. }
  destruct (foldM protocol_flag _ _) as [protocol|]; [|done]. cbn [mbind result_bind]. rewrite alg_flags.
  set (args3 := filter (fun a => is_protocol a = false) _).
  assert (only (fun a => HasPrefix a "--k=") args3 = only (fun a => HasPrefix a "--k=") args) as -> .
  { unfold args3, args1. by rewrite !only_only by flag_conflict. }
  destruct (foldM alg_flag _ _) as [[alg provided]|]; [|done]. cbn [mbind result_bind]. rewrite ttl_flags.
  assert (only (fun a => HasPrefix a "--ttl=") (filter (fun a => HasPrefix a "--k=" = false) args3) = only (fun a => HasPrefix a "--ttl=") args) as -> .
  { unfold args3, args1. by rewrite !only_only by flag_conflict. }
  destruct (foldM ttl_flag _ _) as [ttl|]; [|done]. cbn [mbind result_bind]. unfold args3, args1. rewrite !filter_twice. do 2 f_equal.
  apply list_filter_iff. intros a. unfold option_flag. rewrite !orb_false_iff. tauto.
Qed.

Lemma only_sub (p q : string -> bool) (args : list string) : (forall a, p a = true -> q a = true) -> only p args = only p (only q args).
Proof.
  intros H. unfold only. induction args as [|a args IH]; [done|]. rewrite !filter_cons. destruct (q a) eqn:Eq; repeat (case_decide; try done).
  - rewrite filter_cons, decide_True by done. by rewrite IH.
  - rewrite filter_cons, decide_False by done. done.
  - by rewrite (H a) in Eq.
Qed.

(** The flags of register and refresh stand anywhere.  Two command lines with the same flags in
    the same order and the same positional arguments in the same order are read alike, however
    the ones stand between the others, errors included; what is read is [options_spec]'s; and the
    positional arguments are all that is no flag. *)
Theorem flags_anywhere (args args' : list string) :
  only option_flag args = only option_flag args' ->
  filter (fun a => option_flag a = false) args = filter (fun a => option_flag a = false) args' ->
  parse_options args = parse_options args' /\ parse_options args = options_spec args /\
  forall pos o, parse_options args = Ok (pos, o) -> pos = filter (fun a => option_flag a = false) args.
Proof.
  intros Hf Hp. assert (Honly : forall p, (forall a, p a = true -> option_flag a = true) -> only p args = only p args').
  { intros p H. by rewrite (only_sub p option_flag args H), (only_sub p option_flag args' H), Hf. }
  assert (Hin : "--same-key" ∈ args <-> "--same-key" ∈ args').
  { assert (G : forall l, "--same-key" ∈ only option_flag l <-> "--same-key" ∈ l) by (intros l; unfold only; rewrite list_elem_of_filter; split; [by intros [_ ?]|done]).
    by rewrite <- G, Hf, G. }
  split; [|split; [apply parse_options_spec|]].
  - rewrite !parse_options_spec. unfold options_spec. rewrite Hp, (bool_decide_ext _ _ Hin).
    rewrite !Honly; [done|..]; unfold option_flag; intros a ->; by rewrite ?orb_true_r.
  - rewrite parse_options_spec. unfold options_spec. intros pos o H. cbn zeta in H. destruct (negb _); [done|].
    apply bind_ok in H as (? & _ & ([] & _ & (? & _ & [= <- _])%bind_ok)%bind_ok). done.
Qed.

(** ** Tampering flips one bit *)

Lemma flip_first_ok rrs rrs' : flip_first rrs = Some (Ok rrs') ->
  exists pre k k' post, rrs = pre ++ KEY_RR k :: post /\ rrs' = pre ++ KEY_RR k' :: post /\ Forall (fun rr => as_KEY rr = None) pre /\ flip_key k = Ok k'.
Proof.
  revert rrs'. induction rrs as [|rr rrs IH]; intros rrs'; [done|]. cbn [flip_first]. destruct (as_KEY rr) as [k|] eqn:E.
  - intros [= (k' & Hk & [= <-])%bind_ok]. exists [], k, k', rrs. split_and!; try done. cbn. f_equal. destruct rr as [hd []]; try done. by injection E as <-.
  - destruct (flip_first rrs) as [r|]; [|done]. intros [= (rest & -> & [= <-])%bind_ok]. destruct (IH _ eq_refl) as (pre & k & k' & post & -> & -> & Hp & Hk).
    exists (rr :: pre), k, k', post. split_and!; try done. by constructor.
Qed.

Lemma flip_first_none rrs : flip_first rrs = None <-> Forall (fun rr => as_KEY rr = None) rrs.
Proof.
  induction rrs as [|rr rrs IH]; [by split|]. cbn [flip_first]. rewrite Forall_cons. destruct (as_KEY rr); [by split; [|intros []]|].
  rewrite <- IH. destruct (flip_first rrs); split; try done; by intros [].
Qed.

(** Flipping a key whose text is canonical twice gives it back. *)
Lemma flip_key_twice k k' b pub :
  Forall byte_ok (b :: pub) -> PublicKey (key_Data k) = b64_encode (b :: pub) -> flip_key k = Ok k' ->
  PublicKey (key_Data k') = b64_encode (Z.lxor b 1 :: pub) /\ flip_key k' = Ok k /\ k' <> k.
Proof.
  intros Hb Hk. unfold flip_key. rewrite Hk, (b64_decode_encode _ Hb). intros E. set (s := b64_encode (Z.lxor b 1 :: pub)) in *.
  assert (k' = mkKEY (key_Hdr k) (mkKeyData (Flags (key_Data k)) (Protocol (key_Data k)) (Algorithm (key_Data k)) s)) as -> by congruence. clear E.
  cbn [key_Data PublicKey key_Hdr Flags Protocol Algorithm].
  assert (Hb' : Forall byte_ok (Z.lxor b 1 :: pub)).
  { apply Forall_cons in Hb as [H0 Hb]. constructor; [|done]. unfold byte_ok in *. 
    assert (Hc : forall x, (0 <= x < 256) -> 0 <= Z.lxor x 1 < 256).
    { intros x Hx. split; [apply Z.lxor_nonneg; lia|]. destruct (Z.eq_dec (Z.lxor x 1) 0) as [->|]; [lia|].
      apply (Z.log2_lt_pow2 _ 8); [pose proof (Z.lxor_nonneg x 1); lia|]. eapply Z.le_lt_trans; [apply Z.log2_lxor; lia|].
      apply Z.max_lub_lt; [|cbn; lia]. destruct (Z.eq_dec x 0) as [->|]; [cbn; lia|]. apply Z.log2_lt_pow2; lia. }
    auto. }
  split; [done|]. unfold s. rewrite (b64_decode_encode _ Hb'), Z.lxor_assoc, Z.lxor_nilpotent, Z.lxor_0_r. split.
  - destruct k as [hd d]. cbn in *. destruct d. cbn in *. by rewrite <- Hk.
  - intros E. apply (f_equal (fun k => PublicKey (key_Data k))) in E. cbn [key_Data PublicKey] in E. rewrite Hk in E.
    apply (f_equal b64_decode) in E. rewrite !b64_decode_encode in E by done. injection E as E. apply (f_equal (Z.lxor b)) in E.
    rewrite Z.lxor_nilpotent, <- Z.lxor_assoc, Z.lxor_nilpotent in E. done.
Qed.

Lemma flip_first_at pre k post : Forall (fun rr => as_KEY rr = None) pre ->
  flip_first (pre ++ KEY_RR k :: post) = Some (k' ← flip_key k; Ok (pre ++ KEY_RR k' :: post)).
Proof.
  induction 1 as [|rr pre Hr Hp IH]; cbn [app flip_first].
  - destruct k. reflexivity.
  - rewrite Hr, IH. destruct (flip_key k); reflexivity.
Qed.

(** The tampered request of register-tamper.  It fails on a message without a KEY and otherwise
    changes nothing but the first KEY of the Update section, or without one there the first of
    the Additional section, in which it flips the low bit of the first byte of the key material;
    a second time it gives the message back, so the two differ. *)
Theorem tamper_flips_one_bit (m : Msg) :
  (Forall (fun rr => as_KEY rr = None) (Ns m ++ Extra m) -> is_ok (flipOnePayloadBit m) = false) /\
  forall m', flipOnePayloadBit m = Ok m' ->
    exists pre k k' post, flip_key k = Ok k' /\ Forall (fun rr => as_KEY rr = None) pre /\
      (Ns m = pre ++ KEY_RR k :: post /\ m' = set_Ns (pre ++ KEY_RR k' :: post) m \/
       Forall (fun rr => as_KEY rr = None) (Ns m) /\ Extra m = pre ++ KEY_RR k :: post /\
         m' = mkMsg (MsgHdr m) (Question m) (Answer m) (Ns m) (pre ++ KEY_RR k' :: post) (Pseudo m) (Data m)) /\
      forall b pub, Forall byte_ok (b :: pub) -> PublicKey (key_Data k) = b64_encode (b :: pub) ->
        PublicKey (key_Data k') = b64_encode (Z.lxor b 1 :: pub) /\ flipOnePayloadBit m' = Ok m /\ m' <> m.
Proof.
  split.
  - intros [Hn He]%Forall_app. unfold flipOnePayloadBit. by rewrite (proj2 (flip_first_none _) Hn), (proj2 (flip_first_none _) He).
  - intros m'. unfold flipOnePayloadBit at 1. destruct m as [hd qs an ns ex ps da]. cbn [Ns Extra MsgHdr Question Answer Pseudo Data].
    assert (Hinj : forall pre k k' post (f : list RR -> Msg) (sec : Msg -> list RR), (forall l, sec (f l) = l) -> f (pre ++ KEY_RR k' :: post) = f (pre ++ KEY_RR k :: post) -> k' = k).
    { intros pre k k' post f sec Hsec E. apply (f_equal sec) in E. rewrite !Hsec in E. apply app_inv_head in E. injection E. destruct k, k'. cbn. congruence. }
    destruct (flip_first ns) as [r|] eqn:En.
    + intros (ns' & -> & [= <-])%bind_ok. destruct (flip_first_ok _ _ En) as (pre & k & k' & post & -> & -> & Hp & Hk). exists pre, k, k', post.
      split_and!; try done; [by left|]. intros b pub Hb Hpk. destruct (flip_key_twice _ _ _ _ Hb Hpk Hk) as (H1 & H2 & H3). split_and!; [done| |].
      * unfold flipOnePayloadBit. cbn [set_Ns Ns]. by rewrite (flip_first_at _ _ _ Hp), H2.
      * intros E. apply H3. eapply (Hinj pre k k' post (fun l => mkMsg hd qs an l ex ps da) Ns); [done|exact E].
    + apply flip_first_none in En as Hns. destruct (flip_first ex) as [r|] eqn:Ee; [|done]. intros (ex' & -> & [= <-])%bind_ok.
      destruct (flip_first_ok _ _ Ee) as (pre & k & k' & post & -> & -> & Hp & Hk). exists pre, k, k', post.
      split_and!; try done; [by right|]. intros b pub Hb Hpk. destruct (flip_key_twice _ _ _ _ Hb Hpk Hk) as (H1 & H2 & H3). split_and!; [done| |].
      * unfold flipOnePayloadBit. cbn [Ns Extra]. by rewrite En, (flip_first_at _ _ _ Hp), H2.
      * intros E. apply H3. eapply (Hinj pre k k' post (fun l => mkMsg hd qs an ns l ps da) Extra); [done|exact E].
Qed.

(** ** A concrete run: the key of [DemoKeys], created and leased by one command *)
Module DemoClient.
Definition args : list string := ["host.example.org."; "0"; "--k=15"; "3600"; "--same-key"].
Definition run : Keystore * result (@Prepared DemoSig.crypto) := prepare (L := Demo.lib) (K := DemoKeys.lib) (fun _ => Err "no parser") io_ok "keys" args None.
Definition prepared : @Prepared DemoSig.crypto :=
  match run.2 with
  | Ok p => p
  | Err _ => mkPrepared (mkOptions "" false "" 0 false 0) (mkLoadedKey "" DemoSig.key DemoSig.priv) 0 0 [] [] DemoSig.request
  end.
Definition signed : Msg := match sign_request (L := Demo.lib) (S0 := DemoSig.lib) 1000 false prepared with Ok m => m | Err _ => DemoSig.request end.
Definition handler : UpdateHandler := mkUpdateHandler "example.org." (Some DemoSig.key) (mkLeasePolicy 60 7200 0 3600) 300 false false [].

Lemma admitted : admissible handler prepared.
Proof.
  split; [vm_compute; split; congruence|vm_compute; congruence|apply Forall_true; intros; cbn; apply not_elem_of_nil| |];
    (vm_compute; repeat constructor; discriminate).
Qed.
End DemoClient.

