(* ===== verification/NetAddr.v ===== *)
(** * net/netip.ParseAddr

    The text forms of IPv4 and IPv6 addresses, as Go's standard library reads them; the SRP
    command line client takes its host's addresses in them.  A zone is checked and then dropped,
    address records having none. *)

From Stdlib Require Import Ascii String ZArith Lia.
From S2P Require Import Prelude LeaseOption GoQuote SrpTiming GoStd Sig0Signer KeyFiles SrpRequest.

Local Open Scope Z_scope.

(** The loop of parseIPv4Fields; [first] and [afterDot] say what came before. *)
Fixpoint parseIPv4Fields (first afterDot : bool) (val pos digLen : Z) (fields : bytes) (s : string) : result bytes :=
  match s with
  | EmptyString => if pos <? 3 then Err "IPv4 address too short" else Ok (fields ++ [val])
  | String c rest =>
      if is_digit c then
        if (digLen =? 1) && (val =? 0) then Err "IPv4 field has octet with leading zero"
        else
          let val := val * 10 + digit_value c in
          if 255 <? val then Err "IPv4 field has value >255" else parseIPv4Fields false false val pos (digLen + 1) fields rest
      else if bool_decide (c = "."%char) then
        if first || bool_decide (rest = "") || afterDot then Err "IPv4 field must have at least one digit"
        else if pos =? 3 then Err "IPv4 address too long"
        else parseIPv4Fields false true 0 (pos + 1) 0 (fields ++ [val]) rest
      else Err "unexpected character"
  end.

Definition parseIPv4 (s : string) : result bytes := parseIPv4Fields true false 0 0 0 [] s.

(** One group of hex digits: its value, the number of digits and what follows. *)
Fixpoint hex_group (off : Z) (acc : Z) (s : string) : result (Z * Z * string) :=
  match s with
  | EmptyString => Ok (acc, off, "")
  | String c rest =>
      match hex_value c with
      | None => Ok (acc, off, s)
      | Some d =>
          let acc := acc * 16 + d in
          if 3 <? off then Err "each group must have 4 or fewer digits"
          else if 65535 <? acc then Err "IPv6 field has value >=2^16"
          else hex_group (off + 1) acc rest
      end
  end.

Definition nat_option_some (o : option nat) : bool := bool_decide (is_Some o).

Definition put_group (ip : bytes) (acc : Z) : bytes := ip ++ [acc / 256; acc mod 256].

(** The loop over the groups.  [room] is the number of groups the address still has room for, so
    the loop ends when it is used up; [ip] holds the bytes so far, [ellipsis] where :: stood. *)
Fixpoint ipv6_groups (room : nat) (ip : bytes) (ellipsis : option nat) (s : string) : result (bytes * option nat * string) :=
  match room with
  | O => Ok (ip, ellipsis, s)
  | S room' =>
      '(acc, off, rest) ← hex_group 0 0 s;
      if off =? 0 then Err "each colon-separated field must have at least one digit"
      else
        match rest with
        | EmptyString => Ok (put_group ip acc, ellipsis, "")
        | String c more =>
            if bool_decide (c = "."%char) then
              if negb (nat_option_some ellipsis) && negb (length ip =? 12)%nat
              then Err "embedded IPv4 address must replace the final 2 fields of the address"
              else if (16 <? length ip + 4)%nat then Err "too many hex fields to fit an embedded IPv4 at the end of the address"
              else fields ← parseIPv4 s; Ok (ip ++ fields, ellipsis, "")
            else if negb (bool_decide (c = ":"%char)) then Err "unexpected character, want colon"
            else
              let ip := put_group ip acc in
              match more with
              | EmptyString => Err "colon must be followed by more characters"
              | String d rest =>
                  if bool_decide (d = ":"%char) then
                    if nat_option_some ellipsis then Err "multiple :: in address"
                    else if bool_decide (rest = "") then Ok (ip, Some (length ip), "")
                    else ipv6_groups room' ip (Some (length ip)) rest
                  else ipv6_groups room' ip ellipsis more
              end
        end
  end.

Definition ipv6_finish (r : bytes * option nat * string) : result bytes :=
  let '(ip, ellipsis, s) := r in
  if negb (bool_decide (s = "")) then Err "trailing garbage after address"
  else match ellipsis with
  | Some e => if (length ip <? 16)%nat then Ok (take e ip ++ replicate (16 - length ip) 0 ++ drop e ip)
              else Err "the :: must expand to at least one field of zeros"
  | None => if (length ip <? 16)%nat then Err "address string too short" else Ok ip
  end.

Definition parseIPv6 (s : string) : result bytes :=
  let zoned := match IndexByte "%" s with
               | None => Ok s
               | Some i => if bool_decide (string_drop (i + 1) s = "") then Err "zone must be a non-empty string" else Ok (string_take i s)
               end in
  s ← zoned;
  match CutPrefix s "::" with
  | Some rest =>
      if bool_decide (rest = "") then Ok (replicate 16 0)
      else r ← ipv6_groups 8 [] (Some 0%nat) rest; ipv6_finish r
  | None => r ← ipv6_groups 8 [] None s; ipv6_finish r
  end.

(** The first of the characters . : % decides. *)
Fixpoint address_kind (s : string) : option ascii :=
  match s with
  | EmptyString => None
  | String c s => if bool_decide (c ∈ ["."%char; ":"%char; "%"%char]) then Some c else address_kind s
  end.

Definition ParseAddr (s : string) : result Addr :=
  match address_kind s with
  | None => Err "unable to parse IP"
  | Some c =>
      if bool_decide (c = "."%char) then b ← parseIPv4 s; Ok (Addr4 (SetBytes b))
      else if bool_decide (c = ":"%char) then b ← parseIPv6 s; Ok (Addr6 (SetBytes b))
      else Err "missing IPv6 address"
  end.

(** ** What is parsed is an address *)

Lemma parseIPv4Fields_ok s first afterDot val pos digLen fields b :
  Forall byte_ok fields -> byte_ok val -> pos = Z.of_nat (length fields) -> pos <= 3 ->
  parseIPv4Fields first afterDot val pos digLen fields s = Ok b -> length b = 4%nat /\ Forall byte_ok b.
Proof.
  revert first afterDot val pos digLen fields. induction s as [|c s IH]; intros first afterDot val pos digLen fields Hf Hv Hp Hle; cbn [parseIPv4Fields].
  - destruct (Z.ltb_spec pos 3); [done|]. intros [= <-]. rewrite length_app. cbn. split; [lia|]. apply Forall_app. split; [done|by apply Forall_singleton].
  - destruct (is_digit c) eqn:Ed.
    + destruct (_ && _); [done|]. cbn zeta. destruct (Z.ltb_spec 255 (val * 10 + digit_value c)); [done|]. apply IH; try done.
      unfold byte_ok, digit_value, is_digit in *. apply andb_true_iff in Ed as [E1%N.leb_le _]. unfold byte_of in *. lia.
    + case_bool_decide; [|done]. destruct (_ || afterDot); [done|]. destruct (Z.eqb_spec pos 3); [done|]. apply IH; try done.
      * apply Forall_app. split; [done|by apply Forall_singleton].
      * rewrite length_app. cbn. lia.
      * lia.
Qed.

Lemma parseIPv4_ok s b : parseIPv4 s = Ok b -> length b = 4%nat /\ Forall byte_ok b.
Proof. apply parseIPv4Fields_ok; [constructor|unfold byte_ok; lia|done|lia]. Qed.

Lemma hex_group_ok s off acc v n rest : 0 <= acc < 65536 -> hex_group off acc s = Ok (v, n, rest) -> 0 <= v < 65536.
Proof.
  revert off acc. induction s as [|c s IH]; intros off acc Ha; cbn [hex_group]; [by intros [= <- _ _]|].
  destruct (hex_value c) as [d|] eqn:E; [|by intros [= <- _ _]]. cbn zeta. destruct (3 <? off); [done|]. destruct (Z.ltb_spec 65535 (acc * 16 + d)); [done|].
  assert (0 <= d). { revert E. unfold hex_value. cbn zeta. repeat case_match; intros [= <-]; repeat match goal with H : (_ && _) = true |- _ => apply andb_true_iff in H as [?%N.leb_le ?%N.leb_le] end; lia. } apply IH. lia.
Qed.

Lemma put_group_ok ip acc : 0 <= acc < 65536 -> Forall byte_ok ip -> Forall byte_ok (put_group ip acc) /\ length (put_group ip acc) = (length ip + 2)%nat.
Proof.
  intros Ha Hip. unfold put_group. rewrite length_app. split; [|done]. apply Forall_app. split; [done|]. pose proof (Z.mod_pos_bound acc 256).
  pose proof (Z.div_mod acc 256). repeat constructor; unfold byte_ok; lia.
Qed.

(** What the loop leaves: at most 16 bytes, and the ellipsis among them. *)
Definition address_so_far (ip : bytes) (ellipsis : option nat) : Prop :=
  (length ip <= 16)%nat /\ Forall byte_ok ip /\ forall e, ellipsis = Some e -> (e <= length ip)%nat.

Lemma ipv6_groups_ok room ip ellipsis s ip' e' rest :
  (length ip + 2 * room = 16)%nat -> address_so_far ip ellipsis -> ipv6_groups room ip ellipsis s = Ok (ip', e', rest) -> address_so_far ip' e'.
Proof.
  revert ip ellipsis s. induction room as [|room IH]; intros ip ellipsis s Hlen (Hl & Hip & He); cbn [ipv6_groups]; [by intros [= <- <- <-]|].
  intros ([[acc off] r] & Hg & H)%bind_ok. destruct (put_group_ok ip acc) as [Hip2 Hl2]; [eapply hex_group_ok; [|exact Hg]; lia|done|].
  set (ip2 := put_group ip acc) in *. cbn zeta in H. assert (A : address_so_far ip2 ellipsis) by (split_and!; [lia|done|intros e E; specialize (He e E); lia]).
  assert (A' : address_so_far ip2 (Some (length ip2))) by (split_and!; [lia|done|by intros e [= <-]]).
  destruct (off =? 0); [done|]. destruct r as [|c more]; [by injection H as <- <- <-|]. case_bool_decide.
  - destruct (_ && _); [done|]. destruct (Nat.ltb_spec 16 (length ip + 4)); [done|]. apply bind_ok in H as (f & [Hf1 Hf2]%parseIPv4_ok & [= <- <- <-]).
    unfold address_so_far. rewrite length_app. split_and!; [lia|by apply Forall_app|]. intros e E. specialize (He e E). lia.
  - destruct (negb _); [done|]. destruct more as [|d rest']; [done|]. destruct (bool_decide (d = ":"%char)); [|by eapply (IH ip2 ellipsis); [lia|done|exact H]].
    destruct (nat_option_some ellipsis); [done|]. destruct (bool_decide (rest' = "")); [by injection H as <- <- <-|].
    by eapply (IH ip2 (Some (length ip2))); [lia|done|exact H].
Qed.

Lemma SetBytes_bound b : Forall byte_ok b -> 0 <= SetBytes b < 256 ^ Z.of_nat (length b).
Proof.
  unfold SetBytes. intros Hb. assert (G : forall v, 0 <= v -> v * 256 ^ Z.of_nat (length b) <= foldl (fun v x => v * 256 + x) v b < (v + 1) * 256 ^ Z.of_nat (length b)).
  { induction Hb as [|x b Hx Hb IH]; intros v Hv; cbn [foldl length]; [lia|]. unfold byte_ok in Hx. rewrite Nat2Z.inj_succ, Z.pow_succ_r by lia.
    assert (0 < 256 ^ Z.of_nat (length b)) by (apply Z.pow_pos_nonneg; lia). specialize (IH (v * 256 + x)). nia. }
  specialize (G 0). lia.
Qed.

(** An address that parses has 32 bits, or 128. *)
Theorem ParseAddr_range s a : ParseAddr s = Ok a -> match a with Addr4 n => 0 <= n < 2 ^ 32 | Addr6 n => 0 <= n < 2 ^ 128 end.
Proof.
  unfold ParseAddr. destruct (address_kind s) as [c|]; [|done]. case_bool_decide; [|case_bool_decide; [|done]].
  - intros (b & [Hl Hb]%parseIPv4_ok & [= <-])%bind_ok. pose proof (SetBytes_bound b Hb) as H'. rewrite Hl in H'. exact H'.
  - intros (b & Hb & [= <-])%bind_ok. assert (G : length b = 16%nat /\ Forall byte_ok b).
    { unfold parseIPv6 in Hb. apply bind_ok in Hb as (s' & _ & Hb).
      assert (Hfin : forall ip e rest, address_so_far ip e -> ipv6_finish (ip, e, rest) = Ok b -> length b = 16%nat /\ Forall byte_ok b).
      { intros ip e rest (Hl & Hip & He). unfold ipv6_finish. destruct (negb _); [done|]. destruct e as [e|].
        - specialize (He e eq_refl). destruct (Nat.ltb_spec (length ip) 16); [|done]. intros [= <-]. rewrite !length_app, length_take, length_drop, length_replicate.
          split; [lia|]. rewrite !Forall_app. split_and!; [by apply Forall_take|apply Forall_replicate; unfold byte_ok; lia|by apply Forall_drop].
        - destruct (Nat.ltb_spec (length ip) 16); [done|]. intros [= <-]. split; [lia|done]. }
      destruct (CutPrefix s' "::") as [rest|].
      - case_bool_decide; [injection Hb as <-; split; [done|repeat (constructor; [unfold byte_ok; lia|]); constructor]|].
        apply bind_ok in Hb as ([[ip e] r] & Hg & Hb). eapply Hfin; [|exact Hb]. eapply ipv6_groups_ok; [|..|exact Hg]; [done|]. split_and!; [cbn; lia|constructor|intros ? [= <-]; cbn; lia].
      - apply bind_ok in Hb as ([[ip e] r] & Hg & Hb). eapply Hfin; [|exact Hb]. eapply ipv6_groups_ok; [|..|exact Hg]; [done|]. split_and!; [cbn; lia|constructor|done]. }
    destruct G as [Hl G]. pose proof (SetBytes_bound b G) as H'. rewrite Hl in H'. exact H'.
Qed.

Example parse_addresses :
  map ParseAddr ["192.0.2.1"; "192.0.2.01"; "1.2.3"; "::"; "2001:db8::1"; "::ffff:192.0.2.1"; "fe80::1%eth0"; "1::2::3"; "1:2:3:4:5:6:7:8:9"; "host"] =
  [Ok (Addr4 3221225985); Err "IPv4 field has octet with leading zero"; Err "IPv4 address too short"; Ok (Addr6 0);
   Ok (Addr6 42540766411282592856903984951653826561); Ok (Addr6 281473902969345); Ok (Addr6 338288524927261089654018896841347694593);
   Err "multiple :: in address"; Err "trailing garbage after address"; Err "unable to parse IP"].
Proof. vm_compute. reflexivity. Qed.
