(* ===== verification/SrpCli.v ===== *)
(** * The SRP command line client

    cmd/sig0lease-srp-client/main.go: from the flags to the requester of SrpClient.  The flags
    are given as the flag package leaves them, an unsigned one being a 64-bit integer; a fatal
    error is [Err].  What is printed is left out, and so are the addresses of the resolvers,
    which only select what [ask] of SrpClient asks. *)

From Stdlib Require Import Ascii String ZArith Lia.
From S2P Require Import Prelude DnsName DnsData LeaseOption LeasePolicy UpdateCore HandlerBase GoQuote GoStd SrpClassify SrpHandler SrpRequest SrpDiscovery SrpTiming SrpClient.
From S2P Require Import Sig0Signer SrpEndToEnd KeyFiles LeaseClient NetAddr.

Local Open Scope Z_scope.

Record SrpFlags := mkSrpFlags {
  f_domain : string; f_host : string; f_server : string; f_discovery : string;
  f_lease : Z; f_keylease : Z; f_ttl : Z; f_udp : bool; f_tls : bool; f_once : bool; f_deregister : bool;
  f_keystore : string; f_k : Z; f_maxRenames : Z;
  f_addrs : list string; f_instances : list string; f_removes : list string; f_txts : list string; f_subtypes : list string }.

(** [strings.Cut(s, ":")]. *)
Fixpoint CutColon (s : string) : option (string * string) :=
  match s with
  | EmptyString => None
  | String c s =>
      if bool_decide (c = ":"%char) then Some ("", s)
      else match CutColon s with Some (a, b) => Some (String c a, b) | None => None end
  end.

(** [strings.SplitN(spec, ":", 3)], when it has three parts. *)
Definition SplitN3 (spec : string) : option (string * string * string) :=
  '(a, rest) ← CutColon spec; '(b, c) ← CutColon rest; Some (a, b, c).

(** [strconv.ParseUint(s, 10, 16)]. *)
Definition ParseUint16 (s : string) : option Z := n ← ParseUint s; if n <? 2 ^ 16 then Some n else None.

(** ** parseInstances

    [byLabel] holds pointers, so what -txt and -subtype append shows in the result. *)

Definition InstanceMap : Type := gmap string InstanceConfig * list string.

Definition add_instance (acc : InstanceMap) (spec : string) : result InstanceMap :=
  let '(byLabel, order) := acc in
  match SplitN3 spec with
  | None => Err "invalid -instance"
  | Some (label, svcType, port) =>
      match ParseUint16 port with
      | None => Err "invalid -instance: bad port"
      | Some port =>
          if bool_decide (is_Some (byLabel !! label)) then Err "duplicate -instance label"
          else Ok (<[label := mkInstanceConfig label svcType [] port [] false]> byLabel, order ++ [label])
      end
  end.

Definition add_remove (acc : InstanceMap) (spec : string) : result InstanceMap :=
  let '(byLabel, order) := acc in
  match CutColon spec with
  | None => Err "invalid -remove"
  | Some (label, svcType) =>
      if bool_decide (is_Some (byLabel !! label)) then Err "duplicate instance label"
      else Ok (<[label := mkInstanceConfig label svcType [] 0 [] true]> byLabel, order ++ [label])
  end.

Definition add_txt (byLabel : gmap string InstanceConfig) (spec : string) : result (gmap string InstanceConfig) :=
  match CutColon spec with
  | None => Err "invalid -txt"
  | Some (label, content) =>
      match byLabel !! label with
      | None => Err "-txt references undeclared instance label"
      | Some inst =>
          if ic_Remove inst then Err "-txt references instance label, which -remove withdraws"
          else Ok (<[label := mkInstanceConfig (ic_Label inst) (ic_ServiceType inst) (ic_Subtypes inst) (ic_Port inst) (ic_TXT inst ++ [content]) (ic_Remove inst)]> byLabel)
      end
  end.

Definition add_subtype (byLabel : gmap string InstanceConfig) (spec : string) : result (gmap string InstanceConfig) :=
  match CutColon spec with
  | None => Err "invalid -subtype"
  | Some (label, subtype) =>
      match byLabel !! label with
      | None => Err "-subtype references undeclared instance label"
      | Some inst =>
          if ic_Remove inst then Err "-subtype references instance label, which -remove withdraws"
          else Ok (<[label := mkInstanceConfig (ic_Label inst) (ic_ServiceType inst) (ic_Subtypes inst ++ [subtype]) (ic_Port inst) (ic_TXT inst) (ic_Remove inst)]> byLabel)
      end
  end.

Definition parseInstances (instances removes txts subtypes : list string) : result (list InstanceConfig) :=
  acc ← foldM add_instance (∅, []) instances;
  declared ← foldM add_remove acc removes;
  byLabel ← foldM add_txt (declared : InstanceMap).1 txts;
  byLabel ← foldM add_subtype byLabel subtypes;
  Ok (omap (fun label => (byLabel : gmap string InstanceConfig) !! label) declared.2).

(** ** main *)

Definition cli_network (f : SrpFlags) : result Z :=
  if f_udp f && f_tls f then Err "-udp and -tls are mutually exclusive"
  else Ok (if f_udp f then NetworkUDP else if f_tls f then NetworkTLS else NetworkTCP).

Definition cli_discovery (f : SrpFlags) : result Z :=
  if bool_decide (f_discovery f = "closest") then Ok DiscoveryClosest
  else if bool_decide (f_discovery f = "apex") then Ok DiscoveryApexOnly
  else Err "invalid -discovery".

Definition cli_addresses (addrs : list string) : result (list Addr) :=
  foldM (fun parsed a => match ParseAddr a with Err _ => Err "invalid -addr" | Ok addr => Ok (parsed ++ [addr]) end) [] addrs.

Section cli.
Context {C : Crypto} {L : DnsLib} {K : KeyLib}.

Definition resolveKey (io : KeystoreIO) (dir host domain : string) (algorithm : Z) (ks : Keystore) : Keystore * result (LoadedKey * bool) :=
  ResolveOrCreateKey io dir (ensureFQDN (host +:+ "." +:+ TrimSuffix domain ".")) algorithm ks.

(** Up to [NewClient]: the key, whether it was created, and the client.  The conversions to uint8 and uint32 wrap. *)
Definition cli_client (io : KeystoreIO) (getenv : string -> string) (keystores : string -> Keystore) (gen : string -> result KEY) (f : SrpFlags)
    : option (string * Keystore) * result (LoadedKey * bool * Client) :=
  if bool_decide (f_domain f = "") || bool_decide (f_host f = "") then (None, Err "-domain and -host are required")
  else if f_ttl f =? 0 then (None, Err "-ttl must be at least 1")
  else
    match (network ← cli_network f; discoveryMode ← cli_discovery f; parsedAddrs ← cli_addresses (f_addrs f);
           instCfgs ← parseInstances (f_instances f) (f_removes f) (f_txts f) (f_subtypes f);
           dir ← resolveKeystoreDir getenv (f_keystore f);
           Ok (network, discoveryMode, parsedAddrs, instCfgs, dir)) with
    | Err e => (None, Err e)
    | Ok (network, discoveryMode, parsedAddrs, instCfgs, dir) =>
        match resolveKey io dir (f_host f) (f_domain f) (f_k f mod 2 ^ 8) (keystores dir) with
        | (ks, Err e) => (Some (dir, ks), Err e)
        | (ks, Ok (key, created)) =>
            (Some (dir, ks),
             c ← NewClient gen (mkConfig (f_domain f) (f_host f) parsedAddrs instCfgs (Some (lk_PublicKey key)) (wrap32 (f_lease f)) (wrap32 (f_keylease f))
                                 (wrap32 (f_ttl f)) (f_server f) discoveryMode network 0 (f_maxRenames f));
             Ok (key, created, c))
        end
    end.

(** -deregister and -once: one update, and whether the exit status is 0.  [None] is the end of
    [Discover]'s fuel. *)
Definition cli_once {SG : Sig0} {N : Type} (ask : N -> DNSQuery) (transport : string -> Z -> Msg -> N -> result (option Msg) * N) (f : SrpFlags) (c : Client) (n : N)
    : option (result RequestOutcome * bool * N) :=
  r ← (if f_deregister f then Deregister ask transport c n else client_Register ask transport c n);
  Some match r with
       | (Err e, n) => (Err e, false, n)
       | (Ok (resp, outcome), n) => (Ok outcome, match outcome with OutcomeSuccess => true | _ => false end, n)
       end.
End cli.

(** ** What the instance flags mean *)

Definition instance_of (spec : string) : option InstanceConfig :=
  '(label, svcType, port) ← SplitN3 spec; port ← ParseUint16 port; Some (mkInstanceConfig label svcType [] port [] false).
Definition remove_of (spec : string) : option InstanceConfig :=
  '(label, svcType) ← CutColon spec; Some (mkInstanceConfig label svcType [] 0 [] true).

(** The texts a label is given, in order. *)
Definition texts_for (label : string) (specs : list string) : list string :=
  omap (fun spec => '(l, text) ← CutColon spec; if bool_decide (l = label) then Some text else None) specs.

Definition add_texts (txts subtypes : list string) (inst : InstanceConfig) : InstanceConfig :=
  mkInstanceConfig (ic_Label inst) (ic_ServiceType inst) (ic_Subtypes inst ++ texts_for (ic_Label inst) subtypes) (ic_Port inst)
    (ic_TXT inst ++ texts_for (ic_Label inst) txts) (ic_Remove inst).

(** A spec that names a declared instance. *)
Definition refers (adds : list InstanceConfig) (spec : string) : Prop :=
  exists label text inst, CutColon spec = Some (label, text) /\ inst ∈ adds /\ ic_Label inst = label /\ ic_Remove inst = false.

(** The map of declared instances, and their order. *)
Definition map_of (decl : list InstanceConfig) : gmap string InstanceConfig := list_to_map (map (fun i => (ic_Label i, i)) decl).
Definition declared (decl : list InstanceConfig) : InstanceMap := (map_of decl, map ic_Label decl).
Definition labels_differ (decl : list InstanceConfig) : Prop := NoDup (map ic_Label decl).

Lemma pairs_labels decl : (map (fun i => (ic_Label i, i)) decl).*1 = map ic_Label decl.
Proof. by rewrite <- list_fmap_compose. Qed.

Lemma map_of_lookup decl k inst : labels_differ decl -> map_of decl !! k = Some inst <-> inst ∈ decl /\ ic_Label inst = k.
Proof.
  intros Hn. unfold map_of. rewrite <- elem_of_list_to_map by (by rewrite pairs_labels). rewrite list_elem_of_fmap. split.
  - intros (i & [= -> ->] & Hin). done.
  - intros [Hin <-]. by exists inst.
Qed.

Lemma map_of_None decl k : map_of decl !! k = None <-> k ∉ map ic_Label decl.
Proof. unfold map_of. by rewrite <- not_elem_of_list_to_map, pairs_labels. Qed.

Lemma declared_snoc decl inst : ic_Label inst ∉ map ic_Label decl -> declared (decl ++ [inst]) = (<[ic_Label inst := inst]> (map_of decl), map ic_Label decl ++ [ic_Label inst]).
Proof.
  intros H. unfold declared, map_of. rewrite !map_app. cbn [map]. rewrite list_to_map_snoc; [done|]. by rewrite pairs_labels.
Qed.

(** Declaring one after another what a parser reads. *)
Definition declares (step : InstanceMap -> string -> result InstanceMap) (p : string -> option InstanceConfig) : Prop :=
  forall decl spec acc, step (declared decl) spec = Ok acc <-> exists inst, p spec = Some inst /\ (ic_Label inst ∉ map ic_Label decl) /\ acc = declared (decl ++ [inst]).

Lemma add_instance_declares : declares add_instance instance_of.
Proof.
  intros decl spec acc. unfold add_instance, instance_of. unfold declared at 1. cbn beta iota. destruct (SplitN3 spec) as [[[label t] port]|]; [|split; [done|by intros (? & ? & _)]].
  cbn [mbind option_bind]. destruct (ParseUint16 port) as [n|]; cbn [mbind option_bind]; [|split; [done|by intros (? & ? & _)]]. split.
  - case_bool_decide as Hc; [done|]. intros [= <-]. eexists. split; [done|]. rewrite <- eq_None_not_Some, map_of_None in Hc. split; [done|]. symmetry. by apply (declared_snoc decl (mkInstanceConfig label t [] n [] false)).
  - intros (inst & [= <-] & Hl & ->). rewrite (declared_snoc decl _ Hl). cbn [ic_Label] in *. rewrite <- map_of_None, eq_None_not_Some in Hl. by rewrite bool_decide_false.
Qed.

Lemma add_remove_declares : declares add_remove remove_of.
Proof.
  intros decl spec acc. unfold add_remove, remove_of. unfold declared at 1. cbn beta iota. destruct (CutColon spec) as [[label t]|]; [|split; [done|by intros (? & ? & _)]].
  cbn [mbind option_bind]. split.
  - case_bool_decide as Hc; [done|]. intros [= <-]. eexists. split; [done|]. rewrite <- eq_None_not_Some, map_of_None in Hc. split; [done|]. symmetry. by apply (declared_snoc decl (mkInstanceConfig label t [] 0 [] true)).
  - intros (inst & [= <-] & Hl & ->). rewrite (declared_snoc decl _ Hl). cbn [ic_Label] in *. rewrite <- map_of_None, eq_None_not_Some in Hl. by rewrite bool_decide_false.
Qed.

Lemma foldM_declares step p specs decl acc : declares step p -> labels_differ decl ->
  foldM step (declared decl) specs = Ok acc <-> exists l, mapM p specs = Some l /\ labels_differ (decl ++ l) /\ acc = declared (decl ++ l).
Proof.
  intros Hstep. assert (Hassoc : forall (x : InstanceConfig) l1 l2, l1 ++ x :: l2 = (l1 ++ [x]) ++ l2) by (intros; by rewrite <- app_assoc).
  revert decl. induction specs as [|spec specs IH]; intros decl Hd; cbn [foldM].
  - split; [intros [= <-]; exists []; by rewrite app_nil_r|]. intros (l & [= <-] & _ & ->). by rewrite app_nil_r.
  - split.
    + intros (acc1 & (inst & Hp & Hl & ->)%Hstep & H)%bind_ok. apply IH in H as (l & Hm & Hn & ->).
      2:{ unfold labels_differ. rewrite map_app, NoDup_app. split_and!; [done| |apply NoDup_singleton]. intros x Hx ->%list_elem_of_singleton. done. }
      exists (inst :: l). rewrite Hassoc. split_and!; [|done..]. cbn. by rewrite Hp, Hm.
    + intros (l & Hm & Hn & ->). cbn in Hm. destruct (p spec) as [inst|] eqn:Hp; [|done]. cbn in Hm. destruct (mapM p specs) as [l'|] eqn:Hl; [|done].
      injection Hm as <-. assert (Hd' : labels_differ (decl ++ [inst])).
      { unfold labels_differ in *. rewrite Hassoc, map_app in Hn. by apply NoDup_app in Hn as [? _]. }
      assert (E : step (declared decl) spec = Ok (declared (decl ++ [inst]))).
      { apply Hstep. exists inst. split_and!; [done| |done]. unfold labels_differ in Hd'. rewrite map_app, NoDup_app in Hd'. destruct Hd' as (_ & Hx & _).
        intros Hin. apply (Hx _ Hin). by left. }
      rewrite E. cbn [mbind result_bind]. apply IH; [done|]. exists l'. rewrite (Hassoc inst decl l') in Hn. rewrite (Hassoc inst decl l'). done.
Qed.

(** *** Adding texts to what is declared *)

Definition keeps_identity (g : InstanceConfig -> InstanceConfig) : Prop := forall i, ic_Label (g i) = ic_Label i /\ ic_Remove (g i) = ic_Remove i.

Lemma keeps_labels g decl : keeps_identity g -> map ic_Label (map g decl) = map ic_Label decl.
Proof. intros H. rewrite map_map. apply map_ext. intros i. apply H. Qed.

Lemma keeps_refers g decl spec : keeps_identity g -> refers (map g decl) spec <-> refers decl spec.
Proof.
  intros H. split.
  - intros (l & t & i & Hc & (i0 & -> & Hin)%list_elem_of_fmap & Hl & Hr). destruct (H i0) as [E1 E2]. exists l, t, i0. by rewrite <- E1, <- E2.
  - intros (l & t & i & Hc & Hin & Hl & Hr). destruct (H i) as [E1 E2]. exists l, t, (g i). split_and!; [done|by apply list_elem_of_fmap_2|congruence..].
Qed.

(** One spec on one instance. *)
Definition text_step (upd : string -> InstanceConfig -> InstanceConfig) (spec : string) (i : InstanceConfig) : InstanceConfig :=
  match CutColon spec with Some (l, text) => if bool_decide (l = ic_Label i) then upd text i else i | None => i end.

Definition appends (step : gmap string InstanceConfig -> string -> result (gmap string InstanceConfig)) (upd : string -> InstanceConfig -> InstanceConfig) : Prop :=
  (forall text, keeps_identity (upd text)) /\
  forall m spec m', step m spec = Ok m' <-> exists l text i, CutColon spec = Some (l, text) /\ m !! l = Some i /\ ic_Remove i = false /\ m' = <[l := upd text i]> m.

Lemma text_step_keeps upd spec : (forall text, keeps_identity (upd text)) -> keeps_identity (text_step upd spec).
Proof. intros H i. unfold text_step. destruct (CutColon spec) as [[l t]|]; [|done]. case_bool_decide; [apply H|done]. Qed.

Lemma map_of_update upd decl spec l text i : (forall text, keeps_identity (upd text)) -> labels_differ decl -> CutColon spec = Some (l, text) ->
  i ∈ decl -> ic_Label i = l -> <[l := upd text i]> (map_of decl) = map_of (map (text_step upd spec) decl).
Proof.
  intros Hu Hd Hc Hin Hl. assert (Hk := text_step_keeps upd spec Hu). assert (Hd' : labels_differ (map (text_step upd spec) decl)) by (unfold labels_differ; by rewrite keeps_labels).
  apply map_eq. intros k. apply option_eq. intros j. rewrite (map_of_lookup _ _ _ Hd'), lookup_insert_Some, (map_of_lookup _ _ _ Hd), list_elem_of_fmap. split.
  - intros [[<- <-]|[Hne [Hj Hjl]]].
    + split; [|by rewrite (proj1 (Hu text i))]. exists i. split; [|done]. unfold text_step. by rewrite Hc, bool_decide_true.
    + split; [|done]. exists j. split; [|done]. unfold text_step. rewrite Hc, bool_decide_false; [done|congruence].
  - intros [(j0 & -> & Hj) Hjl]. unfold text_step in *. rewrite Hc in *. case_bool_decide as E.
    + left. rewrite (proj1 (Hu text j0)) in Hjl. split; [congruence|]. f_equal.
      assert (Some i = Some j0) as [= ->]; [|done]. rewrite <- (proj2 (map_of_lookup decl l i Hd)), <- (proj2 (map_of_lookup decl l j0 Hd)); done.
    + right. split; [congruence|done].
Qed.

Lemma foldM_appends step upd specs decl m : appends step upd -> labels_differ decl ->
  foldM step (map_of decl) specs = Ok m <-> Forall (refers decl) specs /\ m = map_of (map (fun i => foldl (fun i spec => text_step upd spec i) i specs) decl).
Proof.
  intros [Hu Hs]. revert decl. induction specs as [|spec specs IH]; intros decl Hd; cbn [foldM foldl].
  - rewrite map_id. split; [intros [= <-]; by split|by intros [_ ->]].
  - assert (Hd' : labels_differ (map (text_step upd spec) decl)) by (unfold labels_differ; rewrite keeps_labels; [done|by apply text_step_keeps]).
    assert (Hf : Forall (refers (map (text_step upd spec) decl)) specs <-> Forall (refers decl) specs).
    { rewrite !Forall_forall. by setoid_rewrite (keeps_refers _ decl _ (text_step_keeps upd spec Hu)). }
    rewrite Forall_cons. split.
    + intros (m1 & (l & text & i & Hc & Hlk & Hr & ->)%Hs & H)%bind_ok. apply (map_of_lookup _ _ _ Hd) in Hlk as [Hi Hl].
      rewrite (map_of_update upd decl spec l text i) in H by done. apply IH in H as [H1 ->]; [|done]. rewrite map_map. split; [|done].
      split; [by exists l, text, i|by apply Hf].
    + intros [[(l & text & i & Hc & Hi & Hl & Hr) Hrest] ->].
      assert (E : step (map_of decl) spec = Ok (<[l := upd text i]> (map_of decl))) by (apply Hs; exists l, text, i; split_and!; try done; by apply map_of_lookup).
      rewrite E. cbn [mbind result_bind]. rewrite (map_of_update upd decl spec l text i) by done. apply IH; [done|]. split; [by apply Hf|]. by rewrite map_map.
Qed.

Definition upd_txt (text : string) (i : InstanceConfig) : InstanceConfig :=
  mkInstanceConfig (ic_Label i) (ic_ServiceType i) (ic_Subtypes i) (ic_Port i) (ic_TXT i ++ [text]) (ic_Remove i).
Definition upd_subtype (text : string) (i : InstanceConfig) : InstanceConfig :=
  mkInstanceConfig (ic_Label i) (ic_ServiceType i) (ic_Subtypes i ++ [text]) (ic_Port i) (ic_TXT i) (ic_Remove i).

Lemma add_txt_appends : appends add_txt upd_txt.
Proof.
  split; [done|]. intros m spec m'. unfold add_txt. split.
  - intros H. destruct (CutColon spec) as [[l text]|]; [|done]. destruct (m !! l) as [i|] eqn:E; [|done]. destruct (ic_Remove i) eqn:Er; [done|].
    injection H as <-. exists l, text, i. split; [done|]. split; [exact E|]. split; [exact Er|]. unfold upd_txt, upd_subtype. by rewrite Er.
  - intros (l & text & i & -> & -> & Hr & ->). unfold upd_txt, upd_subtype. by rewrite Hr.
Qed.

Lemma add_subtype_appends : appends add_subtype upd_subtype.
Proof.
  split; [done|]. intros m spec m'. unfold add_subtype. split.
  - intros H. destruct (CutColon spec) as [[l text]|]; [|done]. destruct (m !! l) as [i|] eqn:E; [|done]. destruct (ic_Remove i) eqn:Er; [done|].
    injection H as <-. exists l, text, i. split; [done|]. split; [exact E|]. split; [exact Er|]. unfold upd_txt, upd_subtype. by rewrite Er.
  - intros (l & text & i & -> & -> & Hr & ->). unfold upd_txt, upd_subtype. by rewrite Hr.
Qed.

(** All the texts of an instance, one spec at a time. *)
Lemma all_texts txts subtypes i :
  foldl (fun i spec => text_step upd_subtype spec i) (foldl (fun i spec => text_step upd_txt spec i) i txts) subtypes = add_texts txts subtypes i.
Proof.
  assert (H1 : forall i, foldl (fun i spec => text_step upd_txt spec i) i txts = add_texts txts [] i).
  { induction txts as [|spec txts IH]; intros j; cbn [foldl]; [destruct j; unfold add_texts; cbn; by rewrite !app_nil_r|]. rewrite IH.
    unfold add_texts, text_step, texts_for. cbn [omap list_omap]. destruct (CutColon spec) as [[l t]|]; [|done]. cbn [mbind option_bind].
    case_bool_decide; [|done]. cbn. by rewrite <- app_assoc. }
  assert (H2 : forall i, foldl (fun i spec => text_step upd_subtype spec i) i subtypes = add_texts [] subtypes i).
  { induction subtypes as [|spec subtypes IH]; intros j; cbn [foldl]; [destruct j; unfold add_texts; cbn; by rewrite !app_nil_r|]. rewrite IH.
    unfold add_texts, text_step, texts_for. cbn [omap list_omap]. destruct (CutColon spec) as [[l t]|]; [|done]. cbn [mbind option_bind].
    case_bool_decide; [|done]. cbn. by rewrite <- app_assoc. }
  rewrite H1, H2. unfold add_texts. cbn. by rewrite !app_nil_r.
Qed.

(** The instance flags are read as they mean.  [parseInstances] succeeds exactly when every
    -instance and every -remove has its form, all labels differ and every -txt and -subtype
    names a declared instance that is not withdrawn; and then it gives the declared instances in
    order, those to withdraw last, each with all its texts and subtypes in order. *)
Theorem instances_parsed (instances removes txts subtypes : list string) (out : list InstanceConfig) :
  parseInstances instances removes txts subtypes = Ok out <->
  exists adds rems, mapM instance_of instances = Some adds /\ mapM remove_of removes = Some rems /\ labels_differ (adds ++ rems) /\
    Forall (refers (adds ++ rems)) (txts ++ subtypes) /\ out = map (add_texts txts subtypes) (adds ++ rems).
Proof.
  change (∅, []) with (declared []). unfold parseInstances. change (∅ : gmap string InstanceConfig, []) with (declared []).
  assert (Hnil : labels_differ []) by apply NoDup_nil_2.
  assert (Hout : forall decl g, labels_differ decl -> keeps_identity g -> omap (fun label => map_of (map g decl) !! label) (map ic_Label decl) = map g decl).
  { intros decl g Hd Hg. rewrite <- (keeps_labels g decl Hg). assert (Hd' : labels_differ (map g decl)) by (unfold labels_differ; by rewrite keeps_labels).
    revert Hd'. generalize (map g decl) as l. intros l Hl. assert (G : forall l', (forall i, i ∈ l' -> i ∈ l) -> omap (fun label => map_of l !! label) (map ic_Label l') = l').
    { induction l' as [|i l' IH]; intros Hin; [done|]. cbn. rewrite (proj2 (map_of_lookup l (ic_Label i) i Hl)) by (split; [apply Hin; left|done]).
      f_equal. apply IH. intros j Hj. apply Hin. by right. }
    by apply G. }
  set (g1 := fun i => foldl (fun i spec => text_step upd_txt spec i) i txts). set (g2 := fun i => foldl (fun i spec => text_step upd_subtype spec i) i subtypes).
  assert (Hfold : forall upd specs, (forall text, keeps_identity (upd text)) -> keeps_identity (fun i => foldl (fun i spec => text_step upd spec i) i specs)).
  { intros upd specs Hu. induction specs as [|spec specs IH]; intros i; cbn [foldl]; [done|]. destruct (IH (text_step upd spec i)) as [-> ->]. by apply text_step_keeps. }
  assert (K1 : keeps_identity g1) by (by apply Hfold). assert (K2 : keeps_identity g2) by (by apply Hfold).
  assert (Hall : forall decl, map g2 (map g1 decl) = map (add_texts txts subtypes) decl) by (intros; rewrite map_map; apply map_ext; intros; apply all_texts).
  split.
  - intros (acc & H1 & (acc' & H2 & (m1 & H3 & (m2 & H4 & [= <-])%bind_ok)%bind_ok)%bind_ok)%bind_ok.
    apply (foldM_declares _ _ _ _ _ add_instance_declares Hnil) in H1 as (adds & Ha & Hd & ->). cbn [app] in *.
    apply (foldM_declares _ _ _ _ _ add_remove_declares Hd) in H2 as (rems & Hr & Hd2 & ->). cbn [declared fst snd] in *.
    apply (foldM_appends _ _ _ _ _ add_txt_appends Hd2) in H3 as [Hf1 ->].
    apply (foldM_appends _ _ _ _ _ add_subtype_appends) in H4 as [Hf2 ->]; [|unfold labels_differ; by rewrite keeps_labels].
    exists adds, rems. split_and!; [done..| |].
    + apply Forall_app. split; [done|]. eapply Forall_impl; [exact Hf2|]. intros spec. by apply keeps_refers.
    + rewrite <- Hall, <- (keeps_labels g1 _ K1). apply Hout; [|done]. unfold labels_differ. by rewrite keeps_labels.
  - intros (adds & rems & Ha & Hr & Hd & [Hf1 Hf2]%Forall_app & ->).
    assert (Hd1 : labels_differ ([] ++ adds)) by (unfold labels_differ in *; rewrite map_app in Hd; by apply NoDup_app in Hd as [? _]).
    rewrite (proj2 (foldM_declares _ _ _ [] (declared ([] ++ adds)) add_instance_declares Hnil)) by (by exists adds). cbn [mbind result_bind app] in *.
    rewrite (proj2 (foldM_declares _ _ _ adds (declared (adds ++ rems)) add_remove_declares Hd1)) by (by exists rems). cbn [mbind result_bind declared fst snd] in *.
    rewrite (proj2 (foldM_appends _ _ _ _ (map_of (map g1 (adds ++ rems))) add_txt_appends Hd)) by (by split). cbn [mbind result_bind].
    assert (Hd3 : labels_differ (map g1 (adds ++ rems))) by (unfold labels_differ; by rewrite keeps_labels).
    rewrite (proj2 (foldM_appends _ _ _ _ (map_of (map g2 (map g1 (adds ++ rems)))) add_subtype_appends Hd3)).
    + cbn [mbind result_bind]. by rewrite <- (keeps_labels g1 (adds ++ rems) K1), Hout, Hall.
    + split; [|done]. eapply Forall_impl; [exact Hf2|]. intros spec. by apply keeps_refers.
Qed.

(** ** From the flags to the registrar *)

Lemma NewClient_values gen c0 c : NewClient gen c0 = Ok c ->
  RequestedLease (cfg c) = or_default (RequestedLease c0) 3600 /\ RequestedKeyLease (cfg c) = or_default (RequestedKeyLease c0) 1209600 /\
  Addresses (cfg c) = Addresses c0 /\ cfg_TTL (cfg c) = or_default (cfg_TTL c0) 300.
Proof.
  unfold NewClient. repeat case_bool_decide; try done. intros HN. do 4 (apply bind_ok in HN as ([] & _ & HN)). cbn zeta in HN. destruct (_ <? _); [done|].
  by apply bind_ok in HN as (key & _ & [= <-]).
Qed.

Lemma or_default_uint32 v d : uint32_ok v -> uint32_ok d -> uint32_ok (or_default v d).
Proof. unfold or_default. by destruct (v =? 0). Qed.

Section cli_theorems.
Context {C : Crypto} {CL : CryptoLaws C} {L : DnsLib} {K : KeyLib} {KL : KeyLibLaws L K}.

Lemma cli_client_parts io getenv keystores gen f w key created c :
  cli_client io getenv keystores gen f = (w, Ok (key, created, c)) ->
  exists dir ks insts addrs network mode, w = Some (dir, ks) /\ f_ttl f <> 0 /\
    resolveKey io dir (f_host f) (f_domain f) (f_k f mod 2 ^ 8) (keystores dir) = (ks, Ok (key, created)) /\
    parseInstances (f_instances f) (f_removes f) (f_txts f) (f_subtypes f) = Ok insts /\ cli_addresses (f_addrs f) = Ok addrs /\
    NewClient gen (mkConfig (f_domain f) (f_host f) addrs insts (Some (lk_PublicKey key)) (wrap32 (f_lease f)) (wrap32 (f_keylease f))
                     (wrap32 (f_ttl f)) (f_server f) mode network 0 (f_maxRenames f)) = Ok c.
Proof.
  unfold cli_client. destruct (_ || _); [done|]. destruct (Z.eqb_spec (f_ttl f) 0); [done|].
  destruct (cli_network f) as [network|]; [|done]. cbn [mbind result_bind]. destruct (cli_discovery f) as [mode|]; [|done]. cbn [mbind result_bind].
  destruct (cli_addresses _) as [addrs|]; [|done]. cbn [mbind result_bind]. destruct (parseInstances _ _ _ _) as [insts|]; [|done]. cbn [mbind result_bind].
  destruct (resolveKeystoreDir getenv _) as [dir|]; [|done]. cbn [mbind result_bind]. destruct (resolveKey _ _ _ _ _ _) as [ks [[k cr]|]] eqn:E; [|done].
  intros [= <- (c' & Hc & [= <- <- <-])%bind_ok]. by exists dir, ks, insts, addrs, network, mode.
Qed.

(** A key this run created has flags 0 and its two halves belong together. *)
Lemma created_key_signs io dir host domain alg ks ks' key :
  resolveKey io dir host domain alg ks = (ks', Ok (key, true)) -> alg = ED25519 \/ is_Some (ecdsaCurve alg) ->
  Flags (key_Data (lk_PublicKey key)) = 0 /\ key_pair (key_Data (lk_PublicKey key)) (lk_PrivateKey key).
Proof using KL.
  unfold resolveKey. intros (_ & _ & _ & Hgen & _)%created_parts Ha. unfold GenerateKey in Hgen. cbn zeta in Hgen.
  destruct (Generate _ _) as [[material priv]|] eqn:Eg; [|done]. injection Hgen as <-. cbn. split; [done|]. by apply (generate_pair _ _ _ _ _ Eg).
Qed.
End cli_theorems.

(** [C30] The command line registers what it says.  When the SRP command line client starts, its
    host is the one of -host and -domain, its instances are the ones of the flags, as
    [instances_parsed] reads them, and its leases are the requested ones, zero being the default;
    and its registration and its removal, signed with the key it found or has just created, pass
    within five minutes, and after any number of renames, every check the SRP handler makes
    before it looks at its state, but for the one for labels with a dot, which is assumed to let
    them through.  A key that was found must be one half of a pair with flags 0, a created one is
    if -k asks for Ed25519 or ECDSA; the instances must differ when letter case is ignored
    ([case_twins_refused]), and the handler must serve the domain over the transport used. *)
Theorem cli_registration_authenticates {C : Crypto} {CL : CryptoLaws C} {L : DnsLib} {K : KeyLib} {KL : KeyLibLaws L K} {S0 : SIG0Lib} {SL : SIG0LibLaws S0}
    (h : SRPHandler) (udp : bool) (io : KeystoreIO) (getenv : string -> string) (keystores : string -> Keystore) (gen : string -> result KEY)
    (f : SrpFlags) (w : option (string * Keystore)) (key : LoadedKey) (created : bool) (c : Client) (k : nat) (now now' : Z) (private : KEY -> PrivateKey) :
  cli_client io getenv keystores gen f = (w, Ok (key, created, c)) ->
  created = true /\ (f_k f mod 2 ^ 8 = ED25519 \/ is_Some (ecdsaCurve (f_k f mod 2 ^ 8))) \/
    Flags (key_Data (lk_PublicKey key)) = 0 /\ key_pair (key_Data (lk_PublicKey key)) (lk_PrivateKey key) ->
  NoDup (map (fun inst => (Fold (ic_Label inst), Fold (ic_ServiceType inst))) (Instances (cfg c))) ->
  300 <= now -> now + 300 < 2 ^ 32 -> now - 300 <= now' <= now + 300 -> serves h udp (ensureFQDN (f_domain f)) ->
  hostFQDN c = ensureFQDN (f_host f +:+ "." +:+ f_domain f) /\
  parseInstances (f_instances f) (f_removes f) (f_txts f) (f_subtypes f) = Ok (Instances (cfg c)) /\
  RequestedLease (cfg c) = or_default (wrap32 (f_lease f)) 3600 /\ RequestedKeyLease (cfg c) = or_default (wrap32 (f_keylease f)) 1209600 /\
  let ck := Nat.iter k rename c in
  let authenticates spec :=
    exists msg, BuildUpdate spec = Ok msg /\
      forall m', sig0_SignMessage now msg (keyRR ck) (lk_PrivateKey key) = Ok m' -> refuseDottedLabels m' = None ->
        exists cu, srp_prologue (SG := pkg_sig0 now' private) h udp m' = Some (inr (m', cu)) /\ accepted spec (keyRR ck) m' cu in
  authenticates (update_spec ck (Addresses (cfg ck)) (specs false ck) (RequestedLease (cfg ck)) (RequestedKeyLease (cfg ck))) /\
  authenticates (update_spec ck [] (specs true ck) 0 0).
Proof.
  intros H Hkey Hnd Hlo Hhi Hnow Hsv. destruct (cli_client_parts _ _ _ _ _ _ _ _ _ H) as (dir & ks & insts & addrs & network & mode & _ & _ & Hres & Hinst & _ & HN).
  destruct (NewClient_ok _ _ _ HN) as (Hc & Hs0 & Hi & Hhost & Hdom & Hk). cbn [Instances HostLabel Domain cfg_Key] in *. specialize (Hk _ eq_refl).
  destruct (NewClient_values _ _ _ HN) as (Hlease & Hkl & _). cbn [RequestedLease RequestedKeyLease] in *.
  assert (Hks : Flags (key_Data (lk_PublicKey key)) = 0 /\ key_pair (key_Data (lk_PublicKey key)) (lk_PrivateKey key)).
  { destruct Hkey as [[-> Ha]|Hkey]; [|done]. by eapply created_key_signs. }
  split; [|split; [by rewrite Hi|split; [exact Hlease|split; [exact Hkl|]]]].
  - unfold hostFQDN. rewrite (co_host _ Hc), Hs0, Hhost, Hdom. cbn. by rewrite string_app_nil_r.
  - rewrite Hi in Hnd. rewrite <- Hk in Hks. destruct Hks. eapply (registration_passes h udp gen _ c k now now' (lk_PrivateKey key) private HN); try done.
    + rewrite Hlease. apply or_default_uint32; [apply wrap32_range|unfold uint32_ok; lia].
    + rewrite Hkl. apply or_default_uint32; [apply wrap32_range|unfold uint32_ok; lia].
Qed.

(** ** A concrete command line: a printer below example.org., its key created on the way *)
Module DemoCli.
Definition flags : SrpFlags :=
  mkSrpFlags "example.org" "host" "192.0.2.1:53" "closest" 3600 1209600 300 false false true false "keys" 15 5
    ["192.0.2.7"] ["Office:_ipp._tcp:631"] ["Old:_http._tcp"] ["Office:paper=A4"] ["Office:_color"].
Definition started : option (string * Keystore) * result (LoadedKey * bool * Client) :=
  cli_client (L := Demo.lib) (K := DemoKeys.lib) io_ok (fun _ => "") (fun _ => None) (fun _ => Err "no key") flags.
Definition key : @LoadedKey DemoSig.crypto := match started.2 with Ok (k, _, _) => k | Err _ => mkLoadedKey "" DemoSig.key DemoSig.priv end.
Definition client : Client := match started.2 with Ok (_, _, c) => c | Err _ => EndToEndDemo.client end.
Definition handler : SRPHandler := mkSRPHandler "example.org." (Some DemoSig.key) false true false (mkLeasePolicy 0 0 0 0) 300 false.
Definition removal : Msg :=
  match BuildUpdate (L := Demo.lib) (update_spec client [] (specs true client) 0 0) with Ok m => m | Err _ => DemoSig.request end.
Definition signed_removal : Msg :=
  match @sig0_SignMessage DemoSig.crypto Demo.lib DemoSig.lib 1000 removal (keyRR client) (lk_PrivateKey key) with Ok m => m | Err _ => removal end.

Lemma cli_started : started = (started.1, Ok (key, true, client)).
Proof. vm_compute. reflexivity. Qed.

Lemma cli_served : serves handler false (ensureFQDN (f_domain flags)).
Proof. split; [vm_compute; reflexivity|vm_compute; discriminate|by eexists|by right]. Qed.
End DemoCli.

Lemma cli_registration_authenticates_witness :
  hostFQDN DemoCli.client = "host.example.org." /\
  exists cu, srp_prologue (SG := @pkg_sig0 DemoSig.crypto Demo.lib DemoSig.lib 1100 (fun _ => DemoSig.priv)) DemoCli.handler false DemoCli.signed_removal
    = Some (inr (DemoCli.signed_removal, cu)).
Proof.
  destruct (@cli_registration_authenticates DemoSig.crypto DemoSig.laws Demo.lib DemoKeys.lib DemoKeys.keylib_laws DemoSig.lib DemoSig.lib_laws
      DemoCli.handler false io_ok (fun _ => "") (fun _ => None) (fun _ => Err "no key") DemoCli.flags DemoCli.started.1 DemoCli.key true DemoCli.client 0 1000 1100
      (fun _ => DemoSig.priv) DemoCli.cli_started ltac:(left; split; [reflexivity|by left]) ltac:(vm_compute; repeat constructor; set_solver)
      ltac:(lia) ltac:(lia) ltac:(lia) DemoCli.cli_served) as (Hh & _ & _ & _ & _ & msg & Hb & H).
  split; [exact Hh|]. assert (E : msg = DemoCli.removal) by (vm_compute in Hb; injection Hb as <-; vm_compute; reflexivity). subst msg.
  destruct (H DemoCli.signed_removal ltac:(vm_compute; reflexivity) ltac:(vm_compute; reflexivity)) as (cu & Hcu & _). exists cu. exact Hcu.
Defined.

(** A TTL of 2^32 passes the check for 0 and is then sent as the default. *)
Example ttl_wraps_to_default :
  cfg_TTL (cfg match (cli_client (L := Demo.lib) (K := DemoKeys.lib) io_ok (fun _ => "") (fun _ => None) (fun _ => Err "no key")
    (mkSrpFlags "example.org" "host" "192.0.2.1:53" "closest" 3600 1209600 (2 ^ 32) false false true false "keys" 15 5 [] [] [] [] [])).2
  with Ok (_, _, c) => c | Err _ => EndToEndDemo.client end) = 300.
Proof. vm_compute. reflexivity. Qed.

(** Labels are compared by their bytes, DNS names are not: two instances whose labels differ only
    in letter case are accepted, and their update is refused. *)
Example case_twins_refused :
  (match (cli_client (L := Demo.lib) (K := DemoKeys.lib) io_ok (fun _ => "") (fun _ => None) (fun _ => Err "no key")
    (mkSrpFlags "example.org" "host" "192.0.2.1:53" "closest" 3600 1209600 300 false false true false "keys" 15 5
      ["192.0.2.7"] ["Office:_ipp._tcp:631"; "office:_ipp._tcp:632"] [] [] [])).2 with
   | Ok (_, _, c) =>
       match BuildUpdate (L := Demo.lib) (update_spec c (Addresses (cfg c)) (specs false c) (RequestedLease (cfg c)) (RequestedKeyLease (cfg c))) with
       | Ok msg => match Classify msg with Err e => Some e | Ok _ => None end
       | Err _ => None
       end
   | Err _ => None
   end) = Some "srp: more than one Delete All RRsets".
Proof. vm_compute. reflexivity. Qed.
