(* ===== verification/ProxyRun.v ===== *)
(** * The running proxy

    What happens between the start of the proxy and its end, as a transition system: messages
    arrive on the listeners (server/server.go, from the bytes read to the reply written), timers
    of both handlers fire and both reconciliation tickers tick (handlers/opcode5_lease.go,
    srp_handler.go), in any order.  One request or event is one step: the node locks, whose
    exclusion is proved in NodeLocks and UpdateTheorems, keep overlapping ones apart.  The DNS
    library's decoding is a parameter. *)

From Stdlib Require Import Ascii String ZArith Lia.
From S2P Require Import Prelude DnsName DnsData NodeIdent LeaseStore LeaseTree LeaseInv LeaseOption LeasePolicy NodeLocks UpdateCore.
From S2P Require Import HandlerBase Expiry UpdateHandler UpdateFootprint UpdateTheorems.
From S2P Require Import DnsSd SrpClassify SrpValidate SrpHandler SrpEffects SrpTheorems Router.

Local Open Scope Z_scope.

(** ** From bytes to a request *)

Inductive MsgAcceptAction := MsgAccept | MsgReject | MsgIgnore | MsgRejectNotImplemented.

(** What the listeners use of the library: the header and question of a message, the policy for
    accepting it by them, the replies to messages it rejects, and the whole message. *)
Class ServerLib := {
  UnpackQuestion : list Z -> result Msg;
  DefaultMsgAcceptFunc : Msg -> MsgAcceptAction;
  reject_reply : MsgAcceptAction -> Msg -> Msg;
  Unpack : list Z -> result Msg }.

(** A message the library decoded: its records carry fully qualified names. *)
Class ServerLibLaws (S : ServerLib) : Prop := {
  unpacked_decoded : forall b r, Unpack b = Ok r -> decoded r }.

Section server.
Context {St : Type} {S : ServerLib}.

Definition acceptMsg (m : Msg) : MsgAcceptAction := DefaultMsgAcceptFunc m.

(** [handleRequest]: the router's answer is written. *)
Definition handleRequest (r : Router St) (m : Msg) (s : St) : option (St * option Msg) :=
  '(s, resp) ← Route r m s; Some (s, Some resp).

(** [fullUnpackHandler]: a message with a malformed body is dropped. *)
Definition fullUnpackHandler (h : Msg -> St -> option (St * option Msg)) (b : list Z) (s : St) : option (St * option Msg) :=
  match Unpack b with Err _ => Some (s, None) | Ok r => h r s end.

(** One message on a listener, as the library hands it out: a reply or none. *)
Definition serve_message (r : Router St) (b : list Z) (s : St) : option (St * option Msg) :=
  match UnpackQuestion b with
  | Err _ => Some (s, None)
  | Ok m =>
      match acceptMsg m with
      | MsgAccept => fullUnpackHandler (handleRequest r) b s
      | MsgIgnore => Some (s, None)
      | action => Some (s, Some (reject_reply action m))
      end
  end.
End server.

(** ** Events *)

Inductive proxy_event :=
| Arrives (e : Env) (b : list Z)                                              (* a message *)
| UpdateTimer (now now' : Z) (nodeKey : string) (locks : NodeLocks)           (* a timer of the update handler *)
| SrpTimer (now now' : Z) (nodeKey : string) (locks : NodeLocks)              (* a timer of the SRP handler *)
| UpdateTick (now : Z)                                                        (* its reconciliation *)
| SrpTick (now : Z).

Section proxy_run.
Context {L : DnsLib} {LL : DnsLibLaws L} {SG : Sig0} {U : UpstreamCoordinator} {S : ServerLib} {SL : ServerLibLaws S}.
Context (uh : UpdateHandler) (sh : SRPHandler) (dump : string -> Store -> string) (resolver : option (Msg -> result Msg)) (timeout : Z).

(** The ticker of [UpdateHandler.startLeaseReconciliation]. *)
Definition update_tick (now : Z) (w : World) : World := mkWorld (w_store w) (reconcile now (w_store w) (w_timers w)) (w_sent w).

(** One event: the state after it and the reply; [None] is a panic. *)
Definition proxy_step (ev : proxy_event) (p : Proxy) : option (Proxy * option Msg) :=
  match ev with
  | Arrives e b => serve_message (proxy_router uh sh e dump resolver timeout) b p
  | UpdateTimer now now' nodeKey locks =>
      match run (h_upstream uh) false update_lockIDs now now' nodeKey locks (p_update p) with
      | Ok (_, w, _) => Some (mkProxy w (p_srp p), None)
      | Err _ => None
      end
  | SrpTimer now now' nodeKey locks =>
      match processExpiredNode sh now now' nodeKey locks (p_srp p) with
      | Ok (_, x) => Some (mkProxy (p_update p) x, None)
      | Err _ => None
      end
  | UpdateTick now => Some (mkProxy (update_tick now (p_update p)) (p_srp p), None)
  | SrpTick now => x ← srp_tick sh now (p_srp p); Some (mkProxy (p_update p) x, None)
  end.

(** What events can be: a timer fires for a node, the clock does not run backwards while its
    UPDATE is on the way, and the node's KEY does not expire at the very moment of both
    readings of the clock, the one case in which a lease event panics. *)
Definition node_event (now now' : Z) (nodeKey : string) (st : Store) : Prop :=
  Normalize nodeKey = nodeKey /\ nodeKey <> "" /\ now <= now' /\ ~ same_instant now now' nodeKey st.

Definition possible (p : Proxy) (ev : proxy_event) : Prop :=
  match ev with
  | UpdateTimer now now' nodeKey _ => node_event now now' nodeKey (w_store (p_update p))
  | SrpTimer now now' nodeKey _ => node_event now now' nodeKey (w_store (sw (p_srp p)))
  | _ => True
  end.

(** The states the proxy goes through, with the replies it gives, the latest first. *)
Inductive proxy_run (p0 : Proxy) : list (option Msg) -> Proxy -> Prop :=
| proxy_starts : proxy_run p0 [] p0
| proxy_goes_on replies p ev p' reply :
    proxy_run p0 replies p -> possible p ev -> proxy_step ev p = Some (p', reply) -> proxy_run p0 (reply :: replies) p'.

(** ** What the log of UPDATEs accounts for *)

(** Some confirmed UPDATE of a log has such records. *)
Definition in_log (log : list Sent) (P : list RR -> Prop) : Prop := exists s, s ∈ log /\ sent_ok s = true /\ P (sent_records s).

Lemma in_log_app log log' P : in_log (log ++ log') P <-> in_log log P \/ in_log log' P.
Proof. unfold in_log. setoid_rewrite elem_of_app. naive_solver. Qed.

(** Every KEY and record that is new or changed was added, and every one that is gone was
    deleted, by a confirmed UPDATE.  A KEY that was there before may instead have been renewed
    because the authoritative server said that it holds a KEY at its name. *)
Record accounted (st st' : Store) (log : list Sent) : Prop := {
  ac_keys : forall id r', leases st' !! id = Some r' -> leases st !! id = Some r' \/
    in_log log (fun recs => exists k, NodeKey k = id /\ KEY_RR k ∈ recs) \/
    exists zone k, NodeKey k = id /\ authoritativeHasKeyAtName zone (Name (key_Hdr k)) = Ok true;
  ac_new_keys : forall id, is_Some (leases st' !! id) -> leases st !! id = None ->
    in_log log (fun recs => exists k, NodeKey k = id /\ KEY_RR k ∈ recs);
  ac_records : forall id r, nonKeyRecords st' !! id = Some r -> nonKeyRecords st !! id = Some r \/ in_log log (fun recs => n_RR r ∈ recs);
  ac_lost_keys : forall id, is_Some (leases st !! id) -> leases st' !! id = None -> in_log log (fun recs => exists k, NodeKey k = id /\ AsDelete (KEY_RR k) ∈ recs);
  ac_lost_records : forall id, is_Some (nonKeyRecords st !! id) -> nonKeyRecords st' !! id = None ->
    in_log log (fun recs => exists rr, RecordKey rr = id /\ AsDelete rr ∈ recs) }.

Lemma accounted_same st log : accounted st st log.
Proof. split; intros id *; [by left|intros [? ?]; congruence|by left|intros [? ?]; congruence|intros [? ?]; congruence]. Qed.

Lemma accounted_trans st1 st2 st3 log log' : accounted st1 st2 log -> accounted st2 st3 log' -> accounted st1 st3 (log ++ log').
Proof.
  intros A B. split; intros id.
  - intros r' [H|H]%(ac_keys _ _ _ B); [apply (ac_keys _ _ _ A) in H as [?|H]; [by left|right]|right]; rewrite in_log_app; tauto.
  - intros H H'. rewrite in_log_app. destruct (leases st2 !! id) eqn:E; [left; apply (ac_new_keys _ _ _ A); [by rewrite E|done]|right; by apply (ac_new_keys _ _ _ B)].
  - intros r [H|H]%(ac_records _ _ _ B); [apply (ac_records _ _ _ A) in H as [?|?]; [by left|right]|right]; rewrite in_log_app; auto.
  - intros H H'. rewrite in_log_app. destruct (leases st2 !! id) eqn:E; [right; by apply (ac_lost_keys _ _ _ B)|left; by apply (ac_lost_keys _ _ _ A)].
  - intros H H'. rewrite in_log_app. destruct (nonKeyRecords st2 !! id) eqn:E; [right; by apply (ac_lost_records _ _ _ B)|left; by apply (ac_lost_records _ _ _ A)].
Qed.

Lemma in_log_one zone prereqs recs (P : list RR -> Prop) log : P recs -> in_log (mkSent zone prereqs recs true :: log) P.
Proof. intros H. eexists. split; [by left|done]. Qed.

Lemma accounted_confirmed zone prereqs recs st st' : confirmed recs st st' -> accounted st st' [mkSent zone prereqs recs true].
Proof.
  intros (H0 & H1 & H2 & H3 & H4). split; intros id.
  - intros r' [?|[?|?]]%H0; [by left|right; left; by apply in_log_one|by right; right].
  - intros. by apply in_log_one, H1.
  - intros r [?|?]%H2; [by left|right]. by apply in_log_one.
  - intros. by apply in_log_one, H3.
  - intros. by apply in_log_one, H4.
Qed.

Lemma accounted_expired zone prereqs recs st st' : WF st -> only_removes st st' -> covers_loss recs st st' -> accounted st st' [mkSent zone prereqs recs true].
Proof.
  intros W [O1 O2] [C1 C2]. split; intros id.
  - intros r' Hr'%O1. by left.
  - intros [r Hr%O1]. congruence.
  - intros r Hr%O2. by left.
  - intros [r Hr] Hn. apply in_log_one. exists (KeyRR r). split; [|by eapply C1]. by destruct (wf_leases _ _ W id r Hr).
  - intros [r Hr] Hn. apply in_log_one. exists (n_RR r). split; [|by eapply C2]. by destruct (wf_nonKey _ _ W id r Hr).
Qed.

(** The same of a whole world, whose log only grows. *)
Definition world_accounted (w w' : World) : Prop := exists log, w_sent w' = w_sent w ++ log /\ accounted (w_store w) (w_store w') log.

Lemma world_accounted_same w w' log : w_store w' = w_store w -> w_sent w' = w_sent w ++ log -> world_accounted w w'.
Proof. intros Hs Hl. exists log. split; [done|]. rewrite Hs. apply accounted_same. Qed.

Lemma world_accounted_refl w : world_accounted w w.
Proof. apply (world_accounted_same w w []); [done|]. by rewrite app_nil_r. Qed.

Lemma world_accounted_trans w1 w2 w3 : world_accounted w1 w2 -> world_accounted w2 w3 -> world_accounted w1 w3.
Proof. intros (l & E & A) (l' & E' & A'). exists (l ++ l'). split; [by rewrite E', E, app_assoc|]. by eapply accounted_trans. Qed.

(** For SRP: a record that is gone was deleted by itself, or with everything at the name of the
    node that held it. *)
Definition deleted_with (id : string) (recs : list RR) : Prop :=
  (exists rr, RecordKey rr = id /\ AsDelete rr ∈ recs) \/
  exists r del k, RecordKey (n_RR r) = id /\ n_Parent r = NodeKey k /\ del ∈ recs /\ is_ANY del = true /\ Fold (Name (Hdr del)) = Fold (Name (key_Hdr k)).

(** A KEY lease was written by an UPDATE that adds that very KEY, or, for a removed instance,
    that deletes everything at the KEY's name. *)
Definition key_placed (k : KEY) (recs : list RR) : Prop :=
  KEY_RR k ∈ recs \/ exists del, del ∈ recs /\ is_ANY del = true /\ Fold (Name (Hdr del)) = Fold (Name (key_Hdr k)).

Record srp_accounted (st st' : Store) (log : list Sent) : Prop := {
  sa_keys : forall id r', leases st' !! id = Some r' -> leases st !! id = Some r' \/ in_log log (key_placed (KeyRR r'));
  sa_lost_keys : forall id, is_Some (leases st !! id) -> leases st' !! id = None -> in_log log (fun recs => exists k, NodeKey k = id /\ AsDelete (KEY_RR k) ∈ recs);
  sa_records : forall id r, nonKeyRecords st' !! id = Some r -> nonKeyRecords st !! id = Some r \/ in_log log (fun recs => n_RR r ∈ recs);
  sa_lost : forall id, is_Some (nonKeyRecords st !! id) -> nonKeyRecords st' !! id = None -> in_log log (deleted_with id) }.

Lemma srp_accounted_same st log : srp_accounted st st log.
Proof. split; intros id *; [by left|intros [? ?]; congruence|by left|intros [? ?]; congruence]. Qed.

Lemma srp_accounted_trans st1 st2 st3 log log' : srp_accounted st1 st2 log -> srp_accounted st2 st3 log' -> srp_accounted st1 st3 (log ++ log').
Proof.
  intros A B. split; intros id.
  - intros r [H|H]%(sa_keys _ _ _ B); [apply (sa_keys _ _ _ A) in H as [?|?]; [by left|right]|right]; rewrite in_log_app; auto.
  - intros H H'. rewrite in_log_app. destruct (leases st2 !! id) eqn:E; [right; by apply (sa_lost_keys _ _ _ B)|left; by apply (sa_lost_keys _ _ _ A)].
  - intros r [H|H]%(sa_records _ _ _ B); [apply (sa_records _ _ _ A) in H as [?|?]; [by left|right]|right]; rewrite in_log_app; auto.
  - intros H H'. rewrite in_log_app. destruct (nonKeyRecords st2 !! id) eqn:E; [right; by apply (sa_lost _ _ _ B)|left; by apply (sa_lost _ _ _ A)].
Qed.

Lemma srp_accounted_expired zone prereqs recs st st' : WF st -> only_removes st st' -> covers_loss recs st st' -> srp_accounted st st' [mkSent zone prereqs recs true].
Proof.
  intros W Ho Hl. pose proof (accounted_expired zone prereqs recs st st' W Ho Hl) as A. split; [|apply A..|].
  - intros id r' Hr'. left. by apply Ho.
  - intros id H H'. destruct (ac_lost_records _ _ _ A id H H') as (s & Hs & Hok & Hrr). exists s. split_and!; [done..|by left].
Qed.

Lemma srp_accounted_covered cu ns zone prereqs recs st st' log : WF st -> srp_covered cu ns recs st st' -> srp_accounted st st' (mkSent zone prereqs recs true :: log).
Proof.
  intros W C. split; intros id.
  - intros r' [?|[?|(inst & del & _ & _ & _ & _ & ? & ? & ?)]]%(cv_keys _ _ _ _ _ C); [by left|right; apply in_log_one; by left|].
    right. apply in_log_one. right. eauto.
  - intros H Hn. apply (cv_kept _ _ _ _ _ C) in H as [? ?]. congruence.
  - intros r [?|?]%(cv_adds _ _ _ _ _ C); [by left|right]. by apply in_log_one.
  - intros [r Hr] Hn. apply in_log_one. destruct (cv_lost _ _ _ _ _ C id r Hr) as [?|(del & k & ? & ? & ? & ?)]; [congruence|].
    right. exists r, del, k. split_and!; try done. by destruct (wf_nonKey _ _ W id r Hr).
Qed.

Definition srp_world_accounted (x x' : SRPWorld) : Prop :=
  exists log, w_sent (sw x') = w_sent (sw x) ++ log /\ srp_accounted (w_store (sw x)) (w_store (sw x')) log.

Lemma srp_world_same x x' log : w_store (sw x') = w_store (sw x) -> w_sent (sw x') = w_sent (sw x) ++ log -> srp_world_accounted x x'.
Proof. intros Hs Hl. exists log. split; [done|]. rewrite Hs. apply srp_accounted_same. Qed.

Lemma srp_world_refl x : srp_world_accounted x x.
Proof. apply (srp_world_same x x []); [done|]. by rewrite app_nil_r. Qed.

Lemma srp_world_trans x1 x2 x3 : srp_world_accounted x1 x2 -> srp_world_accounted x2 x3 -> srp_world_accounted x1 x3.
Proof. intros (l & E & A) (l' & E' & A'). exists (l ++ l'). split; [by rewrite E', E, app_assoc|]. by eapply srp_accounted_trans. Qed.

(** Both worlds. *)
Definition all_accounted (p p' : Proxy) : Prop := world_accounted (p_update p) (p_update p') /\ srp_world_accounted (p_srp p) (p_srp p').

Lemma all_accounted_refl p : all_accounted p p.
Proof. split; [apply world_accounted_refl|apply srp_world_refl]. Qed.

(** ** Steps *)

(** A timer's event, under locks or not: the store is as it was, or the confirmed UPDATE it sent
    deletes what it lost. *)
Lemma run_accounted t cascade lockIDs now now' nodeKey locks w :
  WF (w_store w) -> node_event now now' nodeKey (w_store w) -> is_Some (t_signingKey t) ->
  exists locks' w' removed log, run t cascade lockIDs now now' nodeKey locks w = Ok (locks', w', removed) /\ WF (w_store w') /\ w_sent w' = w_sent w ++ log /\
    (w_store w' = w_store w \/
     exists zone recs, log = [mkSent zone [] recs true] /\ only_removes (w_store w) (w_store w') /\ covers_loss recs (w_store w) (w_store w')).
Proof using LL.
  intros W (Hn & Hne & Hnow & Hi) Hkey. unfold run, TryAcquire. destruct (tryLocked _ locks) as [[locks1 s]|busy] eqn:Et.
  - destruct (expire_spec t cascade now now' nodeKey w W Hn Hne Hkey Hnow Hi) as (w' & removed & He & W' & Ho & Hp).
    rewrite He. cbn [mbind result_bind]. unfold tryLocked in Et. cbn zeta in Et. destruct (0 <? _)%nat; [done|]. injection Et as <- <-.
    cbn [Release set_released mbind result_bind]. destruct removed.
    + destruct Hp as (zone & recs & Hs & Hc & _). eexists _, w', true, _. split_and!; [done..|exact Hs|]. right. eauto.
    + destruct Hp as (Hs & extra & He' & _). eexists _, w', false, extra. split_and!; [done..|]. by left.
  - eexists _, _, _, []. split_and!; [done..| |by left]. cbn. by rewrite app_nil_r.
Qed.

Lemma enumeration_accounted now x : is_Some (s_upstreamKey sh) -> WF (w_store (sw x)) ->
  exists x', reconcileServiceEnumeration sh now x = Some x' /\ WF (w_store (sw x')) /\ srp_world_accounted x x'.
Proof.
  intros Hk W. destruct (reconcile_total sh now x Hk) as [x' Hx]. exists x'. split; [done|].
  destruct (reconcile_frame sh now x x' Hx) as (Hs & _ & extra & Hl & _). rewrite Hs. split; [done|]. by eapply srp_world_same.
Qed.

Lemma request_accounted e r p p' m : configured uh sh -> decoded r -> both_WF p ->
  Route (proxy_router uh sh e dump resolver timeout) r p = Some (p', m) -> all_accounted p p'.
Proof using LL.
  intros Hc Hr [W W'] HR. destruct (Route_spec uh sh e dump resolver timeout r p Hc Hr (conj W W')) as (p1 & m1 & HR1 & _ & H).
  rewrite HR in HR1. injection HR1 as <- <-. destruct (isDumpQuery r); [destruct H as [-> _]; apply all_accounted_refl|].
  destruct (negb _); [destruct H as [-> _]; apply all_accounted_refl|]. destruct H as [[Hans _]|(_ & _ & -> & _)]; [|apply all_accounted_refl].
  assert (Hsrp : srp_answered sh e r p p' m -> all_accounted p p').
  { intros (Hu & res & HH & _). split; [rewrite Hu; apply world_accounted_refl|].
    destruct (SRP_Handle_post sh (e_udp e) (e_acquired e) (e_now e) (e_now' e) r (p_srp p) W' (proj1 Hr) (cf_zone _ _ Hc) (cf_srp _ _ Hc)) as (x' & res' & HH' & _ & Hp).
    rewrite HH in HH'. injection HH' as <- <-. destruct Hp as [(Hs & _ & _ & _ & _ & extra & Hl & _)|(r' & cu & lease & keyLease & _ & _ & _ & zone & pre & recs & extra & Hl & _ & Hcov)].
    - by eapply srp_world_same.
    - eexists. split; [exact Hl|]. by eapply srp_accounted_covered. }
  destruct Hans as [Hans|[_ (Hs & _ & res & HH & _)]]; [by apply Hsrp|]. split; [|rewrite Hs; apply srp_world_refl].
  destruct (Handle_post uh (e_acquired e) (w_store (p_update p)) (e_now0 e) (e_now e) (e_now' e) r (p_update p) W Hr (cf_update _ _ Hc)) as (w' & res' & HH' & _ & Hp).
  rewrite HH in HH'. injection HH' as <- <-. destruct Hp as [(Hst & _ & extra & Hl & _)|(zone & recs & Hl & Hconf)].
  - by eapply world_accounted_same.
  - eexists. split; [exact Hl|]. by apply accounted_confirmed.
Qed.

Lemma step_sound p ev : configured uh sh -> both_WF p -> possible p ev ->
  exists p' reply, proxy_step ev p = Some (p', reply) /\ both_WF p' /\ all_accounted p p'.
Proof using LL SL.
  intros Hc [W W'] Hev. assert (Hsame : forall reply : option Msg, exists p' reply', Some (p, reply) = Some (p', reply') /\ both_WF p' /\ all_accounted p p').
  { intros reply. exists p, reply. split; [done|]. split; [done|]. apply all_accounted_refl. }
  destruct ev as [e b|now now' nodeKey locks|now now' nodeKey locks|now|now]; cbn [proxy_step possible] in *.
  - unfold serve_message. destruct (UnpackQuestion b) as [m|]; [|apply Hsame]. destruct (acceptMsg m); try apply Hsame.
    unfold fullUnpackHandler. destruct (Unpack b) as [r|] eqn:Eb; [|apply Hsame]. apply unpacked_decoded in Eb. unfold handleRequest.
    destruct (Route_spec uh sh e dump resolver timeout r p Hc Eb (conj W W')) as (p' & m' & HR & HW & _). rewrite HR. cbn [mbind option_bind].
    exists p', (Some m'). split; [done|]. split; [done|]. by eapply request_accounted.
  - destruct (run_accounted (h_upstream uh) false update_lockIDs now now' nodeKey locks (p_update p) W Hev) as (l & w & removed & log & -> & HW & Hl & Ha).
    { by pose proof (cf_update _ _ Hc) as Hu%bool_decide_eq_true. }
    eexists _, _. split; [done|]. split; [by split|]. split; [|apply srp_world_refl]. exists log. split; [done|].
    destruct Ha as [E|(zone & recs & -> & Ho & Hcl)]; [cbn [p_update]; rewrite E; apply accounted_same|by apply accounted_expired].
  - destruct (run_accounted (s_upstream sh) true srp_lockIDs now now' nodeKey locks (sw (p_srp p)) W' Hev (cf_srp _ _ Hc)) as (l & w & removed & log & HR & HW & Hl & Ha).
    unfold processExpiredNode. rewrite HR. cbn [mbind result_bind].
    assert (Hx : srp_world_accounted (p_srp p) (set_sw w (p_srp p))).
    { exists log. split; [done|]. destruct Ha as [E|(zone & recs & -> & Ho & Hcl)]; [cbn [set_sw sw]; rewrite E; apply srp_accounted_same|by apply srp_accounted_expired]. }
    destruct removed.
    + destruct (enumeration_accounted now' (set_sw w (p_srp p)) (cf_srp _ _ Hc) HW) as (x' & -> & HW2 & Ha2). eexists _, _. split; [done|].
      split; [by split|]. split; [apply world_accounted_refl|]. by eapply srp_world_trans.
    + eexists _, _. split; [done|]. split; [by split|]. split; [apply world_accounted_refl|done].
  - eexists _, _. split; [done|]. split; [by split|]. split; [|apply srp_world_refl]. apply (world_accounted_same _ _ []); [done|]. cbn. by rewrite app_nil_r.
  - unfold srp_tick. cbn zeta. set (x := set_sw _ _).
    destruct (enumeration_accounted now x (cf_srp _ _ Hc) W') as (x' & -> & HW2 & Ha2). eexists _, _. split; [done|].
    split; [by split|]. split; [apply world_accounted_refl|].
    eapply srp_world_trans; [|exact Ha2]. apply (srp_world_same _ _ []); [done|]. cbn. by rewrite app_nil_r.
Qed.

End proxy_run.

(** ** A concrete run: the printer registers, its host's lease ends, and the tickers tick *)
Module DemoRun.
(** Bytes that stand for the printer's registration, and others that stand for nothing. *)
Definition lib : ServerLib := {|
  UnpackQuestion b := match b with [] => Err "overflow" | _ => Ok SrpRun.request end;
  DefaultMsgAcceptFunc m := if Response (MsgHdr m) then MsgIgnore else MsgAccept;
  reject_reply _ m := m;
  Unpack b := match b with [1] => Ok SrpRun.request | _ => Err "unpack" end |}.

Lemma server_lib_laws : ServerLibLaws lib.
Proof.
  split. intros b r H. cbn in H. destruct b as [|[|[]|] [|]]; try done. injection H as <-. split; [apply SrpRun.request_wf|]. intros sig Hs.
  vm_compute in Hs. injection Hs as <-. vm_compute. reflexivity.
Qed.

Definition take (ev : proxy_event) (p : Proxy) : option (Proxy * option Msg) :=
  proxy_step (L := Demo.lib) (SG := DemoUp.sig0) (U := SrpRun.upstream) (S := lib) ex_update_handler SrpRun.handler (fun _ _ => "") None 20 ev p.
Definition register : proxy_event := Arrives (mkEnv false true 4 5 6) [1].
Definition registered : Proxy := match take register ex_proxy with Some (p, _) => p | None => ex_proxy end.
Definition reply : option Msg := match take register ex_proxy with Some (_, r) => r | None => None end.
Definition ticked : Proxy := match take (SrpTick 7) registered with Some (p, _) => p | None => registered end.
End DemoRun.

