(* ===== verification/LeaseDump.v ===== *)
(** * Lease dumps

    The texts in which operators see the leases: DumpLeasesLevel of the update handler
    (handlers/opcode5_lease.go, the summary and the tree) and of the SRP handler
    (handlers/srp_handler.go).  Go's order over a map is unspecified: it is a parameter, and the
    theorems hold for every order. *)

From Stdlib Require Import Ascii String ZArith Lia.
From S2P Require Import Prelude DnsName DnsData NodeIdent LeaseStore LeaseTree LeaseInv LeaseSpec LeaseOption LeasePolicy Expiry GoQuote AtomicFile LeaseSnapshot SrpTiming Sig0Signer GoStd.

Local Open Scope Z_scope.

(** ** Formatting *)

(** [utf8.RuneCountInString]; the counter skips the bytes of a rune already decoded. *)
Fixpoint rune_count (skip : nat) (s : string) : nat :=
  match s with
  | EmptyString => 0%nat
  | String _ s' =>
      match skip with
      | S n => rune_count n s'
      | O => S (rune_count (pred (DecodeRuneInString s).2) s')
      end
  end.

Fixpoint spaces (n : nat) : string := match n with O => "" | S n => String " " (spaces n) end.

(** [fmt.Sprintf("%-<w>s", s)]: the width counts runes. *)
Definition fmt_left (w : nat) (s : string) : string := s +:+ spaces (w - rune_count 0 s).

Definition fmt_v_bool (b : bool) : string := if b then "true" else "false".

(** The date of a day, counted from 1 January 1970, in the Gregorian calendar: years that begin in
    March, in eras of 400. *)
Definition civil (days : Z) : Z * Z * Z :=
  let z := days + 719468 in
  let era := z / 146097 in
  let doe := z mod 146097 in
  let yoe := (doe - doe / 1460 + doe / 36524 - doe / 146096) / 365 in
  let doy := doe - (365 * yoe + yoe / 4 - yoe / 100) in
  let mp := (5 * doy + 2) / 153 in
  let m := if mp <? 10 then mp + 3 else mp - 9 in
  ((if m <=? 2 then yoe + era * 400 + 1 else yoe + era * 400), m, doy - (153 * mp + 2) / 5 + 1).

(** [Time.Format(time.RFC3339)] of a time in nanoseconds since 1970, for the years 0 to 9999; the
    local time zone says how many seconds it is east of UTC then. *)
Definition FormatRFC3339 (zone : Z -> Z) (t : Z) : string :=
  let unix := t / second in
  let offset := zone unix in
  let local := unix + offset in
  let '(y, m, d) := civil (local / 86400) in
  let sec := local mod 86400 in
  fmt_pad 4 y +:+ "-" +:+ fmt_pad 2 m +:+ "-" +:+ fmt_pad 2 d +:+ "T"
    +:+ fmt_pad 2 (sec / 3600) +:+ ":" +:+ fmt_pad 2 (sec / 60 mod 60) +:+ ":" +:+ fmt_pad 2 (sec mod 60)
    +:+ (if offset =? 0 then "Z"
         else let minutes := Z.abs offset / 60 in
              (if Z.quot offset 60 <? 0 then "-" else "+") +:+ fmt_pad 2 (minutes / 60) +:+ ":" +:+ fmt_pad 2 (minutes mod 60)).

(** The entries of a map, in some order. *)
Class MapRange := { range : forall {A}, gmap string A -> list (string * A) }.
Class MapRangeLaws (R : MapRange) : Prop := { range_perm : forall A (m : gmap string A), range m ≡ₚ map_to_list m }.

Section dump.
Context {L : DnsLib} {T : Unicode} {R : MapRange}.
(** The time zone, and the time of the dump. *)
Context (zone : Z -> Z) (now : Z).

(** ** The tree of the update handler *)

Record leaseDumpNode := mkDumpNode {
  dn_keyRec : option KEYRecord;
  dn_nonKeyRec : option NonKEYRecordSet;
  dn_children : list string }.

Definition set_keyRec (r : KEYRecord) (n : leaseDumpNode) : leaseDumpNode := mkDumpNode (Some r) (dn_nonKeyRec n) (dn_children n).
Definition set_nonKeyRec (s : option NonKEYRecordSet) (n : leaseDumpNode) : leaseDumpNode := mkDumpNode (dn_keyRec n) s (dn_children n).
Definition add_child_name (c : string) (n : leaseDumpNode) : leaseDumpNode := mkDumpNode (dn_keyRec n) (dn_nonKeyRec n) (dn_children n ++ [c]).

Definition valueOrNone (value : string) : string := if bool_decide (value = "") then "(none)" else value.

(** [addNode], and the assignment to the node it returns. *)
Definition addNode (name : string) (f : leaseDumpNode -> leaseDumpNode) (nodes : gmap string leaseDumpNode) : gmap string leaseDumpNode :=
  let name := Normalize name in
  if bool_decide (name = "") then nodes else <[name := f (default (mkDumpNode None None []) (nodes !! name))]> nodes.

Definition key_nodes (recs : list KEYRecord) (nodes : gmap string leaseDumpNode) : gmap string leaseDumpNode :=
  foldl (fun nodes rec => addNode (Name (key_Hdr (KeyRR rec))) (set_keyRec rec) nodes) nodes recs.

Definition orphan_nodes (st : Store) (owners : list string) (nodes : gmap string leaseDumpNode) : gmap string leaseDumpNode :=
  foldl (fun nodes owner =>
           if bool_decide (is_Some (Get owner st)) then nodes
           else addNode owner (set_nonKeyRec (GetNonKEYRecordSet owner st)) nodes) nodes owners.

Definition with_records (st : Store) (node : leaseDumpNode) : leaseDumpNode :=
  match dn_keyRec node with
  | None => node
  | Some rec => match GetNonKEYRecordSet (NodeKey (KeyRR rec)) st with None => node | Some set => set_nonKeyRec (Some set) node end
  end.

Definition dump_nodes (st : Store) : gmap string leaseDumpNode :=
  with_records st <$> orphan_nodes st (ListOwners st) (key_nodes (map snd (range (leases st))) ∅).

(** Where a node goes: below another KEY, below its zone, or among the data without a KEY. *)
Record Layout := mkLayout {
  ly_nodes : gmap string leaseDumpNode;
  ly_rootsByZone : gmap string (list string);
  ly_orphanNonKeyOnly : list string }.

Definition place (ly : Layout) (name : string) : Layout :=
  match ly_nodes ly !! name with
  | None => ly
  | Some node =>
      match dn_keyRec node with
      | None =>
          match dn_nonKeyRec node with
          | Some _ => mkLayout (ly_nodes ly) (ly_rootsByZone ly) (ly_orphanNonKeyOnly ly ++ [name])
          | None => ly
          end
      | Some rec =>
          let parentName := Normalize (k_Parent rec) in
          match (if bool_decide (parentName = "") then None
                 else parent ← ly_nodes ly !! parentName; if bool_decide (is_Some (dn_keyRec parent)) then Some parent else None) with
          | Some parent => mkLayout (<[parentName := add_child_name name parent]> (ly_nodes ly)) (ly_rootsByZone ly) (ly_orphanNonKeyOnly ly)
          | None =>
              let z := Normalize (k_UpstreamZone rec) in
              let z := if bool_decide (z = "") then "(unknown)" else z in
              mkLayout (ly_nodes ly) (<[z := default [] (ly_rootsByZone ly !! z) ++ [name]]> (ly_rootsByZone ly)) (ly_orphanNonKeyOnly ly)
          end
      end
  end.

Definition layout (nodes : gmap string leaseDumpNode) : Layout := foldl place (mkLayout nodes ∅ []) (map fst (range nodes)).

(** The lines [writeNode] writes of a node itself. *)
Definition node_head (name indent : string) (node : leaseDumpNode) : string :=
  match dn_keyRec node with
  | Some rec =>
      String.concat "" (map (fun line => indent +:+ line +:+ nl)
        [ "Key: " +:+ name;
          "  ParentKey: " +:+ valueOrNone (Normalize (k_Parent rec));
          "  UpstreamZone: " +:+ valueOrNone (k_UpstreamZone rec);
          "  KeyRR: " +:+ RR_String (KEY_RR (KeyRR rec));
          "  ExpiresAt: " +:+ FormatRFC3339 zone (k_ExpiresAt rec);
          "  LeaseDuration: " +:+ fmt_d (b_LeaseDuration (k_base rec)) +:+ "s";
          "  KeyLeaseDuration: " +:+ fmt_d (KeyLeaseDuration rec) +:+ "s";
          "  RegisteredAt: " +:+ FormatRFC3339 zone (b_RegisteredAt (k_base rec));
          "  IsExpired: " +:+ fmt_v_bool (IsExpired now rec) ])
  | None => indent +:+ "Non-KEY-only lease: " +:+ name +:+ nl
  end.

Definition record_lines (indent : string) (e : string * NonKEYRecord) : string :=
  String.concat "" (map (fun line => indent +:+ line +:+ nl)
    [ "      " +:+ e.1;
      "        RR: " +:+ RR_String (n_RR e.2);
      "        ExpiresAt: " +:+ FormatRFC3339 zone (n_ExpiresAt e.2);
      "        LeaseDuration: " +:+ fmt_d (b_LeaseDuration (n_base e.2)) +:+ "s" ]).

Definition by_key {A} (x y : string * A) : Prop := String.le x.1 y.1.
#[global] Instance by_key_dec {A} : RelDecision (by_key (A := A)).
Proof. intros x y. unfold by_key. apply _. Defined.

Definition node_data (indent : string) (node : leaseDumpNode) : string :=
  match dn_nonKeyRec node with
  | None => ""
  | Some set =>
      indent +:+ "  Non-KEY lease:" +:+ nl
      +:+ (match merge_sort by_key (range (set_Records set)) with
           | [] => indent +:+ "    Records: (none)" +:+ nl
           | records => indent +:+ "    Records:" +:+ nl +:+ String.concat "" (map (record_lines indent) records)
           end)
      +:+ indent +:+ "    UpstreamZone: " +:+ valueOrNone (set_UpstreamZone set) +:+ nl
  end.

Fixpoint writeNode (fuel : nat) (nodes : gmap string leaseDumpNode) (name indent : string) : option string :=
  match fuel with
  | O => None
  | S fuel =>
      match nodes !! name with
      | None => Some ""
      | Some node =>
          below ← (match merge_sort String.le (dn_children node) with
                   | [] => Some ""
                   | children =>
                       texts ← mapM (fun child => writeNode fuel nodes child (indent +:+ "    ")) children;
                       Some (indent +:+ "  Children:" +:+ nl +:+ String.concat "" texts)
                   end);
          Some (node_head name indent node +:+ node_data indent node +:+ below +:+ nl)
      end
  end.

(** The fuel is the number of nodes: no chain of children is longer. *)
Definition dumpLeaseTreeLevel (st : Store) : option string :=
  let header := "=== Lease Store Dump ===" +:+ nl in
  let nodes := dump_nodes st in
  if (size nodes =? 0)%nat then Some (header +:+ "(empty)" +:+ nl)
  else
    let ly := layout nodes in
    let write name := writeNode (size nodes) (ly_nodes ly) name "  " in
    zones ← mapM (fun e : string * list string =>
                    texts ← mapM write e.2; Some ("Zone: " +:+ e.1 +:+ nl +:+ String.concat "" texts))
              (merge_sort by_key (range (ly_rootsByZone ly)));
    orphans ← (match ly_orphanNonKeyOnly ly with
               | [] => Some ""
               | names => texts ← mapM write (merge_sort String.le names); Some ("Orphan data leases:" +:+ nl +:+ String.concat "" texts)
               end);
    Some (header +:+ String.concat "" zones +:+ orphans).

(** ** The summary of the update handler *)

Definition keyStatus (keyRec : option KEYRecord) : string :=
  match keyRec with None => "absent" | Some r => if IsExpired now r then "expired" else "active" end.

Definition summary_line (st : Store) (name : string) : string :=
  let nonKeyRec := GetNonKEYRecordSet name st in
  let nonKeyCount := from_option (fun s => size (set_Records s)) 0%nat nonKeyRec in
  let nonKeyStatus := match nonKeyRec with None => "absent" | Some _ => if (0 <? nonKeyCount)%nat then "active" else "empty" end in
  "Key: " +:+ fmt_left 40 name +:+ " KEY=" +:+ fmt_left 8 (keyStatus (Get name st)) +:+ " NonKEY=" +:+ fmt_d (Z.of_nat nonKeyCount)
    +:+ "  Status=" +:+ nonKeyStatus +:+ nl.

Definition is_debug (level : string) : bool := bool_decide (ToLower (TrimSpace level) = "debug").

Definition DumpLeasesLevel (level : string) (st : Store) : option string :=
  if is_debug level then dumpLeaseTreeLevel st
  else
    let header := "=== Lease Store Summary ===" +:+ nl in
    Some match ListOwners st with
         | [] => header +:+ "(empty)" +:+ nl
         | owners => header +:+ String.concat "" (map (summary_line st) owners)
         end.

(** ** The SRP handler *)

Definition by_nodeKey (a b : KEYRecord) : Prop := String.le (NodeKey (KeyRR a)) (NodeKey (KeyRR b)).
#[global] Instance by_nodeKey_dec : RelDecision by_nodeKey.
Proof. intros x y. unfold by_nodeKey. apply _. Defined.

Definition srp_dump_entry (debug : bool) (st : Store) (rec : KEYRecord) : string :=
  let nodeKey := NodeKey (KeyRR rec) in
  let set := GetNonKEYRecordSet nodeKey st in
  let nonKeyCount := from_option (fun s => size (set_Records s)) 0%nat set in
  let status := if IsExpired now rec then "expired" else "active" in
  if debug then
    "Key: " +:+ nodeKey +:+ nl +:+ "  KeyRR: " +:+ RR_String (KEY_RR (KeyRR rec)) +:+ nl +:+ "  Status: " +:+ status +:+ nl
      +:+ "  ExpiresAt: " +:+ FormatRFC3339 zone (k_ExpiresAt rec) +:+ nl +:+ "  ParentKeyName: " +:+ Quote (k_Parent rec) +:+ nl
      +:+ String.concat "" (map (fun e : string * NonKEYRecord =>
            "    RR: " +:+ RR_String (n_RR e.2) +:+ nl +:+ "      ExpiresAt: " +:+ FormatRFC3339 zone (n_ExpiresAt e.2) +:+ nl)
            (from_option (fun s => range (set_Records s)) [] set))
  else
    "Key: " +:+ fmt_left 40 nodeKey +:+ " KEY=" +:+ fmt_left 8 status +:+ " NonKEY=" +:+ fmt_d (Z.of_nat nonKeyCount) +:+ nl.

Definition srp_DumpLeasesLevel (level : string) (st : Store) : string :=
  let debug := is_debug level in
  let header := (if debug then "=== SRP Lease Store Dump ===" else "=== SRP Lease Store Summary ===") +:+ nl in
  match merge_sort by_nodeKey (map snd (range (leases st))) with
  | [] => header +:+ "(empty)" +:+ nl
  | all => header +:+ String.concat "" (map (srp_dump_entry debug st) all)
  end.
End dump.

(** ** Lemmas *)

Lemma mapM_all {A B} (f : A -> option B) (g : A -> B) l : (forall x, x ∈ l -> f x = Some (g x)) -> mapM f l = Some (map g l).
Proof.
  induction l as [|x l IH]; intros H; [done|]. cbn. rewrite (H x) by set_solver. cbn. rewrite IH; [done|]. set_solver.
Qed.

Lemma filter_takes_last {A} (keep : A -> Prop) `{!forall a, Decision (keep a)} names c : keep c -> filter keep (names ++ [c]) = filter keep names ++ [c].
Proof. intros Hc. rewrite filter_app, (filter_cons_True keep c []) by exact Hc. done. Qed.

Lemma filter_skips_last {A} (keep : A -> Prop) `{!forall a, Decision (keep a)} names c : ~ keep c -> filter keep (names ++ [c]) = filter keep names.
Proof. intros Hc. rewrite filter_app, (filter_cons_False keep c []) by exact Hc. apply app_nil_r. Qed.

#[global] Instance by_key_total {A} : Total (by_key (A := A)).
Proof. intros x y. apply (total String.le). Qed.
#[global] Instance by_key_trans {A} : Transitive (by_key (A := A)).
Proof. intros x y z. unfold by_key. apply transitivity. Qed.
#[global] Instance by_nodeKey_total {L : DnsLib} : Total by_nodeKey.
Proof. intros x y. apply (total String.le). Qed.
#[global] Instance by_nodeKey_trans {L : DnsLib} : Transitive by_nodeKey.
Proof. intros x y z. unfold by_nodeKey. apply transitivity. Qed.

Lemma elem_of_range {R : MapRange} {RL : MapRangeLaws R} {A} (m : gmap string A) e : e ∈ range m <-> m !! e.1 = Some e.2.
Proof. rewrite range_perm. destruct e. apply elem_of_map_to_list. Qed.

(** ** The layout of the tree *)

Section layout.
Context {L : DnsLib} {R : MapRange}.
Context (nodes : gmap string leaseDumpNode).
Hypothesis no_children : forall n node, nodes !! n = Some node -> dn_children node = [].

(** The KEY a node is written below, if any. *)
Definition dump_parent (name : string) : option string :=
  node ← nodes !! name;
  rec ← dn_keyRec node;
  let p := Normalize (k_Parent rec) in
  if bool_decide (p = "") then None
  else parent ← nodes !! p; if bool_decide (is_Some (dn_keyRec parent)) then Some p else None.

Definition zone_label (rec : KEYRecord) : string :=
  let z := Normalize (k_UpstreamZone rec) in if bool_decide (z = "") then "(unknown)" else z.

Definition root_in (name : string) : option string :=
  node ← nodes !! name; rec ← dn_keyRec node; if bool_decide (dump_parent name = None) then Some (zone_label rec) else None.

Definition orphan (name : string) : bool :=
  match nodes !! name with Some node => bool_decide (dn_keyRec node = None /\ is_Some (dn_nonKeyRec node)) | None => false end.

Definition set_children_names (cs : list string) (node : leaseDumpNode) : leaseDumpNode := mkDumpNode (dn_keyRec node) (dn_nonKeyRec node) cs.

(** The layout after some of the names. *)
Definition placed (names : list string) (ly : Layout) : Prop :=
  (forall n, ly_nodes ly !! n = set_children_names (filter (fun c => dump_parent c = Some n) names) <$> nodes !! n) /\
  (forall z, ly_rootsByZone ly !! z = match filter (fun c => root_in c = Some z) names with [] => None | cs => Some cs end) /\
  ly_orphanNonKeyOnly ly = filter (fun c => orphan c = true) names.

Lemma place_placed names ly c : placed names ly -> placed (names ++ [c]) (place ly c).
Proof.
  intros (Hn & Hz & Ho). unfold place. rewrite Hn.
  assert (Hnone : dump_parent c = None -> forall n, ly_nodes ly !! n = set_children_names (filter (fun c => dump_parent c = Some n) (names ++ [c])) <$> nodes !! n).
  { intros E n. by rewrite filter_skips_last by congruence. }
  assert (Hroot : forall z, root_in c <> Some z -> filter (fun c => root_in c = Some z) (names ++ [c]) = filter (fun c => root_in c = Some z) names).
  { intros z E. by apply filter_skips_last. }
  assert (Horph : orphan c = false -> ly_orphanNonKeyOnly ly = filter (fun c => orphan c = true) (names ++ [c])).
  { intros E. by rewrite filter_skips_last by (rewrite E; done). }
  destruct (nodes !! c) as [node|] eqn:Ec; cbn [fmap option_fmap option_map].
  2:{ assert (E : dump_parent c = None) by (unfold dump_parent; by rewrite Ec). assert (E' : root_in c = None) by (unfold root_in; by rewrite Ec).
      split; [by apply Hnone|]. split; [intros z; rewrite Hroot by congruence; apply Hz|]. apply Horph. unfold orphan. by rewrite Ec. }
  cbn [dn_keyRec set_children_names dn_nonKeyRec]. destruct (dn_keyRec node) as [rec|] eqn:Ek.
  2:{ assert (E : dump_parent c = None) by (unfold dump_parent; rewrite Ec; cbn; by rewrite Ek).
      assert (E' : root_in c = None) by (unfold root_in; rewrite Ec; cbn; by rewrite Ek).
      destruct (dn_nonKeyRec node) as [set|] eqn:En; (split; [by apply Hnone|split; [intros z; rewrite Hroot by congruence; apply Hz|]]).
      - cbn. rewrite Ho, filter_takes_last; [done|]. unfold orphan. rewrite Ec, Ek, En. by rewrite bool_decide_true by eauto.
      - apply Horph. unfold orphan. rewrite Ec, En. rewrite bool_decide_false; [done|]. by intros [_ []]. }
  assert (Eo : orphan c = false) by (unfold orphan; rewrite Ec, Ek; rewrite bool_decide_false; [done|by intros [? _]]).
  set (p := Normalize (k_Parent rec)). rewrite Hn.
  assert (Ep : dump_parent c = if bool_decide (p = "") then None else parent ← nodes !! p; if bool_decide (is_Some (dn_keyRec parent)) then Some p else None).
  { unfold dump_parent. rewrite Ec. cbn. by rewrite Ek. }
  assert (Er : root_in c = if bool_decide (dump_parent c = None) then Some (zone_label rec) else None).
  { unfold root_in. rewrite Ec. cbn. by rewrite Ek. }
  assert (Hzone : dump_parent c = None -> placed (names ++ [c])
    (mkLayout (ly_nodes ly) (<[zone_label rec := default [] (ly_rootsByZone ly !! zone_label rec) ++ [c]]> (ly_rootsByZone ly)) (ly_orphanNonKeyOnly ly))).
  { intros E. rewrite E in Er. cbn in Er. split; [by apply Hnone|]. split; [|by apply Horph]. intros z. cbn [ly_rootsByZone].
    destruct (decide (z = zone_label rec)) as [->|Hne].
    - rewrite lookup_insert_eq, Hz, filter_takes_last by done. destruct (filter (fun c => root_in c = Some (zone_label rec)) names); done.
    - rewrite lookup_insert_ne by done. rewrite Hroot by congruence. apply Hz. }
  revert Ep. destruct (bool_decide (p = "")); [intros Ep; by apply Hzone|].
  destruct (nodes !! p) as [parent|] eqn:Epar; cbn [fmap option_fmap option_map mbind option_bind]; [|intros Ep; by apply Hzone].
  cbn [dn_keyRec set_children_names]. destruct (bool_decide (is_Some (dn_keyRec parent))); [|intros Ep; by apply Hzone]. intros Ep. rewrite Ep in Er. cbn in Er.
  split; [|split; [intros z; rewrite Hroot by (rewrite Er; done); apply Hz|by apply Horph]].
  intros n. cbn [ly_nodes]. destruct (decide (n = p)) as [->|Hne].
  - rewrite lookup_insert_eq, Epar, filter_takes_last by done. done.
  - rewrite lookup_insert_ne by done. by rewrite Hn, filter_skips_last by congruence.
Qed.

Lemma layout_placed : placed (map fst (range nodes)) (layout nodes).
Proof using no_children.
  unfold layout. induction (map fst (range nodes)) as [|c names IH] using rev_ind.
  - split; [|split; [intros z; apply lookup_empty|done]]. intros n. cbn. destruct (nodes !! n) as [node|] eqn:E; [|done]. cbn.
    rewrite <- (no_children n node E). by destruct node.
  - rewrite foldl_app. cbn [foldl]. by apply place_placed.
Qed.
End layout.

(** ** The tree is finite

    A node is below at most one other, so the way up from a node is determined by it, and a way
    that ends at a root meets no node twice. *)

Section tree.
Context {L : DnsLib} {R : MapRange} {RL : MapRangeLaws R} (zone : Z -> Z) (now : Z).
Context (nodes : gmap string leaseDumpNode).
Hypothesis no_children : forall n node, nodes !! n = Some node -> dn_children node = [].

(** The way up from the first name to a root. *)
Fixpoint way_up (l : list string) : Prop :=
  match l with
  | [] => False
  | x :: l => is_Some (nodes !! x) /\ match l with [] => dump_parent nodes x = None | y :: _ => dump_parent nodes x = Some y /\ way_up l end
  end.

Lemma way_up_unique x a b : way_up (x :: a) -> way_up (x :: b) -> a = b.
Proof.
  revert x b. induction a as [|y a IH]; intros x [|z b] [_ Ha] [_ Hb]; [done|destruct Hb; congruence|destruct Ha; congruence|].
  destruct Ha as [Ha Wa], Hb as [Hb Wb]. rewrite Ha in Hb. injection Hb as <-. f_equal. by eapply IH.
Qed.

Lemma way_up_from x l y : way_up (x :: l) -> y ∈ l -> exists l1 l2, l = l1 ++ y :: l2 /\ way_up (y :: l2).
Proof.
  revert x. induction l as [|z l IH]; intros x [_ Hw] Hy; [set_solver|]. destruct Hw as [_ Hw].
  apply elem_of_cons in Hy as [->|Hy]; [by exists [], l|]. destruct (IH z Hw Hy) as (l1 & l2 & -> & H). by exists (z :: l1), l2.
Qed.

Lemma way_up_NoDup l : way_up l -> NoDup l.
Proof.
  induction l as [|x l IH]; intros Hw; [done|]. constructor.
  - intros Hin. destruct (way_up_from x l x Hw Hin) as (l1 & l2 & -> & H). apply (way_up_unique _ _ _ Hw) in H.
    apply (f_equal length) in H. rewrite length_app in H. cbn in H. lia.
  - destruct l as [|y l]; [constructor|]. apply IH. by destruct Hw as [_ [_ Hw]].
Qed.

Lemma way_up_nodes l x : way_up l -> x ∈ l -> is_Some (nodes !! x).
Proof.
  induction l as [|y l IH]; [done|]. intros [Hy Hw] [->|Hx]%elem_of_cons; [done|]. destruct l as [|z l]; [set_solver|]. apply IH; [by destruct Hw|done].
Qed.

Lemma way_up_length l : way_up l -> (length l <= size nodes)%nat.
Proof.
  intros Hw. pose proof (way_up_NoDup l Hw) as Hd. rewrite <- (size_list_to_set (C := gset string) l Hd), <- (size_dom (D := gset string)).
  apply subseteq_size. intros x Hx%elem_of_list_to_set. apply elem_of_dom. by eapply way_up_nodes.
Qed.

Lemma writeNode_total fuel name path indent :
  way_up (name :: path) -> (size nodes < fuel + S (length path))%nat -> is_Some (writeNode zone now fuel (ly_nodes (layout nodes)) name indent).
Proof using no_children RL.
  revert name path indent. induction fuel as [|fuel IH]; intros name path indent Hw Hf.
  { apply way_up_length in Hw. cbn in *. lia. }
  destruct (layout_placed nodes no_children) as (Hn & _). cbn [writeNode]. rewrite Hn. destruct (nodes !! name) as [node|] eqn:E; [|by eexists].
  cbn [fmap option_fmap option_map dn_children set_children_names]. set (cs := filter _ _).
  assert (H : is_Some (mapM (fun child => writeNode zone now fuel (ly_nodes (layout nodes)) child (indent +:+ "    ")) (merge_sort String.le cs))).
  { apply mapM_is_Some, Forall_forall. intros c Hc. rewrite merge_sort_Permutation in Hc. unfold cs in Hc. apply list_elem_of_filter in Hc as [Hp Hc].
    apply (IH c (name :: path)); [|cbn; lia]. split; [|by split]. unfold dump_parent in Hp. by destruct (nodes !! c). }
  destruct (merge_sort String.le cs) as [|c0 cs0]; [by eexists|]. destruct H as [texts ->]. by eexists.
Qed.

Lemma roots_written z names name :
  ly_rootsByZone (layout nodes) !! z = Some names -> name ∈ names -> is_Some (writeNode zone now (size nodes) (ly_nodes (layout nodes)) name "  ").
Proof using no_children RL.
  destruct (layout_placed nodes no_children) as (_ & Hz & _). rewrite Hz. intros E Hin. apply (writeNode_total _ _ []); [|cbn; lia].
  assert (Hr : root_in nodes name = Some z). { destruct (filter _ _) eqn:Ef; [done|]. injection E as <-. rewrite <- Ef in Hin. by apply list_elem_of_filter in Hin as [? _]. }
  unfold root_in in Hr. destruct (nodes !! name) as [node|] eqn:En; [|done]. split; [by rewrite En|]. cbn in Hr.
  destruct (dn_keyRec node); [|done]. cbn in Hr. by case_bool_decide.
Qed.

Lemma orphans_written name :
  name ∈ ly_orphanNonKeyOnly (layout nodes) -> is_Some (writeNode zone now (size nodes) (ly_nodes (layout nodes)) name "  ").
Proof using no_children RL.
  destruct (layout_placed nodes no_children) as (_ & _ & Ho). rewrite Ho. intros [H _]%list_elem_of_filter. apply (writeNode_total _ _ []); [|cbn; lia].
  unfold orphan in H. destruct (nodes !! name) as [node|] eqn:En; [|done]. apply bool_decide_eq_true in H as [H _].
  split; [by rewrite En|]. unfold dump_parent. rewrite En. cbn. by rewrite H.
Qed.
End tree.

Lemma dump_nodes_no_children {L : DnsLib} {R : MapRange} st n node : dump_nodes st !! n = Some node -> dn_children node = [].
Proof.
  unfold dump_nodes. rewrite lookup_fmap. intros (node0 & H & ->)%fmap_Some.
  assert (G : forall nodes name f, (forall n, dn_children (f n) = dn_children n) ->
    (forall n node, nodes !! n = Some node -> dn_children node = []) -> forall n node, addNode name f nodes !! n = Some node -> dn_children node = []).
  { intros nodes name f Hf Hn m x. unfold addNode. case_bool_decide; [apply Hn|]. intros [[_ <-]|[_ Hx]]%lookup_insert_Some; [|by eapply Hn].
    rewrite Hf. destruct (nodes !! _) eqn:E; [by eapply Hn|done]. }
  assert (Hk : forall recs nodes, (forall n node, nodes !! n = Some node -> dn_children node = []) ->
    forall n node, key_nodes recs nodes !! n = Some node -> dn_children node = []).
  { intros recs. induction recs as [|r recs IH]; [done|]. intros nodes Hn. apply IH. by apply G. }
  assert (Ho : forall owners nodes, (forall n node, nodes !! n = Some node -> dn_children node = []) ->
    forall n node, orphan_nodes st owners nodes !! n = Some node -> dn_children node = []).
  { intros owners. induction owners as [|o owners IH]; [done|]. intros nodes Hn. apply IH. case_bool_decide; [done|]. by apply G. }
  assert (Hc : dn_children node0 = []) by (eapply Ho; [|exact H]; eapply Hk; intros ? ?; by rewrite lookup_empty).
  unfold with_records. destruct (dn_keyRec node0); [|done]. by destruct (GetNonKEYRecordSet _ st).
Qed.

(** The debug dump always ends: the number of nodes is enough fuel, whatever names and parents the
    KEYs have. *)
Theorem debug_dump_total {L : DnsLib} {R : MapRange} {RL : MapRangeLaws R} (zone : Z -> Z) (now : Z) (st : Store) :
  is_Some (dumpLeaseTreeLevel zone now st).
Proof.
  unfold dumpLeaseTreeLevel. cbn zeta. case_match; [by eexists|]. pose proof (dump_nodes_no_children st) as Hn. set (nodes := dump_nodes st) in *.
  match goal with |- is_Some (?m ≫= _) => assert (H1 : is_Some m) end.
  { apply mapM_is_Some, Forall_forall. intros [z names] Hz. rewrite merge_sort_Permutation, elem_of_range in Hz. unfold compose. cbn [fst snd] in *.
    assert (H2 : is_Some (mapM (fun name => writeNode zone now (size nodes) (ly_nodes (layout nodes)) name "  ") names)).
    { apply mapM_is_Some, Forall_forall. intros name Hin. by eapply roots_written. }
    destruct H2 as [texts ->]. by eexists. }
  destruct H1 as [zones ->]. cbn [mbind option_bind]. assert (H3 : is_Some (mapM (fun name => writeNode zone now (size nodes) (ly_nodes (layout nodes)) name "  ")
    (merge_sort String.le (ly_orphanNonKeyOnly (layout nodes))))).
  { apply mapM_is_Some, Forall_forall. intros name Hin. rewrite merge_sort_Permutation in Hin. by apply orphans_written. }
  destruct (ly_orphanNonKeyOnly (layout nodes)); [by eexists|]. destruct H3 as [texts ->]. by eexists.
Qed.

(** ** What the summaries say *)

Section summary.
Context {L : DnsLib} {LL : DnsLibLaws L} {T : Unicode} {R : MapRange} {RL : MapRangeLaws R} (zone : Z -> Z) (now : Z).

(** A node that holds leases: a KEY, or the owner of records. *)
Definition lease_owner (st : Store) (o : string) : Prop :=
  is_Some (leases st !! o) \/ exists id r, nonKeyRecords st !! id = Some r /\ n_Parent r = o.
Definition records_of (st : Store) (o : string) : gmap string NonKEYRecord := filter (fun kv => n_Parent kv.2 = o) (nonKeyRecords st).

Lemma elem_of_ListOwners st o : o ∈ ListOwners st <-> lease_owner st o.
Proof.
  unfold ListOwners, lease_owner. rewrite merge_sort_Permutation, elem_of_elements, elem_of_list_to_set, elem_of_app, !list_elem_of_fmap. split.
  - intros [([k r] & -> & H%elem_of_map_to_list)|([k r] & -> & H%elem_of_map_to_list)]; cbn; eauto.
  - intros [[r H]|(id & r & H & <-)]; [left; exists (o, r)|right; exists (id, r)]; (split; [done|by apply elem_of_map_to_list]).
Qed.

Lemma owner_normal st o : WF st -> lease_owner st o -> Normalize o = o.
Proof using LL.
  intros W [[r H]|(id & r & H & <-)]; [by eapply WF_lease_normal|]. pose proof (wf_nonKey _ _ W _ _ H) as (_ & _ & _ & _ & _ & _ & Hn). done.
Qed.

Lemma record_count st o : WF st -> Normalize o = o ->
  from_option (fun s => size (set_Records s)) 0%nat (GetNonKEYRecordSet o st) = size (records_of st o) /\
  (is_Some (GetNonKEYRecordSet o st) <-> records_of st o <> ∅).
Proof using LL.
  intros W Ho. pose proof (GetNonKEYRecordSet_spec o st W) as H. rewrite Ho in H. unfold records_of.
  destruct (GetNonKEYRecordSet o st) as [s|]; cbn [from_option].
  - destruct H as [<- Hne]. split; [done|]. split; [done|by eexists].
  - assert (E : filter (fun kv => n_Parent kv.2 = o) (nonKeyRecords st) = ∅).
    { apply map_empty. intros id. apply map_lookup_filter_None. right. intros r Hr. cbn. by eapply H. }
    rewrite E. split; [done|]. split; [by intros []|done].
Qed.

(** One line: a node, the state of its KEY and the number of its records. *)
Record Line := mkLine { li_name : string; li_key : string; li_records : nat }.

Definition line_text (l : Line) : string :=
  "Key: " +:+ fmt_left 40 (li_name l) +:+ " KEY=" +:+ fmt_left 8 (li_key l) +:+ " NonKEY=" +:+ fmt_d (Z.of_nat (li_records l)).

Definition line_of (st : Store) (o : string) : Line := mkLine o (keyStatus now (leases st !! o)) (size (records_of st o)).

Lemma summary_line_text st o : WF st -> lease_owner st o ->
  summary_line now st o = line_text (line_of st o) +:+ "  Status=" +:+ (if (0 <? li_records (line_of st o))%nat then "active" else "absent") +:+ nl.
Proof using LL.
  intros W Ho. pose proof (owner_normal st o W Ho) as Hn. destruct (record_count st o W Hn) as [Hc Hs]. unfold summary_line, line_text, line_of.
  cbn [li_name li_key li_records]. cbn zeta. rewrite Hc. unfold Get. rewrite Hn, !string_app_assoc. do 8 f_equal.
  destruct (GetNonKEYRecordSet o st) as [s|] eqn:E.
  - assert (records_of st o <> ∅) as Hne by (apply Hs; by eexists). rewrite <- map_size_empty_iff in Hne. destruct (Nat.ltb_spec 0 (size (records_of st o))); [done|lia].
  - destruct (Nat.ltb_spec 0 (size (records_of st o))) as [Hlt|]; [|done]. exfalso. assert (Hn2 : records_of st o <> ∅) by (intros E'; rewrite E', map_size_empty in Hlt; lia).
    by destruct (proj2 Hs Hn2).
Qed.

(** A header and a line for each of a list. *)
Definition table (header : string) (f : string -> string) (l : list string) : string :=
  header +:+ nl +:+ match l with [] => "(empty)" +:+ nl | _ => String.concat "" (map f l) end.

(** In order, each once. *)
Definition listing (P : string -> Prop) (l : list string) : Prop := StronglySorted String.le l /\ NoDup l /\ forall o, o ∈ l <-> P o.

Lemma owners_listed st : listing (lease_owner st) (ListOwners st).
Proof.
  split_and!; [apply (StronglySorted_merge_sort String.le)| |apply elem_of_ListOwners]. unfold ListOwners. rewrite merge_sort_Permutation. apply NoDup_elements.
Qed.

Definition srp_order (st : Store) : list KEYRecord := merge_sort by_nodeKey (map snd (range (leases st))).

Lemma elem_of_srp_order st r : r ∈ srp_order st <-> exists k, leases st !! k = Some r.
Proof using RL.
  unfold srp_order. rewrite merge_sort_Permutation, list_elem_of_fmap. setoid_rewrite elem_of_range. split; [intros (e & -> & ?)|intros [k ?]; exists (k, r)]; eauto.
Qed.

Lemma srp_keys_listed st : WF st -> listing (fun o => is_Some (leases st !! o)) (map (fun r => NodeKey (KeyRR r)) (srp_order st)).
Proof using RL.
  intros W. assert (Hk : forall e, e ∈ map_to_list (leases st) -> NodeKey (KeyRR e.2) = e.1).
  { intros [k r] H%elem_of_map_to_list. by destruct (wf_leases _ _ W _ _ H) as [-> _]. }
  split_and!.
  - assert (HS : StronglySorted by_nodeKey (srp_order st)) by apply (StronglySorted_merge_sort by_nodeKey).
    induction HS as [|r l HS IH HF]; constructor; [done|]. apply Forall_map. exact HF.
  - unfold srp_order. rewrite merge_sort_Permutation. rewrite range_perm. rewrite map_map.
    rewrite (map_ext_in _ fst); [apply NoDup_fst_map_to_list|]. intros e He. by apply Hk, list_elem_of_In.
  - intros o. rewrite list_elem_of_fmap. setoid_rewrite elem_of_srp_order. split.
    + intros (r & -> & k & H). pose proof (wf_leases _ _ W _ _ H) as [<- _]. by eexists.
    + intros [r H]. exists r. split; [by destruct (wf_leases _ _ W _ _ H) as [-> _]|eauto].
Qed.

Lemma srp_entry_text st r : WF st -> r ∈ srp_order st -> srp_dump_entry zone now false st r = line_text (line_of st (NodeKey (KeyRR r))) +:+ nl.
Proof using LL RL.
  intros W [k H]%elem_of_srp_order. pose proof (wf_leases _ _ W _ _ H) as [Hk _]. unfold srp_dump_entry, line_text, line_of. cbn zeta iota. cbn [li_name li_key li_records].
  destruct (record_count st (NodeKey (KeyRR r)) W (Normalize_NodeKey _)) as [-> _]. rewrite <- Hk, H. cbn [keyStatus]. by rewrite !string_app_assoc.
Qed.

(** Each summary lists what there is: below its header, the summary of the update handler has one
    line for every KEY and every owner of records of the store, and the SRP handler's one for
    every KEY, in the order of their names; a line says whether the KEY is active, expired or
    absent and how many records its node owns; an empty store is said to be empty. *)
Theorem summaries_exact (level : string) (st : Store) :
  WF st -> is_debug level = false ->
  (exists owners, listing (lease_owner st) owners /\
     DumpLeasesLevel zone now level st = Some (table "=== Lease Store Summary ==="
       (fun o => line_text (line_of st o) +:+ "  Status=" +:+ (if (0 <? size (records_of st o))%nat then "active" else "absent") +:+ nl) owners)) /\
  (exists keys, listing (fun o => is_Some (leases st !! o)) keys /\
     srp_DumpLeasesLevel zone now level st = table "=== SRP Lease Store Summary ===" (fun o => line_text (line_of st o) +:+ nl) keys).
Proof using LL RL.
  intros W Hd. split; [exists (ListOwners st)|exists (map (fun r => NodeKey (KeyRR r)) (srp_order st))].
  - split; [apply owners_listed|]. unfold DumpLeasesLevel, table. rewrite Hd. cbn zeta. f_equal. rewrite <- !string_app_assoc.
    assert (E : map (summary_line now st) (ListOwners st) = map (fun o => line_text (line_of st o) +:+ "  Status="
      +:+ (if (0 <? size (records_of st o))%nat then "active" else "absent") +:+ nl) (ListOwners st)).
    { apply map_ext_in. intros o Ho%list_elem_of_In%elem_of_ListOwners. by apply summary_line_text. }
    destruct (ListOwners st); [by rewrite !string_app_assoc|]. rewrite E. by rewrite !string_app_assoc.
  - split; [by apply srp_keys_listed|]. unfold srp_DumpLeasesLevel, table. rewrite Hd. cbn zeta iota. fold (srp_order st).
    assert (E : map (srp_dump_entry zone now false st) (srp_order st)
      = map (fun o => line_text (line_of st o) +:+ nl) (map (fun r => NodeKey (KeyRR r)) (srp_order st))).
    { rewrite map_map. apply map_ext_in. intros r Hr%list_elem_of_In. by apply srp_entry_text. }
    destruct (srp_order st) as [|r l]; [by rewrite !string_app_assoc|]. rewrite E. by rewrite !string_app_assoc.
Qed.
End summary.

(** ** What the debug dump says *)

Section debug.
Context {L : DnsLib} {LL : DnsLibLaws L} {R : MapRange} {RL : MapRangeLaws R} (st : Store).

Definition dns_name (r : KEYRecord) : string := Normalize (Name (key_Hdr (KeyRR r))).
Definition is_lease (r : KEYRecord) : Prop := exists k, leases st !! k = Some r.
Definition orphan_owner (o : string) : Prop := lease_owner st o /\ leases st !! o = None.

(** The tree is keyed by names: every KEY has one of its own, and none is the node key of another's
    parent or of an owner without a KEY. *)
Record names_apart : Prop := {
  na_named : forall r, is_lease r -> dns_name r <> "";
  na_distinct : forall r r', is_lease r -> is_lease r' -> dns_name r = dns_name r' -> r = r';
  na_parent : forall r r', is_lease r -> is_lease r' -> dns_name r <> Normalize (k_Parent r');
  na_owner : forall r o, is_lease r -> orphan_owner o -> dns_name r <> o }.

Definition key_node (r : KEYRecord) : leaseDumpNode := mkDumpNode (Some r) (GetNonKEYRecordSet (NodeKey (KeyRR r)) st) [].
Definition orphan_node (o : string) : leaseDumpNode := mkDumpNode None (GetNonKEYRecordSet o st) [].

Hypothesis W : WF st.
Hypothesis apart : names_apart.

Lemma key_nodes_lookup recs : (forall r, r ∈ recs -> is_lease r) -> forall n node,
  key_nodes recs ∅ !! n = Some node <-> exists r, r ∈ recs /\ dns_name r = n /\ node = mkDumpNode (Some r) None [].
Proof using W LL RL apart.
  induction recs as [|r recs IH] using rev_ind; intros Hl n node.
  { unfold key_nodes. cbn [foldl]. rewrite lookup_empty. set_solver. }
  assert (Hr : is_lease r) by (apply Hl; set_solver). specialize (IH ltac:(intros; apply Hl; set_solver)).
  assert (Hx : set_keyRec r (default (mkDumpNode None None []) (key_nodes recs ∅ !! dns_name r)) = mkDumpNode (Some r) None []).
  { destruct (key_nodes recs ∅ !! dns_name r) as [x|] eqn:E; [|done]. apply IH in E as (r' & _ & _ & ->). done. }
  unfold key_nodes at 1. rewrite foldl_app. cbn [foldl]. fold (key_nodes recs ∅). unfold addNode. fold (dns_name r).
  rewrite bool_decide_false by (by apply apart). rewrite Hx, lookup_insert_Some, IH. setoid_rewrite elem_of_app. setoid_rewrite list_elem_of_singleton. split.
  - intros [[<- <-]|[Hne (r' & ? & ? & ?)]]; [exists r|exists r']; eauto.
  - intros (r' & [Hin| ->] & <- & ->); [|by left]. destruct (decide (dns_name r = dns_name r')) as [E|Hne]; [left|right; eauto]. split; [done|].
    by assert (r = r') as -> by (apply apart; [done|apply Hl; set_solver|done]).
Qed.

Lemma orphan_nodes_lookup owners nodes :
  (forall o, o ∈ owners -> lease_owner st o) -> (forall o, o ∈ owners -> leases st !! o = None -> nodes !! o = None) -> forall n node,
  orphan_nodes st owners nodes !! n = Some node <-> nodes !! n = Some node \/ n ∈ owners /\ leases st !! n = None /\ node = orphan_node n.
Proof using W LL RL apart.
  induction owners as [|o owners IH] using rev_ind; intros Ho Hn n node; [set_solver|].
  specialize (IH ltac:(intros; apply Ho; set_solver) ltac:(intros; apply Hn; set_solver)).
  assert (Hoo : lease_owner st o) by (apply Ho; set_solver). pose proof (owner_normal st o W Hoo) as Hnorm.
  assert (Hne : o <> "").
  { destruct Hoo as [[r Hr]|(id & r & Hr & <-)]; [destruct (wf_leases _ _ W _ _ Hr) as [-> _]; apply NodeKey_ne|by apply (wf_nonKey _ _ W _ _ Hr)]. }
  unfold orphan_nodes at 1. rewrite foldl_app. cbn [foldl]. fold (orphan_nodes st owners nodes). rewrite elem_of_app, list_elem_of_singleton. unfold Get. rewrite Hnorm. case_bool_decide as Hg.
  { rewrite IH. destruct Hg as [r Hg]. split; [naive_solver|]. intros [?|([?| ->] & ? & ?)]; [by left|by right|congruence]. }
  unfold addNode. rewrite Hnorm, bool_decide_false by done. rewrite lookup_insert_Some, IH.
  assert (Hnone : leases st !! o = None) by (destruct (leases st !! o); [by destruct Hg|done]).
  assert (Hx : set_nonKeyRec (GetNonKEYRecordSet o st) (default (mkDumpNode None None []) (orphan_nodes st owners nodes !! o)) = orphan_node o).
  { destruct (orphan_nodes st owners nodes !! o) as [x|] eqn:E; [|done]. apply IH in E as [E|(_ & _ & ->)]; [|done]. rewrite Hn in E; [done|set_solver|done]. }
  rewrite Hx. split; [naive_solver|]. intros [E|([?| ->] & ? & ->)]; [|destruct (decide (o = n)) as [<-|]; [by left|right; split; [done|by right]]|by left].
  right. split; [|by left]. intros <-. rewrite Hn in E; [done|set_solver|done].
Qed.

Lemma elem_of_leases r : r ∈ map snd (range (leases st)) <-> is_lease r.
Proof using RL.
  rewrite list_elem_of_fmap. setoid_rewrite elem_of_range. split; [intros (e & -> & ?)|intros [k ?]; exists (k, r)]; unfold is_lease; eauto.
Qed.

Lemma dump_nodes_lookup n node : dump_nodes st !! n = Some node <->
  (exists r, is_lease r /\ dns_name r = n /\ node = key_node r) \/ orphan_owner n /\ node = orphan_node n.
Proof using W LL RL apart.
  assert (HK : forall n node, key_nodes (map snd (range (leases st))) ∅ !! n = Some node <->
    exists r, is_lease r /\ dns_name r = n /\ node = mkDumpNode (Some r) None []).
  { intros n' node'. rewrite key_nodes_lookup by (intros r; apply elem_of_leases). by setoid_rewrite elem_of_leases. }
  unfold dump_nodes. rewrite lookup_fmap, fmap_Some.
  assert (HO : forall node, orphan_nodes st (ListOwners st) (key_nodes (map snd (range (leases st))) ∅) !! n = Some node <->
    (exists r, is_lease r /\ dns_name r = n /\ node = mkDumpNode (Some r) None []) \/ orphan_owner n /\ node = orphan_node n).
  { intros node'. rewrite orphan_nodes_lookup, HK, elem_of_ListOwners; [unfold orphan_owner; naive_solver|intros o; apply elem_of_ListOwners|].
    intros o Ho%elem_of_ListOwners Hnone. destruct (key_nodes _ ∅ !! o) as [x|] eqn:E; [|done]. apply HK in E as (r & Hr & <- & _).
    by destruct (na_owner apart r _ Hr (conj Ho Hnone)). }
  setoid_rewrite HO. split.
  - intros (x & [(r & Hr & <- & ->)|[Ho ->]] & ->); [left; exists r|by right]. split_and!; [done..|]. unfold with_records, key_node. cbn.
    by destruct (GetNonKEYRecordSet _ st).
  - intros [(r & Hr & <- & ->)|[Ho ->]]; [exists (mkDumpNode (Some r) None [])|exists (orphan_node n)]; (split; [eauto 6|]); [|done].
    unfold with_records, key_node. cbn. by destruct (GetNonKEYRecordSet _ st).
Qed.

(** No node is below another. *)
Lemma flat n : dump_parent (dump_nodes st) n = None.
Proof using W LL RL apart.
  unfold dump_parent. destruct (dump_nodes st !! n) as [node|] eqn:E; [|done]. cbn. apply dump_nodes_lookup in E as [(r & Hr & _ & ->)|[_ ->]]; [|done].
  cbn. case_bool_decide; [done|]. destruct (dump_nodes st !! _) as [parent|] eqn:E; [|done]. cbn.
  apply dump_nodes_lookup in E as [(r' & Hr' & Hn & ->)|[_ ->]]; [|done]. by destruct (na_parent apart r' r Hr' Hr).
Qed.

Lemma root_in_iff n z : root_in (dump_nodes st) n = Some z <-> exists r, is_lease r /\ dns_name r = n /\ zone_label r = z.
Proof using W LL RL apart.
  unfold root_in. rewrite (bool_decide_true (dump_parent _ n = None)) by apply flat. split.
  - destruct (dump_nodes st !! n) as [node|] eqn:E; [|done]. cbn. apply dump_nodes_lookup in E as [(r & Hr & Hn & ->)|[_ ->]]; [|done]. cbn. intros [= <-]. eauto.
  - intros (r & Hr & Hn & <-). by rewrite (proj2 (dump_nodes_lookup n (key_node r))) by eauto.
Qed.

Lemma orphan_iff n : orphan (dump_nodes st) n = true <-> orphan_owner n.
Proof using W LL RL apart.
  unfold orphan. split.
  - destruct (dump_nodes st !! n) as [node|] eqn:E; [|done]. rewrite bool_decide_eq_true. apply dump_nodes_lookup in E as [(r & Hr & Hn & ->)|[? _]]; [|done].
    by intros [? _].
  - intros Ho. rewrite (proj2 (dump_nodes_lookup n (orphan_node n))) by eauto. apply bool_decide_eq_true. split; [done|]. cbn.
    destruct Ho as [[Ho|(id & r & Hr & Hp)] Hnone]; [rewrite Hnone in Ho; by destruct Ho|].
    apply record_count; [done|eapply owner_normal; [done|right; eauto]|]. intros E.
    assert (Hx : records_of st n !! id = Some r) by (by apply map_lookup_filter_Some). by rewrite E, lookup_empty in Hx.
Qed.

Lemma range_names_NoDup {A} (m : gmap string A) : NoDup (map fst (range m)) /\ forall n, n ∈ map fst (range m) <-> is_Some (m !! n).
Proof using RL.
  split; [rewrite range_perm; apply NoDup_fst_map_to_list|]. intros n. rewrite list_elem_of_fmap. setoid_rewrite elem_of_range.
  split; [intros (e & -> & ->); by eexists|intros [x ?]; by exists (n, x)].
Qed.
End debug.

(** ** The debug dump, written out *)

Section entries.
Context {L : DnsLib} {LL : DnsLibLaws L} {R : MapRange} {RL : MapRangeLaws R} (st : Store).

(** Every KEY is in the group of its zone, once, and the groups are in order. *)
Record grouped (zones : list (string * list KEYRecord)) : Prop := {
  gr_sorted : StronglySorted String.le (map fst zones) /\ NoDup (map fst zones);
  gr_zone : forall z rs r, (z, rs) ∈ zones -> r ∈ rs -> zone_label r = z;
  gr_once : forall z rs, (z, rs) ∈ zones -> NoDup rs;
  gr_all : forall r, is_lease st r <-> exists rs, (zone_label r, rs) ∈ zones /\ r ∈ rs }.

Hypothesis W : WF st.
Hypothesis apart : names_apart st.

Abbreviation nodes := (dump_nodes st).
Definition rec_of (n : string) : option KEYRecord := nodes !! n ≫= dn_keyRec.

Lemma rec_of_iff n r : rec_of n = Some r <-> is_lease st r /\ dns_name r = n.
Proof using W LL RL apart.
  unfold rec_of. split.
  - destruct (nodes !! n) as [node|] eqn:E; [|done]. cbn. apply dump_nodes_lookup in E as [(r' & Hr & Hn & ->)|[_ ->]]; [|done..]. by intros [= <-].
  - intros [Hr Hn]. by rewrite (proj2 (dump_nodes_lookup st W apart n (key_node st r))) by eauto.
Qed.

(** The groups, as the layout has them. *)
Definition groups : list (string * list KEYRecord) := map (fun e => (e.1, omap rec_of e.2)) (merge_sort by_key (range (ly_rootsByZone (layout nodes)))).

Lemma elem_of_groups z rs : (z, rs) ∈ groups <->
  rs <> [] /\ rs = omap rec_of (filter (fun c => root_in nodes c = Some z) (map fst (range nodes))).
Proof using W LL RL apart.
  destruct (layout_placed nodes (dump_nodes_no_children st)) as (_ & Hz & _). unfold groups. rewrite list_elem_of_fmap.
  setoid_rewrite merge_sort_Permutation. setoid_rewrite elem_of_range. set (F := fun z => filter (fun c => root_in nodes c = Some z) (map fst (range nodes))).
  assert (Hne : F z <> [] -> omap rec_of (F z) <> []).
  { destruct (F z) as [|c l] eqn:E; [done|]. intros _. assert (Hc : c ∈ F z) by (rewrite E; set_solver). apply list_elem_of_filter in Hc as [(r & Hr & Hn & _)%root_in_iff _]; [|done..].
    cbn. by rewrite (proj2 (rec_of_iff c r)). }
  split.
  - intros ([z' names] & [= -> ->] & H). cbn [fst snd] in *. rewrite Hz in H. fold (F z') in *. destruct (F z') eqn:E; [done|].
    injection H as <-. split; [apply Hne|]; done.
  - intros [Hn ->]. exists (z, F z). split; [done|]. cbn [fst snd]. rewrite Hz. fold (F z) in *. by destruct (F z).
Qed.

Lemma omap_rec_NoDup l : NoDup l -> NoDup (omap rec_of l).
Proof using W LL RL apart.
  induction 1 as [|n l Hn _ IH]; [constructor|]. cbn. destruct (rec_of n) as [r|] eqn:E; [|done]. constructor; [|done].
  intros (n' & Hn' & E')%list_elem_of_omap. apply rec_of_iff in E as [_ <-], E' as [_ <-]. done.
Qed.

Lemma groups_grouped : grouped groups.
Proof using W LL RL apart.
  split.
  - unfold groups. rewrite map_map. cbn [fst]. set (l := merge_sort _ _). assert (HS : StronglySorted by_key l) by apply (StronglySorted_merge_sort by_key).
    assert (Hd : NoDup (map fst l)) by (unfold l; rewrite merge_sort_Permutation; apply range_names_NoDup). split; [|done].
    clear Hd. induction HS as [|e l' HS IH HF]; constructor; [done|]. apply Forall_map. exact HF.
  - intros z rs r [_ ->]%elem_of_groups (n & [Hz _]%list_elem_of_filter & [Hr Hn]%rec_of_iff)%list_elem_of_omap. apply root_in_iff in Hz as (r' & Hr' & Hn' & <-); [|done..].
    f_equal. apply (na_distinct _ apart); [done..|congruence].
  - intros z rs [_ ->]%elem_of_groups. apply omap_rec_NoDup, NoDup_filter, range_names_NoDup.
  - intros r. split.
    + intros Hr. set (rs := omap rec_of (filter (fun c => root_in nodes c = Some (zone_label r)) (map fst (range nodes)))).
      assert (Hin : r ∈ rs).
      { apply list_elem_of_omap. exists (dns_name r). split; [|by apply rec_of_iff]. apply list_elem_of_filter. split; [apply root_in_iff; eauto|].
        apply range_names_NoDup. eexists. apply dump_nodes_lookup; eauto. }
      exists rs. split; [|done]. apply elem_of_groups. split; [|done]. intros E. rewrite E in Hin. set_solver.
    + intros (rs & [_ ->]%elem_of_groups & (n & _ & [Hr _]%rec_of_iff)%list_elem_of_omap). done.
Qed.

Context (zone : Z -> Z) (now : Z).

(** The entry of a node that has nothing below it. *)
Definition entry (name : string) (node : leaseDumpNode) : string := node_head zone now name "  " node +:+ node_data zone "  " node +:+ nl.

Definition key_entry (r : KEYRecord) : string := entry (dns_name r) (key_node st r).
Definition zone_entries (e : string * list KEYRecord) : string := "Zone: " +:+ e.1 +:+ nl +:+ String.concat "" (map key_entry e.2).
Definition orphan_entries (orphans : list string) : string :=
  match orphans with [] => "" | _ => "Orphan data leases:" +:+ nl +:+ String.concat "" (map (fun o => entry o (orphan_node st o)) orphans) end.

(** The whole dump of zones with their KEYs, and of owners without a KEY. *)
Definition tree_text (zones : list (string * list KEYRecord)) (orphans : list string) : string :=
  "=== Lease Store Dump ===" +:+ nl +:+
  match zones, orphans with [], [] => "(empty)" +:+ nl | _, _ => String.concat "" (map zone_entries zones) +:+ orphan_entries orphans end.

Lemma write_flat n node : nodes !! n = Some node -> writeNode zone now (size nodes) (ly_nodes (layout nodes)) n "  " = Some (entry n node).
Proof using W LL RL apart.
  intros E. destruct (layout_placed nodes (dump_nodes_no_children st)) as (Hn & _). destruct (size nodes) as [|f] eqn:Es.
  { apply map_size_empty_iff in Es. by rewrite Es, lookup_empty in E. }
  cbn [writeNode]. rewrite Hn, E. cbn [fmap option_fmap option_map dn_children set_children_names]. 
  assert (Ef : forall l, filter (fun c => dump_parent nodes c = Some n) l = []); [|by rewrite Ef].
  intros l. induction l as [|c l IH]; [done|]. by rewrite filter_cons_False by (by rewrite flat).
Qed.


Definition orphans : list string := merge_sort String.le (ly_orphanNonKeyOnly (layout nodes)).

Lemma orphans_listed : listing (orphan_owner st) orphans.
Proof using W LL RL apart.
  destruct (layout_placed nodes (dump_nodes_no_children st)) as (_ & _ & Ho). unfold orphans. rewrite Ho. split_and!.
  - apply (StronglySorted_merge_sort String.le).
  - rewrite merge_sort_Permutation. apply NoDup_filter, range_names_NoDup.
  - intros o. rewrite merge_sort_Permutation, list_elem_of_filter, orphan_iff by done. split; [by intros [? _]|]. intros H. split; [done|].
    apply range_names_NoDup. eexists. apply dump_nodes_lookup; eauto.
Qed.

Lemma nothing_listed : nodes = ∅ <-> groups = [] /\ orphans = [].
Proof using W LL RL apart.
  split.
  - intros E. assert (Hn : forall n, nodes !! n = None) by (intros n; by rewrite E, lookup_empty). split; apply elem_of_nil_inv.
    + intros [z rs] [Hne ->]%elem_of_groups. apply Hne. apply elem_of_nil_inv. intros r (n & _ & E')%list_elem_of_omap.
      unfold rec_of in E'. by rewrite Hn in E'.
    + intros o Ho%orphans_listed. assert (H : nodes !! o = Some (orphan_node st o)) by (apply dump_nodes_lookup; eauto). by rewrite Hn in H.
  - intros [Hg Ho]. apply map_empty. intros n. destruct (nodes !! n) as [node|] eqn:E; [|done]. apply dump_nodes_lookup in E as [(r & Hr & _)|[H _]]; [| |done..].
    + apply (gr_all _ groups_grouped) in Hr as (rs & Hin & _). rewrite Hg in Hin. set_solver.
    + apply orphans_listed in H. rewrite Ho in H. set_solver.
Qed.

Lemma map_omap {A B D} (f : A -> option B) (g : A -> D) (h : B -> D) l : (forall a, a ∈ l -> exists b, f a = Some b /\ g a = h b) -> map g l = map h (omap f l).
Proof.
  induction l as [|a l IH]; intros H; [done|]. destruct (H a ltac:(set_solver)) as (b & Hf & Hg). cbn. rewrite Hf. cbn. rewrite Hg, IH; [done|]. set_solver.
Qed.

(** The debug dump shows every lease.  When the names of the KEYs are apart, it has an entry for
    each KEY, once, below the zone its UPDATEs go to, the zones in order, and then one for each
    owner of records that has no KEY, in order; each entry has the records the node owns. *)
Theorem debug_dump_exact : exists zones orphans,
  grouped zones /\ listing (orphan_owner st) orphans /\ dumpLeaseTreeLevel zone now st = Some (tree_text zones orphans).
Proof using W LL RL apart.
  exists groups, orphans. split; [apply groups_grouped|]. split; [apply orphans_listed|]. unfold dumpLeaseTreeLevel, tree_text. cbn zeta.
  destruct (size nodes =? 0)%nat eqn:Es.
  { apply Nat.eqb_eq, map_size_empty_iff, nothing_listed in Es as [-> ->]. by rewrite !string_app_assoc. }
  apply Nat.eqb_neq in Es. rewrite map_size_empty_iff, nothing_listed in Es.
  rewrite (mapM_all _ (fun e => zone_entries (e.1, omap rec_of e.2))).
  - cbn [mbind option_bind]. assert (Ho : match ly_orphanNonKeyOnly (layout nodes) with [] => Some "" | names =>
      texts ← mapM (fun name => writeNode zone now (size nodes) (ly_nodes (layout nodes)) name "  ") (merge_sort String.le names);
      Some ("Orphan data leases:" +:+ nl +:+ String.concat "" texts) end = Some (orphan_entries orphans)).
    { pose proof (merge_sort_Permutation String.le (ly_orphanNonKeyOnly (layout nodes))) as HP. fold orphans in HP. destruct (ly_orphanNonKeyOnly (layout nodes)) as [|o os] eqn:E.
      - unfold orphan_entries. apply Permutation_nil_r in HP. by rewrite HP.
      - rewrite <- E. fold orphans. rewrite (mapM_all _ (fun o => entry o (orphan_node st o))).
        + cbn [mbind option_bind]. unfold orphan_entries. destruct orphans; [by apply Permutation_nil_l in HP|done].
        + intros x Hx. apply write_flat, dump_nodes_lookup; [done..|]. right. split; [|done]. by apply orphans_listed. }
    rewrite Ho. cbn [mbind option_bind]. unfold groups. rewrite map_map. rewrite !string_app_assoc. fold groups.
    destruct groups; [destruct orphans; [naive_solver|done]|done].
  - intros [z names] Hin. rewrite merge_sort_Permutation, elem_of_range in Hin. cbn [fst snd] in *.
    destruct (layout_placed nodes (dump_nodes_no_children st)) as (_ & Hz & _). rewrite Hz in Hin.
    assert (Hw : forall n, n ∈ names -> exists r, rec_of n = Some r /\ writeNode zone now (size nodes) (ly_nodes (layout nodes)) n "  " = Some (key_entry r)).
    { intros n Hn. assert (Hr : root_in nodes n = Some z).
      { destruct (filter _ _) eqn:Ef; [done|]. injection Hin as <-. rewrite <- Ef in Hn. by apply list_elem_of_filter in Hn as [? _]. }
      apply root_in_iff in Hr as (r & Hr & <- & _); [|done..]. exists r. split; [by apply rec_of_iff|]. apply write_flat, dump_nodes_lookup; eauto. }
    unfold zone_entries. cbn [fst snd]. rewrite (mapM_all _ (fun n => from_option key_entry "" (rec_of n))).
    + cbn [mbind option_bind]. do 5 f_equal. apply map_omap. intros n Hn. destruct (Hw n Hn) as (r & -> & _). by exists r.
    + intros n Hn. destruct (Hw n Hn) as (r & -> & ->). done.
Qed.
End entries.

(** ** Concrete dumps *)
Module DemoDump.
Definition order : MapRange := {| range A m := map_to_list m |}.
Lemma order_laws : MapRangeLaws order.
Proof. by split. Qed.

(** A second KEY at the name of the first. *)
Definition twin : KEY := mkKEY (key_Hdr ex_key) (mkKeyData (Flags (key_Data ex_key)) (Protocol (key_Data ex_key)) (Algorithm (key_Data ex_key)) "other").
Definition twins : Store :=
  match run_op (L := Demo.lib) (OpRegister 0 "" (Some twin) 3600 86400 "example.org.") ex_store with Ok st => st | Err _ => ex_store end.
End DemoDump.

Example rfc3339_texts :
  FormatRFC3339 (fun _ => 0) 0 = "1970-01-01T00:00:00Z" /\ FormatRFC3339 (fun _ => 7200) (1721995506 * second) = "2024-07-26T14:05:06+02:00" /\
  FormatRFC3339 (fun _ => - 12600) (951782400 * second) = "2000-02-28T20:30:00-03:30".
Proof. vm_compute. split_and!; reflexivity. Qed.

Example summary_of_two_keys :
  DumpLeasesLevel (L := Demo.lib) (R := DemoDump.order) (fun _ => 0) 5 "info" ex_store = Some ("=== Lease Store Summary ===" +:+ nl
    +:+ "Key: dev.example.org.+015+32298               KEY=active   NonKEY=0  Status=absent" +:+ nl
    +:+ "Key: host.example.org.+015+09459              KEY=active   NonKEY=2  Status=active" +:+ nl).
Proof. vm_compute. reflexivity. Qed.

(** The parent of a KEY is looked up by its node key among DNS names: a child is written beside its
    parent, not below it. *)
Example child_not_nested :
  (exists r, leases ex_store !! NodeKey (L := Demo.lib) ex_child = Some r /\ k_Parent r = ex_parent_key) /\
  map (fun e => dn_children e.2) (map_to_list (ly_nodes (layout (R := DemoDump.order) (dump_nodes (L := Demo.lib) (R := DemoDump.order) ex_store)))) = [[]; []].
Proof. split; [eexists; split; vm_compute; reflexivity|vm_compute; reflexivity]. Qed.

(** Two KEYs at one name have one entry in the tree. *)
Example two_keys_one_entry :
  size (leases DemoDump.twins) = 3%nat /\ size (dump_nodes (L := Demo.lib) (R := DemoDump.order) DemoDump.twins) = 2%nat.
Proof. split; vm_compute; reflexivity. Qed.
