(* ===== verification/DumpMode.v ===== *)
(** * The command line of the proxy, and its dump mode

    cmd/sig0lease/main.go: the arguments, the choice between serving and dumping, and dumpLeases,
    which sets each handler up with its lease store read once and prints it. *)

From Stdlib Require Import Ascii String ZArith Lia.
From S2P Require Import Prelude DnsName DnsData NodeIdent LeaseStore LeaseTree LeaseInv LeaseSpec LeaseOption LeasePolicy UpdateCore HandlerBase Expiry.
From S2P Require Import UpdateHandler SrpHandler GoQuote AtomicFile LeaseSnapshot Inflight SrpTiming Sig0Signer KeyFiles GoStd HandlerSetup Forward ProxyConfig ProxyMain LeaseDump.

Local Open Scope Z_scope.

(** ** Arguments *)

Record MainArgs := mkMainArgs { ma_cfgPath : string; ma_dumpMode : bool; ma_dumpLevel : string }.

Definition main_arg (a : MainArgs) (arg : string) : MainArgs :=
  if bool_decide (arg = "--dump") then mkMainArgs (ma_cfgPath a) true (ma_dumpLevel a)
  else if bool_decide (arg = "--dump-debug") then mkMainArgs (ma_cfgPath a) true "debug"
  else mkMainArgs arg (ma_dumpMode a) (ma_dumpLevel a).

Definition main_args (args : list string) : MainArgs := foldl main_arg (mkMainArgs "config.yaml" false "info") args.

Section dump_mode.
Context {L : DnsLib} {W : WireCodec} {T : Unicode} {J : SnapshotJson} {C : Crypto} {K : KeyLib} {R : MapRange}.
Context (env : Module_ -> SetupEnv) (getenv : string -> string) (cwd : option string) (stat : string -> Stat).
(** The time zone, and whether writing a text to the output fails. *)
Context (zone : Z -> Z) (write_fails : string -> bool).

(** ** dumpLeases *)

(** [DumpLeasesLevel] of a handler; the tree of the update handler always ends (debug_dump_total). *)
Definition module_dump (m : Module_) (level : string) (st : Store) : string :=
  let now := se_now (env m) in
  match m with ModUpdate => default "" (DumpLeasesLevel zone now level st) | ModSRP => srp_DumpLeasesLevel zone now level st end.

(** [Setup] of either handler, for its lease store. *)
Definition module_setup (m : Module_) (cfg : ConfigSection) (fs : FS) : list FS * result Store :=
  match m with
  | ModUpdate => let '(trace, r) := UpdateHandler_Setup (env m) cfg fs in (trace, '(_, _, lm) ← r; Ok (manager_store lm))
  | ModSRP => let '(trace, r) := SRPHandler_Setup (env m) cfg fs in (trace, '(_, _, lm) ← r; Ok (manager_store lm))
  end.

(** The loop over the modules: the disk after each change, what was printed, and whether anything was. *)
Fixpoint dump_modules (cfg : ProxyConfig) (level : string) (names : list string) (fs : FS) (out : string) (printed : bool) :
    list FS * (string * result bool) :=
  match names with
  | [] => ([fs], (out, Ok printed))
  | moduleName :: names =>
      match newHandler getenv moduleName cfg with
      | None => dump_modules cfg level names fs out printed
      | Some (m, handlerCfg) =>
          match LeaseStoreFromConfig (env m) handlerCfg true fs with
          | (trace, Err _) => (trace, (out, Err "failed to read the lease store"))
          | (trace, Ok store) =>
              let handlerCfg := <["lease_manager" := VManager (manager_store store)]> (delete "storage" handlerCfg) in
              match module_setup m handlerCfg (final fs trace) with
              | (trace', Err _) => (trace ++ trace', (out, Err "failed to setup"))
              | (trace', Ok st) =>
                  let text := module_dump m level st in
                  if write_fails text then (trace ++ trace', (out, Err "write"))
                  else let '(rest, r) := dump_modules cfg level names (final fs (trace ++ trace')) (out +:+ text) true in (trace ++ trace' ++ rest, r)
              end
          end
      end
  end.

Definition dumpLeases (cfg : ProxyConfig) (level : string) (fs : FS) : list FS * (string * result unit) :=
  let none := "(no dump-capable handlers configured)" +:+ nl in
  match dump_modules cfg level (enabledModules cfg) fs "" false with
  | (trace, (out, Err e)) => (trace, (out, Err e))
  | (trace, (out, Ok true)) => (trace, (out, Ok tt))
  | (trace, (out, Ok false)) => (trace, if write_fails none then (out, Err "write") else (out +:+ none, Ok tt))
  end.

(** ** main *)

Inductive Outcome := Serves (r : Running) | Dumped (text : string) | Exits (out : string).

(** [main] up to Serve, with the file system the configuration is read from. *)
Definition main (unmarshal : string -> ProxyConfig -> result ProxyConfig) (read : string -> result (option string)) (args : list string) (fs : FS) :
    list FS * Outcome :=
  let a := main_args args in
  if ma_dumpMode a then
    match LoadConfig unmarshal (read (ma_cfgPath a)) with
    | Err _ => ([fs], Exits "")
    | Ok cfg =>
        match main_checks cwd stat cfg with
        | Err _ => ([fs], Exits "")
        | Ok _ =>
            match dumpLeases cfg (ma_dumpLevel a) fs with
            | (trace, (out, Ok _)) => (trace, Dumped out)
            | (trace, (out, Err _)) => (trace, Exits out)
            end
        end
    end
  else
    match proxy_main env getenv cwd stat (LoadConfig unmarshal (read (ma_cfgPath a))) fs with
    | (trace, Ok run) => (trace, Serves run)
    | (trace, Err _) => (trace, Exits "")
    end.

(** ** Lemmas *)

Lemma LeaseStore_readOnly m cfg fs trace lm : LeaseStoreFromConfig (env m) cfg true fs = (trace, lm) ->
  trace = [fs] /\ forall st, lm = Ok st -> exists s, st = InMemory s /\
    forall trace' lm', LeaseStoreFromConfig (env m) cfg false fs = (trace', Ok lm') -> manager_store lm' = s.
Proof.
  unfold LeaseStoreFromConfig. destruct (selectLeaseStore cfg) as [[[given|] [storage|]]|]; try by intros [= <- <-].
  1,2,4: intros [= <- <-]; split; [done|]; intros ? [= <-]; eexists; split; [done|]; by intros ? ? [= _ <-].
  case_bool_decide.
  { intros [= <- <-]. split; [done|]. intros ? [= <-]. eexists. split; [done|]. by intros ? ? [= _ <-]. }
  destruct (ReadSnapshotFile _ _ _ _) as [[s b]|] eqn:E; intros [= <- <-]; (split; [done|]); [|done]. cbn. intros ? [= <-]. exists s. split; [done|].
  intros trace' lm'. destruct (NewFileLeaseStore _ _ _ _ _ _ _ fs) as [tr r] eqn:En. intros [= _ (fl & ->%wrap_err_ok & [= <-])%bind_ok].
  apply NewFileLeaseStore_ok in En as (_ & _ & b' & Hr). cbn. congruence.
Qed.

(** The section a handler is set up from in dump mode. *)
Definition given_store (s : Store) (cfg : ConfigSection) : ConfigSection := <["lease_manager" := VManager s]> (delete "storage" cfg).

Lemma given_frame s cfg k : k <> "lease_manager" -> k <> "storage" -> given_store s cfg !! k = cfg !! k.
Proof. intros ? ?. unfold given_store. by rewrite lookup_insert_ne, lookup_delete_ne. Qed.

Lemma given_read m s cfg fs : LeaseStoreFromConfig (env m) (given_store s cfg) false fs = ([fs], Ok (InMemory s)).
Proof.
  unfold LeaseStoreFromConfig, selectLeaseStore, given_store. by rewrite lookup_insert_eq, lookup_insert_ne, lookup_delete_eq by done.
Qed.

Lemma given_reads m s cfg zone' :
  setup_zone (env m) (given_store s cfg) = setup_zone (env m) cfg /\ setup_policy (given_store s cfg) = setup_policy cfg /\
  parseRecordTTL (given_store s cfg) = parseRecordTTL cfg /\ buildCoordinatorFromConfig (given_store s cfg) zone' = buildCoordinatorFromConfig cfg zone'.
Proof.
  unfold setup_zone, setup_policy, parseRecordTTL, buildCoordinatorFromConfig. by rewrite !given_frame by done.
Qed.

(** Setting up with the store given leaves the disk alone, and gives the handler the store it would
    have had if the store it loads is that one. *)
Lemma given_setup m s cfg fs trace r : module_setup m (given_store s cfg) fs = (trace, r) ->
  trace = [fs] /\ forall st, r = Ok st ->
    (forall tr lm, LeaseStoreFromConfig (env m) cfg false fs = (tr, Ok lm) -> manager_store lm = s) ->
    forall tr st', module_setup m cfg fs = (tr, Ok st') -> st' = st.
Proof.
  unfold module_setup. destruct m.
  - unfold UpdateHandler_Setup. destruct (given_reads ModUpdate s cfg "") as (-> & -> & -> & _).
    destruct (setup_zone (env ModUpdate) cfg) as [[zn key]|]; [|intros [= <- <-]; by split]. rewrite given_read, !given_frame by done.
    destruct (given_reads ModUpdate s cfg zn) as (_ & _ & _ & ->). intros [= <- <-]. split; [done|]. intros st Hst Hload tr st'.
    destruct (LeaseStoreFromConfig (env ModUpdate) cfg false fs) as [tr' [lm|]] eqn:E; [|cbn; congruence]. specialize (Hload _ _ eq_refl).
    destruct (setup_policy cfg); [|done]. destruct (parseRecordTTL cfg); [|done]. destruct (wrap_err _ _); [|done]. cbn in *. injection Hst as <-.
    intros [= _ <-]. subst s. destruct (cfg !! "persistence_hook") as [[]|]; try done. by destruct lm.
  - unfold SRPHandler_Setup. destruct (given_reads ModSRP s cfg "") as (-> & -> & -> & _).
    destruct (setup_zone (env ModSRP) cfg) as [[zn key]|]; cbn [mbind result_bind]; [|intros [= <- <-]; by split]. rewrite !given_frame by done.
    destruct (given_reads ModSRP s cfg zn) as (_ & _ & _ & ->). rewrite given_read.
    destruct (wrap_err _ _); cbn [mbind result_bind]; [|intros [= <- <-]; by split]. destruct (setup_policy cfg); cbn [mbind result_bind]; [|intros [= <- <-]; by split].
    destruct (parseRecordTTL cfg); cbn [mbind result_bind]; [|intros [= <- <-]; by split]. intros [= <- <-]. split; [done|]. intros st [= <-] Hload tr st'.
    destruct (LeaseStoreFromConfig (env ModSRP) cfg false fs) as [tr' [lm|]] eqn:E; [|cbn; congruence]. intros [= _ <-]. by eapply Hload.
Qed.

(** What the handlers would start with. *)
Definition would_load (cfg : ProxyConfig) (fs : FS) (e : Module_ * Store) : Prop :=
  forall sec name, newHandler getenv name cfg = Some (e.1, sec) -> forall tr st, module_setup e.1 sec fs = (tr, Ok st) -> st = e.2.

Definition dump_texts (level : string) (stores : list (Module_ * Store)) : string := String.concat "" (map (fun e => module_dump e.1 level e.2) stores).

Lemma newHandler_section name name' cfg m sec sec' :
  newHandler getenv name cfg = Some (m, sec) -> newHandler getenv name' cfg = Some (m, sec') -> sec = sec'.
Proof. unfold newHandler. repeat case_bool_decide; try done; congruence. Qed.

Lemma concat_cons x l : String.concat "" (x :: l) = x +:+ String.concat "" l.
Proof. destruct l; [|done]. cbn. by rewrite string_app_nil_r. Qed.

Lemma dump_modules_ok cfg level names fs out printed trace out' r :
  dump_modules cfg level names fs out printed = (trace, (out', r)) ->
  Forall (fun d => d = fs) trace /\
  forall p, r = Ok p -> exists stores, map fst stores = omap (fun n => fst <$> newHandler getenv n cfg) names /\
    out' = out +:+ dump_texts level stores /\ p = printed || negb (bool_decide (stores = [])) /\ Forall (would_load cfg fs) stores.
Proof.
  revert out printed trace out' r. induction names as [|name names IH]; intros out printed trace out' r; cbn [dump_modules].
  { intros [= <- <- <-]. split; [by constructor|]. intros p [= <-]. exists []. rewrite orb_false_r. unfold dump_texts. cbn. by rewrite string_app_nil_r. }
  destruct (newHandler getenv name cfg) as [[m sec]|] eqn:En; cbn [omap list_omap].
  2:{ rewrite En. cbn. apply IH. }
  rewrite En. cbn [fmap option_fmap option_map fst]. destruct (LeaseStoreFromConfig (env m) sec true fs) as [tr1 lm] eqn:El.
  destruct (LeaseStore_readOnly _ _ _ _ _ El) as [-> Hro]. destruct lm as [lm|]; [|intros [= <- <- <-]; split; [by constructor|done]].
  destruct (Hro lm eq_refl) as (s & -> & Hload). cbn [manager_store]. fold (given_store s sec). change (final fs [fs]) with fs.
  destruct (module_setup m (given_store s sec) fs) as [tr2 r2] eqn:Es. destruct (given_setup _ _ _ _ _ _ Es) as [-> Hst].
  destruct r2 as [st|]; [|intros [= <- <- <-]; split; [by repeat constructor|done]].
  destruct (write_fails _); [intros [= <- <- <-]; split; [by repeat constructor|done]|].
  change (final fs ([fs] ++ [fs])) with fs. destruct (dump_modules cfg level names fs _ true) as [rest [out2 r2]] eqn:Er. intros [= <- <- <-].
  destruct (IH _ _ _ _ _ Er) as [Htr Hok]. split; [by repeat constructor|]. intros p Hp. destruct (Hok p Hp) as (stores & Hm & -> & -> & Hw).
  exists ((m, st) :: stores). cbn [map fst]. split_and!; [by rewrite Hm| |by rewrite orb_true_r|].
  - unfold dump_texts. cbn [map fst snd]. by rewrite concat_cons, string_app_assoc.
  - constructor; [|done]. intros sec' name' En' tr' st' E'. cbn [fst snd] in *. rewrite <- (newHandler_section _ _ _ _ _ _ En En') in E'. by eapply Hst.
Qed.

Lemma main_args_dump args :
  ma_dumpMode (main_args args) = bool_decide ("--dump" ∈ args \/ "--dump-debug" ∈ args) /\
  ma_dumpLevel (main_args args) = if bool_decide ("--dump-debug" ∈ args) then "debug" else "info".
Proof.
  unfold main_args. induction args as [|a l [IH1 IH2]] using rev_ind; [done|]. rewrite foldl_app. cbn [foldl]. unfold main_arg at 1 3.
  case_bool_decide as E1; [|case_bool_decide as E2]; cbn [ma_dumpMode ma_dumpLevel]; rewrite ?IH1, ?IH2; split; repeat case_bool_decide; try done; exfalso; set_solver.
Qed.

(** [C23] Dumping only reads.  With --dump or --dump-debug the program never serves and never changes the
    disk, whatever it finds and however it ends; and when it prints a dump, that is one text for
    each enabled handler, in order: the summary, or with --dump-debug the tree, that the handler's
    DumpLeasesLevel makes of the lease store the handler would start with if the proxy were
    started on this disk. *)
Theorem dump_mode_reads_only (unmarshal : string -> ProxyConfig -> result ProxyConfig) (read : string -> result (option string))
    (args : list string) (fs : FS) (trace : list FS) (out : Outcome) :
  "--dump" ∈ args \/ "--dump-debug" ∈ args -> main unmarshal read args fs = (trace, out) ->
  Forall (fun d => d = fs) trace /\ (forall run, out <> Serves run) /\
  forall text, out = Dumped text -> exists cfg stores, LoadConfig unmarshal (read (ma_cfgPath (main_args args))) = Ok cfg /\
    map fst stores = omap (fun n => fst <$> newHandler getenv n cfg) (enabledModules cfg) /\ Forall (would_load cfg fs) stores /\
    text = match stores with [] => "(no dump-capable handlers configured)" +:+ nl
           | _ => dump_texts (if bool_decide ("--dump-debug" ∈ args) then "debug" else "info") stores end.
Proof.
  intros Hargs. pose proof (main_args_dump args) as [Hmode Hlevel]. rewrite bool_decide_true in Hmode by done. unfold main. rewrite Hmode.
  destruct (LoadConfig _ _) as [cfg|]; [|intros [= <- <-]; split; [by constructor|done]].
  destruct (main_checks cwd stat cfg); [|intros [= <- <-]; split; [by constructor|done]]. unfold dumpLeases. rewrite Hlevel.
  set (level := if bool_decide _ then _ else _). set (none := "(no dump-capable handlers configured)" +:+ nl).
  destruct (dump_modules cfg level (enabledModules cfg) fs "" false) as [tr [out0 r]] eqn:E. apply dump_modules_ok in E as [Htr Hok].
  destruct r as [p|]; [|intros [= <- <-]; by split]. destruct (Hok p eq_refl) as (stores & Hm & -> & -> & Hw). cbn [orb]. case_bool_decide as Hs; cbn [negb].
  - subst stores. destruct (write_fails none); intros [= <- <-]; (split; [done|]); (split; [done|]); [done|]. intros text [= <-]. by exists cfg, [].
  - intros [= <- <-]. split; [done|]. split; [done|]. intros text [= <-]. exists cfg, stores. split_and!; try done. by destruct stores.
Qed.
End dump_mode.

(** ** A concrete dump: the demo configuration, with the leases of the update handler on disk *)
Module DemoDumpMode.
Definition run : list FS * Outcome :=
  main (L := Demo.lib) (W := DemoCodec.wire) (T := demo_unicode) (J := DemoSetup.json) (C := DemoSig.crypto) (K := DemoKeys.lib) (R := DemoDump.order)
    (fun _ => DemoSetup.env) DemoMain.getenv (Some "/") (fun _ => StatNotExist) (fun _ => 0) (fun _ => false)
    (fun _ _ => Ok DemoMain.config) (fun _ => Ok (Some "...")) ["--dump"; "proxy.yaml"] DemoSetup.disk.
Definition text : string := match run.2 with Dumped text => text | _ => "" end.
End DemoDumpMode.

Lemma dump_mode_reads_only_witness :
  Forall (fun d => d = DemoSetup.disk) DemoDumpMode.run.1 /\
  DemoDumpMode.text = "=== SRP Lease Store Summary ===" +:+ nl +:+ "(empty)" +:+ nl +:+ "=== Lease Store Summary ===" +:+ nl
    +:+ "Key: dev.example.org.+015+32298               KEY=active   NonKEY=0  Status=absent" +:+ nl
    +:+ "Key: host.example.org.+015+09459              KEY=active   NonKEY=2  Status=active" +:+ nl.
Proof.
  split; [|vm_compute; reflexivity].
  destruct (dump_mode_reads_only (L := Demo.lib) (W := DemoCodec.wire) (T := demo_unicode) (J := DemoSetup.json) (C := DemoSig.crypto) (K := DemoKeys.lib) (R := DemoDump.order)
    (fun _ => DemoSetup.env) DemoMain.getenv (Some "/") (fun _ => StatNotExist) (fun _ => 0) (fun _ => false)
    (fun _ _ => Ok DemoMain.config) (fun _ => Ok (Some "...")) ["--dump"; "proxy.yaml"] DemoSetup.disk DemoDumpMode.run.1 DemoDumpMode.run.2
    ltac:(left; by left) (surjective_pairing _)) as [H _]. exact H.
Defined.
