(* ===== verification/ServerLife.v ===== *)
(** * The life of the server

    Serve of server/server.go and serveDoT of server/transport_tls.go, with the Shutdown of the
    router and of the handlers: one goroutine per listener in an errgroup, a signal that cancels
    their context, and the shutdown once all have returned.  The listeners, the messages and
    events of the handlers and the periodic saves interleave in any order.  Binding a socket, the
    library's server and the certificates are parameters: they may fail or not. *)

From Stdlib Require Import Ascii String ZArith Lia.
From S2P Require Import Prelude DnsName DnsData NodeIdent LeaseStore LeaseTree LeaseInv LeaseSpec LeaseOption LeasePolicy NodeLocks UpdateCore HandlerBase Expiry.
From S2P Require Import UpdateHandler UpdateFootprint UpdateTheorems DnsSd SrpClassify SrpValidate SrpHandler SrpEffects SrpTheorems Router.
From S2P Require Import GoQuote AtomicFile LeaseSnapshot SrpTiming Sig0Signer KeyFiles GoStd HandlerSetup ProxyConfig ProxyRun.

Local Open Scope Z_scope.

(** ** Listeners *)

(** What a listener of a network is: the library's network and address, and whether it speaks TLS. *)
Definition serveNetwork_args (cfg : ServerConfig) (load : TLSConfig -> bool) (network : string) : result (string * string * bool) :=
  if bool_decide (network = "udp") then Ok ("udp", svc_Address cfg, false)
  else if bool_decide (network = "tcp") then Ok ("tcp", svc_Address cfg, false)
  else if bool_decide (network = "tls") then
    match svc_TLS cfg with
    | None => Err "tls network enabled but server.tls is not configured"
    | Some tls => if load tls then Ok ("tcp", tc_Address tls, true) else Err "load server.tls certificate/key"
    end
  else Err "unsupported network".

(** A goroutine of the group: not listening yet, listening, or returned. *)
Inductive LState := Launched (network : string) | Listening | Returned (r : result unit).

(** ** Shutdown of the handlers *)

Definition with_store (st : Store) (m : Manager) : Manager :=
  match m with
  | InMemory _ => InMemory st
  | OnFile fl => OnFile (mkFileStore st (fl_path fl) (fl_saveInterval fl) (fl_stopped fl) (fl_errors fl))
  end.

Section shutdown.
Context {L : DnsLib} {W : WireCodec} {T : Unicode} {J : SnapshotJson}.

Definition UpdateHandler_Shutdown (F : Faults) (rand : string) (now : Z) (m : Manager) (fs : FS) : list FS * Manager :=
  match m with
  | InMemory st => ([fs], InMemory st)
  | OnFile fl => let '(trace, fl) := Stop F rand now fl fs in (trace, OnFile fl)
  end.

(** [BaseHandler.Shutdown], which the SRP handler does not override. *)
Definition BaseHandler_Shutdown (m : Manager) (fs : FS) : list FS * Manager := ([fs], m).

(** A tick of the goroutine that saves a file store. *)
Definition periodic (F : Faults) (rand : string) (now : Z) (m : Manager) (fs : FS) : list FS * Manager :=
  match m with
  | InMemory st => ([fs], InMemory st)
  | OnFile fl => let '(trace, fl) := periodic_save F rand now fl fs in (trace, OnFile fl)
  end.
End shutdown.

(** ** The state *)

Record Life := mkLife {
  lf_listeners : list LState;
  lf_cancelled : bool;
  lf_err : option string;                (* the first error of the group *)
  lf_proxy : Proxy;
  lf_update : Manager;                   (* its store is the one of [lf_proxy] *)
  lf_srp : Manager;
  lf_disk : FS;
  lf_result : option (result unit) }.    (* what Serve returned *)

Definition set_listeners (ls : list LState) (l : Life) : Life :=
  mkLife ls (lf_cancelled l) (lf_err l) (lf_proxy l) (lf_update l) (lf_srp l) (lf_disk l) (lf_result l).
Definition set_proxy (p : Proxy) (l : Life) : Life :=
  mkLife (lf_listeners l) (lf_cancelled l) (lf_err l) p (lf_update l) (lf_srp l) (lf_disk l) (lf_result l).
Definition cancel (l : Life) : Life :=
  mkLife (lf_listeners l) true (lf_err l) (lf_proxy l) (lf_update l) (lf_srp l) (lf_disk l) (lf_result l).

Definition Serve_start (networks : list string) (p : Proxy) (mu ms : Manager) (fs : FS) : Life :=
  mkLife (map Launched networks) false None p mu ms fs None.

(** A goroutine returns to the group: its first error is kept and cancels the others. *)
Definition group_return (i : nat) (r : result unit) (l : Life) : Life :=
  let l := set_listeners (<[i := Returned r]> (lf_listeners l)) l in
  match r with
  | Ok _ => l
  | Err e => mkLife (lf_listeners l) true (Some (default e (lf_err l))) (lf_proxy l) (lf_update l) (lf_srp l) (lf_disk l) (lf_result l)
  end.

Section life.
Context {L : DnsLib} {SG : Sig0} {U : UpstreamCoordinator} {S : ServerLib} {W : WireCodec} {T : Unicode} {J : SnapshotJson}.
Context (uh : UpdateHandler) (sh : SRPHandler) (dump : string -> Store -> string) (resolver : option (Msg -> result Msg)) (timeout : Z).
Context (cfg : ServerConfig) (load : TLSConfig -> bool) (windows : bool).

(** [Server.shutdown], after the group has returned: [Router.Shutdown] calls every handler once, in
    either order. *)
Definition server_shutdown (F : Faults) (rand : string) (now : Z) (update_first : bool) (l : Life) : Life :=
  let mu := with_store (w_store (p_update (lf_proxy l))) (lf_update l) in
  let ms := with_store (w_store (sw (p_srp (lf_proxy l)))) (lf_srp l) in
  let '(fs, mu, ms) :=
    if update_first then
      let '(t1, mu) := UpdateHandler_Shutdown F rand now mu (lf_disk l) in
      let '(t2, ms) := BaseHandler_Shutdown ms (final (lf_disk l) t1) in (final (final (lf_disk l) t1) t2, mu, ms)
    else
      let '(t1, ms) := BaseHandler_Shutdown ms (lf_disk l) in
      let '(t2, mu) := UpdateHandler_Shutdown F rand now mu (final (lf_disk l) t1) in (final (final (lf_disk l) t1) t2, mu, ms) in
  mkLife (lf_listeners l) (lf_cancelled l) (lf_err l) (lf_proxy l) mu ms fs (Some match lf_err l with None => Ok tt | Some e => Err e end).

(** What happens outside the group: a message on a listener, an event of a handler, a save. *)
Inductive work : Life -> Life -> Prop :=
| work_message l i e b p' reply :
    lf_listeners l !! i = Some Listening -> proxy_step uh sh dump resolver timeout (Arrives e b) (lf_proxy l) = Some (p', reply) ->
    work l (set_proxy p' l)
| work_event l ev p' reply :
    (forall e b, ev <> Arrives e b) -> possible (lf_proxy l) ev -> proxy_step uh sh dump resolver timeout ev (lf_proxy l) = Some (p', reply) ->
    work l (set_proxy p' l)
| work_save_update l F rand now trace mu :
    periodic F rand now (with_store (w_store (p_update (lf_proxy l))) (lf_update l)) (lf_disk l) = (trace, mu) ->
    work l (mkLife (lf_listeners l) (lf_cancelled l) (lf_err l) (lf_proxy l) mu (lf_srp l) (final (lf_disk l) trace) (lf_result l))
| work_save_srp l F rand now trace ms :
    periodic F rand now (with_store (w_store (sw (p_srp (lf_proxy l)))) (lf_srp l)) (lf_disk l) = (trace, ms) ->
    work l (mkLife (lf_listeners l) (lf_cancelled l) (lf_err l) (lf_proxy l) (lf_update l) ms (final (lf_disk l) trace) (lf_result l))
| work_signal l : work l (cancel l).

(** What the goroutines of Serve do: refuse the network, fail to bind, listen, or, once their
    context is cancelled, drain and return; and then Serve shuts down. *)
Inductive serve_step : Life -> Life -> Prop :=
| serve_refused l i network e :
    lf_listeners l !! i = Some (Launched network) -> serveNetwork_args cfg load network = Err e -> serve_step l (group_return i (Err e) l)
| serve_unbound l i network args e :
    lf_listeners l !! i = Some (Launched network) -> serveNetwork_args cfg load network = Ok args -> serve_step l (group_return i (Err e) l)
| serve_bound l i network args :
    lf_listeners l !! i = Some (Launched network) -> serveNetwork_args cfg load network = Ok args ->
    serve_step l (set_listeners (<[i := Listening]> (lf_listeners l)) l)
| serve_drained l i r :
    lf_listeners l !! i = Some Listening -> lf_cancelled l = true -> serve_step l (group_return i r l)
| serve_shutdown l F rand now update_first :
    Forall (fun s => exists r, s = Returned r) (lf_listeners l) -> on_windows F = windows -> serve_step l (server_shutdown F rand now update_first l).

(** Nothing happens any more once Serve has returned: main ends. *)
Inductive life_run (l0 : Life) : Life -> Prop :=
| life_starts : life_run l0 l0
| life_works l l' : life_run l0 l -> lf_result l = None -> work l l' -> life_run l0 l'
| life_serves l l' : life_run l0 l -> lf_result l = None -> serve_step l l' -> life_run l0 l'.
End life.

(** ** How far Serve is from its end *)

Definition listener_steps (s : LState) : nat := match s with Launched _ => 2 | Listening => 1 | Returned _ => 0 end.
Definition steps_left (l : Life) : nat :=
  sum_list (map listener_steps (lf_listeners l)) + match lf_result l with None => 1 | Some _ => 0 end.

Lemma sum_insert ls i s s' : ls !! i = Some s ->
  (sum_list (map listener_steps (<[i := s']> ls)) + listener_steps s = sum_list (map listener_steps ls) + listener_steps s')%nat.
Proof.
  revert i. induction ls as [|x ls IH]; intros [|i] H; try done; [injection H as ->; cbn; lia|]. specialize (IH i H).
  change (<[Datatypes.S i := s']> (x :: ls)) with (x :: <[i := s']> ls). cbn [map sum_list sum_list_with]. unfold id in *. lia.
Qed.

Lemma launched_steps networks : sum_list (map listener_steps (map Launched networks)) = (2 * length networks)%nat.
Proof. induction networks as [|n ns IH]; [done|]. cbn [map sum_list_with length listener_steps]. rewrite IH. unfold id. lia. Qed.

Lemma group_return_listeners i r l : lf_listeners (group_return i r l) = <[i := Returned r]> (lf_listeners l) /\ lf_result (group_return i r l) = lf_result l.
Proof. unfold group_return. by destruct r. Qed.

(** The shutdown writes what the update handler's does, whatever the order. *)
Lemma server_shutdown_spec {L : DnsLib} {W : WireCodec} {T : Unicode} {J : SnapshotJson} F rand now uf l :
  let l' := server_shutdown F rand now uf l in
  lf_listeners l' = lf_listeners l /\ lf_cancelled l' = lf_cancelled l /\ lf_err l' = lf_err l /\ lf_proxy l' = lf_proxy l /\
  lf_result l' = Some (match lf_err l with None => Ok tt | Some e => Err e end) /\
  lf_srp l' = with_store (w_store (sw (p_srp (lf_proxy l)))) (lf_srp l) /\
  exists trace, UpdateHandler_Shutdown F rand now (with_store (w_store (p_update (lf_proxy l))) (lf_update l)) (lf_disk l) = (trace, lf_update l') /\
    lf_disk l' = final (lf_disk l) trace.
Proof.
  cbn zeta. unfold server_shutdown, BaseHandler_Shutdown. cbn zeta. change (final (lf_disk l) [lf_disk l]) with (lf_disk l).
  destruct (UpdateHandler_Shutdown F rand now _ (lf_disk l)) as [trace mu]. destruct uf; cbn; eauto 10.
Qed.

Section ends.
Context {L : DnsLib} {LL : DnsLibLaws L} {SG : Sig0} {U : UpstreamCoordinator} {S : ServerLib} {SL : ServerLibLaws S}.
Context {W : WireCodec} {T : Unicode} {J : SnapshotJson} {WL : WireCodecLaws W} {TL : UnicodeLaws T} {JL : SnapshotJsonLaws J}.
Context (uh : UpdateHandler) (sh : SRPHandler) (dump : string -> Store -> string) (resolver : option (Msg -> result Msg)) (timeout : Z).
Context (cfg : ServerConfig) (load : TLSConfig -> bool) (windows : bool).

Abbreviation works := (work uh sh dump resolver timeout).
Abbreviation serves_on := (serve_step cfg load windows).
Abbreviation runs_to := (life_run uh sh dump resolver timeout cfg load windows).

Lemma serve_step_closer l l' : lf_result l = None -> serves_on l l' -> (steps_left l' < steps_left l)%nat.
Proof.
  intros Hr. unfold steps_left. intros H. destruct H as [l i n e Hi _|l i n a e Hi _|l i n a Hi _|l i r Hi _|l F rand now uf _ _].
  - destruct (group_return_listeners i (Err e) l) as [-> ->]. pose proof (sum_insert _ _ _ (Returned (Err e)) Hi). cbn in *. lia.
  - destruct (group_return_listeners i (Err e) l) as [-> ->]. pose proof (sum_insert _ _ _ (Returned (Err e)) Hi). cbn in *. lia.
  - cbn. pose proof (sum_insert _ _ _ Listening Hi). cbn in *. lia.
  - destruct (group_return_listeners i r l) as [-> ->]. pose proof (sum_insert _ _ _ (Returned r) Hi). cbn in *. lia.
  - destruct (server_shutdown_spec F rand now uf l) as (-> & _ & _ & _ & -> & _). rewrite Hr. lia.
Qed.

Lemma work_keeps l l' : works l l' -> steps_left l' = steps_left l /\ lf_listeners l' = lf_listeners l /\ lf_err l' = lf_err l /\ lf_result l' = lf_result l /\
  (lf_cancelled l = true -> lf_cancelled l' = true).
Proof. by destruct 1. Qed.

(** Once cancelled, the goroutines can go on until Serve has returned. *)
Lemma serve_progress l : lf_cancelled l = true -> lf_result l = None -> exists l', serves_on l l'.
Proof.
  intros Hc Hr. destruct (decide (Forall (fun s => listener_steps s = 0%nat) (lf_listeners l))) as [Hall|Hsome].
  - eexists. apply (serve_shutdown cfg load windows l (no_faults_on windows) "" 0 true); [|done]. eapply Forall_impl; [exact Hall|]. intros [n| |r] E; try done. by eexists.
  - apply not_Forall_Exists, Exists_exists in Hsome as (s & (i & Hi)%list_elem_of_lookup & Hs); [|apply _].
    destruct s as [n| |r]; [|exists (group_return i (Ok tt) l); by apply serve_drained|by destruct Hs].
    destruct (serveNetwork_args cfg load n) as [a|e] eqn:E; eexists; [by eapply serve_bound|by eapply serve_refused].
Qed.

(** ** What holds along the way *)

Definition returned (s : LState) : Prop := exists r, s = Returned r.

(** The stopped store is on the disk: unless its final save reported an error, a file store opened
    there, even after a crash, or on Windows without a power loss, holds the same leases, if
    they were recoverable. *)
Definition saved_on_disk (l : Life) (fl : FileLeaseStore) : Prop :=
  fl_stopped fl = true /\ fl_store fl = w_store (p_update (lf_proxy l)) /\
  ("final snapshot save failed" ∈ fl_errors fl \/
   (recoverable (fl_store fl) -> forall fs' F rand now interval, found_again windows (lf_disk l) fs' -> 0 < interval ->
    match NewFileLeaseStore false false F rand (fl_path fl) interval now fs' with
    | (_, Ok fl') => same_store (fl_store fl) (fl_store fl') /\ WF (fl_store fl')
    | (_, Err e) => e = "file lease store: cannot write snapshot"
    end)).

(** A file store that can be stopped. *)
Definition open_store (m : Manager) : Prop := forall fl, m = OnFile fl -> fl_stopped fl = false /\ fl_path fl <> "".

Record life_inv (l : Life) : Prop := {
  li_err : match lf_err l with
           | None => forall e, Returned (Err e) ∉ lf_listeners l
           | Some _ => lf_cancelled l = true /\ exists e, Returned (Err e) ∈ lf_listeners l
           end;
  li_wf : both_WF (lf_proxy l);
  li_disk : fs_wf (lf_disk l);
  li_open : lf_result l = None -> open_store (lf_update l);
  li_done : forall r, lf_result l = Some r -> Forall returned (lf_listeners l) /\ r = (match lf_err l with None => Ok tt | Some e => Err e end) /\
    forall fl, lf_update l = OnFile fl -> saved_on_disk l fl }.

Lemma save_reporting_spec F rand msg now fl fs trace fl' : fs_wf fs -> save_reporting F rand msg now fl fs = (trace, fl') ->
  fs_wf (final fs trace) /\ fl_stopped fl' = fl_stopped fl /\ fl_path fl' = fl_path fl.
Proof.
  intros Hw. unfold save_reporting. destruct (SaveSnapshot F rand (fl_path fl) now (fl_store fl) fs) as [tr res] eqn:E.
  assert (HF : Forall fs_wf tr).
  { apply save_states in E as [[-> _]|(s & body & _ & _ & E)]; [by constructor|by eapply writeFileAtomic_wf]. }
  destruct res; intros [= <- <-]; (split; [by apply final_wf|done]).
Qed.

Lemma periodic_spec F rand now st m fs trace m' : fs_wf fs -> open_store m -> periodic F rand now (with_store st m) fs = (trace, m') ->
  fs_wf (final fs trace) /\ open_store m'.
Proof.
  intros Hw Ho. destruct m as [s|fl]; cbn; [intros [= <- <-]; by split|]. destruct (Ho fl eq_refl) as [Hs Hp].
  unfold periodic_save. cbn [fl_stopped]. rewrite Hs. destruct (save_reporting _ _ _ _ _ fs) as [tr fl'] eqn:E. intros [= <- <-].
  apply save_reporting_spec in E as (H1 & H2 & H3); [|done]. split; [done|]. intros ? [= <-]. rewrite H2, H3. done.
Qed.

Lemma periodic_disk F rand now m fs trace m' : fs_wf fs -> periodic F rand now m fs = (trace, m') -> fs_wf (final fs trace).
Proof.
  intros Hw. destruct m as [s|fl]; cbn; [by intros [= <- <-]|]. unfold periodic_save. destruct (fl_stopped fl); [by intros [= <- <-]|].
  destruct (save_reporting _ _ _ _ fl fs) as [tr fl'] eqn:E. intros [= <- <-]. by apply save_reporting_spec in E as (H1 & _).
Qed.

Lemma work_inv l l' : configured uh sh -> life_inv l -> lf_result l = None -> works l l' -> life_inv l'.
Proof using LL SL.
  intros Hc [He Hw Hd Ho Hn] Hr Hstep. pose proof (work_keeps l l' Hstep) as (_ & El & Ee & Er & Ec).
  assert (Hkeep : forall l', lf_result l' = lf_result l -> lf_listeners l' = lf_listeners l -> lf_err l' = lf_err l -> (lf_cancelled l = true -> lf_cancelled l' = true) ->
    both_WF (lf_proxy l') -> fs_wf (lf_disk l') -> (lf_result l' = None -> open_store (lf_update l')) -> life_inv l').
  { intros l1 E1 E2 E3 E4 H1 H2 H3. split; try done; [rewrite E2, E3; destruct (lf_err l); naive_solver|]. intros r Hx. congruence. }
  destruct Hstep as [l i e b p' reply Hi Hp|l ev p' reply Hev Hpos Hp|l F rand now trace mu Hs|l F rand now trace ms Hs|l]; apply Hkeep; try done; cbn.
  - destruct (step_sound uh sh dump resolver timeout (lf_proxy l) (Arrives e b) Hc Hw I) as (p1 & r1 & E & HW & _). rewrite Hp in E. injection E as <- <-. done.
  - destruct (step_sound uh sh dump resolver timeout (lf_proxy l) ev Hc Hw Hpos) as (p1 & r1 & E & HW & _). rewrite Hp in E. injection E as <- <-. done.
  - by apply periodic_spec in Hs as [? _]; [|done|apply Ho].
  - by apply periodic_spec in Hs as [_ ?]; [|done|apply Ho].
  - by eapply periodic_disk.
Qed.

Lemma return_inv i r l : life_inv l -> lf_result l = None -> (i < length (lf_listeners l))%nat -> (forall r', lf_listeners l !! i <> Some (Returned r')) -> life_inv (group_return i r l).
Proof.
  intros [He Hw Hd Ho Hn] Hr Hi Hlive. assert (Hold : forall e, Returned (Err e) ∈ lf_listeners l -> Returned (Err e) ∈ <[i := Returned r]> (lf_listeners l)).
  { intros e (j & Hj)%list_elem_of_lookup. apply list_elem_of_lookup. exists j. destruct (decide (i = j)) as [->|Hne]; [by destruct (Hlive (Err e))|].
    by rewrite list_lookup_insert_ne. }
  split; unfold group_return; destruct r as [[]|e]; cbn; try done; try (intros; congruence).
  - destruct (lf_err l) as [e|]; [destruct He as (? & e' & ?); eauto|]. intros e (j & Hj)%list_elem_of_lookup.
    apply list_lookup_insert_Some in Hj as [(_ & ? & _)|[_ Hj]]; [done|]. apply (He e), list_elem_of_lookup. eauto.
  - split; [done|]. exists e. apply list_elem_of_lookup. exists i. by apply list_lookup_insert_eq.
Qed.

Lemma shutdown_inv F rand now uf l : on_windows F = windows -> life_inv l -> lf_result l = None -> Forall returned (lf_listeners l) -> life_inv (server_shutdown F rand now uf l).
Proof using WL TL JL LL.
  intros HF [He Hw Hd Ho Hn] Hr Hall. destruct (server_shutdown_spec F rand now uf l) as (El & Ec & Ee & Ep & Er & _ & trace & Hs & Ed).
  set (l' := server_shutdown F rand now uf l) in *.
  assert (Hdisk : fs_wf (lf_disk l') /\ forall fl, lf_update l' = OnFile fl -> saved_on_disk l' fl).
  { specialize (Ho Hr). unfold saved_on_disk. rewrite Ed, Ep. destruct (lf_update l) as [st|fl]; cbn in Hs.
    { injection Hs as <- <-. split; [done|]. done. }
    destruct (Ho fl eq_refl) as [Hst Hpath]. set (fl0 := mkFileStore _ _ _ _ _) in Hs. destruct (Stop F rand now fl0 (lf_disk l)) as [tr fl1] eqn:E. injection Hs as <- <-.
    split.
    - unfold Stop in E. cbn [fl_stopped fl0] in E. rewrite Hst in E. destruct (save_reporting _ _ _ _ fl0 _) as [tr' fl2] eqn:E2. injection E as <- _.
      by apply save_reporting_spec in E2 as (? & _).
    - intros fl' [= <-]. assert (Hstop : fl_stopped fl1 = true /\ fl_store fl1 = fl_store fl0 /\ fl_path fl1 = fl_path fl0).
      { unfold Stop in E. cbn [fl_stopped fl0] in E. rewrite Hst in E. unfold save_reporting in E. destruct (SaveSnapshot _ _ _ _ _ _) as [tr' [?|?]]; injection E as <- <-; done. }
      destruct Hstop as (H1 & H2 & H3). split; [done|]. split; [by rewrite H2|]. destruct (decide ("final snapshot save failed" ∈ fl_errors fl1)) as [|Hno]; [by left|right].
      intros R fs' F2 rand2 now2 interval Hcr Hi. rewrite H2 in *. rewrite H3. rewrite <- HF in Hcr.
      destruct (stopped_store_reopens F rand now fl0 fl1 (lf_disk l) tr Hd R Hst Hpath E) as (_ & _ & [Hx|[_ Hx]]); [exfalso; apply Hno; rewrite Hx; apply elem_of_app; right; by left|].
      specialize (Hx fs' F2 rand2 now2 interval Hcr Hi). destruct (NewFileLeaseStore _ _ _ _ _ _ _ _) as [? [?|?]]; [by destruct Hx as (? & ? & _)|done]. }
  destruct Hdisk as [Hdisk Hsaved]. split; [rewrite Ee, Ec, El; done|by rewrite Ep|done|by rewrite Er|].
  intros r Hx. rewrite Er in Hx. injection Hx as <-. rewrite El, Ee. done.
Qed.

Lemma serve_inv l l' : life_inv l -> lf_result l = None -> serves_on l l' -> life_inv l'.
Proof using WL TL JL LL.
  intros I Hr Hstep. destruct Hstep as [l i n e Hi _|l i n a e Hi _|l i n a Hi _|l i r Hi _|l F rand now uf Hall HF].
  - apply return_inv; [done..|by eapply lookup_lt_Some|congruence].
  - apply return_inv; [done..|by eapply lookup_lt_Some|congruence].
  - destruct I as [He Hw Hd Ho Hn]. split; cbn; try done; [|intros; congruence]. assert (Hx : forall e, Returned (Err e) ∈ <[i := Listening]> (lf_listeners l) <-> Returned (Err e) ∈ lf_listeners l).
    { intros e. rewrite !list_elem_of_lookup. split; intros [j Hj]; exists j.
      - apply list_lookup_insert_Some in Hj as [(_ & ? & _)|[_ Hj]]; done.
      - rewrite list_lookup_insert_ne; [done|]. intros ->. congruence. }
    destruct (lf_err l); [destruct He as (? & e & ?); split; [done|]; exists e; by apply Hx|]. intros e. rewrite Hx. apply He.
  - apply return_inv; [done..|by eapply lookup_lt_Some|congruence].
  - by apply shutdown_inv.
Qed.

Lemma life_invariant l0 l : configured uh sh -> life_inv l0 -> runs_to l0 l -> life_inv l.
Proof using WL TL JL LL SL. intros Hc I0 H. induction H as [|l l' _ IH Hr Hw|l l' _ IH Hr Hs]; [done|by eapply work_inv|by eapply serve_inv]. Qed.

(** [C18] Serve stops, and what the update handler held is kept.  From a proxy whose listeners have been
    launched, and in every interleaving of its listeners, messages, events, saves and signals:
    every step of Serve's goroutines brings it nearer to its end and nothing else takes it away
    from it; once a signal came or a listener failed there is a next such step until Serve has
    returned, so it returns after at most two steps for each listener and one more; it has then
    returned nil exactly if every listener did; every listener had returned before the handlers
    were shut down; and the update handler's lease store, if it is on a file, was then stopped,
    and unless its final save reported a failure it is on the disk as it was after the last
    message and event: if its leases are recoverable, a file store opened there holds them, after
    any crash, or on Windows without a power loss. *)
Theorem serve_stops (networks : list string) (p0 : Proxy) (mu ms : Manager) (fs0 : FS) (l : Life) :
  configured uh sh -> both_WF p0 -> fs_wf fs0 -> open_store mu -> runs_to (Serve_start networks p0 mu ms fs0) l ->
  (steps_left (Serve_start networks p0 mu ms fs0) = 2 * length networks + 1)%nat /\
  (forall l', works l l' -> steps_left l' = steps_left l /\ (lf_cancelled l = true -> lf_cancelled l' = true)) /\
  (lf_result l = None -> forall l', serves_on l l' -> (steps_left l' < steps_left l)%nat) /\
  (lf_result l = None -> lf_cancelled l = true -> exists l', serves_on l l') /\
  forall r, lf_result l = Some r ->
    Forall returned (lf_listeners l) /\ (r = Ok tt <-> Forall (fun s => s = Returned (Ok tt)) (lf_listeners l)) /\
    forall fl, lf_update l = OnFile fl -> saved_on_disk l fl.
Proof using WL TL JL LL SL.
  intros Hc W0 Hfs Ho HR. split_and!.
  - unfold steps_left, Serve_start. cbn [lf_listeners lf_result]. by rewrite launched_steps.
  - intros l' Hw. destruct (work_keeps l l' Hw) as (? & _ & _ & _ & ?). done.
  - intros Hr l'. by apply serve_step_closer.
  - intros Hr Hcan. by apply serve_progress.
  - intros r Hr. assert (I : life_inv l).
    { apply (life_invariant (Serve_start networks p0 mu ms fs0)); [done| |done]. split; cbn; try done.
      intros e (n & Hn & _)%list_elem_of_fmap. done. }
    destruct (li_done _ I r Hr) as (Hall & -> & Hs). split; [done|]. split; [|done]. pose proof (li_err _ I) as He. destruct (lf_err l) as [e|].
    + destruct He as (_ & e' & Hin). split; [done|]. intros HF. rewrite Forall_forall in HF. by specialize (HF _ Hin).
    + split; [|done]. intros _. rewrite Forall_forall in Hall |- *. intros s Hs'. destruct (Hall s Hs') as [[[]|e] ->]; [done|]. by destruct (He e).
Qed.
End ends.

(** ** A concrete life: one listener, a signal, and leases on a file *)
Module DemoLife.
Definition world : World := mkWorld ex_store newExpiryTimers [].
Definition proxy : Proxy := mkProxy world (p_srp ex_proxy).
Definition cfg : ServerConfig := mkServerConfig "127.0.0.1:53" ["udp"] None 1.
Definition start : Life := Serve_start ["udp"] proxy (OnFile ex_fl) (InMemory NewInMemoryManager) ex_fs.
Definition listening : Life := set_listeners [Listening] start.
Definition drained : Life := group_return 0 (Ok tt) (cancel listening).
Definition stopped : Life :=
  server_shutdown (L := Demo.lib) (W := DemoCodec.wire) (T := demo_unicode) (J := DemoCodec.json) no_faults "42" second true drained.

Lemma run : life_run (L := Demo.lib) (SG := DemoUp.sig0) (U := SrpRun.upstream) (S := DemoRun.lib) (W := DemoCodec.wire) (T := demo_unicode) (J := DemoCodec.json)
  ex_update_handler SrpRun.handler (fun _ _ => "") None 20 cfg (fun _ => true) false start stopped.
Proof.
  apply life_serves with (l := drained); [|reflexivity|apply serve_shutdown; [constructor; [by eexists|constructor]|reflexivity]].
  apply life_serves with (l := cancel listening); [|reflexivity|by apply serve_drained].
  apply life_works with (l := listening); [|reflexivity|apply work_signal].
  apply life_serves with (l := start); [apply life_starts|reflexivity|by eapply serve_bound with (i := 0%nat)].
Qed.
End DemoLife.

Lemma serve_stops_witness :
  lf_result DemoLife.stopped = Some (Ok tt) /\
  exists fl, lf_update DemoLife.stopped = OnFile fl /\ fl_store fl = ex_store /\ saved_on_disk (L := Demo.lib) (W := DemoCodec.wire) (T := demo_unicode) (J := DemoCodec.json) false DemoLife.stopped fl.
Proof.
  assert (Hc : configured ex_update_handler SrpRun.handler) by (split; [reflexivity|vm_compute; intuition discriminate|by eexists|reflexivity]).
  destruct (serve_stops (L := Demo.lib) (LL := Demo.laws) (SG := DemoUp.sig0) (U := SrpRun.upstream) (S := DemoRun.lib) (SL := DemoRun.server_lib_laws)
    (W := DemoCodec.wire) (T := demo_unicode) (J := DemoCodec.json) (WL := DemoCodec.wire_laws) (TL := demo_unicode_laws) (JL := DemoCodec.json_laws)
    ex_update_handler SrpRun.handler (fun _ _ => "") None 20 DemoLife.cfg (fun _ => true) false ["udp"] DemoLife.proxy (OnFile ex_fl) (InMemory NewInMemoryManager) ex_fs
    DemoLife.stopped Hc ltac:(split; [exact ex_store_WF|apply WF_new]) ex_fs_wf ltac:(intros fl [= <-]; split; [reflexivity|discriminate]) DemoLife.run)
    as (_ & _ & _ & _ & H).
  destruct (server_shutdown_spec (L := Demo.lib) (W := DemoCodec.wire) (T := demo_unicode) (J := DemoCodec.json) no_faults "42" second true DemoLife.drained)
    as (_ & _ & _ & Ep & Er & _ & trace & Hu & _). fold DemoLife.stopped in Ep, Er, Hu. split; [exact Er|]. destruct (H (Ok tt) Er) as (_ & _ & Hs).
  destruct (lf_update DemoLife.stopped) as [st|fl]; [exfalso; cbn in Hu; by repeat case_match|].
  exists fl. split; [done|]. specialize (Hs fl eq_refl). split; [|exact Hs]. destruct Hs as (_ & Hst & _). rewrite Hst, Ep. reflexivity.
Defined.

(** The SRP handler has no Shutdown of its own: its file store is not saved when the proxy stops.  Here
    its leases are in memory and Serve has returned nil, but the file was never written. *)
Example srp_leases_not_saved :
  let l := mkLife [Returned (Ok tt)] true None (mkProxy (p_update ex_proxy) (set_sw (mkWorld ex_store newExpiryTimers []) (p_srp ex_proxy)))
             (InMemory NewInMemoryManager) (OnFile (mkFileStore NewInMemoryManager "srp.json" (60 * second) false [])) ex_fs None in
  let l' := server_shutdown (L := Demo.lib) (W := DemoCodec.wire) (T := demo_unicode) (J := DemoCodec.json) no_faults "42" second true l in
  lf_result l' = Some (Ok tt) /\ size (leases (manager_store (lf_srp l'))) = 2%nat /\ read (lf_disk l') "srp.json" = None.
Proof. vm_compute. split_and!; reflexivity. Qed.
