(* ===== verification/Logging.v ===== *)
(** * Logging

    logging/logging.go and the system logs of logging/syslog_*.go: levels, outputs and the one
    line a record becomes.  A formatted message, and the value of an attribute, is the text fmt
    gives it; a write that fails leaves nothing behind.  What matters to the proxy is that text
    from the network, which is in the messages, cannot forge log lines. *)

From Stdlib Require Import Ascii String ZArith Lia.
From S2P Require Import Prelude NodeIdent LeaseStore LeaseOption LeasePolicy GoQuote AtomicFile LeaseSnapshot LeaseDump.

Local Open Scope Z_scope.

(** ** Levels *)

Definition LevelDebug : Z := -4.
Definition LevelInfo : Z := 0.
Definition LevelWarn : Z := 4.
Definition LevelError : Z := 8.

Definition fmt_signed (n : Z) : string := if n <? 0 then "-" +:+ fmt_d (- n) else "+" +:+ fmt_d n.

(** [slog.Level.String]. *)
Definition Level_String (l : Z) : string :=
  let str base val := if val =? 0 then base else base +:+ fmt_signed val in
  if l <? LevelInfo then str "DEBUG" (l - LevelDebug)
  else if l <? LevelWarn then str "INFO" (l - LevelInfo)
  else if l <? LevelError then str "WARN" (l - LevelWarn)
  else str "ERROR" (l - LevelError).

Definition levelFromString (level : string) : Z :=
  if bool_decide (level = "debug") then LevelDebug
  else if bool_decide (level = "warn") then LevelWarn
  else if bool_decide (level = "error") then LevelError
  else LevelInfo.

Definition sevErr : Z := 3.
Definition sevWarning : Z := 4.
Definition sevInfo : Z := 6.
Definition sevDebug : Z := 7.

Definition syslogSeverity (level : Z) : Z :=
  if LevelError <=? level then sevErr else if LevelWarn <=? level then sevWarning else if LevelInfo <=? level then sevInfo else sevDebug.

(** ** Handlers *)

Definition OutputStdout : string := "stdout".
Definition OutputSyslog : string := "syslog".
Definition OutputBoth : string := "both".

(** An attribute with its value as text. *)
Definition Attr : Type := string * string.

(** The system logs a build may have: syslog_unix.go, syslog_darwin.go, syslog_unsupported.go. *)
Inductive Platform := Unix | Darwin | Unsupported.

Inductive syslogSink := unixSyslog | darwinSyslog.

(** [openSyslog]; only the unix one can fail to reach its daemon. *)
Definition openSyslog (pf : Platform) (dial_fails : bool) : result syslogSink :=
  match pf with
  | Unix => if dial_fails then Err "no syslog daemon listening on /dev/log, /var/run/syslog or /var/run/log" else Ok unixSyslog
  | Darwin => Ok darwinSyslog
  | Unsupported => Err "syslog is not supported"
  end.

(** The severities at which the methods Err, Warning, Info and Debug of log/syslog's Writer send. *)
Definition LOG_ERR : Z := 3.
Definition LOG_WARNING : Z := 4.
Definition LOG_INFO : Z := 6.
Definition LOG_DEBUG : Z := 7.

Definition unix_write (level : Z) (msg : string) : Z * string :=
  let sev := syslogSeverity level in
  if sev =? sevErr then (LOG_ERR, msg) else if sev =? sevWarning then (LOG_WARNING, msg) else if sev =? sevInfo then (LOG_INFO, msg) else (LOG_DEBUG, msg).

(** What [write] adds to the system log, or [None] if it fails; syslog(3) reports no errors, and
    a record it loses is lost silently. *)
Definition sink_write (s : syslogSink) (fails : bool) (level : Z) (msg : string) : option (list (Z * string)) :=
  match s with
  | unixSyslog => if fails then None else Some [unix_write level msg]
  | darwinSyslog => Some (if fails then [] else [(syslogSeverity level, msg)])
  end.

Record uniformHandler := mkUniformHandler { uh_w : bool; uh_sys : option syslogSink; uh_level : Z; uh_attrs : list Attr }.

Definition newUniformHandler (w : bool) (sys : option syslogSink) (level : Z) : uniformHandler := mkUniformHandler w sys level [].

Record LogRecord := mkLogRecord { lr_Time : Z; lr_Level : Z; lr_Message : string; lr_Attrs : list Attr }.

(** [Time.Format("2006/01/02 15:04:05.000-07:00")], for the years 0 to 9999. *)
Definition format_log_time (zone : Z -> Z) (t : Z) : string :=
  let unix := t / second in
  let offset := zone unix in
  let '(y, m, d) := civil ((unix + offset) / 86400) in
  let sec := (unix + offset) mod 86400 in
  let minutes := Z.abs offset / 60 in
  fmt_pad 4 y +:+ "/" +:+ fmt_pad 2 m +:+ "/" +:+ fmt_pad 2 d +:+ " "
    +:+ fmt_pad 2 (sec / 3600) +:+ ":" +:+ fmt_pad 2 (sec / 60 mod 60) +:+ ":" +:+ fmt_pad 2 (sec mod 60) +:+ "." +:+ fmt_pad 3 (t mod second / 1000000)
    +:+ (if Z.quot offset 60 <? 0 then "-" else "+") +:+ fmt_pad 2 (minutes / 60) +:+ ":" +:+ fmt_pad 2 (minutes mod 60).

Section logging.
Context {T : Unicode} (zone : Z -> Z).

Definition Enabled (h : uniformHandler) (level : Z) : bool := uh_level h <=? level.

Definition appendAttr (msg : string) (a : Attr) : string := if bool_decide (a.1 = "") then msg else msg +:+ " " +:+ a.1 +:+ "=" +:+ a.2.

Definition record_text (h : uniformHandler) (r : LogRecord) : string :=
  foldl appendAttr (foldl appendAttr (Quote (lr_Message r)) (uh_attrs h)) (lr_Attrs r).

Definition record_line (h : uniformHandler) (r : LogRecord) : string :=
  format_log_time zone (lr_Time r) +:+ " -- " +:+ Level_String (lr_Level r) +:+ " -- " +:+ record_text h r +:+ nl.

(** What was written: texts on stdout, and records in the system log with their severities. *)
Record Logs := mkLogs { lg_stdout : list string; lg_syslog : list (Z * string) }.

(** [Handle]; each output may fail, and the other is written all the same. *)
Definition uniform_Handle (w_fails sys_fails : bool) (h : uniformHandler) (r : LogRecord) (lg : Logs) : Logs * result unit :=
  let msg := record_text h r in
  let '(stdout, err) := if uh_w h then if w_fails then (lg_stdout lg, true) else (lg_stdout lg ++ [record_line h r], false) else (lg_stdout lg, false) in
  let '(syslog, err') :=
    match uh_sys h with
    | None => (lg_syslog lg, false)
    | Some sink => match sink_write sink sys_fails (lr_Level r) msg with Some sent => (lg_syslog lg ++ sent, false) | None => (lg_syslog lg, true) end
    end in
  (mkLogs stdout syslog, if err || err' then Err "write" else Ok tt).

Definition WithAttrs (attrs : list Attr) (h : uniformHandler) : uniformHandler := mkUniformHandler (uh_w h) (uh_sys h) (uh_level h) (uh_attrs h ++ attrs).

(** Groups are not used. *)
Definition WithGroup (name : string) (h : uniformHandler) : uniformHandler := h.

Definition NewLogger (level : string) : uniformHandler := newUniformHandler true None (levelFromString level).

Definition NewLoggerWithOutput (pf : Platform) (dial_fails : bool) (level output : string) : result uniformHandler :=
  if bool_decide (output = OutputStdout) then Ok (newUniformHandler true None (levelFromString level))
  else if bool_decide (output = OutputSyslog) || bool_decide (output = OutputBoth) then
    match openSyslog pf dial_fails with
    | Err e => Err ("open syslog: " +:+ e)
    | Ok s => Ok (newUniformHandler (bool_decide (output = OutputBoth)) (Some s) (levelFromString level))
    end
  else Err "unknown log output".

(** [slog.Logger.Log], which drops the handler's error. *)
Definition slog_Log (w_fails sys_fails : bool) (now level : Z) (msg : string) (attrs : list Attr) (h : uniformHandler) (lg : Logs) : Logs :=
  if negb (Enabled h level) then lg else (uniform_Handle w_fails sys_fails h (mkLogRecord now level msg attrs) lg).1.

(** The arguments of slog's methods: strings, attributes and other values, the last as text. *)
Inductive Arg := ArgString (s : string) | ArgAttr (a : Attr) | ArgOther (s : string).

Definition arg_text (a : Arg) : string := match a with ArgString s | ArgOther s => s | ArgAttr (k, v) => k +:+ "=" +:+ v end.

Definition badKey : string := "!BADKEY".

(** slog's reading of them: a string is the key of the value after it. *)
Fixpoint argsToAttrs (args : list Arg) : list Attr :=
  match args with
  | [] => []
  | ArgString s :: rest =>
      match rest with
      | [] => [(badKey, s)]
      | v :: rest' => (s, arg_text v) :: argsToAttrs rest'
      end
  | ArgAttr a :: rest => a :: argsToAttrs rest
  | ArgOther s :: rest => (badKey, s) :: argsToAttrs rest
  end.

Section methods.
Context (w_fails sys_fails : bool) (now : Z).

Definition Debug (msg : string) (args : list Arg) : uniformHandler -> Logs -> Logs := slog_Log w_fails sys_fails now LevelDebug msg (argsToAttrs args).
Definition Info (msg : string) (args : list Arg) : uniformHandler -> Logs -> Logs := slog_Log w_fails sys_fails now LevelInfo msg (argsToAttrs args).
Definition Warn (msg : string) (args : list Arg) : uniformHandler -> Logs -> Logs := slog_Log w_fails sys_fails now LevelWarn msg (argsToAttrs args).
Definition Error (msg : string) (args : list Arg) : uniformHandler -> Logs -> Logs := slog_Log w_fails sys_fails now LevelError msg (argsToAttrs args).

(** [logf]: the format is only expanded, here to [text tt], for a level that is enabled. *)
Definition logf (level : Z) (text : unit -> string) (h : uniformHandler) (lg : Logs) : Logs :=
  if negb (Enabled h level) then lg else slog_Log w_fails sys_fails now level (text tt) [] h lg.

Definition Debugf : (unit -> string) -> uniformHandler -> Logs -> Logs := logf LevelDebug.
Definition Infof : (unit -> string) -> uniformHandler -> Logs -> Logs := logf LevelInfo.
Definition Warnf : (unit -> string) -> uniformHandler -> Logs -> Logs := logf LevelWarn.
Definition Errorf : (unit -> string) -> uniformHandler -> Logs -> Logs := logf LevelError.
End methods.
End logging.

(** ** No control characters *)

Definition graphic_byte (c : ascii) : bool := 32 <=? byte_of c.
Definition clean (s : string) : bool := string_forallb graphic_byte s.

Lemma clean_app a b : clean (a +:+ b) = clean a && clean b.
Proof. apply string_forallb_app. Qed.

Lemma clean_cons c s : clean (String c s) = graphic_byte c && clean s.
Proof. apply string_forallb_cons. Qed.

Lemma digits_clean s : string_forallb is_digit s = true -> clean s = true.
Proof. apply string_forallb_impl. intros c. unfold is_digit, graphic_byte, byte_of. rewrite andb_true_iff, !N.leb_le, Z.leb_le. lia. Qed.

Lemma fmt_pad_clean w n : clean (fmt_pad w n) = true.
Proof. apply digits_clean, fmt_pad_digits. Qed.

Lemma fmt_d_clean n : clean (fmt_d n) = true.
Proof. apply digits_clean, fmt_d_digits. Qed.

Lemma chr_clean z : 32 <= z < 256 -> graphic_byte (chr z) = true.
Proof. intros H. unfold graphic_byte. rewrite byte_chr by lia. apply Z.leb_le. lia. Qed.

Lemma hex_digits_clean n v : clean (hex_digits n v) = true.
Proof.
  induction n as [|n IH]; [done|]. cbn [hex_digits]. rewrite clean_cons, IH, andb_true_r. unfold lowerhex.
  pose proof (Z.mod_pos_bound (v / 16 ^ Z.of_nat n) 16). case_match eqn:E; zb; apply chr_clean; lia.
Qed.

Section clean.
Context {T : Unicode} {TL : UnicodeLaws T}.

Lemma AppendRune_clean r : ValidRune r = true -> IsPrint r = true -> clean (AppendRune r) = true.
Proof using TL.
  intros Hv Hp. unfold AppendRune. rewrite Hv. apply ValidRune_spec in Hv. assert (Hr : 32 <= r <= 1114111).
  { split; [|lia]. destruct (Z.lt_ge_cases r 128); [|lia]. rewrite IsPrint_ascii in Hp by lia. zb. lia. }
  pose proof (Z.mod_pos_bound r 64). pose proof (Z.mod_pos_bound (r / 64) 64). pose proof (Z.mod_pos_bound (r / 4096) 64).
  pose proof (Z.div_pos r 64). pose proof (Z.div_pos r 4096). pose proof (Z.div_pos r 262144).
  assert (r < 2048 -> r / 64 < 32) by (intros; apply Z.div_lt_upper_bound; lia). assert (r < 65536 -> r / 4096 < 16) by (intros; apply Z.div_lt_upper_bound; lia).
  assert (r / 262144 < 5) by (apply Z.div_lt_upper_bound; lia).
  repeat case_match; zb; rewrite !clean_cons; repeat (apply andb_true_iff; split); try done; apply chr_clean; lia.
Qed.

Lemma escaped_clean r : ValidRune r = true -> clean (appendEscapedRune r) = true.
Proof using TL.
  intros Hv. unfold appendEscapedRune. case_match eqn:E.
  { apply orb_true_iff in E as [->%Z.eqb_eq| ->%Z.eqb_eq]; done. }
  destruct (IsPrint r) eqn:Hp; [by apply AppendRune_clean|]. destruct (letter_escape r) as [c|] eqn:El.
  { unfold letter_escape in El. repeat case_match; try done; by injection El as <-. }
  repeat case_match; rewrite !clean_cons, hex_digits_clean; done.
Qed.

Lemma Quote_clean s : clean (Quote s) = true.
Proof using TL.
  unfold Quote. rewrite clean_cons, clean_app. assert (G : forall skip, clean (quote_from skip s) = true); [|by rewrite G].
  induction s as [|c s IH]; intros skip; [done|]. cbn [quote_from]. destruct skip as [|skip]; [|apply IH]. rewrite clean_app, IH, andb_true_r.
  unfold quote_head. destruct (bad_head (String c s)) eqn:Hb; [by rewrite !clean_cons, hex_digits_clean|].
  destruct (decode_spec (String c s)) as [[? _]|(_ & p & t & _ & He & _)]; [done|congruence|]. apply escaped_clean, He.
Qed.

Definition attr_clean (a : Attr) : Prop := clean a.1 = true /\ clean a.2 = true.

Lemma appendAttr_clean l msg : Forall attr_clean l -> clean msg = true -> clean (foldl appendAttr msg l) = true.
Proof.
  intros HF. revert msg. induction HF as [|a l [H1 H2] _ IH]; intros msg Hm; [done|]. cbn [foldl]. apply IH. unfold appendAttr.
  case_bool_decide; [done|]. by rewrite !clean_app, Hm, H1, H2.
Qed.

Lemma sink_write_severity s level msg : sink_write s false level msg = Some [(syslogSeverity level, msg)].
Proof. destruct s; [|done]. cbn. unfold unix_write, syslogSeverity. by repeat case_match. Qed.

Lemma sink_write_fails s level msg : default [] (sink_write s true level msg) = [].
Proof. by destruct s. Qed.

Definition goes_to_stdout (w_fails : bool) (level : Z) (h : uniformHandler) : bool := (uh_level h <=? level) && uh_w h && negb w_fails.
Definition goes_to_syslog (sys_fails : bool) (level : Z) (h : uniformHandler) : bool := (uh_level h <=? level) && bool_decide (is_Some (uh_sys h)) && negb sys_fails.

(** [lg'] is [lg] and one record at [level] in the outputs of [h], without control characters. *)
Definition one_record (zone : Z -> Z) (w_fails sys_fails : bool) (now level : Z) (h : uniformHandler) (lg lg' : Logs) : Prop :=
  exists line msg, clean line = true /\ clean msg = true /\
    line = format_log_time zone now +:+ " -- " +:+ Level_String level +:+ " -- " +:+ msg /\
    lg' = mkLogs (lg_stdout lg ++ (if goes_to_stdout w_fails level h then [line +:+ nl] else []))
            (lg_syslog lg ++ (if goes_to_syslog sys_fails level h then [(syslogSeverity level, msg)] else [])).

Lemma header_clean zone now level : clean (format_log_time zone now +:+ " -- " +:+ Level_String level +:+ " -- ") = true.
Proof.
  assert (Ht : clean (format_log_time zone now) = true).
  { unfold format_log_time. cbn zeta. destruct (civil _) as [[y m] d]. rewrite !clean_app, !fmt_pad_clean. by case_match. }
  assert (Hl : clean (Level_String level) = true).
  { unfold Level_String, fmt_signed. repeat case_match; rewrite ?clean_app, ?fmt_d_clean; done. }
  by rewrite !clean_app, Ht, Hl.
Qed.

Lemma slog_Log_one zone w_fails sys_fails now level text attrs h lg :
  Forall attr_clean (uh_attrs h) -> Forall attr_clean attrs ->
  one_record zone w_fails sys_fails now level h lg (slog_Log zone w_fails sys_fails now level text attrs h lg).
Proof using TL.
  intros HF HA. set (r := mkLogRecord now level text attrs). set (msg := record_text h r).
  assert (Hm : clean msg = true) by (apply appendAttr_clean, appendAttr_clean, Quote_clean; done).
  eexists _, msg. split_and!; [|done|reflexivity|].
  - pose proof (header_clean zone now level) as Hh. rewrite !clean_app in *. by rewrite Hm.
  - unfold slog_Log, Enabled, uniform_Handle, record_line, goes_to_stdout, goes_to_syslog. fold r. cbn [lr_Level lr_Time r]. fold msg.
    destruct (uh_level h <=? level); cbn [negb andb fst]; [|destruct lg; cbn; by rewrite !app_nil_r].
    destruct (uh_sys h) as [s|], sys_fails; try (rewrite sink_write_severity); try (pose proof (sink_write_fails s level msg); destruct (sink_write _ _ _ _));
      destruct (uh_w h), w_fails; cbn in *; subst; by rewrite ?app_nil_r, ?string_app_assoc.
Qed.

Lemma argsToAttrs_clean args : (forall a, a ∈ args -> clean (arg_text a) = true /\ match a with ArgAttr at' => attr_clean at' | _ => True end) -> Forall attr_clean (argsToAttrs args).
Proof.
  revert args. fix IH 1. intros [|a args] H; [constructor|]. destruct a as [s|at'|s]; cbn [argsToAttrs].
  - destruct (H (ArgString s) ltac:(left)) as [Hs _]. destruct args as [|v rest]; [by repeat constructor|].
    constructor; [split; [done|]; by apply (H v); right; left|]. apply IH. intros a Ha. apply H. by do 2 right.
  - constructor; [by apply (H (ArgAttr at')); left|]. apply IH. intros a Ha. apply H. by right.
  - constructor; [split; [done|]; by apply (H (ArgOther s)); left|]. apply IH. intros a Ha. apply H. by right.
Qed.

(** A record is one line, whatever its message holds.  On the output it is a time stamp, the
    level and the quoted message, and holds no control character but the newline at its end; in
    the system log, where it comes with the severity of its level, it holds none at all; provided
    the keys and values of attributes, which the proxy's code does not take from the network, hold
    none.  A record is written if and only if its level is not below the logger's, to the outputs
    asked for; and the message is not even formatted if it is not. *)
Theorem record_one_line (zone : Z -> Z) (w_fails sys_fails : bool) (now level : Z) (text : unit -> string) (msg : string) (args : list Arg) (h : uniformHandler) (lg : Logs) :
  Forall attr_clean (uh_attrs h) -> Forall attr_clean (argsToAttrs args) ->
  one_record zone w_fails sys_fails now level h lg (logf zone w_fails sys_fails now level text h lg) /\
  one_record zone w_fails sys_fails now LevelInfo h lg (Info zone w_fails sys_fails now msg args h lg) /\
  (level < uh_level h -> forall text', logf zone w_fails sys_fails now level text' h lg = lg).
Proof using TL.
  intros HF HA. split_and!; [|by apply slog_Log_one|].
  - destruct (slog_Log_one zone w_fails sys_fails now level (text tt) [] h lg HF ltac:(constructor)) as (line & m & H1 & H2 & H3 & H4).
    exists line, m. split_and!; [done..|]. rewrite <- H4. unfold logf, slog_Log. by destruct (Enabled h level).
  - intros Hl text'. unfold logf, Enabled. by rewrite (proj2 (Z.leb_gt _ _) Hl).
Qed.
End clean.

(** What [NewLoggerWithOutput] makes: on a build with a system log that answers, exactly the three outputs. *)
Lemma outputs_of_logger pf level output h :
  NewLoggerWithOutput pf false level output = Ok h ->
  uh_level h = levelFromString level /\ uh_attrs h = [] /\ (uh_w h = true <-> output = OutputStdout \/ output = OutputBoth) /\
  (is_Some (uh_sys h) <-> output = OutputSyslog \/ output = OutputBoth) /\ (pf = Unsupported -> output = OutputStdout).
Proof.
  unfold NewLoggerWithOutput. intros E.
  destruct (decide (output = OutputStdout)) as [->|H1]; [|destruct (decide (output = OutputSyslog)) as [->|H2]; [|destruct (decide (output = OutputBoth)) as [->|H3]]];
    rewrite ?bool_decide_true, ?bool_decide_false in E by done; destruct pf; try discriminate E; injection E as <-; cbn; split_and!; try done;
    (split; [intros H; try (destruct H; discriminate) |intros [H|H]]); try discriminate; eauto.
Qed.

Example log_line :
  lg_stdout (Warnf (T := demo_unicode) (fun _ => 7200) false false (1721995506164 * 1000000) (fun _ => "TXT " +:+ nl +:+ "forged") (NewLogger "info") (mkLogs [] []))
    = ["2024/07/26 14:05:06.164+02:00 -- WARN -- " +:+ String quote_char ("TXT \nforged" +:+ String quote_char "") +:+ nl].
Proof. vm_compute. reflexivity. Qed.

Example log_both :
  Info (T := demo_unicode) (fun _ => 0) true false 0 "up" [ArgString "port"; ArgOther "53"; ArgString "odd"] (mkUniformHandler true (Some unixSyslog) LevelDebug []) (mkLogs [] [])
    = mkLogs [] [(sevInfo, String quote_char ("up" +:+ String quote_char " port=53 !BADKEY=odd"))].
Proof. vm_compute. reflexivity. Qed.
