(* ===== verification/ChangeLog.v ===== *)
(** * The log of changes to DNS

    What the proxy logs of the UPDATEs it sends: [logAppliedChanges] and
    [describeUpdateChange] of pkg/updatecore/coordinator.go with the other records of
    [SendUpdate], and [summarizeRRTypes] of handlers/opcode5_update_helpers.go.  The lines of
    applied changes are the operator's record of what the proxy changed, so they are to be exact:
    one per change, none for an update the server did not accept, each telling the change.  The
    library's names of types and classes are parameters. *)

From Stdlib Require Import Ascii String ZArith Lia.
From S2P Require Import Prelude DnsName DnsData NodeIdent UpdateCore GoQuote AtomicFile LeaseSnapshot LeaseDump Logging.
From stdpp Require Import sorting.

Local Open Scope Z_scope.

(** The DNS library's names of types and classes: [dnsutil.TypeToString] and
    [dnsutil.ClassToString], which have a name for every number, and the map [dns.TypeToString],
    whose name of an unknown type is empty. *)
Class DnsTables := { TypeToString : Z -> string; ClassToString : Z -> string; TypeName : Z -> string }.

Class DnsTablesLaws (D : DnsTables) : Prop := {
  TypeToString_word : forall t, no_char " " (TypeToString t) = true;
  ClassToString_word : forall c, no_char " " (ClassToString c) = true }.

Section change_log.
Context {L : DnsLib} {D : DnsTables} {N : Network}.

Definition describeUpdateChange (rr : RR) : string :=
  let hdr := Hdr rr in
  let rrType := TypeToString (RRToType rr) in
  if Class hdr =? ClassNONE then "deleted " +:+ Name hdr +:+ " " +:+ rrType +:+ " " +:+ Data_String (RD rr)
  else if Class hdr =? ClassANY then
    if RRToType rr =? TypeANY then "deleted all RRsets at " +:+ Name hdr
    else "deleted RRset " +:+ Name hdr +:+ " " +:+ rrType
  else "added " +:+ Name hdr +:+ " " +:+ fmt_d (TTL hdr) +:+ " " +:+ ClassToString (Class hdr) +:+ " " +:+ rrType +:+ " " +:+ Data_String (RD rr).

(** A call of one of the logger's methods: its level and text. *)
Definition Call : Type := Z * string.

Definition change_text (zone server : string) (rr : RR) : string :=
  "DNS update applied: zone=" +:+ zone +:+ " server=" +:+ server +:+ " " +:+ describeUpdateChange rr.

(** [None] is the panic on a message without a question. *)
Definition logAppliedChanges (updateMsg resp : Msg) (server : string) : option (list Call) :=
  if negb (Rcode (MsgHdr resp) =? RcodeSuccess) then Some []
  else match Question updateMsg with
  | [] => None
  | q :: _ => Some (map (fun rr => (LevelInfo, change_text (q_Name q) server rr)) (Ns updateMsg))
  end.

Definition succeeded_text (transport server : string) (resp : Msg) : string :=
  "Authoritative UPDATE over " +:+ transport +:+ " succeeded: server=" +:+ server +:+ " rcode=" +:+ fmt_d (Rcode (MsgHdr resp)).

(** [SendUpdate] with its calls to the logger; [None] is the panic on a response that is nil
    without an error. *)
Definition SendUpdate_logged (c : Coordinator) (upstreamZone : string) (updateMsg : Msg)
    : option (list Call * result (option Msg)) :=
  if bool_decide (upstreamZone = "") then Some ([], Err "upstream zone is required")
  else match Question updateMsg with
  | [q] =>
      let l1 := [(LevelDebug, "Message zone: " +:+ q_Name q)] in
      if negb (bool_decide (Normalize (q_Name q) = Normalize upstreamZone)) then Some (l1, Err "update zone mismatch")
      else match ResolveSOAMasterServer c upstreamZone with
      | Err _ => Some (l1, Err "SOA master resolution failed")
      | Ok (soaServer, authZone) =>
          let l2 := l1 ++ [(LevelDebug, "Resolved SOA master for zone " +:+ upstreamZone +:+ " (effective zone " +:+ authZone +:+ "): " +:+ soaServer)] in
          match Exchange updateMsg UDP soaServer with
          | Ok None => None
          | Ok (Some resp) => changes ← logAppliedChanges updateMsg resp soaServer; Some (l2 ++ [(LevelDebug, succeeded_text "UDP" soaServer resp)] ++ changes, Ok (Some resp))
          | Err e =>
              let l3 := l2 ++ [(LevelDebug, "Authoritative UPDATE over UDP failed: server=" +:+ soaServer +:+ " err=" +:+ e +:+ "; retrying TCP")] in
              match Exchange updateMsg TCP soaServer with
              | Ok None => None
              | Ok (Some resp) => changes ← logAppliedChanges updateMsg resp soaServer; Some (l3 ++ [(LevelDebug, succeeded_text "TCP" soaServer resp)] ++ changes, Ok (Some resp))
              | Err _ => Some (l3, Err "authoritative update failed to SOA master")
              end
          end
      end
  | _ => Some ([], Err "update message must contain exactly one question")
  end.

(** ** The summary of a request *)

Definition count_type (counts : gmap string nat) (t : Z) : gmap string nat :=
  let name := TypeName t in <[name := S (default O (counts !! name))]> counts.

Definition summarizeRRTypes {R : MapRange} (keyRRs : list KEY) (otherRRs : list RR) : string :=
  let counts := foldl count_type (foldl count_type ∅ (map (fun k => RRToType (KEY_RR k)) keyRRs)) (map RRToType otherRRs) in
  if (size counts =? 0)%nat then "(none)"
  else
    let types := merge_sort String.le (map fst (range counts)) in
    String.concat " " (map (fun t => t +:+ ":" +:+ fmt_d (Z.of_nat (default O (counts !! t)))) types).
End change_log.

(** The calls, made one after the other at the times of [clock]. *)
Fixpoint log_calls {T : Unicode} (zone : Z -> Z) (clock : nat -> Z) (calls : list Call) (h : uniformHandler) (lg : Logs) : Logs :=
  match calls with
  | [] => lg
  | (level, text) :: rest => log_calls zone (fun n => clock (S n)) rest h (logf zone false false (clock O) level (fun _ => text) h lg)
  end.

(** ** What a line tells *)

(** The change an Update-section record makes (RFC 2136 S2.5). *)
Inductive Change :=
  | Added (name : string) (ttl : Z) (class type data : string)
  | DeletedRR (name type data : string)
  | DeletedRRset (name type : string)
  | DeletedAll (name : string).

Section tells.
Context {L : DnsLib} {D : DnsTables} {DL : DnsTablesLaws D}.

Definition change_of (rr : RR) : Change :=
  let name := Name (Hdr rr) in
  let type := TypeToString (RRToType rr) in
  if Class (Hdr rr) =? ClassNONE then DeletedRR name type (Data_String (RD rr))
  else if Class (Hdr rr) =? ClassANY then if RRToType rr =? TypeANY then DeletedAll name else DeletedRRset name type
  else Added name (TTL (Hdr rr)) (ClassToString (Class (Hdr rr))) type (Data_String (RD rr)).

(** A name as it is in a zone, without spaces, and a TTL that is one. *)
Definition plain (rr : RR) : Prop := no_char " " (Name (Hdr rr)) = true /\ fqdn (Name (Hdr rr)) = true /\ 0 <= TTL (Hdr rr).

Lemma not_word n w x y : no_char " " n = true -> fqdn n = true -> no_char " " w = true -> fqdn w = false -> n +:+ String " " x <> w +:+ String " " y.
Proof. intros Hn Fn Hw Fw [-> _]%split_field; [congruence|done|done]. Qed.

(** [split_field] at spaces, after the common literal prefix. *)
Ltac fields :=
  repeat match goal with
  | H : String _ _ = String _ _ |- _ => injection H as H
  | H : ?n +:+ String " " _ = ?n' +:+ String " " _ |- _ =>
      apply split_field in H as [? H]; [|solve [auto using TypeToString_word, ClassToString_word, fmt_d_no_char]..]
  end.

Lemma description_tells rr rr' : plain rr -> plain rr' -> describeUpdateChange rr = describeUpdateChange rr' -> change_of rr = change_of rr'.
Proof using DL.
  intros (N1 & F1 & T1) (N2 & F2 & T2). unfold describeUpdateChange, change_of.
  destruct (Class (Hdr rr) =? ClassNONE), (Class (Hdr rr') =? ClassNONE), (Class (Hdr rr) =? ClassANY), (Class (Hdr rr') =? ClassANY),
    (RRToType rr =? TypeANY), (RRToType rr' =? TypeANY); sapp; intros E; fields; try discriminate.
  all: try (f_equal; by eauto using fmt_d_inj).
  all: exfalso; first [by apply (not_word _ "RRset" _ _ N1 F1 eq_refl eq_refl) in E | by apply (not_word _ "all" _ _ N1 F1 eq_refl eq_refl) in E |
    by apply eq_sym, (not_word _ "RRset" _ _ N2 F2 eq_refl eq_refl) in E | by apply eq_sym, (not_word _ "all" _ _ N2 F2 eq_refl eq_refl) in E].
Qed.

Lemma change_text_tells zone zone' server server' rr rr' :
  no_char " " zone = true -> no_char " " zone' = true -> no_char " " server = true -> no_char " " server' = true -> plain rr -> plain rr' ->
  change_text zone server rr = change_text zone' server' rr' -> zone = zone' /\ server = server' /\ change_of rr = change_of rr'.
Proof using DL.
  intros Z1 Z2 S1 S2 P1 P2. unfold change_text. sapp. intros E. fields. split_and!; [done..|]. by apply description_tells.
Qed.

Lemma Quote_inj {T : Unicode} {TL : UnicodeLaws T} s s' : Quote s = Quote s' -> s = s'.
Proof.
  intros E. pose proof (unquote_quoteNodeKey s) as H. unfold quoteNodeKey in H. rewrite E in H. fold (quoteNodeKey s') in H.
  rewrite unquote_quoteNodeKey in H. congruence.
Qed.
End tells.

(** ** What is in the log *)

Section applied.
Context {L : DnsLib} {D : DnsTables} {N : Network} {T : Unicode} (zone : Z -> Z).

(** The line of a call, at some time. *)
Definition line_of (c : Call) (line : string) : Prop :=
  exists t, line = format_log_time zone t +:+ " -- " +:+ Level_String c.1 +:+ " -- " +:+ Quote c.2 +:+ nl.

(** A logger on stdout, without attributes of its own. *)
Definition stdout_logger (h : uniformHandler) : Prop := uh_w h = true /\ uh_attrs h = [].

Lemma logf_stdout now level text h lg : stdout_logger h ->
  lg_stdout (logf zone false false now level text h lg) =
    lg_stdout lg ++ (if uh_level h <=? level then [format_log_time zone now +:+ " -- " +:+ Level_String level +:+ " -- " +:+ Quote (text tt) +:+ nl] else []).
Proof.
  intros [Hw Ha]. unfold logf, slog_Log, Enabled. destruct (uh_level h <=? level); cbn [negb]; [|by rewrite app_nil_r].
  unfold uniform_Handle, record_line, record_text. rewrite Hw, Ha. cbn. by repeat case_match.
Qed.

Lemma log_calls_lines calls clock h lg : stdout_logger h ->
  exists lines, lg_stdout (log_calls zone clock calls h lg) = lg_stdout lg ++ lines /\ Forall2 line_of (filter (fun c => uh_level h <= c.1) calls) lines.
Proof.
  intros Hh. revert clock lg. induction calls as [|[level text] calls IH]; intros clock lg; [exists []; by rewrite app_nil_r|]. cbn [log_calls].
  destruct (IH (fun n => clock (S n)) (logf zone false false (clock O) level (fun _ => text) h lg)) as (lines & E & HF). rewrite E, logf_stdout by done.
  rewrite <- app_assoc. eexists. split; [reflexivity|]. destruct (Z.leb_spec (uh_level h) level).
  - rewrite filter_cons_True by done. constructor; [by eexists|done].
  - rewrite filter_cons_False by (cbn; lia). done.
Qed.

(** The changes an update made, as the server's answer tells. *)
Definition applied (updateMsg : Msg) (res : result (option Msg)) : list RR :=
  match res with
  | Ok (Some resp) => if Rcode (MsgHdr resp) =? RcodeSuccess then Ns updateMsg else []
  | _ => []
  end.

(** The calls at INFO that [SendUpdate] makes. *)
Lemma SendUpdate_logged_calls c upstreamZone updateMsg :
  (forall m tr s, Exchange m tr s <> Ok None) ->
  exists calls, SendUpdate_logged c upstreamZone updateMsg = Some (calls, (SendUpdate c upstreamZone updateMsg).2) /\
    exists q server, filter (fun call => LevelInfo <= call.1) calls =
      map (fun rr => (LevelInfo, change_text q server rr)) (applied updateMsg (SendUpdate c upstreamZone updateMsg).2) /\
      (applied updateMsg (SendUpdate c upstreamZone updateMsg).2 <> [] ->
        Normalize q = Normalize upstreamZone /\ exists authZone, ResolveSOAMasterServer c upstreamZone = Ok (server, authZone)).
Proof.
  intros Hex.
  assert (Happ : forall q server l, filter (fun call : Call => LevelInfo <= call.1) (map (fun rr => (LevelInfo, change_text q server rr)) l) = map (fun rr => (LevelInfo, change_text q server rr)) l).
  { intros q server l. induction l as [|rr l IH]; [done|]. cbn [map]. rewrite filter_cons_True by done. f_equal. exact IH. }
  assert (Hlog : forall q server resp, Question updateMsg = [q] -> logAppliedChanges updateMsg resp server =
    Some (map (fun rr => (LevelInfo, change_text (q_Name q) server rr)) (applied updateMsg (Ok (Some resp))))).
  { intros q server resp Hq. unfold logAppliedChanges, applied. rewrite Hq. by destruct (_ =? _). }
  unfold SendUpdate_logged, SendUpdate. case_bool_decide; [by exists []; split; [|exists "", ""]|].
  destruct (Question updateMsg) as [|q [|q' qs]] eqn:Hq; [by exists []; split; [|exists "", ""]| |by exists []; split; [|exists "", ""]].
  case_bool_decide as Hz; cbn [negb]; [|by eexists; split; [reflexivity|exists "", ""]].
  destruct (ResolveSOAMasterServer c upstreamZone) as [[server authZone]|e] eqn:Hr; [|by eexists; split; [reflexivity|exists "", ""]].
  destruct (Exchange updateMsg UDP server) as [[resp|]|e] eqn:E1; [|by apply Hex in E1|].
  { rewrite (Hlog _ _ _ eq_refl). eexists. split; [reflexivity|]. exists (q_Name q), server. cbn [snd]. split; [|eauto]. rewrite !filter_app, Happ. done. }
  destruct (Exchange updateMsg TCP server) as [[resp|]|e'] eqn:E2; [|by apply Hex in E2|by eexists; split; [reflexivity|exists "", ""]].
  rewrite (Hlog _ _ _ eq_refl). eexists. split; [reflexivity|]. exists (q_Name q), server. cbn [snd]. split; [|eauto]. rewrite !filter_app, Happ. done.
Qed.

(** The log shows what the proxy changed.  With the default level, sending an UPDATE adds to
    stdout one INFO line per record of its Update section, in their order, if the server
    accepted it, and nothing otherwise; a line has the zone, the server the UPDATE went to and the
    change; and logging changes nothing of the exchange. *)
Theorem applied_changes_logged (c : Coordinator) (upstreamZone : string) (updateMsg : Msg) (clock : nat -> Z) (h : uniformHandler) (lg : Logs) :
  (forall m tr s, Exchange m tr s <> Ok None) -> stdout_logger h -> uh_level h = LevelInfo ->
  let res := (SendUpdate c upstreamZone updateMsg).2 in
  exists calls lines q server,
    SendUpdate_logged c upstreamZone updateMsg = Some (calls, res) /\
    lg_stdout (log_calls zone clock calls h lg) = lg_stdout lg ++ lines /\
    Forall2 (fun rr line => line_of (LevelInfo, change_text q server rr) line) (applied updateMsg res) lines /\
    (lines <> [] -> Normalize q = Normalize upstreamZone /\ exists authZone, ResolveSOAMasterServer c upstreamZone = Ok (server, authZone)).
Proof.
  intros Hex Hh Hl. destruct (SendUpdate_logged_calls c upstreamZone updateMsg Hex) as (calls & Hs & q & server & Hf & Hq).
  destruct (log_calls_lines calls clock h lg Hh) as (lines & Hlines & HF). rewrite Hl, Hf in HF.
  exists calls, lines, q, server. split_and!; [done|done|exact (proj1 (Forall2_fmap_l (fun rr => (LevelInfo, change_text q server rr)) _ _ _) HF)|].
  intros Hne. apply Hq. intros E. rewrite E in HF. by inversion HF.
Qed.
End applied.

(** ** The summary is exact and does not depend on the order of Go's maps *)

Section summary.
Context {D : DnsTables}.

Definition occurrences (types : list Z) (t : string) : nat := length (filter (fun ty => TypeName ty = t) types).

Lemma count_types types counts t :
  default O (foldl count_type counts types !! t) = (default O (counts !! t) + occurrences types t)%nat /\
  (is_Some (foldl count_type counts types !! t) <-> is_Some (counts !! t) \/ exists ty, ty ∈ types /\ TypeName ty = t).
Proof.
  revert counts. induction types as [|ty types IH]; intros counts.
  { cbn. split; [unfold occurrences; cbn; lia|]. split; [auto|intros [?|(? & H & _)]; [done|by apply elem_of_nil in H]]. }
  cbn [foldl]. destruct (IH (count_type counts ty)) as [E S]. rewrite E, S. unfold count_type, occurrences.
  setoid_rewrite elem_of_cons. destruct (decide (TypeName ty = t)) as [<-|Hne].
  - rewrite lookup_insert_eq, filter_cons_True by done. cbn. split; [lia|]. split; intros _; [right; eauto|left; by eexists].
  - rewrite lookup_insert_ne, filter_cons_False by done. split; [done|]. split; [intros [?|(ty' & ? & ?)]; eauto|].
    intros [?|(ty' & [->|?] & ?)]; [by left|done|eauto].
Qed.

(** What [summarizeRRTypes] says of an UPDATE: the names of the types in it, each once and in
    order, with how often each occurs; or that there are none. *)
Theorem summary_exact {R : MapRange} {RL : MapRangeLaws R} (keyRRs : list KEY) (otherRRs : list RR) :
  let types := map (fun k => RRToType (KEY_RR k)) keyRRs ++ map RRToType otherRRs in
  exists names, StronglySorted String.le names /\ NoDup names /\ (forall t, t ∈ names <-> exists ty, ty ∈ types /\ TypeName ty = t) /\
    summarizeRRTypes keyRRs otherRRs =
      match names with [] => "(none)" | _ => String.concat " " (map (fun t => t +:+ ":" +:+ fmt_d (Z.of_nat (occurrences types t))) names) end.
Proof.
  intros types. unfold summarizeRRTypes. rewrite <- foldl_app. fold types. set (counts := foldl count_type ∅ types).
  set (names := merge_sort String.le (map fst (range counts))).
  assert (Hp : names ≡ₚ map fst (map_to_list counts)) by (unfold names; rewrite merge_sort_Permutation; by rewrite (range_perm _ counts)).
  exists names. split_and!.
  - apply (StronglySorted_merge_sort String.le).
  - rewrite Hp. apply NoDup_fst_map_to_list.
  - intros t. destruct (count_types types ∅ t) as [_ S]. rewrite lookup_empty in S. fold counts in S.
    rewrite Hp, list_elem_of_fmap. transitivity (is_Some (counts !! t)).
    + split; [intros ([t' n] & -> & H%elem_of_map_to_list); by eexists|intros [n Hn]; exists (t, n); split; [done|by apply elem_of_map_to_list]].
    + rewrite S. split; [intros [[? [=]]|?]; done|by right].
  - assert (Hlen : length names = size counts) by (rewrite Hp, length_map; apply length_map_to_list).
    rewrite <- Hlen. destruct names as [|n names'] eqn:En; [done|]. cbn [length Nat.eqb]. f_equal. apply map_ext. intros t.
    destruct (count_types types ∅ t) as [E _]. fold counts in E. rewrite E. by rewrite lookup_empty.
Qed.
End summary.

(** ** Concrete logs *)

Module DemoLog.
Definition tables : DnsTables := {|
  TypeToString t := if t =? 16 then "TXT" else if t =? 12 then "PTR" else if t =? 1 then "A" else "TYPE" +:+ fmt_d t;
  ClassToString c := if c =? 1 then "IN" else "CLASS" +:+ fmt_d c;
  TypeName t := if t =? 25 then "KEY" else if t =? 16 then "TXT" else if t =? 12 then "PTR" else "" |}.

Lemma tables_laws : DnsTablesLaws tables.
Proof.
  split; intros n; cbn; repeat case_match; try done; rewrite no_char_app, fmt_d_no_char; done.
Qed.

(** A server that accepts the UPDATEs for example.org it gets over TCP. *)
Definition net : Network := {|
  Exchange m tr server :=
    match Question m, Ns m, tr with
    | [q], [], _ => Ok (Some (mkMsg (mkMsgHeader 0 0 true true false false RcodeSuccess 0) [q] [] [ex_soa] [] [] []))
    | [q], _, TCP => Ok (Some (mkMsg (mkMsgHeader 0 5 true true false false RcodeSuccess 0) [q] [] [] [] [] []))
    | _, _, _ => Err "timeout"
    end |}.

Lemma net_answers m tr s : Exchange (Network := net) m tr s <> Ok None.
Proof. cbn. by repeat case_match. Qed.

Definition txt : RR := mkRR (mkHeader "host.example.org." 1 300) (RD_TXT ["hello"]).
Definition update : Msg := set_Ns [txt; AsDelete txt; mkRR (mkHeader "old.example.org." ClassANY 0) RD_ANY] (new_update "example.org.").
Definition sent := SendUpdate_logged (L := Demo.lib) (D := tables) (N := net) ex_coordinator "example.org" update.
Definition log (lg : Logs) : Logs := match sent with Some (calls, _) => log_calls (T := demo_unicode) (fun _ => 0) (fun _ => 0) calls (NewLogger "info") lg | None => lg end.
End DemoLog.

Example changes_in_log :
  map (string_drop 29) (lg_stdout (DemoLog.log (mkLogs [] []))) =
    map (fun s => " -- INFO -- " +:+ Quote (T := demo_unicode) ("DNS update applied: zone=example.org. server=ns1.example.org:53 " +:+ s) +:+ nl)
      ["added host.example.org. 300 IN TXT " +:+ Demo.quote "hello"; "deleted host.example.org. TXT " +:+ Demo.quote "hello"; "deleted all RRsets at old.example.org."].
Proof. vm_compute. reflexivity. Qed.

Lemma applied_changes_logged_witness :
  exists calls lines, DemoLog.sent = Some (calls, (SendUpdate (N := DemoLog.net) ex_coordinator "example.org" DemoLog.update).2) /\
    lg_stdout (DemoLog.log (mkLogs [] [])) = lines /\ length lines = 3%nat.
Proof.
  destruct (applied_changes_logged (L := Demo.lib) (D := DemoLog.tables) (N := DemoLog.net) (T := demo_unicode) (fun _ => 0) ex_coordinator "example.org" DemoLog.update
    (fun _ => 0) (NewLogger "info") (mkLogs [] []) DemoLog.net_answers (conj eq_refl eq_refl) eq_refl) as (calls & lines & q & server & H1 & H2 & H3 & _).
  exists calls, lines. split; [exact H1|]. split; [|apply Forall2_length in H3; rewrite <- H3; reflexivity].
  unfold DemoLog.log, DemoLog.sent. rewrite H1. exact H2.
Defined.

(** A name may hold spaces, which the library writes as they are: the deletion of one record and
    the deletion of everything at another name are one line. *)
Example spaced_name_ambiguous :
  let one := mkRR (mkHeader "all RRsets at x." ClassNONE 0) (RD_PTR "y.") in
  let all := mkRR (mkHeader "x. PTR y." ClassANY 0) RD_ANY in
  describeUpdateChange (L := Demo.lib) (D := DemoLog.tables) one = describeUpdateChange (L := Demo.lib) (D := DemoLog.tables) all /\
  change_of (L := Demo.lib) (D := DemoLog.tables) one <> change_of (L := Demo.lib) (D := DemoLog.tables) all.
Proof. by vm_compute. Qed.

Example summary_of_types :
  summarizeRRTypes (D := DemoLog.tables) (R := {| range A m := map_to_list m |}) [ex_key] [DemoLog.txt; ex_soa; DemoLog.txt] = ":1 KEY:1 TXT:2".
Proof. vm_compute. reflexivity. Qed.
